(** * Beauty: appointment booking and financial reconciliation

    A shallow embedding of the server side of the application
    (server/storage.ts, the route handlers of server/routes.ts and the table
    declarations of shared/schema.ts), and the properties of the booking
    workflow and of the dashboard aggregator proved on it. *)

From Stdlib Require Import ZArith List String Bool Lia DecimalString.
Import ListNotations.
Local Open Scope Z_scope.

(** ** JavaScript numbers

    A JavaScript [number] is an IEEE 754 binary64 value.  Every finite
    binary64 value is an integer multiple of [2^-1074]; [Fin z] stands for
    [z * 2^-1074].  The arithmetic below is the exact operation followed by
    rounding to nearest, ties to even, on 53 significant bits. *)
Module JS.

Inductive number : Type :=
| NaN
| PInf
| NInf
| NegZero
| Fin (z : Z).

(** Exponent of the unit: [Fin z] is [z / 2^ebias]. *)
Definition ebias : Z := 1074.
Definition unit_den : Z := Z.shiftl 1 ebias.
(** First magnitude (in units) that no longer is a finite binary64: 2^1024. *)
Definition overflow_threshold : Z := Z.shiftl 1 2098.

(** Nearest integer to [a / d], ties to even ([0 <= a], [0 < d]). *)
Definition rne (a d : Z) : Z :=
  let k := a / d in
  let r := a mod d in
  match 2 * r ?= d with
  | Lt => k
  | Gt => k + 1
  | Eq => if Z.even k then k else k + 1
  end.

(** The exponent of the rounding step at [a / d] units: the results are
    multiples of [2^ulp_exp], one unit up to the magnitude [2^53]. *)
Definition ulp_exp (a d : Z) : Z := Z.max 0 (Z.log2 (a / d) - 52).

(** Nearest magnitude with 53 significant bits to [a / d] units. *)
Definition round53 (a d : Z) : Z :=
  let e := ulp_exp a d in
  rne a (d * 2 ^ e) * 2 ^ e.

Definition signed_zero (neg : bool) : number := if neg then NegZero else Fin 0.
Definition signed_inf (neg : bool) : number := if neg then NInf else PInf.

(** The binary64 value nearest to [(-1)^neg * a / d] units. *)
Definition of_ratio (neg : bool) (a d : Z) : number :=
  let m := round53 a d in
  if overflow_threshold <=? m then signed_inf neg
  else if m =? 0 then signed_zero neg
  else Fin (if neg then - m else m).

(** The binary64 value nearest to the rational [p / q] (as a value, not in
    units), [0 < q]. *)
Definition of_Q (p q : Z) : number :=
  of_ratio (p <? 0) (Z.abs p * unit_den) q.

Definition of_Z (n : Z) : number := of_Q n 1.

Definition is_neg (x : number) : bool :=
  match x with
  | NInf | NegZero => true
  | Fin z => z <? 0
  | _ => false
  end.

(** [x + y] *)
Definition add (x y : number) : number :=
  match x, y with
  | NaN, _ | _, NaN => NaN
  | PInf, NInf | NInf, PInf => NaN
  | PInf, _ | _, PInf => PInf
  | NInf, _ | _, NInf => NInf
  | NegZero, NegZero => NegZero
  | NegZero, v | v, NegZero => v
  | Fin a, Fin b => of_ratio (a + b <? 0) (Z.abs (a + b)) 1
  end.

Definition is_zero (x : number) : bool :=
  match x with
  | NegZero | Fin 0 => true
  | _ => false
  end.

Definition is_inf (x : number) : bool :=
  match x with
  | PInf | NInf => true
  | _ => false
  end.

Definition magnitude (x : number) : Z :=
  match x with
  | Fin z => Z.abs z
  | _ => 0
  end.

(** [x * y] *)
Definition mul (x y : number) : number :=
  match x, y with
  | NaN, _ | _, NaN => NaN
  | _, _ =>
    let neg := xorb (is_neg x) (is_neg y) in
    if is_inf x || is_inf y then
      if is_zero x || is_zero y then NaN else signed_inf neg
    else of_ratio neg (magnitude x * magnitude y) unit_den
  end.

(** [x / y] *)
Definition div (x y : number) : number :=
  match x, y with
  | NaN, _ | _, NaN => NaN
  | _, _ =>
    let neg := xorb (is_neg x) (is_neg y) in
    if is_inf x then (if is_inf y then NaN else signed_inf neg)
    else if is_inf y then signed_zero neg
    else if is_zero y then (if is_zero x then NaN else signed_inf neg)
    else of_ratio neg (magnitude x * unit_den) (magnitude y)
  end.

(** [Math.round(x)]: the integer nearest to [x], ties towards +Infinity;
    a result of zero keeps the sign of [x]. *)
Definition round (x : number) : number :=
  match x with
  | Fin z =>
    let k := (2 * z + unit_den) / (2 * unit_den) in
    if k =? 0 then signed_zero (z <? 0) else Fin (k * unit_den)
  | _ => x
  end.

(** The integer a number stands for, when it is one. *)
Definition to_Z (x : number) : option Z :=
  match x with
  | Fin z => if z mod unit_den =? 0 then Some (z / unit_den) else None
  | NegZero => Some 0
  | _ => None
  end.

(** *** Number texts

    The text of a number: what a [numeric] column returns to the program,
    what [toFixed] produces and what [parseFloat] and [Number] read.  A
    decimal text is kept as its sign, its digits read as one integer and the
    count of digits after the point: ['65.40'] is [Dec false 6540 2] and
    ['65.4'] is [Dec false 654 1]. *)
Inductive numtext : Type :=
| TNaN
| TInf (neg : bool)
| Dec (neg : bool) (digits : Z) (scale : Z).

(** [parseFloat(t)] and [Number(t)] on a number text: the binary64 value
    nearest to the decimal. *)
Definition parseFloat (t : numtext) : number :=
  match t with
  | TNaN => NaN
  | TInf neg => signed_inf neg
  | Dec neg d s => of_ratio neg (d * unit_den) (10 ^ s)
  end.

Definition Number_ (t : numtext) : number := parseFloat t.

(** The decimal [s * 10^t] as a text, and the binary64 value nearest to it. *)
Definition dec_of (neg : bool) (s t : Z) : numtext :=
  Dec neg (s * 10 ^ Z.max t 0) (Z.max (- t) 0).

(** Least [n], searched upwards from [n], with [a / 2^1074 < 10^n]. *)
Fixpoint dec_exponent (fuel : nat) (n a : Z) : Z :=
  match fuel with
  | O => n
  | S fuel' =>
    if a * 10 ^ Z.max (- n) 0 <? 10 ^ Z.max n 0 * unit_den then n
    else dec_exponent fuel' (n + 1) a
  end.

(** The digits of [Number::toString]: the decimal with the fewest
    significant digits [k] that reads back as [Fin a], the closest one to
    [Fin a] when two have [k] digits.  When no decimal of up to 17 digits
    reads back, the exact decimal expansion of [a / 2^1074] is returned. *)
Fixpoint shortest (fuel : nat) (k n a : Z) : numtext :=
  match fuel with
  | O => Dec false (a * 5 ^ ebias) ebias
  | S fuel' =>
    let t := n - k in
    let num := a * 10 ^ Z.max (- t) 0 in
    let den := unit_den * 10 ^ Z.max t 0 in
    let lo := num / den in
    let hi := lo + 1 in
    let ok s := match parseFloat (dec_of false s t) with
                | Fin z => z =? a
                | _ => false
                end in
    (* [hi = 10^k] has [k + 1] digits: it is written [10^(k-1)] one
       exponent up *)
    let text_hi := if hi =? 10 ^ k then dec_of false (hi / 10) (t + 1)
                   else dec_of false hi t in
    match ok lo, ok hi with
    | true, false => dec_of false lo t
    | false, true => text_hi
    | true, true =>
      match 2 * num ?= (lo + hi) * den with
      | Lt => dec_of false lo t
      | Gt => text_hi
      | Eq => if Z.even lo then dec_of false lo t else text_hi
      end
    | false, false => shortest fuel' (k + 1) n a
    end
  end.

Definition negate_text (t : numtext) : numtext :=
  match t with
  | Dec _ d s => Dec true d s
  | _ => t
  end.

(** [String(x)], as a number text. *)
Definition toString (x : number) : numtext :=
  match x with
  | NaN => TNaN
  | PInf => TInf false
  | NInf => TInf true
  | NegZero => Dec false 0 0
  | Fin z =>
    if z =? 0 then Dec false 0 0
    else
      let a := Z.abs z in
      let t := shortest 17 1 (dec_exponent 640 (-324) a) a in
      if z <? 0 then negate_text t else t
  end.

(** [x.toFixed(2)] *)
Definition toFixed2 (x : number) : numtext :=
  match x with
  | NaN => TNaN
  | PInf => TInf false
  | NInf => TInf true
  | NegZero => Dec false 0 2
  | Fin z =>
    let a := Z.abs z in
    if 10 ^ 21 * unit_den <=? a then toString x
    else Dec (z <? 0) ((200 * a + unit_den) / (2 * unit_den)) 2
  end.

End JS.

(* The operations on numbers are unfolded on request only. *)
Arguments JS.unit_den : simpl never.
Arguments JS.overflow_threshold : simpl never.
Arguments JS.of_ratio : simpl never.
Arguments JS.add : simpl never.
Arguments JS.mul : simpl never.
Arguments JS.div : simpl never.
Arguments JS.round : simpl never.
Arguments JS.parseFloat : simpl never.
Arguments JS.toString : simpl never.
Arguments JS.toFixed2 : simpl never.

Local Open Scope string_scope.
Local Open Scope list_scope.
Local Open Scope Z_scope.

(** ** Tables (shared/schema.ts) *)
Module Schema.

(** A [timestamp] column, and a JavaScript [Date]: milliseconds since the
    epoch. *)
Definition timestamp : Type := Z.

Record Company : Type := {
  co_id : Z;
  co_name : string;
  co_inviteCode : string
}.

Record User : Type := {
  u_id : Z;
  u_name : string;
  u_email : string;
  u_password : string;
  u_phone : string;
  u_role : string;
  u_companyId : option Z;
  u_function : option string
}.

Record Client : Type := {
  c_id : Z;
  c_name : string;
  c_phone : string;
  c_notes : option string;
  c_companyId : Z;
  c_createdAt : option timestamp
}.

Record Procedure : Type := {
  p_id : Z;
  p_name : string;
  p_value : JS.numtext;
  p_companyId : Z
}.

Record Appointment : Type := {
  a_id : Z;
  a_clientId : Z;
  a_collaboratorId : Z;
  a_procedureId : Z;
  a_date : timestamp;
  a_status : string;
  a_companyId : Z;
  a_value : JS.numtext;
  a_notes : option string
}.

Record AppointmentProcedure : Type := {
  ap_id : Z;
  ap_appointmentId : Z;
  ap_procedureId : Z
}.

Record FinancialRecord : Type := {
  f_id : Z;
  f_type : string;
  f_category : string;
  f_description : string;
  f_value : JS.numtext;
  f_date : timestamp;
  f_companyId : Z;
  f_appointmentId : option Z
}.

(** The insert types inferred from the zod schemas. *)
Record InsertClient : Type := {
  ic_name : string;
  ic_phone : string;
  (* [None] is [undefined], [Some None] is [null] *)
  ic_notes : option (option string);
  ic_companyId : Z
}.

Record InsertProcedure : Type := {
  ip_name : string;
  (* [None]: a string that is not the text of a number *)
  ip_value : option JS.numtext;
  ip_companyId : Z
}.

Record InsertAppointment : Type := {
  ia_clientId : Z;
  ia_collaboratorId : Z;
  ia_procedureId : option Z;
  ia_date : timestamp;
  ia_status : option string;
  ia_companyId : Z;
  ia_value : JS.numtext;
  (* [None] is [undefined], [Some None] is [null] *)
  ia_notes : option (option string)
}.

Record InsertAppointmentProcedure : Type := {
  iap_appointmentId : Z;
  iap_procedureId : Z
}.

Record InsertFinancialRecord : Type := {
  if_type : string;
  if_category : string;
  if_description : string;
  if_value : JS.numtext;
  if_date : timestamp;
  if_companyId : Z;
  if_appointmentId : option Z
}.

(** [Partial<InsertFinancialRecord>]: the columns an update sets. *)
Record PartialFinancialRecord : Type := {
  pf_type : option string;
  pf_category : option string;
  pf_description : option string;
  pf_value : option JS.numtext;
  pf_date : option timestamp;
  pf_companyId : option Z;
  pf_appointmentId : option (option Z)
}.

End Schema.
Import Schema.

(** ** The database

    Each table is the list of its rows in insertion order; a [serial] column
    draws from the sequence of its table.  The foreign keys are those
    declared with [references] in the schema, none of them cascading.  The
    log keeps the insert, update and delete statements that ran without an
    error, oldest first. *)
Module Db.

Inductive statement : Type :=
| InsertAppointmentRow (id : Z)
| UpdateAppointmentRow (id : Z)
| DeleteAppointmentRow (id : Z)
| InsertAppointmentProcedureRow (appointmentId procedureId : Z)
| DeleteAppointmentProcedureRows (appointmentId : Z)
| InsertFinancialRecordRow (id : Z)
| UpdateFinancialRecordRow (id : Z)
| DeleteFinancialRecordRow (id : Z)
| UpdateFinancialRecordRows (appointmentId : Z)
| DeleteFinancialRecordRows (appointmentId : Z)
| UpdateClientRow (id : Z)
| DeleteClientRow (id : Z)
| UpdateProcedureRow (id : Z)
| DeleteProcedureRow (id : Z).

Record DB : Type := {
  companies : list Company;
  users : list User;
  clients : list Client;
  procedures : list Procedure;
  appointments : list Appointment;
  appointmentProcedures : list AppointmentProcedure;
  financialRecords : list FinancialRecord;
  seq_appointments : Z;
  seq_appointmentProcedures : Z;
  seq_financialRecords : Z;
  log : list statement
}.

Definition with_clients (v : list Client) (db : DB) : DB :=
  {| companies := companies db; users := users db; clients := v;
     procedures := procedures db; appointments := appointments db;
     appointmentProcedures := appointmentProcedures db;
     financialRecords := financialRecords db;
     seq_appointments := seq_appointments db;
     seq_appointmentProcedures := seq_appointmentProcedures db;
     seq_financialRecords := seq_financialRecords db; log := log db |}.

Definition with_procedures (v : list Procedure) (db : DB) : DB :=
  {| companies := companies db; users := users db; clients := clients db;
     procedures := v; appointments := appointments db;
     appointmentProcedures := appointmentProcedures db;
     financialRecords := financialRecords db;
     seq_appointments := seq_appointments db;
     seq_appointmentProcedures := seq_appointmentProcedures db;
     seq_financialRecords := seq_financialRecords db; log := log db |}.

Definition with_appointments (v : list Appointment) (db : DB) : DB :=
  {| companies := companies db; users := users db; clients := clients db;
     procedures := procedures db; appointments := v;
     appointmentProcedures := appointmentProcedures db;
     financialRecords := financialRecords db;
     seq_appointments := seq_appointments db;
     seq_appointmentProcedures := seq_appointmentProcedures db;
     seq_financialRecords := seq_financialRecords db; log := log db |}.

Definition with_appointmentProcedures (v : list AppointmentProcedure)
    (db : DB) : DB :=
  {| companies := companies db; users := users db; clients := clients db;
     procedures := procedures db; appointments := appointments db;
     appointmentProcedures := v;
     financialRecords := financialRecords db;
     seq_appointments := seq_appointments db;
     seq_appointmentProcedures := seq_appointmentProcedures db;
     seq_financialRecords := seq_financialRecords db; log := log db |}.

Definition with_financialRecords (v : list FinancialRecord) (db : DB) : DB :=
  {| companies := companies db; users := users db; clients := clients db;
     procedures := procedures db; appointments := appointments db;
     appointmentProcedures := appointmentProcedures db;
     financialRecords := v;
     seq_appointments := seq_appointments db;
     seq_appointmentProcedures := seq_appointmentProcedures db;
     seq_financialRecords := seq_financialRecords db; log := log db |}.

Definition with_seq_appointments (v : Z) (db : DB) : DB :=
  {| companies := companies db; users := users db; clients := clients db;
     procedures := procedures db; appointments := appointments db;
     appointmentProcedures := appointmentProcedures db;
     financialRecords := financialRecords db;
     seq_appointments := v;
     seq_appointmentProcedures := seq_appointmentProcedures db;
     seq_financialRecords := seq_financialRecords db; log := log db |}.

Definition with_seq_appointmentProcedures (v : Z) (db : DB) : DB :=
  {| companies := companies db; users := users db; clients := clients db;
     procedures := procedures db; appointments := appointments db;
     appointmentProcedures := appointmentProcedures db;
     financialRecords := financialRecords db;
     seq_appointments := seq_appointments db;
     seq_appointmentProcedures := v;
     seq_financialRecords := seq_financialRecords db; log := log db |}.

Definition with_seq_financialRecords (v : Z) (db : DB) : DB :=
  {| companies := companies db; users := users db; clients := clients db;
     procedures := procedures db; appointments := appointments db;
     appointmentProcedures := appointmentProcedures db;
     financialRecords := financialRecords db;
     seq_appointments := seq_appointments db;
     seq_appointmentProcedures := seq_appointmentProcedures db;
     seq_financialRecords := v; log := log db |}.

Definition logged (s : statement) (db : DB) : DB :=
  {| companies := companies db; users := users db; clients := clients db;
     procedures := procedures db; appointments := appointments db;
     appointmentProcedures := appointmentProcedures db;
     financialRecords := financialRecords db;
     seq_appointments := seq_appointments db;
     seq_appointmentProcedures := seq_appointmentProcedures db;
     seq_financialRecords := seq_financialRecords db;
     log := log db ++ [s] |}.

(** What a statement or a storage method throws. *)
Inductive error : Type :=
| ForeignKeyViolation (table column : string)
| NotNullViolation (table column : string)
| InvalidNumericText (table column : string)
| NoValuesToSet
| NotFound (entity : string) (id : Z)
| ZodError (field : string)
| InvalidDateFormat.

Inductive result (A : Type) : Type :=
| Ok (a : A)
| Throw (e : error).
Arguments Ok {A} a.
Arguments Throw {A} e.

(** A storage method that writes: it returns or throws, and leaves the
    database as the statements executed so far made it. *)
Definition M (A : Type) : Type := DB -> result A * DB.

Definition ret {A : Type} (a : A) : M A := fun db => (Ok a, db).
Definition throw {A : Type} (e : error) : M A := fun db => (Throw e, db).
Definition bind {A B : Type} (m : M A) (k : A -> M B) : M B :=
  fun db =>
    match m db with
    | (Ok a, db') => k a db'
    | (Throw e, db') => (Throw e, db')
    end.

End Db.
Import Db.

Declare Scope storage_scope.
Delimit Scope storage_scope with storage.
Notation "x <- m ;; k" := (bind m (fun x => k))
  (at level 61, m at next level, right associativity) : storage_scope.
Notation "m ;;; k" := (bind m (fun _ => k))
  (at level 61, right associativity) : storage_scope.

(** ** The storage methods (server/storage.ts, class DatabaseStorage) *)
Module Storage.
Local Open Scope storage_scope.

Definition has_id {A : Type} (key : A -> Z) (id : Z) (rows : list A) : bool :=
  existsb (fun r => key r =? id) rows.

Definition opt_eqb (o : option Z) (id : Z) : bool :=
  match o with
  | Some v => v =? id
  | None => false
  end.

(** [orderBy]: a stable sort, [leb a b] telling that [a] may come first. *)
Fixpoint insert_sorted {A : Type} (leb : A -> A -> bool) (x : A)
    (l : list A) : list A :=
  match l with
  | [] => [x]
  | y :: l' => if leb x y then x :: l else y :: insert_sorted leb x l'
  end.

Definition order_by {A : Type} (leb : A -> A -> bool) (l : list A) : list A :=
  fold_right (insert_sorted leb) [] l.

(** A text written to a [numeric] column: the column has no negative zero. *)
Definition numeric_in (t : JS.numtext) : JS.numtext :=
  match t with
  | JS.Dec true 0 s => JS.Dec false 0 s
  | _ => t
  end.

(** [x || 'scheduled'] on an optional string: [undefined] and the empty
    string are falsy. *)
Definition or_scheduled (status : option string) : string :=
  match status with
  | None => "scheduled"
  | Some s => if String.eqb s EmptyString then "scheduled" else s
  end.

(** *** Reads.  [select ... where id = x] and [result[0]]. *)
Definition getUser (id : Z) (db : DB) : option User :=
  find (fun u => u_id u =? id) (users db).

Definition getClient (id : Z) (db : DB) : option Client :=
  find (fun c => c_id c =? id) (clients db).

Definition getProcedure (id : Z) (db : DB) : option Procedure :=
  find (fun p => p_id p =? id) (procedures db).

Definition getAppointment (id : Z) (db : DB) : option Appointment :=
  find (fun a => a_id a =? id) (appointments db).

Definition getFinancialRecord (id : Z) (db : DB) : option FinancialRecord :=
  find (fun f => f_id f =? id) (financialRecords db).

Definition getClientsByCompany (companyId : option Z) (db : DB)
    : list Client :=
  order_by (fun a b => String.leb (c_name a) (c_name b))
    (filter (fun c => opt_eqb companyId (c_companyId c)) (clients db)).

(** The procedures joined to the junction rows of an appointment. *)
Definition getAppointmentProcedures (appointmentId : Z) (db : DB)
    : list Procedure :=
  flat_map
    (fun ap =>
       if ap_appointmentId ap =? appointmentId
       then filter (fun p => ap_procedureId ap =? p_id p) (procedures db)
       else [])
    (appointmentProcedures db).

(** The two range queries build a query with one [where] and, when the
    optional argument is truthy, call [where] on it a second time.  What
    the second call makes of the first condition is the query builder's
    business: [chain base extra] is the condition the query then runs
    with. *)
Definition where_chain : Type :=
  forall A : Type, (A -> bool) -> (A -> bool) -> A -> bool.

Section RangeQueries.
Variable chain : where_chain.

Definition getAppointmentsByDateRange (companyId : option Z)
    (startDate endDate : timestamp) (collaboratorId : option Z) (db : DB)
    : list Appointment :=
  let base := fun a =>
    opt_eqb companyId (a_companyId a)
    && (startDate <=? a_date a) && (a_date a <=? endDate) in
  let cond :=
    match collaboratorId with
    | Some c =>
      if c =? 0 then base
      else chain _ base (fun a => a_collaboratorId a =? c)
    | None => base
    end in
  order_by (fun a b => a_date a <=? a_date b)
    (filter cond (appointments db)).

Definition getFinancialRecordsByDateRange (companyId : option Z)
    (startDate endDate : timestamp) (type : option string) (db : DB)
    : list FinancialRecord :=
  let base := fun f =>
    opt_eqb companyId (f_companyId f)
    && (startDate <=? f_date f) && (f_date f <=? endDate) in
  let cond :=
    match type with
    | Some t =>
      if String.eqb t EmptyString then base
      else chain _ base (fun f => String.eqb (f_type f) t)
    | None => base
    end in
  order_by (fun a b => f_date b <=? f_date a)
    (filter cond (financialRecords db)).

End RangeQueries.

(** *** Appointments *)

(** [db.insert(appointments).values(..).returning()]; the value reaches the
    statement as a JavaScript number and is sent as [String(value)]. *)
Definition insert_appointment (clientId collaboratorId : Z)
    (procedureId : option Z) (date : timestamp) (status : string)
    (companyId : Z) (value : JS.number) (notes : option (option string))
    : M Appointment :=
  fun db =>
    let id := seq_appointments db + 1 in
    let db := with_seq_appointments id db in
    match procedureId with
    | None => (Throw (NotNullViolation "appointments" "procedure_id"), db)
    | Some pid =>
      if negb (has_id c_id clientId (clients db)) then
        (Throw (ForeignKeyViolation "appointments" "client_id"), db)
      else if negb (has_id u_id collaboratorId (users db)) then
        (Throw (ForeignKeyViolation "appointments" "collaborator_id"), db)
      else if negb (has_id p_id pid (procedures db)) then
        (Throw (ForeignKeyViolation "appointments" "procedure_id"), db)
      else if negb (has_id co_id companyId (companies db)) then
        (Throw (ForeignKeyViolation "appointments" "company_id"), db)
      else
        let row := {| a_id := id; a_clientId := clientId;
                      a_collaboratorId := collaboratorId;
                      a_procedureId := pid; a_date := date;
                      a_status := status; a_companyId := companyId;
                      a_value := JS.toString value;
                      a_notes := match notes with
                                 | Some n => n
                                 | None => None
                                 end |} in
        (Ok row,
         logged (InsertAppointmentRow id)
           (with_appointments (appointments db ++ [row]) db))
    end.

Definition createAppointment (appointment : InsertAppointment)
    : M Appointment :=
  insert_appointment
    (ia_clientId appointment)
    (ia_collaboratorId appointment)
    (ia_procedureId appointment)
    (ia_date appointment)
    (or_scheduled (ia_status appointment))
    (ia_companyId appointment)
    (JS.parseFloat (ia_value appointment))
    (ia_notes appointment).

(** The row an update of the appointments table leaves; a column whose new
    value is [undefined] is not set. *)
Definition set_appointment (clientId collaboratorId : Z)
    (procedureId : option Z) (date : timestamp) (status : string)
    (companyId : Z) (value : JS.number) (notes : option (option string))
    (a : Appointment) : Appointment :=
  {| a_id := a_id a; a_clientId := clientId;
     a_collaboratorId := collaboratorId;
     a_procedureId := match procedureId with
                      | Some pid => pid
                      | None => a_procedureId a
                      end;
     a_date := date; a_status := status; a_companyId := companyId;
     a_value := JS.toString value;
     a_notes := match notes with
                | Some n => n
                | None => a_notes a
                end |}.

(** [db.update(appointments).set(..).where(eq(id)).returning()] *)
Definition update_appointment (id : Z) (clientId collaboratorId : Z)
    (procedureId : option Z) (date : timestamp) (status : string)
    (companyId : Z) (value : JS.number) (notes : option (option string))
    : M (list Appointment) :=
  fun db =>
    let hit := fun a => a_id a =? id in
    if negb (existsb hit (appointments db)) then
      (Ok [], logged (UpdateAppointmentRow id) db)
    else if negb (has_id c_id clientId (clients db)) then
      (Throw (ForeignKeyViolation "appointments" "client_id"), db)
    else if negb (has_id u_id collaboratorId (users db)) then
      (Throw (ForeignKeyViolation "appointments" "collaborator_id"), db)
    else if match procedureId with
            | Some pid => negb (has_id p_id pid (procedures db))
            | None => false
            end then
      (Throw (ForeignKeyViolation "appointments" "procedure_id"), db)
    else if negb (has_id co_id companyId (companies db)) then
      (Throw (ForeignKeyViolation "appointments" "company_id"), db)
    else
      let upd := set_appointment clientId collaboratorId procedureId date
                   status companyId value notes in
      let rows := map (fun a => if hit a then upd a else a)
                    (appointments db) in
      (Ok (map upd (filter hit (appointments db))),
       logged (UpdateAppointmentRow id) (with_appointments rows db)).

Definition updateAppointment (id : Z) (updates : InsertAppointment)
    : M Appointment :=
  result <- update_appointment id
              (ia_clientId updates)
              (ia_collaboratorId updates)
              (ia_procedureId updates)
              (ia_date updates)
              (or_scheduled (ia_status updates))
              (ia_companyId updates)
              (JS.parseFloat (ia_value updates))
              (ia_notes updates) ;;
  match result with
  | [] => throw (NotFound "Appointment" id)
  | row :: _ => ret row
  end.

(** *** Junction rows *)

Definition addProcedureToAppointment
    (appointmentProcedure : InsertAppointmentProcedure)
    : M AppointmentProcedure :=
  fun db =>
    let id := seq_appointmentProcedures db + 1 in
    let db := with_seq_appointmentProcedures id db in
    let aid := iap_appointmentId appointmentProcedure in
    let pid := iap_procedureId appointmentProcedure in
    if negb (has_id a_id aid (appointments db)) then
      (Throw (ForeignKeyViolation "appointment_procedures" "appointment_id"),
       db)
    else if negb (has_id p_id pid (procedures db)) then
      (Throw (ForeignKeyViolation "appointment_procedures" "procedure_id"),
       db)
    else
      let row := {| ap_id := id; ap_appointmentId := aid;
                    ap_procedureId := pid |} in
      (Ok row,
       logged (InsertAppointmentProcedureRow aid pid)
         (with_appointmentProcedures (appointmentProcedures db ++ [row]) db)).

Definition removeAllProceduresFromAppointment (appointmentId : Z) : M unit :=
  fun db =>
    (Ok tt,
     logged (DeleteAppointmentProcedureRows appointmentId)
       (with_appointmentProcedures
          (filter (fun ap => negb (ap_appointmentId ap =? appointmentId))
             (appointmentProcedures db))
          db)).

(** [db.delete(appointments).where(eq(id)).returning()] *)
Definition delete_appointment (id : Z) : M (list Appointment) :=
  fun db =>
    let hit := fun a => a_id a =? id in
    if negb (existsb hit (appointments db)) then
      (Ok [], logged (DeleteAppointmentRow id) db)
    else if existsb (fun ap => ap_appointmentId ap =? id)
              (appointmentProcedures db) then
      (Throw (ForeignKeyViolation "appointment_procedures" "appointment_id"),
       db)
    else if existsb (fun f => opt_eqb (f_appointmentId f) id)
              (financialRecords db) then
      (Throw (ForeignKeyViolation "financial_records" "appointment_id"), db)
    else
      (Ok (filter hit (appointments db)),
       logged (DeleteAppointmentRow id)
         (with_appointments
            (filter (fun a => negb (hit a)) (appointments db)) db)).

Definition deleteAppointment (id : Z) : M unit :=
  removeAllProceduresFromAppointment id ;;;
  result <- delete_appointment id ;;
  match result with
  | [] => throw (NotFound "Appointment" id)
  | _ :: _ => ret tt
  end.

(** *** Financial records *)

Definition createFinancialRecord (record : InsertFinancialRecord)
    : M FinancialRecord :=
  fun db =>
    let id := seq_financialRecords db + 1 in
    let db := with_seq_financialRecords id db in
    if negb (has_id co_id (if_companyId record) (companies db)) then
      (Throw (ForeignKeyViolation "financial_records" "company_id"), db)
    else if match if_appointmentId record with
            | Some aid => negb (has_id a_id aid (appointments db))
            | None => false
            end then
      (Throw (ForeignKeyViolation "financial_records" "appointment_id"), db)
    else
      let row := {| f_id := id; f_type := if_type record;
                    f_category := if_category record;
                    f_description := if_description record;
                    f_value := numeric_in (if_value record);
                    f_date := if_date record;
                    f_companyId := if_companyId record;
                    f_appointmentId := if_appointmentId record |} in
      (Ok row,
       logged (InsertFinancialRecordRow id)
         (with_financialRecords (financialRecords db ++ [row]) db)).

Definition sets_nothing (u : PartialFinancialRecord) : bool :=
  match pf_type u, pf_category u, pf_description u, pf_value u, pf_date u,
        pf_companyId u, pf_appointmentId u with
  | None, None, None, None, None, None, None => true
  | _, _, _, _, _, _, _ => false
  end.

Definition or_old {A : Type} (new : option A) (old : A) : A :=
  match new with
  | Some v => v
  | None => old
  end.

Definition set_financial_record (u : PartialFinancialRecord)
    (f : FinancialRecord) : FinancialRecord :=
  {| f_id := f_id f;
     f_type := or_old (pf_type u) (f_type f);
     f_category := or_old (pf_category u) (f_category f);
     f_description := or_old (pf_description u) (f_description f);
     f_value := or_old (option_map numeric_in (pf_value u)) (f_value f);
     f_date := or_old (pf_date u) (f_date f);
     f_companyId := or_old (pf_companyId u) (f_companyId f);
     f_appointmentId := or_old (pf_appointmentId u) (f_appointmentId f) |}.

(** [db.update(financialRecords).set(updates).where(hit)], with the rows
    [returning()] would give.  [set] refuses an update that sets no
    column. *)
Definition update_financial_records (hit : FinancialRecord -> bool)
    (stmt : statement) (updates : PartialFinancialRecord)
    : M (list FinancialRecord) :=
  fun db =>
    if sets_nothing updates then (Throw NoValuesToSet, db)
    else if negb (existsb hit (financialRecords db)) then
      (Ok [], logged stmt db)
    else if match pf_companyId updates with
            | Some c => negb (has_id co_id c (companies db))
            | None => false
            end then
      (Throw (ForeignKeyViolation "financial_records" "company_id"), db)
    else if match pf_appointmentId updates with
            | Some (Some aid) => negb (has_id a_id aid (appointments db))
            | _ => false
            end then
      (Throw (ForeignKeyViolation "financial_records" "appointment_id"), db)
    else
      let upd := set_financial_record updates in
      (Ok (map upd (filter hit (financialRecords db))),
       logged stmt
         (with_financialRecords
            (map (fun f => if hit f then upd f else f) (financialRecords db))
            db)).

(** [db.delete(financialRecords).where(hit)]; no table references this
    one. *)
Definition delete_financial_records (hit : FinancialRecord -> bool)
    (stmt : statement) : M (list FinancialRecord) :=
  fun db =>
    (Ok (filter hit (financialRecords db)),
     logged stmt
       (with_financialRecords
          (filter (fun f => negb (hit f)) (financialRecords db)) db)).

Definition updateFinancialRecord (id : Z) (updates : PartialFinancialRecord)
    : M FinancialRecord :=
  result <- update_financial_records (fun f => f_id f =? id)
              (UpdateFinancialRecordRow id) updates ;;
  match result with
  | [] => throw (NotFound "Financial record" id)
  | row :: _ => ret row
  end.

Definition deleteFinancialRecord (id : Z) : M unit :=
  result <- delete_financial_records (fun f => f_id f =? id)
              (DeleteFinancialRecordRow id) ;;
  match result with
  | [] => throw (NotFound "Financial record" id)
  | _ :: _ => ret tt
  end.

Definition updateFinancialRecordByAppointment (appointmentId : Z)
    (updates : PartialFinancialRecord) : M unit :=
  update_financial_records
    (fun f => opt_eqb (f_appointmentId f) appointmentId)
    (UpdateFinancialRecordRows appointmentId) updates ;;;
  ret tt.

Definition deleteFinancialRecordByAppointment (appointmentId : Z) : M unit :=
  delete_financial_records
    (fun f => opt_eqb (f_appointmentId f) appointmentId)
    (DeleteFinancialRecordRows appointmentId) ;;;
  ret tt.

(** *** Clients and procedures *)

Definition set_client (updates : InsertClient) (c : Client) : Client :=
  {| c_id := c_id c; c_name := ic_name updates; c_phone := ic_phone updates;
     c_notes := or_old (ic_notes updates) (c_notes c);
     c_companyId := ic_companyId updates; c_createdAt := c_createdAt c |}.

Definition updateClient (id : Z) (updates : InsertClient) : M Client :=
  fun db =>
    let hit := fun c => c_id c =? id in
    match filter hit (clients db) with
    | [] => (Throw (NotFound "Client" id), logged (UpdateClientRow id) db)
    | row :: _ =>
      if negb (has_id co_id (ic_companyId updates) (companies db)) then
        (Throw (ForeignKeyViolation "clients" "company_id"), db)
      else
        (Ok (set_client updates row),
         logged (UpdateClientRow id)
           (with_clients
              (map (fun c => if hit c then set_client updates c else c)
                 (clients db))
              db))
    end.

Definition deleteClient (id : Z) : M unit :=
  fun db =>
    let hit := fun c => c_id c =? id in
    match filter hit (clients db) with
    | [] => (Throw (NotFound "Client" id), logged (DeleteClientRow id) db)
    | _ :: _ =>
      if existsb (fun a => a_clientId a =? id) (appointments db) then
        (Throw (ForeignKeyViolation "appointments" "client_id"), db)
      else
        (Ok tt,
         logged (DeleteClientRow id)
           (with_clients (filter (fun c => negb (hit c)) (clients db)) db))
    end.

Definition set_procedure (name : string) (value : JS.numtext) (companyId : Z)
    (p : Procedure) : Procedure :=
  {| p_id := p_id p; p_name := name; p_value := numeric_in value;
     p_companyId := companyId |}.

Definition updateProcedure (id : Z) (updates : InsertProcedure)
    : M Procedure :=
  fun db =>
    let hit := fun p => p_id p =? id in
    match ip_value updates with
    | None => (Throw (InvalidNumericText "procedures" "value"), db)
    | Some value =>
      match filter hit (procedures db) with
      | [] =>
        (Throw (NotFound "Procedure" id), logged (UpdateProcedureRow id) db)
      | row :: _ =>
        if negb (has_id co_id (ip_companyId updates) (companies db)) then
          (Throw (ForeignKeyViolation "procedures" "company_id"), db)
        else
          let upd := set_procedure (ip_name updates) value
                       (ip_companyId updates) in
          (Ok (upd row),
           logged (UpdateProcedureRow id)
             (with_procedures
                (map (fun p => if hit p then upd p else p) (procedures db))
                db))
      end
    end.

Definition deleteProcedure (id : Z) : M unit :=
  fun db =>
    let hit := fun p => p_id p =? id in
    match filter hit (procedures db) with
    | [] =>
      (Throw (NotFound "Procedure" id), logged (DeleteProcedureRow id) db)
    | _ :: _ =>
      if existsb (fun a => a_procedureId a =? id) (appointments db) then
        (Throw (ForeignKeyViolation "appointments" "procedure_id"), db)
      else if existsb (fun ap => ap_procedureId ap =? id)
                (appointmentProcedures db) then
        (Throw (ForeignKeyViolation "appointment_procedures" "procedure_id"),
         db)
      else
        (Ok tt,
         logged (DeleteProcedureRow id)
           (with_procedures
              (filter (fun p => negb (hit p)) (procedures db)) db))
    end.

End Storage.

(** ** The route handlers (server/routes.ts, registerRoutes)

    A handler takes the session's user ([None] when the request is not
    authenticated), the route parameter as [parseInt] reads it, the parsed
    body, and the database; it gives the response and the database it
    leaves. *)
Module Routes.
Import Storage.
Local Open Scope storage_scope.

(** A body field: missing, of the type its schema expects, or of another
    type. *)
Inductive field (A : Type) : Type :=
| Absent
| Given (a : A)
| IllTyped.
Arguments Absent {A}.
Arguments Given {A} a.
Arguments IllTyped {A}.

Record AppointmentBody : Type := {
  (* [None]: missing or not an array; the elements as [parseInt] reads them *)
  b_procedureIds : option (list Z);
  (* [None]: missing or not a number *)
  b_clientId : option Z;
  b_collaboratorId : option Z;
  (* [new Date(body.date)]; [None] is an invalid date *)
  b_date : option timestamp;
  b_status : field string;
  (* [Given None] is [null] *)
  b_notes : field (option string)
}.

Record ClientBody : Type := {
  cb_name : option string;
  cb_phone : option string;
  cb_notes : field (option string)
}.

Record ProcedureBody : Type := {
  pb_name : option string;
  (* [None]: missing or not a string; [Some None]: a string that is not the
     text of a number *)
  pb_value : option (option JS.numtext)
}.

Record Stats : Type := {
  s_appointments : Z;
  s_clients : Z;
  s_revenue : JS.number;
  s_occupation : JS.number;
  s_clientsServed : Z;
  s_weeklyAppointments : Z
}.

Inductive payload : Type :=
| Empty
| Message (message : string) (details : option error)
| AppointmentJson (a : option Appointment)
| ProceduresJson (ps : list Procedure)
| ClientJson (c : Client)
| ProcedureJson (p : Procedure)
| StatsJson (s : Stats).

Record response : Type := {
  status : Z;
  json : payload
}.

Definition reply (code : Z) (p : payload) : response :=
  {| status := code; json := p |}.

Definition is_admin (user : User) : bool := String.eqb (u_role user) "admin".

(** [existing.companyId !== req.user.companyId] *)
Definition other_company (companyId : Z) (user : User) : bool :=
  negb (opt_eqb (u_companyId user) companyId).

Definition optional {A : Type} (f : field A) : result (option A) :=
  match f with
  | Absent => Ok None
  | Given a => Ok (Some a)
  | IllTyped => Throw (ZodError "type")
  end.

(** [insertAppointmentSchema.parse(preprocessedData)] *)
Definition parse_appointment (clientId collaboratorId : option Z)
    (procedureId : Z) (date : option timestamp) (status : field string)
    (companyId : option Z) (value : JS.numtext)
    (notes : field (option string)) : result InsertAppointment :=
  match clientId with
  | None => Throw (ZodError "clientId")
  | Some clientId =>
  match collaboratorId with
  | None => Throw (ZodError "collaboratorId")
  | Some collaboratorId =>
  match date with
  | None => Throw (ZodError "date")
  | Some date =>
  match optional status with
  | Throw e => Throw (ZodError "status")
  | Ok status =>
  match companyId with
  | None => Throw (ZodError "companyId")
  | Some companyId =>
  match optional notes with
  | Throw e => Throw (ZodError "notes")
  | Ok notes =>
    Ok {| ia_clientId := clientId;
          ia_collaboratorId := collaboratorId;
          (* [data.procedureId || undefined] *)
          ia_procedureId := if procedureId =? 0 then None
                            else Some procedureId;
          ia_date := date;
          ia_status := status;
          ia_companyId := companyId;
          ia_value := value;
          ia_notes := notes |}
  end end end end end end.

(** The loop that checks the submitted procedures and adds their prices up:
    [None] when one is missing or belongs to another company. *)
Fixpoint resolve_procedures (companyId : option Z) (procedureIds : list Z)
    (db : DB) (totalValue : JS.number) (validProcedures : list Procedure)
    : option (JS.number * list Procedure) :=
  match procedureIds with
  | [] => Some (totalValue, validProcedures)
  | procedureId :: rest =>
    match getProcedure procedureId db with
    | None => None
    | Some procedure =>
      if negb (opt_eqb companyId (p_companyId procedure)) then None
      else
        resolve_procedures companyId rest db
          (JS.add totalValue (JS.parseFloat (p_value procedure)))
          (validProcedures ++ [procedure])
    end
  end.

Fixpoint add_procedures (appointmentId : Z) (validProcedures : list Procedure)
    : M unit :=
  match validProcedures with
  | [] => ret tt
  | procedure :: rest =>
    addProcedureToAppointment
      {| iap_appointmentId := appointmentId;
         iap_procedureId := p_id procedure |} ;;;
    add_procedures appointmentId rest
  end.

Definition unauthorized : response := reply 401 (Message "Unauthorized" None).
Definition admin_required : response :=
  reply 403 (Message "Forbidden: Admin access required" None).
Definition no_procedure : response :=
  reply 400 (Message "Pelo menos um procedimento é obrigatório" None).
Definition invalid_procedure : response :=
  reply 400
    (Message "Procedimento inválido ou não pertence à sua empresa" None).

(** [handleValidationError] *)
Definition handleValidationError (e : error) : response :=
  match e with
  | ZodError _ => reply 400 (Message "Validation error" (Some e))
  | _ => reply 500 (Message "Server error" None)
  end.

(** [`Agendamento #${id}`] *)
Definition appointment_label (id : Z) : string :=
  "Agendamento #" ++ NilZero.string_of_int (Z.to_int id).

(** POST /api/appointments *)
Definition post_appointments (user : option User) (body : AppointmentBody)
    (db : DB) : response * DB :=
  match user with
  | None => (unauthorized, db)
  | Some user =>
    let companyId := u_companyId user in
    match b_procedureIds body with
    | None | Some [] => (no_procedure, db)
    | Some procedureIds =>
      match resolve_procedures companyId procedureIds db (JS.Fin 0) [] with
      | None => (invalid_procedure, db)
      | Some (totalValue, validProcedures) =>
        match validProcedures with
        | [] => (reply 500 (Message "Server error" None), db)
        | first :: _ =>
          match parse_appointment (b_clientId body) (b_collaboratorId body)
                  (p_id first) (b_date body) (b_status body) companyId
                  (JS.toFixed2 totalValue) (b_notes body) with
          | Throw e => (reply 400 (Message "Erro de validação" (Some e)), db)
          | Ok appointmentData =>
            let work :=
              appointment <- createAppointment appointmentData ;;
              add_procedures (a_id appointment) validProcedures ;;;
              createFinancialRecord
                {| if_type := "income";
                   if_category := "appointment";
                   if_description := appointment_label (a_id appointment);
                   if_value := a_value appointment;
                   if_date := a_date appointment;
                   if_companyId := ia_companyId appointmentData;
                   if_appointmentId := Some (a_id appointment) |} ;;;
              ret appointment in
            match work db with
            | (Ok appointment, db') =>
              (reply 201 (AppointmentJson (Some appointment)), db')
            | (Throw e, db') =>
              (reply 500
                 (Message "Erro interno ao criar agendamento" (Some e)), db')
            end
          end
        end
      end
    end
  end.

(** PUT /api/appointments/:id; [now] is the [new Date()] of the financial
    record update. *)
Definition put_appointment (user : option User) (appointmentId : Z)
    (body : AppointmentBody) (now : timestamp) (db : DB) : response * DB :=
  match user with
  | None => (unauthorized, db)
  | Some user =>
    let companyId := u_companyId user in
    match getAppointment appointmentId db with
    | None => (reply 404 (Message "Agendamento não encontrado" None), db)
    | Some existingAppointment =>
      if other_company (a_companyId existingAppointment) user then
        (reply 403 (Message "Acesso negado" None), db)
      else
        match b_procedureIds body with
        | None | Some [] => (no_procedure, db)
        | Some procedureIds =>
          match resolve_procedures companyId procedureIds db (JS.Fin 0) []
          with
          | None => (invalid_procedure, db)
          | Some (totalValue, validProcedures) =>
            match validProcedures with
            | [] =>
              (reply 500 (Message "Erro ao atualizar agendamento" None), db)
            | first :: _ =>
              let work :=
                match parse_appointment (b_clientId body)
                        (b_collaboratorId body) (p_id first) (b_date body)
                        (b_status body) companyId (JS.toFixed2 totalValue)
                        (b_notes body) with
                | Throw e => throw e
                | Ok appointmentData =>
                  updatedAppointment <-
                    updateAppointment appointmentId appointmentData ;;
                  removeAllProceduresFromAppointment appointmentId ;;;
                  add_procedures appointmentId validProcedures ;;;
                  if String.eqb (a_status updatedAppointment) "completed"
                     && negb (String.eqb (a_status existingAppointment)
                                "completed")
                  then
                    updateFinancialRecordByAppointment appointmentId
                      {| pf_type := None; pf_category := None;
                         pf_description := None;
                         pf_value := Some (a_value updatedAppointment);
                         pf_date := Some now;
                         pf_companyId := None;
                         pf_appointmentId := None |}
                  else ret tt
                end in
              match work db with
              | (Throw e, db') =>
                (reply 400 (Message "Erro de validação" (Some e)), db')
              | (Ok _, db') =>
                (reply 200 (AppointmentJson (getAppointment appointmentId db')),
                 db')
              end
            end
          end
        end
    end
  end.

(** DELETE /api/appointments/:id *)
Definition delete_appointment_route (user : option User) (appointmentId : Z)
    (db : DB) : response * DB :=
  match user with
  | None => (unauthorized, db)
  | Some user =>
    match getAppointment appointmentId db with
    | None => (reply 404 (Message "Agendamento não encontrado" None), db)
    | Some existingAppointment =>
      if other_company (a_companyId existingAppointment) user then
        (reply 403 (Message "Acesso negado" None), db)
      else
        let work :=
          deleteFinancialRecordByAppointment appointmentId ;;;
          deleteAppointment appointmentId in
        match work db with
        | (Ok _, db') => (reply 204 Empty, db')
        | (Throw e, db') =>
          (reply 500 (Message "Erro ao excluir agendamento" (Some e)), db')
        end
    end
  end.

(** GET /api/appointments/:id/procedures *)
Definition get_appointment_procedures (user : option User)
    (appointmentId : Z) (db : DB) : response * DB :=
  match user with
  | None => (unauthorized, db)
  | Some user =>
    match getAppointment appointmentId db with
    | None => (reply 404 (Message "Appointment not found" None), db)
    | Some existingAppointment =>
      if other_company (a_companyId existingAppointment) user then
        (reply 403 (Message "Access denied" None), db)
      else
        (reply 200 (ProceduresJson (getAppointmentProcedures appointmentId db)),
         db)
    end
  end.

(** [insertClientSchema.parse({...req.body, companyId})] *)
Definition parse_client (body : ClientBody) (companyId : option Z)
    : result InsertClient :=
  match cb_name body with
  | None => Throw (ZodError "name")
  | Some name =>
  match cb_phone body with
  | None => Throw (ZodError "phone")
  | Some phone =>
  match optional (cb_notes body) with
  | Throw e => Throw (ZodError "notes")
  | Ok notes =>
  match companyId with
  | None => Throw (ZodError "companyId")
  | Some companyId =>
    Ok {| ic_name := name; ic_phone := phone; ic_notes := notes;
          ic_companyId := companyId |}
  end end end end.

(** [insertProcedureSchema.parse({...req.body, companyId})] *)
Definition parse_procedure (body : ProcedureBody) (companyId : option Z)
    : result InsertProcedure :=
  match pb_name body with
  | None => Throw (ZodError "name")
  | Some name =>
  match pb_value body with
  | None => Throw (ZodError "value")
  | Some value =>
  match companyId with
  | None => Throw (ZodError "companyId")
  | Some companyId =>
    Ok {| ip_name := name; ip_value := value; ip_companyId := companyId |}
  end end end.

(** GET /api/clients/:id *)
Definition get_client (user : option User) (clientId : Z) (db : DB)
    : response * DB :=
  match user with
  | None => (unauthorized, db)
  | Some user =>
    match getClient clientId db with
    | None => (reply 404 (Message "Client not found" None), db)
    | Some client =>
      if other_company (c_companyId client) user then
        (reply 403 (Message "Access denied" None), db)
      else (reply 200 (ClientJson client), db)
    end
  end.

(** PUT /api/clients/:id *)
Definition put_client (user : option User) (clientId : Z) (body : ClientBody)
    (db : DB) : response * DB :=
  match user with
  | None => (unauthorized, db)
  | Some user =>
    match getClient clientId db with
    | None => (reply 404 (Message "Client not found" None), db)
    | Some existingClient =>
      if other_company (c_companyId existingClient) user then
        (reply 403 (Message "Access denied" None), db)
      else
        match parse_client body (u_companyId user) with
        | Throw e => (handleValidationError e, db)
        | Ok clientData =>
          match updateClient clientId clientData db with
          | (Ok updatedClient, db') =>
            (reply 200 (ClientJson updatedClient), db')
          | (Throw e, db') => (handleValidationError e, db')
          end
        end
    end
  end.

(** DELETE /api/clients/:id *)
Definition delete_client (user : option User) (clientId : Z) (db : DB)
    : response * DB :=
  match user with
  | None => (admin_required, db)
  | Some user =>
    if negb (is_admin user) then (admin_required, db)
    else
      match getClient clientId db with
      | None => (reply 404 (Message "Client not found" None), db)
      | Some existingClient =>
        if other_company (c_companyId existingClient) user then
          (reply 403 (Message "Access denied" None), db)
        else
          match deleteClient clientId db with
          | (Ok _, db') => (reply 204 Empty, db')
          | (Throw e, db') => (reply 500 (Message "Server error" None), db')
          end
      end
  end.

(** PUT /api/procedures/:id *)
Definition put_procedure (user : option User) (procedureId : Z)
    (body : ProcedureBody) (db : DB) : response * DB :=
  match user with
  | None => (admin_required, db)
  | Some user =>
    if negb (is_admin user) then (admin_required, db)
    else
      match getProcedure procedureId db with
      | None => (reply 404 (Message "Procedure not found" None), db)
      | Some existingProcedure =>
        if other_company (p_companyId existingProcedure) user then
          (reply 403 (Message "Access denied" None), db)
        else
          match parse_procedure body (u_companyId user) with
          | Throw e => (handleValidationError e, db)
          | Ok procedureData =>
            match updateProcedure procedureId procedureData db with
            | (Ok updatedProcedure, db') =>
              (reply 200 (ProcedureJson updatedProcedure), db')
            | (Throw e, db') => (handleValidationError e, db')
            end
          end
      end
  end.

(** DELETE /api/procedures/:id *)
Definition delete_procedure (user : option User) (procedureId : Z) (db : DB)
    : response * DB :=
  match user with
  | None => (admin_required, db)
  | Some user =>
    if negb (is_admin user) then (admin_required, db)
    else
      match getProcedure procedureId db with
      | None => (reply 404 (Message "Procedure not found" None), db)
      | Some existingProcedure =>
        if other_company (p_companyId existingProcedure) user then
          (reply 403 (Message "Access denied" None), db)
        else
          match deleteProcedure procedureId db with
          | (Ok _, db') => (reply 204 Empty, db')
          | (Throw e, db') => (reply 500 (Message "Server error" None), db')
          end
      end
  end.

(** *** Dashboard *)

(** The local-time operations of [Date] the handler uses. *)
Record LocalTime : Type := {
  (* [d.setHours(0, 0, 0, 0)] *)
  startOfDay : timestamp -> timestamp;
  (* [d.setHours(23, 59, 59, 999)] *)
  endOfDay : timestamp -> timestamp;
  (* [d.setDate(d.getDate() + n)] *)
  addDays : Z -> timestamp -> timestamp;
  (* [new Date(d.getFullYear(), d.getMonth(), 1, 0, 0, 0, 0)] *)
  startOfMonth : timestamp -> timestamp;
  (* [new Date(d.getFullYear(), 0, 1, 0, 0, 0, 0)] *)
  startOfYear : timestamp -> timestamp
}.

(** The window of a time filter, anchored on [now]. *)
Definition window (tz : LocalTime) (timeFilter : string) (now : timestamp)
    : timestamp * timestamp :=
  if String.eqb timeFilter "week" then
    (startOfDay tz (addDays tz (-7) now), endOfDay tz now)
  else if String.eqb timeFilter "month" then
    (startOfMonth tz now, endOfDay tz now)
  else if String.eqb timeFilter "year" then
    (startOfYear tz now, endOfDay tz now)
  else (startOfDay tz now, endOfDay tz now).

Definition completed (a : Appointment) : bool :=
  String.eqb (a_status a) "completed".

Definition length_Z {A : Type} (l : list A) : Z := Z.of_nat (List.length l).

(** [Math.round(completed.length / (appointments.length || 1) * 100)] *)
Definition occupationRate (appointments : list Appointment) : JS.number :=
  JS.round
    (JS.mul
       (JS.div (JS.of_Z (length_Z (filter completed appointments)))
          (JS.of_Z (if length_Z appointments =? 0 then 1
                    else length_Z appointments)))
       (JS.of_Z 100)).

(** [records.reduce((sum, record) => sum + Number(record.value), 0)] *)
Definition sum_values (records : list FinancialRecord) : JS.number :=
  fold_left (fun sum record => JS.add sum (JS.Number_ (f_value record)))
    records (JS.Fin 0).

Section Dashboard.
Variable chain : where_chain.
Variable tz : LocalTime.

(** GET /api/dashboard/stats; [now], [now1] and [now2] are the three
    [new Date()] of the handler, in the order it takes them. *)
Definition get_dashboard_stats (user : option User)
    (timeFilter : option string) (now now1 now2 : timestamp) (db : DB)
    : response * DB :=
  match user with
  | None => (unauthorized, db)
  | Some user =>
    let companyId := u_companyId user in
    let userId := u_id user in
    let isAdmin := is_admin user in
    let timeFilter :=
      match timeFilter with
      | None => "day"
      | Some t => if String.eqb t EmptyString then "day" else t
      end in
    let (startDate, endDate) := window tz timeFilter now in
    let appointments :=
      getAppointmentsByDateRange chain companyId startDate endDate
        (if negb isAdmin then Some userId else None) db in
    let clients := getClientsByCompany companyId db in
    let revenue :=
      if isAdmin then
        sum_values
          (getFinancialRecordsByDateRange chain companyId startDate endDate
             (Some "income") db)
      else JS.Fin 0 in
    let clientsServed := length_Z (filter completed appointments) in
    let nextWeekStart := now1 in
    let nextWeekEnd := endOfDay tz (addDays tz 7 now2) in
    let upcomingAppointments :=
      getAppointmentsByDateRange chain companyId nextWeekStart nextWeekEnd
        (if negb isAdmin then Some userId else None) db in
    (reply 200
       (StatsJson
          {| s_appointments := length_Z appointments;
             s_clients := length_Z clients;
             s_revenue := revenue;
             s_occupation := occupationRate appointments;
             s_clientsServed := clientsServed;
             s_weeklyAppointments := length_Z upcomingAppointments |}),
     db)
  end.

End Dashboard.

End Routes.

Import JS Storage Routes.

(** * The vocabulary of the properties *)

(** ** Numbers *)

(** A magnitude that is a finite binary64 value. *)
Definition representable (a : Z) : Prop :=
  round53 a 1 = a /\ a < overflow_threshold.

(** A decimal text with some digit other than 0. *)
Definition nonzero_digits (t : numtext) : Prop :=
  match t with
  | Dec _ d _ => d <> 0
  | _ => True
  end.

(** The integer a sign and a digit string stand for. *)
Definition signed (neg : bool) (d : Z) : Z := if neg then - d else d.

(** The exact sum of two decimal texts, on the larger scale. *)
Definition decimal_add (x y : numtext) : numtext :=
  match x, y with
  | Dec n1 d1 s1, Dec n2 d2 s2 =>
    let s := Z.max s1 s2 in
    let v := signed n1 d1 * 10 ^ (s - s1) + signed n2 d2 * 10 ^ (s - s2) in
    Dec (v <? 0) (Z.abs v) s
  | _, _ => TNaN
  end.

(** The exact decimal sum of a list of prices: what the specification
    asks the value of an appointment to be. *)
Definition decimal_sum (prices : list numtext) : numtext :=
  fold_left decimal_add prices (Dec false 0 0).

(** Two decimal texts of the same number. *)
Definition same_decimal (x y : numtext) : Prop :=
  match x, y with
  | Dec n1 d1 s1, Dec n2 d2 s2 =>
    signed n1 d1 * 10 ^ s2 = signed n2 d2 * 10 ^ s1
  | _, _ => False
  end.

(** ** Prices *)

(** A price with two digits after the point, not negative. *)
Definition two_decimals (p : Procedure) : Prop :=
  exists c, p_value p = Dec false c 2 /\ 0 <= c.

(** The digits of a price: its amount in cents when it has two decimals. *)
Definition price_cents (p : Procedure) : Z :=
  match p_value p with
  | Dec _ d _ => d
  | _ => 0
  end.

(** The exact sum of the prices of a list of procedures, in cents. *)
Definition total_cents (ps : list Procedure) : Z :=
  fold_right (fun p acc => price_cents p + acc) 0 ps.

(** The handler's running total: the binary64 sum of the parsed prices,
    left to right from [start]. *)
Definition sum_prices (ps : list Procedure) (start : number) : number :=
  fold_left (fun sum p => add sum (parseFloat (p_value p))) ps start.

(** ** Rows and databases *)

(** The financial records that reference appointment [appointmentId]. *)
Definition linked (appointmentId : Z) (f : FinancialRecord) : bool :=
  opt_eqb (f_appointmentId f) appointmentId.

(** The junction rows of appointment [id]. *)
Definition of_appointment (id : Z) (ap : AppointmentProcedure) : bool :=
  ap_appointmentId ap =? id.

(** A financial record with another value and date. *)
Definition with_value_date (value : JS.numtext) (date : timestamp)
    (f : FinancialRecord) : FinancialRecord :=
  {| f_id := f_id f; f_type := f_type f; f_category := f_category f;
     f_description := f_description f; f_value := value; f_date := date;
     f_companyId := f_companyId f; f_appointmentId := f_appointmentId f |}.

(** The foreign keys an update of financial records would set point at
    existing rows. *)
Definition references_exist (u : PartialFinancialRecord) (db : DB) : Prop :=
  (forall c, pf_companyId u = Some c -> has_id co_id c (companies db) = true)
  /\ (forall aid, pf_appointmentId u = Some (Some aid) ->
        has_id a_id aid (appointments db) = true).

(** The columns the update handler sets on the linked financial records. *)
Definition resync (value : JS.numtext) (now : timestamp)
    : PartialFinancialRecord :=
  {| pf_type := None; pf_category := None; pf_description := None;
     pf_value := Some value; pf_date := Some now; pf_companyId := None;
     pf_appointmentId := None |}.

(** The database an update of appointment [id] leaves. *)
Definition appointment_updated (id : Z) (data : InsertAppointment) (db : DB)
    : DB :=
  logged (UpdateAppointmentRow id)
    (with_appointments
       (map (fun a =>
               if a_id a =? id
               then set_appointment (ia_clientId data)
                      (ia_collaboratorId data) (ia_procedureId data)
                      (ia_date data) (or_scheduled (ia_status data))
                      (ia_companyId data) (JS.parseFloat (ia_value data))
                      (ia_notes data) a
               else a)
          (appointments db)) db).

(** The database [removeAllProceduresFromAppointment] leaves. *)
Definition junction_cleared (appointmentId : Z) (db : DB) : DB :=
  logged (DeleteAppointmentProcedureRows appointmentId)
    (with_appointmentProcedures
       (filter (fun ap => negb (ap_appointmentId ap =? appointmentId))
          (appointmentProcedures db)) db).

(** The database [addProcedureToAppointment] leaves when it returns. *)
Definition procedure_added (appointmentId : Z) (db : DB) (procedure : Procedure)
    : DB :=
  let id := seq_appointmentProcedures db + 1 in
  let db := with_seq_appointmentProcedures id db in
  logged (InsertAppointmentProcedureRow appointmentId (p_id procedure))
    (with_appointmentProcedures
       (appointmentProcedures db
        ++ [{| ap_id := id; ap_appointmentId := appointmentId;
               ap_procedureId := p_id procedure |}]) db).

(** The junction rows of an appointment for a list of procedures, numbered
    from [next]. *)
Fixpoint junction_rows (next appointmentId : Z) (ps : list Procedure)
    : list AppointmentProcedure :=
  match ps with
  | [] => []
  | p :: ps' =>
    {| ap_id := next; ap_appointmentId := appointmentId;
       ap_procedureId := p_id p |}
    :: junction_rows (next + 1) appointmentId ps'
  end.

(** The database the update of the linked financial records leaves. *)
Definition records_resynced (appointmentId : Z) (value : JS.numtext)
    (now : timestamp) (db : DB) : DB :=
  logged (UpdateFinancialRecordRows appointmentId)
    (with_financialRecords
       (map (fun f => if linked appointmentId f
                      then set_financial_record (resync value now) f else f)
          (financialRecords db)) db).

(** ** Requests and answers *)

(** The status a body asks for, once the schema accepted it. *)
Definition requested_status (body : AppointmentBody) : option string :=
  match b_status body with
  | Given s => Some s
  | _ => None
  end.

(** Into [completed], from another status. *)
Definition completes (new old : string) : bool :=
  String.eqb new "completed" && negb (String.eqb old "completed").

(** The payload carries no row of any table. *)
Definition no_data (p : payload) : Prop :=
  match p with
  | Message _ None => True
  | _ => False
  end.

(** The answer is 403 with a bare message, and the database is the one
    the request found. *)
Definition denied (out : response * DB) (db : DB) : Prop :=
  status (fst out) = 403 /\ no_data (json (fst out)) /\ snd out = db.

(** The rows a query returns satisfy the condition of its first [where]
    too. *)
Definition first_where_applies (chain : where_chain) : Prop :=
  forall (A : Type) (base extra : A -> bool) (x : A),
    chain A base extra x = true -> base x = true.

(** The time filter the handler switches on. *)
Definition effective_filter (timeFilter : option string) : string :=
  match timeFilter with
  | None => "day"
  | Some t => if String.eqb t EmptyString then "day" else t
  end.

(** The rows a query returns satisfy the condition of its last [where]. *)
Definition last_where_applies (chain : where_chain) : Prop :=
  forall (A : Type) (base extra : A -> bool) (x : A),
    chain A base extra x = true -> extra x = true.

(** The submitted procedures are procedures of the company. *)
Definition own_procedures (companyId : option Z) (ids : list Z) (db : DB)
    : Prop :=
  Forall (fun id => exists p, getProcedure id db = Some p
                              /\ Some (p_companyId p) = companyId) ids.

(** A body the schema accepts, whose client and collaborator exist. *)
Definition well_formed (body : AppointmentBody) (db : DB) : Prop :=
  (exists c, b_clientId body = Some c /\ has_id c_id c (clients db) = true)
  /\ (exists u, b_collaboratorId body = Some u
                /\ has_id u_id u (users db) = true)
  /\ b_date body <> None
  /\ b_status body <> IllTyped
  /\ b_notes body <> IllTyped.

(** The tables [db'] has as [db] had them: companies, users, clients and
    procedures. *)
Definition untouched (db db' : DB) : Prop :=
  companies db' = companies db /\ users db' = users db
  /\ clients db' = clients db /\ procedures db' = procedures db.

(** ** A small database: two companies *)
Module Sample.

Definition studio_a : Company :=
  {| co_id := 1; co_name := "Studio A"; co_inviteCode := "A1B2C3D4" |}.
Definition studio_b : Company :=
  {| co_id := 2; co_name := "Studio B"; co_inviteCode := "E5F6A7B8" |}.

Definition member (id : Z) (name role : string) (companyId : Z) : User :=
  {| u_id := id; u_name := name; u_email := name; u_password := "x";
     u_phone := "0"; u_role := role; u_companyId := Some companyId;
     u_function := None |}.

Definition ana : User := member 1 "ana" "admin" 1.
Definition bia : User := member 2 "bia" "collaborator" 1.
Definition caio : User := member 3 "caio" "admin" 2.

Definition customer (id : Z) (name : string) (companyId : Z) : Client :=
  {| c_id := id; c_name := name; c_phone := "0"; c_notes := None;
     c_companyId := companyId; c_createdAt := None |}.

Definition service (id : Z) (name : string) (digits scale companyId : Z)
    : Procedure :=
  {| p_id := id; p_name := name; p_value := JS.Dec false digits scale;
     p_companyId := companyId |}.

(** Prices 19.90, 35.50, 10.00, 1.005 and 90071992547409.93 in company 1,
    30.00 in company 2. *)
Definition corte : Procedure := service 1 "Corte" 1990 2 1.
Definition barba : Procedure := service 2 "Barba" 3550 2 1.
Definition sobrancelha : Procedure := service 3 "Sobrancelha" 1000 2 1.
Definition amostra : Procedure := service 4 "Amostra" 1005 3 1.
Definition pacote : Procedure := service 5 "Pacote" 9007199254740993 2 1.
Definition escova : Procedure := service 6 "Escova" 3000 2 2.

Definition empty_db : DB :=
  {| companies := [studio_a; studio_b];
     users := [ana; bia; caio];
     clients := [customer 1 "Dora" 1; customer 2 "Eva" 2];
     procedures := [corte; barba; sobrancelha; amostra; pacote; escova];
     appointments := [];
     appointmentProcedures := [];
     financialRecords := [];
     seq_appointments := 0;
     seq_appointmentProcedures := 0;
     seq_financialRecords := 0;
     log := [] |}.

Definition booking (procedureIds : list Z) (clientId collaboratorId : Z)
    (status : field string) : AppointmentBody :=
  {| b_procedureIds := Some procedureIds; b_clientId := Some clientId;
     b_collaboratorId := Some collaboratorId; b_date := Some 1700000000000;
     b_status := status; b_notes := Absent |}.

(** Ana books Dora with Bia for the three two-decimal procedures. *)
Definition booked_db : DB :=
  snd (post_appointments (Some ana) (booking [1; 2; 3] 1 2 Absent) empty_db).

(** The appointment is then completed. *)
Definition completed_db : DB :=
  snd (put_appointment (Some ana) 1 (booking [1; 2] 1 2 (Given "completed"))
         1700000360000 booked_db).

(** Caio then books Eva with himself in company 2. *)
Definition two_studios_db : DB :=
  snd (post_appointments (Some caio) (booking [6] 2 3 Absent) booked_db).

(** Days in UTC. *)
Definition utc : LocalTime :=
  {| startOfDay := fun t => t - t mod 86400000;
     endOfDay := fun t => t - t mod 86400000 + 86399999;
     addDays := fun n t => t + n * 86400000;
     startOfMonth := fun t => t - t mod 86400000;
     startOfYear := fun t => t - t mod 86400000 |}.

(** A query builder that keeps the first condition next to the second. *)
Definition conjoin : where_chain := fun _ base extra x => base x && extra x.

(** A query builder whose second [where] replaces the first. *)
Definition overwrite : where_chain := fun _ base extra x => extra x.

(** An appointment of Dora with Bia, in company 1. *)
Definition visit (id : Z) (status : string) : Appointment :=
  {| a_id := id; a_clientId := 1; a_collaboratorId := 2; a_procedureId := 1;
     a_date := 1700000000000; a_status := status; a_companyId := 1;
     a_value := JS.Dec false 1990 2; a_notes := None |}.

(** 200 appointments, 29 of them completed. *)
Definition busy_month : list Appointment :=
  map (fun i => visit (Z.of_nat i)
                  (if (i <? 29)%nat then "completed" else "scheduled"))
    (seq 0 200).

End Sample.

(** * The rest of the server

    The accounts (server/auth.ts), the storage methods and the route
    handlers the booking workflow does not call, and the route table. *)

From Stdlib Require Import Ascii NArith Permutation Sorted.
From Stdlib.Strings Require Byte.

(** ** Buffers and strings: the Node.js functions server/auth.ts calls *)
Module Node.

Definition bytes : Type := list Byte.byte.

(** The digit of a value below 16, in lower case. *)
Definition hex_digit (n : N) : ascii :=
  if (n <? 10)%N then ascii_of_N (48 + n) else ascii_of_N (87 + n).

Definition hex_of_byte (b : Byte.byte) : string :=
  let n := Byte.to_N b in
  String (hex_digit (n / 16)) (String (hex_digit (n mod 16)) EmptyString).

(** [buf.toString('hex')] *)
Fixpoint toHex (buf : bytes) : string :=
  match buf with
  | [] => EmptyString
  | b :: rest => hex_of_byte b ++ toHex rest
  end.

(** The value of a hex digit, in either case. *)
Definition hex_value (c : ascii) : option N :=
  let n := N_of_ascii c in
  if ((48 <=? n) && (n <=? 57))%N then Some (n - 48)%N
  else if ((97 <=? n) && (n <=? 102))%N then Some (n - 87)%N
  else if ((65 <=? n) && (n <=? 70))%N then Some (n - 55)%N
  else None.

(** [Buffer.from(s, 'hex')]: two digits a byte; decoding stops at the first
    pair that is not two hex digits. *)
Fixpoint fromHex (s : string) : bytes :=
  match s with
  | String hi (String lo rest) =>
    match hex_value hi, hex_value lo with
    | Some h, Some l =>
      match Byte.of_N (16 * h + l) with
      | Some b => b :: fromHex rest
      | None => []
      end
    | _, _ => []
    end
  | _ => []
  end.

(** [s.split(sep)] for a separator of one character. *)
Fixpoint split (sep : ascii) (s : string) : list string :=
  match s with
  | EmptyString => [EmptyString]
  | String c rest =>
    if Ascii.eqb c sep then EmptyString :: split sep rest
    else
      match split sep rest with
      | word :: words => String c word :: words
      | [] => [String c EmptyString]
      end
  end.

(** [s.slice(0, n)] *)
Definition slice0 (n : nat) (s : string) : string := substring 0 n s.

Definition upper (c : ascii) : ascii :=
  let n := N_of_ascii c in
  if ((97 <=? n) && (n <=? 122))%N then ascii_of_N (n - 32) else c.

(** [s.toUpperCase()] on a string of ASCII characters. *)
Fixpoint toUpperCase (s : string) : string :=
  match s with
  | EmptyString => EmptyString
  | String c rest => String (upper c) (toUpperCase rest)
  end.

Fixpoint equal_bytes (a b : bytes) : bool :=
  match a, b with
  | [], [] => true
  | x :: a', y :: b' => Byte.eqb x y && equal_bytes a' b'
  | _, _ => false
  end.

End Node.

(** ** The whole database

    The tables of the booking workflow and, beside them, the sequences of
    the tables it only reads.  The statements of the methods below are not
    entered in the log, which has no name for them. *)
Module Store.

Record Store : Type := {
  tables : DB;
  seq_companies : Z;
  seq_users : Z;
  seq_clients : Z;
  seq_procedures : Z
}.

Definition with_tables (v : DB) (s : Store) : Store :=
  {| tables := v; seq_companies := seq_companies s;
     seq_users := seq_users s; seq_clients := seq_clients s;
     seq_procedures := seq_procedures s |}.

Definition with_seq_companies (v : Z) (s : Store) : Store :=
  {| tables := tables s; seq_companies := v; seq_users := seq_users s;
     seq_clients := seq_clients s; seq_procedures := seq_procedures s |}.

Definition with_seq_users (v : Z) (s : Store) : Store :=
  {| tables := tables s; seq_companies := seq_companies s; seq_users := v;
     seq_clients := seq_clients s; seq_procedures := seq_procedures s |}.

Definition with_seq_clients (v : Z) (s : Store) : Store :=
  {| tables := tables s; seq_companies := seq_companies s;
     seq_users := seq_users s; seq_clients := v;
     seq_procedures := seq_procedures s |}.

Definition with_seq_procedures (v : Z) (s : Store) : Store :=
  {| tables := tables s; seq_companies := seq_companies s;
     seq_users := seq_users s; seq_clients := seq_clients s;
     seq_procedures := v |}.

Definition with_companies (v : list Company) (db : DB) : DB :=
  {| companies := v; users := users db; clients := clients db;
     procedures := procedures db; appointments := appointments db;
     appointmentProcedures := appointmentProcedures db;
     financialRecords := financialRecords db;
     seq_appointments := seq_appointments db;
     seq_appointmentProcedures := seq_appointmentProcedures db;
     seq_financialRecords := seq_financialRecords db; log := log db |}.

Definition with_users (v : list User) (db : DB) : DB :=
  {| companies := companies db; users := v; clients := clients db;
     procedures := procedures db; appointments := appointments db;
     appointmentProcedures := appointmentProcedures db;
     financialRecords := financialRecords db;
     seq_appointments := seq_appointments db;
     seq_appointmentProcedures := seq_appointmentProcedures db;
     seq_financialRecords := seq_financialRecords db; log := log db |}.

(** What the methods and the functions of server/auth.ts throw. *)
Inductive fault : Type :=
| Statement (e : error)
| UniqueViolation (table column : string)
| TypeError (what : string)
| RangeError (what : string).

Inductive outcome (A : Type) : Type :=
| Done (a : A)
| Raise (f : fault).
Arguments Done {A} a.
Arguments Raise {A} f.

(** A method of the booking workflow, on the whole database. *)
Definition on_tables {A : Type} (m : M A) (s : Store) : outcome A * Store :=
  match m (tables s) with
  | (Ok a, db) => (Done a, with_tables db s)
  | (Throw e, db) => (Raise (Statement e), with_tables db s)
  end.

Record InsertUser : Type := {
  iu_name : string;
  iu_email : string;
  iu_password : string;
  iu_phone : string;
  iu_role : string;
  (* [None]: [undefined] or [null] *)
  iu_companyId : option Z;
  iu_function : option string
}.

(** *** Reads *)

Definition getUserByEmail (email : string) (db : DB) : option User :=
  find (fun u => String.eqb (u_email u) email) (users db).

Definition getCompany (id : option Z) (db : DB) : option Company :=
  find (fun c => opt_eqb id (co_id c)) (companies db).

Definition getCompanyByInviteCode (code : string) (db : DB) : option Company :=
  find (fun c => String.eqb (co_inviteCode c) code) (companies db).

Definition getProceduresByCompany (companyId : option Z) (db : DB)
    : list Procedure :=
  order_by (fun a b => String.leb (p_name a) (p_name b))
    (filter (fun p => opt_eqb companyId (p_companyId p)) (procedures db)).

Definition same_company (companyId : option Z) (u : User) : bool :=
  match companyId, u_companyId u with
  | Some c, Some c' => c' =? c
  | _, _ => false
  end.

Definition getCollaboratorsByCompany (companyId : option Z) (db : DB)
    : list User :=
  order_by (fun a b => String.leb (u_name a) (u_name b))
    (filter (same_company companyId) (users db)).

Definition getAppointmentsByCompany (companyId : option Z) (db : DB)
    : list Appointment :=
  order_by (fun a b => a_date b <=? a_date a)
    (filter (fun a => opt_eqb companyId (a_companyId a)) (appointments db)).

Definition getFinancialRecordsByCompany (companyId : option Z) (db : DB)
    : list FinancialRecord :=
  order_by (fun a b => f_date b <=? f_date a)
    (filter (fun f => opt_eqb companyId (f_companyId f))
       (financialRecords db)).

(** *** Inserts *)

Definition createCompany (name inviteCode : string) (s : Store)
    : outcome Company * Store :=
  let id := seq_companies s + 1 in
  let s := with_seq_companies id s in
  let db := tables s in
  if existsb (fun c => String.eqb (co_inviteCode c) inviteCode)
       (companies db) then
    (Raise (UniqueViolation "companies" "invite_code"), s)
  else
    let row := {| co_id := id; co_name := name;
                  co_inviteCode := inviteCode |} in
    (Done row, with_tables (with_companies (companies db ++ [row]) db) s).

Definition createUser (user : InsertUser) (s : Store) : outcome User * Store :=
  let id := seq_users s + 1 in
  let s := with_seq_users id s in
  let db := tables s in
  if existsb (fun u => String.eqb (u_email u) (iu_email user)) (users db) then
    (Raise (UniqueViolation "users" "email"), s)
  else if match iu_companyId user with
          | Some c => negb (has_id co_id c (companies db))
          | None => false
          end then
    (Raise (Statement (ForeignKeyViolation "users" "company_id")), s)
  else
    let row := {| u_id := id; u_name := iu_name user;
                  u_email := iu_email user; u_password := iu_password user;
                  u_phone := iu_phone user; u_role := iu_role user;
                  u_companyId := iu_companyId user;
                  u_function := iu_function user |} in
    (Done row, with_tables (with_users (users db ++ [row]) db) s).

(** [now] is the [now()] of the column default of [created_at]. *)
Definition createClient (now : timestamp) (client : InsertClient) (s : Store)
    : outcome Client * Store :=
  let id := seq_clients s + 1 in
  let s := with_seq_clients id s in
  let db := tables s in
  if negb (has_id co_id (ic_companyId client) (companies db)) then
    (Raise (Statement (ForeignKeyViolation "clients" "company_id")), s)
  else
    let row := {| c_id := id; c_name := ic_name client;
                  c_phone := ic_phone client;
                  c_notes := match ic_notes client with
                             | Some n => n
                             | None => None
                             end;
                  c_companyId := ic_companyId client;
                  c_createdAt := Some now |} in
    (Done row, with_tables (with_clients (clients db ++ [row]) db) s).

Definition createProcedure (procedure : InsertProcedure) (s : Store)
    : outcome Procedure * Store :=
  match ip_value procedure with
  | None => (Raise (Statement (InvalidNumericText "procedures" "value")), s)
  | Some value =>
    let id := seq_procedures s + 1 in
    let s := with_seq_procedures id s in
    let db := tables s in
    if negb (has_id co_id (ip_companyId procedure) (companies db)) then
      (Raise (Statement (ForeignKeyViolation "procedures" "company_id")), s)
    else
      let row := {| p_id := id; p_name := ip_name procedure;
                    p_value := numeric_in value;
                    p_companyId := ip_companyId procedure |} in
      (Done row, with_tables (with_procedures (procedures db ++ [row]) db) s)
  end.

End Store.

(** ** Answers

    The payloads of the handlers below, beside those of the booking
    handlers. *)
Module Http.

Inductive content : Type :=
| Json (p : payload)
(* [res.sendStatus]: the text of the status, no JSON *)
| StatusText
(* the page of the framework's error handler, reached through [next(err)] *)
| ErrorPage
| ClientsJson (rows : list Client)
| UsersJson (rows : list User)
| AppointmentsJson (rows : list Appointment)
| FinancialRecordsJson (rows : list FinancialRecord)
| FinancialRecordJson (row : FinancialRecord)
| UserJson (user : User)
| CompanyJson (company : Company)
| RegistrationJson (user : User) (company : Company).

Record answer : Type := {
  code : Z;
  sent : content
}.

Definition send (status : Z) (c : content) : answer :=
  {| code := status; sent := c |}.

Definition basic (r : response) : answer := send (status r) (Json (json r)).

(** What a request does to the session. *)
Inductive session_effect : Type :=
| Keep
| LogIn (user : User)
| LogOut.

End Http.

(** ** Accounts (server/auth.ts) *)
Module Auth.
Import Node Store Http.

(** [randomBytes] at one call site: the bytes it gives for a length. *)
Definition random : Type := nat -> bytes.

Definition generateInviteCode (randomBytes : random) (length : nat) : string :=
  toUpperCase (slice0 length (toHex (randomBytes ((length + 1) / 2)%nat))).

Definition timingSafeEqual (a b : bytes) : outcome bool :=
  if negb (Nat.eqb (List.length a) (List.length b)) then
    Raise (RangeError "Input buffers must have the same byte length")
  else Done (equal_bytes a b).

Record UserBody : Type := {
  ub_name : option string;
  ub_email : option string;
  ub_password : option string;
  ub_phone : option string;
  (* [Given None] is [null] *)
  ub_companyId : field (option Z);
  ub_function : field (option string)
}.

Definition nullable {A : Type} (o : option (option A)) : option A :=
  match o with
  | Some v => v
  | None => None
  end.

(** [insertUserSchema.parse({...body, role, companyId})] *)
Definition parse_user (body : UserBody) (role : string)
    (companyId : field (option Z)) : result InsertUser :=
  match ub_name body with
  | None => Throw (ZodError "name")
  | Some name =>
  match ub_email body with
  | None => Throw (ZodError "email")
  | Some email =>
  match ub_password body with
  | None => Throw (ZodError "password")
  | Some password =>
  match ub_phone body with
  | None => Throw (ZodError "phone")
  | Some phone =>
  match optional companyId with
  | Throw e => Throw (ZodError "companyId")
  | Ok companyId =>
  match optional (ub_function body) with
  | Throw e => Throw (ZodError "function")
  | Ok function =>
    Ok {| iu_name := name; iu_email := email; iu_password := password;
          iu_phone := phone; iu_role := role;
          iu_companyId := nullable companyId;
          iu_function := nullable function |}
  end end end end end end.

(** [{...userData, password, companyId}] *)
Definition with_credentials (password : string) (companyId : option Z)
    (user : InsertUser) : InsertUser :=
  {| iu_name := iu_name user; iu_email := iu_email user;
     iu_password := password; iu_phone := iu_phone user;
     iu_role := iu_role user; iu_companyId := companyId;
     iu_function := iu_function user |}.

Definition bad_request (message : string) : answer :=
  send 400 (Json (Message message None)).

Definition validation_failed (e : error) : answer :=
  send 400 (Json (Message "Validation error" (Some e))).

Section Crypto.
(** [scryptAsync(password, salt, 64)] *)
Variable scrypt : string -> string -> bytes.

Definition hashPassword (randomBytes : random) (password : string) : string :=
  let salt := toHex (randomBytes 16%nat) in
  let buf := scrypt password salt in
  toHex buf ++ "." ++ salt.

Definition comparePasswords (supplied stored : string) : outcome bool :=
  match split "."%char stored with
  | hashed :: salt :: _ =>
    let hashedBuf := fromHex hashed in
    let suppliedBuf := scrypt supplied salt in
    timingSafeEqual hashedBuf suppliedBuf
  | _ => Raise (TypeError "salt")
  end.

(** The verify callback of the local strategy. *)
Definition verify (email password : string) (db : DB)
    : outcome (option User) :=
  match getUserByEmail email db with
  | None => Done None
  | Some user =>
    match comparePasswords password (u_password user) with
    | Raise f => Raise f
    | Done true => Done (Some user)
    | Done false => Done None
    end
  end.

Definition invalid_login : answer :=
  send 401 (Json (Message "Invalid email or password" None)).

(** POST /api/login; a credential that is missing or empty is [None]. *)
Definition login (email password : option string) (db : DB)
    : answer * session_effect :=
  match email, password with
  | Some email, Some password =>
    if String.eqb email EmptyString || String.eqb password EmptyString then
      (invalid_login, Keep)
    else
      match verify email password db with
      | Raise f => (send 500 ErrorPage, Keep)
      | Done None => (invalid_login, Keep)
      | Done (Some user) => (send 200 (UserJson user), LogIn user)
      end
  | _, _ => (invalid_login, Keep)
  end.

(** POST /api/register/admin; [code] and [salt] are [randomBytes] in
    [generateInviteCode] and in [hashPassword]. *)
Definition register_admin (companyName : option string) (user : UserBody)
    (code salt : random) (s : Store) : (answer * session_effect) * Store :=
  match companyName with
  | None => ((validation_failed (ZodError "name"), Keep), s)
  | Some name =>
    match parse_user user "admin" (ub_companyId user) with
    | Throw e => ((validation_failed e, Keep), s)
    | Ok userData =>
      match getUserByEmail (iu_email userData) (tables s) with
      | Some existingUser =>
        ((bad_request "Email already registered", Keep), s)
      | None =>
        let inviteCode := generateInviteCode code 8 in
        match createCompany name inviteCode s with
        | (Raise f, s1) => ((send 500 ErrorPage, Keep), s1)
        | (Done company, s1) =>
          match createUser
                  (with_credentials
                     (hashPassword salt (iu_password userData))
                     (Some (co_id company)) userData) s1 with
          | (Raise f, s2) => ((send 500 ErrorPage, Keep), s2)
          | (Done user, s2) =>
            ((send 201 (RegistrationJson user company), LogIn user), s2)
          end
        end
      end
    end
  end.

(** POST /api/register/collaborator, for a body whose [inviteCode] is a
    string. *)
Definition register_collaborator (inviteCode : string) (user : UserBody)
    (salt : random) (s : Store) : (answer * session_effect) * Store :=
  match getCompanyByInviteCode inviteCode (tables s) with
  | None => ((bad_request "Invalid invite code", Keep), s)
  | Some company =>
    match parse_user user "collaborator" (Given (Some (co_id company))) with
    | Throw e => ((validation_failed e, Keep), s)
    | Ok validatedUserData =>
      match getUserByEmail (iu_email validatedUserData) (tables s) with
      | Some existingUser =>
        ((bad_request "Email already registered", Keep), s)
      | None =>
        match createUser
                (with_credentials
                   (hashPassword salt (iu_password validatedUserData))
                   (iu_companyId validatedUserData) validatedUserData) s with
        | (Raise f, s1) => ((send 500 ErrorPage, Keep), s1)
        | (Done user, s1) =>
          ((send 201 (RegistrationJson user company), LogIn user), s1)
        end
      end
    end
  end.

End Crypto.

(** POST /api/logout *)
Definition logout : answer * session_effect := (send 200 StatusText, LogOut).

(** GET /api/user *)
Definition get_user (user : option User) : answer :=
  match user with
  | None => send 401 StatusText
  | Some user => send 200 (UserJson user)
  end.

(** GET /api/company *)
Definition get_company (user : option User) (db : DB) : answer :=
  match user with
  | None => send 401 StatusText
  | Some user =>
    match getCompany (u_companyId user) db with
    | None => send 404 (Json (Message "Company not found" None))
    | Some company => send 200 (CompanyJson company)
    end
  end.

End Auth.

(** ** The other route handlers (server/routes.ts) *)
Module Api.
Import Node Store Http Auth.

Definition server_error : answer :=
  send 500 (Json (Message "Server error" None)).

(** [handleValidationError] on what a method throws. *)
Definition handleValidationFault (f : fault) : answer :=
  match f with
  | Statement e => basic (handleValidationError e)
  | _ => server_error
  end.

(** GET /api/clients *)
Definition get_clients (user : option User) (db : DB) : answer :=
  match user with
  | None => basic unauthorized
  | Some user => send 200 (ClientsJson (getClientsByCompany (u_companyId user) db))
  end.

(** POST /api/clients *)
Definition post_clients (user : option User) (body : ClientBody)
    (now : timestamp) (s : Store) : answer * Store :=
  match user with
  | None => (basic unauthorized, s)
  | Some user =>
    match parse_client body (u_companyId user) with
    | Throw e => (basic (handleValidationError e), s)
    | Ok clientData =>
      match createClient now clientData s with
      | (Done client, s') => (send 201 (Json (ClientJson client)), s')
      | (Raise f, s') => (handleValidationFault f, s')
      end
    end
  end.

(** GET /api/procedures *)
Definition get_procedures (user : option User) (db : DB) : answer :=
  match user with
  | None => basic unauthorized
  | Some user =>
    send 200 (Json (ProceduresJson
                      (getProceduresByCompany (u_companyId user) db)))
  end.

(** POST /api/procedures *)
Definition post_procedures (user : option User) (body : ProcedureBody)
    (s : Store) : answer * Store :=
  match user with
  | None => (basic admin_required, s)
  | Some user =>
    if negb (is_admin user) then (basic admin_required, s)
    else
      match parse_procedure body (u_companyId user) with
      | Throw e => (basic (handleValidationError e), s)
      | Ok procedureData =>
        match createProcedure procedureData s with
        | (Done procedure, s') =>
          (send 201 (Json (ProcedureJson procedure)), s')
        | (Raise f, s') => (handleValidationFault f, s')
        end
      end
  end.

(** GET /api/collaborators *)
Definition get_collaborators (user : option User) (db : DB) : answer :=
  match user with
  | None => basic unauthorized
  | Some user =>
    send 200 (UsersJson (getCollaboratorsByCompany (u_companyId user) db))
  end.

(** The query string of GET /api/appointments.  A parameter that is missing
    or empty is [None]; a date is what [new Date] reads, [Some None] when it
    reads none; an id is what [parseInt] reads, [Some None] for [NaN]. *)
Record AppointmentQuery : Type := {
  q_startDate : option (option timestamp);
  q_endDate : option (option timestamp);
  q_collaboratorId : option (option Z);
  q_clientId : option (option Z)
}.

(** The query string of GET /api/financial-records. *)
Record FinancialQuery : Type := {
  fq_startDate : option (option timestamp);
  fq_endDate : option (option timestamp);
  fq_type : option string
}.

Record FinancialRecordBody : Type := {
  fb_type : option string;
  fb_category : option string;
  fb_description : option string;
  (* [None]: missing or not a string; [Some None]: a string that is not the
     text of a number *)
  fb_value : option (option JS.numtext);
  (* [new Date(body.date)] for a string; [None]: missing, not a string, or
     an invalid date *)
  fb_date : option timestamp;
  (* [Given None] is [null] *)
  fb_appointmentId : field (option Z)
}.

(** [insertFinancialRecordSchema.parse(preprocessedData)]; [Ok None] when the
    schema accepts a value that is not the text of a number, which the insert
    statement will refuse. *)
Definition parse_financial_record (body : FinancialRecordBody)
    (companyId : option Z) : result (option InsertFinancialRecord) :=
  match fb_type body with
  | None => Throw (ZodError "type")
  | Some type =>
  match fb_category body with
  | None => Throw (ZodError "category")
  | Some category =>
  match fb_description body with
  | None => Throw (ZodError "description")
  | Some description =>
  match fb_value body with
  | None => Throw (ZodError "value")
  | Some value =>
  match fb_date body with
  | None => Throw (ZodError "date")
  | Some date =>
  match companyId with
  | None => Throw (ZodError "companyId")
  | Some companyId =>
  match optional (fb_appointmentId body) with
  | Throw e => Throw (ZodError "appointmentId")
  | Ok appointmentId =>
    Ok (option_map
          (fun value =>
             {| if_type := type; if_category := category;
                if_description := description; if_value := value;
                if_date := date; if_companyId := companyId;
                if_appointmentId := nullable appointmentId |})
          value)
  end end end end end end end.

Section Queries.
Variable chain : where_chain.

(** GET /api/appointments *)
Definition get_appointments (user : option User) (query : AppointmentQuery)
    (db : DB) : answer :=
  match user with
  | None => basic unauthorized
  | Some user =>
    let companyId := u_companyId user in
    match q_startDate query, q_endDate query with
    | Some startDate, Some endDate =>
      match startDate, endDate with
      | Some startDate, Some endDate =>
        send 200
          (AppointmentsJson
             (getAppointmentsByDateRange chain companyId startDate endDate
                (nullable (q_collaboratorId query)) db))
      | _, _ => server_error
      end
    | _, _ =>
      match q_clientId query with
      | Some clientId =>
        send 200
          (AppointmentsJson
             (filter (fun a => match clientId with
                               | Some id => a_clientId a =? id
                               | None => false
                               end)
                (getAppointmentsByCompany companyId db)))
      | None =>
        send 200 (AppointmentsJson (getAppointmentsByCompany companyId db))
      end
    end
  end.

(** GET /api/financial-records *)
Definition get_financial_records (user : option User) (query : FinancialQuery)
    (db : DB) : answer :=
  match user with
  | None => basic unauthorized
  | Some user =>
    let companyId := u_companyId user in
    match fq_startDate query, fq_endDate query with
    | Some startDate, Some endDate =>
      match startDate, endDate with
      | Some startDate, Some endDate =>
        send 200
          (FinancialRecordsJson
             (getFinancialRecordsByDateRange chain companyId startDate
                endDate (fq_type query) db))
      | _, _ => server_error
      end
    | _, _ =>
      send 200
        (FinancialRecordsJson (getFinancialRecordsByCompany companyId db))
    end
  end.

End Queries.

(** POST /api/financial-records *)
Definition post_financial_records (user : option User)
    (body : FinancialRecordBody) (db : DB) : answer * DB :=
  match user with
  | None => (basic admin_required, db)
  | Some user =>
    if negb (is_admin user) then (basic admin_required, db)
    else
      match parse_financial_record body (u_companyId user) with
      | Throw e => (basic (handleValidationError e), db)
      | Ok None => (server_error, db)
      | Ok (Some recordData) =>
        match createFinancialRecord recordData db with
        | (Ok record, db') => (send 201 (FinancialRecordJson record), db')
        | (Throw e, db') => (basic (handleValidationError e), db')
        end
      end
  end.

(** *** The route table

    A request with what its handler reads from the clock and from
    [randomBytes].  The two routes of the financial goals are not in it. *)
Inductive request : Type :=
| GetAppointmentProcedures (id : Z)
| GetClients
| PostClients (body : ClientBody) (now : timestamp)
| GetClient (id : Z)
| PutClient (id : Z) (body : ClientBody)
| DeleteClient (id : Z)
| GetProcedures
| PostProcedures (body : ProcedureBody)
| PutProcedure (id : Z) (body : ProcedureBody)
| DeleteProcedure (id : Z)
| GetCollaborators
| GetAppointments (query : AppointmentQuery)
| PostAppointments (body : AppointmentBody)
| PutAppointment (id : Z) (body : AppointmentBody) (now : timestamp)
| DeleteAppointment (id : Z)
| GetFinancialRecords (query : FinancialQuery)
| PostFinancialRecords (body : FinancialRecordBody)
| GetDashboardStats (timeFilter : option string) (now now1 now2 : timestamp)
| RegisterAdmin (companyName : option string) (user : UserBody)
    (code salt : random)
| RegisterCollaborator (inviteCode : string) (user : UserBody) (salt : random)
| Login (email password : option string)
| Logout
| GetUser
| GetCompany.

(** [deserializeUser]: the user of the session, read at each request. *)
Definition deserializeUser (session : option Z) (db : DB) : option User :=
  match session with
  | Some id => getUser id db
  | None => None
  end.

Section Server.
Variable chain : where_chain.
Variable tz : LocalTime.
Variable scrypt : string -> string -> bytes.

Definition answered (a : answer) (s : Store)
    : (answer * session_effect) * Store :=
  ((a, Keep), s).

Definition lifted (out : response * DB) (s : Store)
    : (answer * session_effect) * Store :=
  ((basic (fst out), Keep), with_tables (snd out) s).

Definition handle (session : option Z) (req : request) (s : Store)
    : (answer * session_effect) * Store :=
  let db := tables s in
  let user := deserializeUser session db in
  match req with
  | GetAppointmentProcedures id =>
    lifted (get_appointment_procedures user id db) s
  | GetClients => answered (get_clients user db) s
  | PostClients body now =>
    let (a, s') := post_clients user body now s in ((a, Keep), s')
  | GetClient id => lifted (get_client user id db) s
  | PutClient id body => lifted (put_client user id body db) s
  | DeleteClient id => lifted (delete_client user id db) s
  | GetProcedures => answered (get_procedures user db) s
  | PostProcedures body =>
    let (a, s') := post_procedures user body s in ((a, Keep), s')
  | PutProcedure id body => lifted (put_procedure user id body db) s
  | DeleteProcedure id => lifted (delete_procedure user id db) s
  | GetCollaborators => answered (get_collaborators user db) s
  | GetAppointments query => answered (get_appointments chain user query db) s
  | PostAppointments body => lifted (post_appointments user body db) s
  | PutAppointment id body now =>
    lifted (put_appointment user id body now db) s
  | DeleteAppointment id => lifted (delete_appointment_route user id db) s
  | GetFinancialRecords query =>
    answered (get_financial_records chain user query db) s
  | PostFinancialRecords body =>
    let (a, db') := post_financial_records user body db in
    ((a, Keep), with_tables db' s)
  | GetDashboardStats timeFilter now now1 now2 =>
    lifted (get_dashboard_stats chain tz user timeFilter now now1 now2 db) s
  | RegisterAdmin companyName body code salt =>
    register_admin scrypt companyName body code salt s
  | RegisterCollaborator inviteCode body salt =>
    register_collaborator scrypt inviteCode body salt s
  | Login email password => (login scrypt email password db, s)
  | Logout => (logout, s)
  | GetUser => answered (get_user user) s
  | GetCompany => answered (get_company user db) s
  end.

(** The database a sequence of requests leaves, each with its session. *)
Definition serve (requests : list (option Z * request)) (s : Store) : Store :=
  fold_left (fun s r => snd (handle (fst r) (snd r) s)) requests s.

End Server.

End Api.

Import Node Store Http Auth Api.

(** * The vocabulary of the further properties *)

(** ** Texts *)

(** Every character of [s] satisfies [p]. *)
Fixpoint all_chars (p : ascii -> bool) (s : string) : bool :=
  match s with
  | EmptyString => true
  | String c rest => p c && all_chars p rest
  end.

(** A digit, or a capital from A to F. *)
Definition upper_hex (c : ascii) : bool :=
  let n := N_of_ascii c in
  ((48 <=? n) && (n <=? 57) || (65 <=? n) && (n <=? 70))%N.

(** ** Consistent databases *)

(** The keys of a table are pairwise distinct and not beyond the sequence
    they are drawn from. *)
Definition serial {A : Type} (key : A -> Z) (seq : Z) (rows : list A) : Prop :=
  NoDup (map key rows) /\ Forall (fun r => key r <= seq) rows.

(** An optional reference points at a row. *)
Definition refers {A : Type} (key : A -> Z) (rows : list A) (o : option Z)
    : Prop :=
  match o with
  | Some id => has_id key id rows = true
  | None => True
  end.

(** Every foreign key the schema declares points at an existing row. *)
Definition references_ok (db : DB) : Prop :=
  Forall (fun u => refers co_id (companies db) (u_companyId u)) (users db)
  /\ Forall (fun c => has_id co_id (c_companyId c) (companies db) = true)
       (clients db)
  /\ Forall (fun p => has_id co_id (p_companyId p) (companies db) = true)
       (procedures db)
  /\ Forall (fun a =>
               has_id c_id (a_clientId a) (clients db) = true
               /\ has_id u_id (a_collaboratorId a) (users db) = true
               /\ has_id p_id (a_procedureId a) (procedures db) = true
               /\ has_id co_id (a_companyId a) (companies db) = true)
       (appointments db)
  /\ Forall (fun ap =>
               has_id a_id (ap_appointmentId ap) (appointments db) = true
               /\ has_id p_id (ap_procedureId ap) (procedures db) = true)
       (appointmentProcedures db)
  /\ Forall (fun f =>
               has_id co_id (f_companyId f) (companies db) = true
               /\ refers a_id (appointments db) (f_appointmentId f))
       (financialRecords db).

(** The unique columns: the email of a user, the invite code of a company. *)
Definition unique_ok (db : DB) : Prop :=
  NoDup (map u_email (users db)) /\ NoDup (map co_inviteCode (companies db)).

(** A database as the constraints of the schema keep it, with the four
    sequences beside it. *)
Definition consistent_with (sc su scl sp : Z) (db : DB) : Prop :=
  serial co_id sc (companies db)
  /\ serial u_id su (users db)
  /\ serial c_id scl (clients db)
  /\ serial p_id sp (procedures db)
  /\ serial a_id (seq_appointments db) (appointments db)
  /\ serial ap_id (seq_appointmentProcedures db) (appointmentProcedures db)
  /\ serial f_id (seq_financialRecords db) (financialRecords db)
  /\ references_ok db
  /\ unique_ok db.

Definition consistent (s : Store) : Prop :=
  consistent_with (seq_companies s) (seq_users s) (seq_clients s)
    (seq_procedures s) (tables s).

(** The procedures linked to an appointment are procedures of its
    company. *)
Definition procedures_in_company (db : DB) : Prop :=
  forall ap a p,
    In ap (appointmentProcedures db) ->
    In a (appointments db) ->
    In p (procedures db) ->
    ap_appointmentId ap = a_id a ->
    ap_procedureId ap = p_id p ->
    p_companyId p = a_companyId a.

(** A storage method keeps a property of the database, whether it returns
    or throws. *)
Definition preserves (P : DB -> Prop) {A : Type} (m : M A) : Prop :=
  forall db, P db -> P (snd (m db)).

(** ** Ordered lists of rows *)

(** Every row is followed by rows that are not earlier. *)
Definition ascending {A : Type} (date : A -> Z) (rows : list A) : Prop :=
  StronglySorted (fun a b => date a <= date b) rows.

(** Every row is followed by rows that are not later. *)
Definition descending {A : Type} (date : A -> Z) (rows : list A) : Prop :=
  StronglySorted (fun a b => date b <= date a) rows.

(** The condition of the first [where] of the range query on appointments. *)
Definition in_range (companyId : option Z) (startDate endDate : timestamp)
    (a : Appointment) : bool :=
  opt_eqb companyId (a_companyId a)
  && (startDate <=? a_date a) && (a_date a <=? endDate).

(** The rows of a list answer, when the payload is one. *)
Definition appointments_sent (a : answer) : option (list Appointment) :=
  match sent a with
  | AppointmentsJson rows => Some rows
  | _ => None
  end.

(** A row of company [companyId]. *)
Definition of_company {A : Type} (company : A -> Z) (companyId : option Z)
    (row : A) : bool :=
  opt_eqb companyId (company row).

(** An appointment of client [clientId], as the listing compares them:
    [NaN] is no client. *)
Definition of_client (clientId : option Z) (a : Appointment) : bool :=
  match clientId with
  | Some id => a_clientId a =? id
  | None => false
  end.

(** The query has both dates. *)
Definition ranged (startDate endDate : option (option timestamp)) : bool :=
  match startDate, endDate with
  | Some _, Some _ => true
  | _, _ => false
  end.

(** ** Amounts *)

(** The text reads as the amount of [c] cents. *)
Definition reads_as_cents (t : JS.numtext) (c : Z) : Prop :=
  0 <= c /\ JS.Number_ t = JS.parseFloat (JS.Dec false c 2).

(** The sum of a list of amounts. *)
Definition sum_cents (cents : list Z) : Z := fold_right Z.add 0 cents.

(** ** Rows and their companies *)

(** A row of [new] either is a row of [old] up to the columns an update may
    set, with the key and the company it had, or has a key drawn after
    [seq]. *)
Definition kept {A : Type} (key company : A -> Z) (seq : Z) (old new : list A)
    : Prop :=
  Forall (fun r' => (exists r, In r old /\ key r = key r'
                               /\ company r = company r')
                    \/ seq < key r') new.

(** The rows that are in both lists, by their keys, have the company they
    had. *)
Definition same_tenant {A : Type} (key company : A -> Z) (old new : list A)
    : Prop :=
  forall r r', In r old -> In r' new -> key r' = key r ->
               company r' = company r.

(** From [s] to [s'] the sequences did not go back, and the clients, the
    procedures and the appointments kept their companies. *)
Definition evolves (s s' : Store) : Prop :=
  seq_clients s <= seq_clients s'
  /\ seq_procedures s <= seq_procedures s'
  /\ seq_appointments (tables s) <= seq_appointments (tables s')
  /\ kept c_id c_companyId (seq_clients s) (clients (tables s))
       (clients (tables s'))
  /\ kept p_id p_companyId (seq_procedures s) (procedures (tables s))
       (procedures (tables s'))
  /\ kept a_id a_companyId (seq_appointments (tables s))
       (appointments (tables s)) (appointments (tables s')).

(** The session is not one of an administrator. *)
Definition not_admin (session : option Z) (db : DB) : Prop :=
  forall user, deserializeUser session db = Some user -> is_admin user = false.

(** The routes behind the [isAdmin] middleware. *)
Definition admin_route (req : request) : bool :=
  match req with
  | DeleteClient _ | PostProcedures _ | PutProcedure _ _ | DeleteProcedure _
  | PostFinancialRecords _ => true
  | _ => false
  end.

(** ** Amounts, windows and updates *)

(** A price that is not negative and has at most two digits after the
    point: ['30'], ['19.9'], ['19.90']. *)
Definition cent_price (t : numtext) : Prop :=
  match t with
  | Dec false d s => 0 <= d /\ 0 <= s <= 2
  | _ => False
  end.

(** The amount of such a price in cents. *)
Definition cents_of (t : numtext) : Z :=
  match t with
  | Dec _ d s => d * 10 ^ (2 - s)
  | _ => 0
  end.

Definition cent_priced (p : Procedure) : Prop := cent_price (p_value p).

(** The exact sum of the prices of a list of procedures, in cents. *)
Definition sum_in_cents (ps : list Procedure) : Z :=
  fold_right (fun p acc => cents_of (p_value p) + acc) 0 ps.

(** The procedure with its price written with two digits after the
    point. *)
Definition in_cents (p : Procedure) : Procedure :=
  {| p_id := p_id p; p_name := p_name p;
     p_value := Dec false (cents_of (p_value p)) 2;
     p_companyId := p_companyId p |}.

(** A query builder whose successive [where] calls all apply: a row is
    returned when it satisfies every condition. *)
Definition where_conjoins (chain : where_chain) : Prop :=
  forall (A : Type) (base extra : A -> bool) (x : A),
    chain A base extra x = base x && extra x.

(** The number of appointments of a list whose status is [s]. *)
Definition with_status (s : string) (rows : list Appointment) : Z :=
  Z.of_nat (count_occ string_dec (map a_status rows) s).

(** An appointment the dashboard of [user] counts for a window: one of the
    user's company dated in the window, and for a user who is not an admin
    one whose collaborator the user is. *)
Definition counted_for (user : User) (startDate endDate : timestamp)
    (a : Appointment) : bool :=
  in_range (u_companyId user) startDate endDate a
  && (is_admin user || (a_collaboratorId a =? u_id user)).



(** An update that sets no column: [{}]. *)
Definition empty_update : PartialFinancialRecord :=
  {| pf_type := None; pf_category := None; pf_description := None;
     pf_value := None; pf_date := None; pf_companyId := None;
     pf_appointmentId := None |}.

(** The rows and the log [db'] has as [db] had them; the sequences may
    differ. *)
Definition same_rows (db db' : DB) : Prop :=
  untouched db db'
  /\ appointments db' = appointments db
  /\ appointmentProcedures db' = appointmentProcedures db
  /\ financialRecords db' = financialRecords db
  /\ log db' = log db.

(** ** A day at the two studios *)
Module Tour.
Import Sample.

(** A stand-in for the key derivation: the bytes of the salt, then those of
    the password. *)
Definition toy_scrypt (password salt : string) : bytes :=
  list_byte_of_string (salt ++ password).

(** A [randomBytes] that counts from 0xAB. *)
Definition counting : random :=
  fun n => map (fun i => byte_of_ascii (ascii_of_nat (171 + i))) (seq 0 n).

(** The database of the two studios and the sequences its keys came from. *)
Definition studio : Store :=
  {| tables := empty_db; seq_companies := 2; seq_users := 3;
     seq_clients := 2; seq_procedures := 6 |}.

Definition newcomer : UserBody :=
  {| ub_name := Some "Duda"; ub_email := Some "duda@studio.example";
     ub_password := Some "secret"; ub_phone := Some "0";
     ub_companyId := Absent; ub_function := Absent |}.

Definition helper : UserBody :=
  {| ub_name := Some "Gil"; ub_email := Some "gil@studio.example";
     ub_password := Some "hunter22"; ub_phone := Some "0";
     ub_companyId := Absent; ub_function := Given (Some "Manicure") |}.

(** Duda opens a third studio. *)
Definition signup : (answer * session_effect) * Store :=
  register_admin toy_scrypt (Some "Studio C") newcomer counting counting
    studio.

(** Gil joins Studio A with its invite code. *)
Definition joining : (answer * session_effect) * Store :=
  register_collaborator toy_scrypt "A1B2C3D4" helper counting studio.

(** The requests of a day, each with the user id of its session. *)
Definition day : list (option Z * request) :=
  [ (None, RegisterAdmin (Some "Studio C") newcomer counting counting);
    (Some 1, PostClients {| cb_name := Some "Fabi"; cb_phone := Some "0";
                            cb_notes := Absent |} 1700000000000);
    (Some 1, PostAppointments (booking [1; 2; 3] 1 2 Absent));
    (Some 2, PutAppointment 1 (booking [1; 2] 1 2 (Given "completed"))
               1700000360000);
    (Some 1, PutProcedure 3 {| pb_name := Some "Sobrancelha";
                               pb_value := Some (Some (JS.Dec false 1500 2)) |});
    (Some 3, PostAppointments (booking [6] 2 3 Absent));
    (Some 1, DeleteClient 1);
    (Some 3, DeleteAppointment 2);
    (Some 2, DeleteProcedure 3) ].

(** Three income records of 19.90, 35.50 and 10.00. *)
Definition takings : list FinancialRecord :=
  map (fun c => {| f_id := c; f_type := "income"; f_category := "appointment";
                   f_description := "x"; f_value := JS.Dec false c 2;
                   f_date := 1700000000000; f_companyId := 1;
                   f_appointmentId := None |})
    [1990; 3550; 1000].

(** A salon whose prices are written ['30'], ['19.9'] and ['19.90']. *)
Definition salon_db : DB :=
  with_procedures
    [service 1 "Manicure" 30 0 1; service 2 "Pedicure" 199 1 1;
     service 3 "Corte" 1990 2 1]
    empty_db.

(** Ana books twice more after the first appointment was completed. *)
Definition week_db : DB :=
  snd (post_appointments (Some ana) (booking [3] 1 2 Absent)
         (snd (post_appointments (Some ana) (booking [2] 1 1 Absent)
                 completed_db))).

(** The first appointment with a second record linked to it. *)
Definition twice_billed_db : DB :=
  snd (createFinancialRecord
         {| if_type := "income"; if_category := "appointment";
            if_description := "Taxa"; if_value := JS.Dec false 1000 2;
            if_date := 1700000000000; if_companyId := 1;
            if_appointmentId := Some 1 |}
         booked_db).

End Tour.

(** * Properties *)

(** ** Storage methods on financial records *)

Lemma find_none_existsb {A : Type} (p : A -> bool) (l : list A) :
  existsb p l = false -> filter p l = [].
Proof.
  induction l as [|x l IH]; simpl; [reflexivity|].
  destruct (p x); simpl; [discriminate|exact IH].
Qed.

Lemma filter_negb_none {A : Type} (p : A -> bool) (l : list A) :
  existsb p l = false -> filter (fun x => negb (p x)) l = l.
Proof.
  induction l as [|x l IH]; simpl; [reflexivity|].
  destruct (p x); simpl; [discriminate|].
  intros H. now rewrite IH.
Qed.

Lemma map_if_none {A : Type} (p : A -> bool) (f : A -> A) (l : list A) :
  existsb p l = false -> map (fun x => if p x then f x else x) l = l.
Proof.
  induction l as [|x l IH]; simpl; [reflexivity|].
  destruct (p x); simpl; [discriminate|].
  intros H. now rewrite IH.
Qed.

Lemma update_financial_records_ok hit stmt u db :
  sets_nothing u = false ->
  references_exist u db ->
  update_financial_records hit stmt u db =
    (Ok (map (set_financial_record u) (filter hit (financialRecords db))),
     logged stmt
       (with_financialRecords
          (map (fun f => if hit f then set_financial_record u f else f)
             (financialRecords db)) db)).
Proof.
  intros Hs [Hc Ha]. unfold update_financial_records. rewrite Hs.
  destruct (existsb hit (financialRecords db)) eqn:E; simpl.
  - destruct (pf_companyId u) as [c|] eqn:Ec.
    + rewrite (Hc c eq_refl). simpl.
      destruct (pf_appointmentId u) as [[aid|]|] eqn:Ea;
        [rewrite (Ha aid eq_refl)| |]; reflexivity.
    + destruct (pf_appointmentId u) as [[aid|]|] eqn:Ea;
        [rewrite (Ha aid eq_refl)| |]; reflexivity.
  - rewrite (find_none_existsb _ _ E), (map_if_none _ _ _ E).
    destruct db; reflexivity.
Qed.

Lemma update_financial_records_none hit stmt u db :
  sets_nothing u = false ->
  existsb hit (financialRecords db) = false ->
  update_financial_records hit stmt u db = (Ok [], logged stmt db).
Proof.
  intros Hs E. unfold update_financial_records. now rewrite Hs, E.
Qed.

(** C10, as the code has it.  [deleteFinancialRecordByAppointment] deletes
    every financial record whose [appointmentId] is the given one and
    returns, also when there is none.  [updateFinancialRecordByAppointment]
    throws when the update sets no column, whatever the records; when it
    sets one, it returns without a change if no record is linked, and
    updates every linked record if the foreign keys it sets point at
    existing rows.  The by-id methods throw when no row has the id. *)
Theorem by_appointment_methods_total :
  forall (appointmentId : Z) (u : PartialFinancialRecord) (db : DB),
    (* every linked record is deleted, the others are kept *)
    (fst (deleteFinancialRecordByAppointment appointmentId db) = Ok tt
     /\ financialRecords
          (snd (deleteFinancialRecordByAppointment appointmentId db))
        = filter (fun f => negb (linked appointmentId f))
            (financialRecords db)
     /\ (existsb (linked appointmentId) (financialRecords db) = false ->
         financialRecords
           (snd (deleteFinancialRecordByAppointment appointmentId db))
         = financialRecords db))
    (* an update that sets no column throws *)
    /\ (sets_nothing u = true ->
        updateFinancialRecordByAppointment appointmentId u db
        = (Throw NoValuesToSet, db))
    (* one that sets a column is a no-op that returns when no record is
       linked *)
    /\ (sets_nothing u = false ->
        existsb (linked appointmentId) (financialRecords db) = false ->
        updateFinancialRecordByAppointment appointmentId u db
        = (Ok tt, logged (UpdateFinancialRecordRows appointmentId) db))
    (* and sets every linked record, the others are kept *)
    /\ (sets_nothing u = false ->
        references_exist u db ->
        fst (updateFinancialRecordByAppointment appointmentId u db) = Ok tt
        /\ financialRecords
             (snd (updateFinancialRecordByAppointment appointmentId u db))
           = map (fun f => if linked appointmentId f
                           then set_financial_record u f else f)
               (financialRecords db))
    (* the by-id methods throw when the row is absent *)
    /\ (forall id,
        existsb (fun f => f_id f =? id) (financialRecords db) = false ->
        fst (deleteFinancialRecord id db)
        = Throw (NotFound "Financial record" id)
        /\ fst (updateFinancialRecord id u db)
           = Throw (if sets_nothing u then NoValuesToSet
                    else NotFound "Financial record" id)).
Proof.
  intros appointmentId u db.
  unfold updateFinancialRecordByAppointment,
    deleteFinancialRecordByAppointment, updateFinancialRecord,
    deleteFinancialRecord, bind.
  fold (linked appointmentId).
  split; [|split; [|split; [|split]]].
  - unfold delete_financial_records, ret. cbn.
    split; [reflexivity|]. split; [reflexivity|].
    intros E. now apply filter_negb_none.
  - intros Hs. unfold update_financial_records. now rewrite Hs.
  - intros Hs E. now rewrite (update_financial_records_none _ _ u db Hs E).
  - intros Hs Hr. rewrite (update_financial_records_ok _ _ u db Hs Hr).
    split; reflexivity.
  - intros id E. split.
    + unfold delete_financial_records. cbn.
      now rewrite (find_none_existsb _ _ E).
    + destruct (sets_nothing u) eqn:Hs.
      * unfold update_financial_records. now rewrite Hs.
      * now rewrite (update_financial_records_none _ _ u db Hs E).
Qed.

(** ** Tenant isolation of the handlers that take an id *)

(** C3. A request that fetches, updates or deletes an appointment, a client
    or a procedure of a company other than the requesting user's is
    answered 403 with a bare message, and the database stays as it was. *)
Theorem cross_tenant_access_denied :
  forall (user : User) (db : DB),
    (forall id a abody now,
        getAppointment id db = Some a ->
        Some (a_companyId a) <> u_companyId user ->
        denied (put_appointment (Some user) id abody now db) db
        /\ denied (delete_appointment_route (Some user) id db) db
        /\ denied (get_appointment_procedures (Some user) id db) db)
    /\ (forall id c cbody,
        getClient id db = Some c ->
        Some (c_companyId c) <> u_companyId user ->
        denied (get_client (Some user) id db) db
        /\ denied (put_client (Some user) id cbody db) db
        /\ denied (delete_client (Some user) id db) db)
    /\ (forall id p pbody,
        getProcedure id db = Some p ->
        Some (p_companyId p) <> u_companyId user ->
        denied (put_procedure (Some user) id pbody db) db
        /\ denied (delete_procedure (Some user) id db) db).
Proof.
  intros user db.
  assert (Hoc : forall c, Some c <> u_companyId user ->
                          other_company c user = true).
  { intros c Hc. unfold other_company, opt_eqb.
    destruct (u_companyId user) as [c'|]; [|reflexivity].
    destruct (Z.eqb_spec c' c); [subst; congruence|reflexivity]. }
  repeat split; intros;
    unfold put_appointment, delete_appointment_route,
      get_appointment_procedures, get_client, put_client, delete_client,
      put_procedure, delete_procedure;
    repeat match goal with
           | H : _ = Some _ |- _ => rewrite H
           end;
    try rewrite (Hoc _ ltac:(eassumption));
    try destruct (is_admin user); simpl; auto.
Qed.

(** ** The update workflow, statement by statement *)

Lemma updateAppointment_ok id data db updated db1 :
  updateAppointment id data db = (Ok updated, db1) ->
  db1 = appointment_updated id data db
  /\ a_status updated = or_scheduled (ia_status data)
  /\ a_value updated = JS.toString (JS.parseFloat (ia_value data)).
Proof.
  unfold updateAppointment, update_appointment, bind, ret, throw.
  destruct (existsb _ (appointments db)) eqn:E; simpl.
  2:{ intros H. inversion H. }
  repeat match goal with
         | |- context [if ?c then _ else _] => destruct c; simpl
         end; try (intros H; discriminate H).
  destruct (filter _ (appointments db)) as [|row rows] eqn:F; simpl.
  - intros H. inversion H.
  - intros H. inversion H. subst. auto.
Qed.

Lemma add_procedures_ok appointmentId ps :
  forall db db',
    add_procedures appointmentId ps db = (Ok tt, db') ->
    db' = fold_left (procedure_added appointmentId) ps db.
Proof.
  induction ps as [|p ps IH]; intros db db'; simpl.
  - unfold ret. intros H. now inversion H.
  - unfold bind, addProcedureToAppointment. simpl.
    repeat match goal with
           | |- context [if ?c then _ else _] => destruct c; simpl
           end; try (intros H; discriminate H).
    intros H. apply IH in H. exact H.
Qed.

Lemma procedures_added_tables appointmentId ps :
  forall db,
    let db' := fold_left (procedure_added appointmentId) ps db in
    appointments db' = appointments db
    /\ financialRecords db' = financialRecords db
    /\ appointmentProcedures db'
       = appointmentProcedures db
         ++ junction_rows (seq_appointmentProcedures db + 1) appointmentId ps.
Proof.
  induction ps as [|p ps IH]; intros db; simpl.
  - now rewrite app_nil_r.
  - destruct (IH (procedure_added appointmentId db p)) as (Ha & Hf & Hp).
    rewrite Ha, Hf, Hp. simpl. repeat split.
    now rewrite <- app_assoc.
Qed.

Lemma junction_rows_linked next appointmentId ps :
  Forall (fun ap => ap_appointmentId ap = appointmentId)
    (junction_rows next appointmentId ps).
Proof.
  revert next. induction ps as [|p ps IH]; intros next; simpl; constructor.
  - reflexivity.
  - apply IH.
Qed.

Lemma junction_rows_procedures next appointmentId ps :
  map ap_procedureId (junction_rows next appointmentId ps) = map p_id ps.
Proof.
  revert next. induction ps as [|p ps IH]; intros next; simpl;
    [reflexivity|]. now rewrite IH.
Qed.

Lemma resolve_procedures_ids companyId db :
  forall ids total valid total' valid',
    resolve_procedures companyId ids db total valid = Some (total', valid') ->
    exists found,
      valid' = valid ++ found
      /\ map p_id found = ids
      /\ Forall (fun p => Some (p_companyId p) = companyId) found
      /\ total' = fold_left
                    (fun sum p => JS.add sum (JS.parseFloat (p_value p)))
                    found total.
Proof.
  induction ids as [|id ids IH]; intros total valid total' valid'; simpl.
  - intros H. inversion H. exists []. rewrite app_nil_r. auto.
  - unfold getProcedure.
    destruct (find _ (procedures db)) as [p|] eqn:F; [|discriminate].
    destruct (opt_eqb companyId (p_companyId p)) eqn:E; simpl; [|discriminate].
    intros H. apply IH in H. destruct H as (found & Hv & Hi & Hc & Ht).
    exists (p :: found). simpl. rewrite Hv, <- app_assoc. simpl.
    apply find_some in F. destruct F as [_ F].
    apply Z.eqb_eq in F. rewrite F, Hi.
    repeat split; auto. constructor; auto.
    unfold opt_eqb in E. destruct companyId as [c|]; [|discriminate].
    apply Z.eqb_eq in E. now subst.
Qed.

Lemma parse_appointment_ok clientId collaboratorId procedureId date st
    companyId value notes data :
  parse_appointment clientId collaboratorId procedureId date st companyId
    value notes = Ok data ->
  ia_status data = match st with Given s => Some s | _ => None end
  /\ ia_value data = value
  /\ Some (ia_companyId data) = companyId
  /\ Some (ia_clientId data) = clientId
  /\ Some (ia_collaboratorId data) = collaboratorId.
Proof.
  unfold parse_appointment, optional.
  destruct clientId, collaboratorId, date, st, companyId, notes;
    intros H; inversion H; simpl; auto.
Qed.

Lemma put_appointment_200 user id body now db r db' :
  put_appointment (Some user) id body now db = (r, db') ->
  status r = 200 ->
  exists existing ids total valid data,
    getAppointment id db = Some existing
    /\ other_company (a_companyId existing) user = false
    /\ b_procedureIds body = Some ids
    /\ resolve_procedures (u_companyId user) ids db (JS.Fin 0) []
       = Some (total, valid)
    /\ ia_status data = requested_status body
    /\ ia_value data = JS.toFixed2 total
    /\ r = reply 200 (AppointmentJson (getAppointment id db'))
    /\ let db3 := fold_left (procedure_added id) valid
                    (junction_cleared id (appointment_updated id data db)) in
       let value := JS.toString (JS.parseFloat (ia_value data)) in
       db' = if completes (or_scheduled (ia_status data)) (a_status existing)
             then records_resynced id value now db3
             else db3.
Proof.
  unfold put_appointment.
  destruct (getAppointment id db) as [existing|] eqn:G;
    [|intros H; inversion H; subst; discriminate].
  destruct (other_company (a_companyId existing) user) eqn:O;
    [intros H; inversion H; subst; discriminate|].
  destruct (b_procedureIds body) as [[|i ids]|] eqn:B;
    try (intros H; inversion H; subst; discriminate).
  destruct (resolve_procedures _ _ _ _ _) as [[total valid]|] eqn:R;
    [|intros H; inversion H; subst; discriminate].
  destruct valid as [|first valid'] eqn:V;
    [intros H; inversion H; subst; discriminate|].
  destruct (parse_appointment _ _ _ _ _ _ _ _) as [data|e] eqn:P;
    [|unfold throw; intros H; inversion H; subst; discriminate].
  apply parse_appointment_ok in P. destruct P as (Ps & Pv & _).
  unfold bind.
  destruct (updateAppointment id data db) as [[updated|e] db1] eqn:U;
    [|intros H; inversion H; subst; discriminate].
  apply updateAppointment_ok in U. destruct U as (-> & Us & Uv).
  unfold removeAllProceduresFromAppointment.
  fold (junction_cleared id (appointment_updated id data db)).
  destruct (add_procedures id _ _) as [[[]|e] db3] eqn:A;
    [|intros H; inversion H; subst; discriminate].
  apply add_procedures_ok in A. subst db3.
  intros H Hs.
  exists existing, (i :: ids), total, (first :: valid'), data.
  repeat split; auto.
  - destruct (_ && _);
      [unfold updateFinancialRecordByAppointment, bind in H;
       rewrite update_financial_records_ok in H
         by (try reflexivity; split; intros; discriminate)|];
      unfold ret in H; apply pair_equal_spec in H; destruct H as [E1 E2];
      subst r db'; reflexivity.
  - rewrite Us, Uv in H. unfold completes. cbv zeta.
    destruct (_ && _);
      [unfold updateFinancialRecordByAppointment, bind in H;
       rewrite update_financial_records_ok in H
         by (try reflexivity; split; intros; discriminate)|];
      unfold ret in H; apply pair_equal_spec in H; destruct H as [E1 E2];
      symmetry; exact E2.
Qed.

Lemma procedures_added_log appointmentId ps :
  forall db,
    log (fold_left (procedure_added appointmentId) ps db)
    = log db
      ++ map (fun p => InsertAppointmentProcedureRow appointmentId (p_id p)) ps.
Proof.
  induction ps as [|p ps IH]; intros db; simpl.
  - now rewrite app_nil_r.
  - rewrite IH. simpl. now rewrite <- app_assoc.
Qed.

Lemma find_map_update {A : Type} (hit : A -> bool) (f : A -> A) (l : list A) :
  (forall x, hit (f x) = hit x) ->
  find hit (map (fun x => if hit x then f x else x) l)
  = option_map f (find hit l).
Proof.
  intros Hf. induction l as [|x l IH]; simpl; [reflexivity|].
  destruct (hit x) eqn:E.
  - now rewrite Hf, E.
  - now rewrite E.
Qed.

Lemma filter_app_disjoint {A : Type} (p : A -> bool) (old new : list A) :
  Forall (fun x => p x = true) new ->
  filter p (filter (fun x => negb (p x)) old ++ new) = new
  /\ filter (fun x => negb (p x)) (filter (fun x => negb (p x)) old ++ new)
     = filter (fun x => negb (p x)) old.
Proof.
  intros Hn. rewrite !filter_app. split.
  - replace (filter p (filter (fun x => negb (p x)) old)) with (@nil A).
    + simpl. induction Hn as [|x new Hx _ IH]; simpl; [reflexivity|].
      now rewrite Hx, IH.
    + induction old as [|x old IH]; simpl; [reflexivity|].
      destruct (p x) eqn:E; simpl; [exact IH|]. now rewrite E.
  - replace (filter (fun x => negb (p x)) new) with (@nil A).
    + rewrite app_nil_r. induction old as [|x old IH]; simpl; [reflexivity|].
      destruct (p x) eqn:E; simpl; [exact IH|]. rewrite E. simpl.
      now rewrite IH.
    + induction Hn as [|x new Hx _ IH]; simpl; [reflexivity|].
      now rewrite Hx.
Qed.

(** C6. An update that succeeds replaces the junction rows of the
    appointment: the rows it had are deleted, then one row is inserted for
    each submitted procedure, in the order submitted; the junction rows of
    other appointments stay. *)
Theorem update_replaces_procedure_links :
  forall (user : User) (id : Z) (body : AppointmentBody) (now : timestamp)
         (db db' : DB) (r : response),
    put_appointment (Some user) id body now db = (r, db') ->
    status r = 200 ->
    exists ids valid rest,
      b_procedureIds body = Some ids
      /\ map p_id valid = ids
      /\ filter (of_appointment id) (appointmentProcedures db')
         = junction_rows (seq_appointmentProcedures db + 1) id valid
      /\ map ap_procedureId
           (filter (of_appointment id) (appointmentProcedures db')) = ids
      /\ filter (fun ap => negb (of_appointment id ap))
           (appointmentProcedures db')
         = filter (fun ap => negb (of_appointment id ap))
             (appointmentProcedures db)
      /\ log db'
         = log db
           ++ [UpdateAppointmentRow id; DeleteAppointmentProcedureRows id]
           ++ map (InsertAppointmentProcedureRow id) ids
           ++ rest.
Proof.
  intros user id body now db db' r H Hs.
  destruct (put_appointment_200 _ _ _ _ _ _ _ H Hs)
    as (existing & ids & total & valid & data & G & O & B & R & Ps & Pv
        & Hr & Hdb).
  destruct (resolve_procedures_ids _ _ _ _ _ _ _ R)
    as (found & Hv & Hi & _ & _).
  simpl in Hv. subst found.
  set (db2 := junction_cleared id (appointment_updated id data db)) in *.
  destruct (procedures_added_tables id valid db2) as (_ & _ & Hp).
  pose proof (procedures_added_log id valid db2) as Hl.
  pose proof (filter_app_disjoint (of_appointment id)
                (appointmentProcedures db)
                (junction_rows (seq_appointmentProcedures db + 1) id valid))
    as Hf.
  destruct Hf as [Hf1 Hf2].
  { eapply Forall_impl; [|apply junction_rows_linked].
    intros ap E. unfold of_appointment. now apply Z.eqb_eq. }
  assert (Hap : appointmentProcedures db'
                = filter (fun ap => negb (of_appointment id ap))
                    (appointmentProcedures db)
                  ++ junction_rows (seq_appointmentProcedures db + 1) id valid).
  { simpl in Hdb. rewrite Hdb.
    destruct (completes _ _); simpl; rewrite Hp; reflexivity. }
  exists ids, valid,
    (if completes (or_scheduled (ia_status data)) (a_status existing)
     then [UpdateFinancialRecordRows id] else []).
  rewrite Hap, Hf1, Hf2, junction_rows_procedures.
  repeat split; auto.
  simpl in Hdb. rewrite Hdb.
  destruct (completes _ _); simpl; rewrite Hl; simpl;
    rewrite <- Hi, map_map, <- !app_assoc; simpl;
    rewrite ?app_nil_r; reflexivity.
Qed.

(** ** Number texts: what [String(x)] never is *)

Lemma unit_den_eq : unit_den = 2 ^ 1074.
Proof. unfold unit_den, ebias. now rewrite Z.shiftl_1_l. Qed.

Lemma unit_den_pos : 0 < unit_den.
Proof. rewrite unit_den_eq. now apply Z.pow_pos_nonneg. Qed.

Lemma overflow_threshold_pos : 0 < overflow_threshold.
Proof. unfold overflow_threshold. rewrite Z.shiftl_1_l. now apply Z.pow_pos_nonneg. Qed.

Lemma rne_zero d : 0 < d -> rne 0 d = 0.
Proof.
  intros Hd. unfold rne. rewrite Z.div_0_l, Z.mod_0_l by lia.
  replace (2 * 0) with 0 by lia.
  destruct (Z.compare_spec 0 d); lia.
Qed.

Lemma of_ratio_zero neg d : 0 < d -> of_ratio neg 0 d = signed_zero neg.
Proof.
  intros Hd. unfold of_ratio, round53, ulp_exp.
  rewrite Z.div_0_l by lia. simpl Z.log2. simpl Z.max.
  rewrite Z.mul_1_r, rne_zero by lia. simpl.
  pose proof overflow_threshold_pos.
  destruct (Z.leb_spec overflow_threshold 0); [lia|reflexivity].
Qed.

Lemma reads_back_nonzero s t a :
  0 < a ->
  match parseFloat (dec_of false s t) with Fin z => z =? a | _ => false end = true ->
  nonzero_digits (dec_of false s t).
Proof.
  intros Ha. unfold dec_of, parseFloat, nonzero_digits.
  intros H E. rewrite E in H. simpl in H.
  rewrite of_ratio_zero in H.
  - simpl in H. destruct a; [lia|discriminate|lia].
  - apply Z.pow_pos_nonneg; lia.
Qed.

Lemma shortest_nonzero fuel : forall k n a,
  0 < a -> 1 <= k -> nonzero_digits (shortest fuel k n a).
Proof.
  induction fuel as [|fuel IH]; intros k n a Ha Hk.
  - simpl. pose proof (Z.pow_pos_nonneg 5 ebias). unfold ebias in *. nia.
  - cbn [shortest].
    set (t := n - k).
    set (lo := _ / _).
    assert (Hhi : nonzero_digits
              (if lo + 1 =? 10 ^ k then dec_of false ((lo + 1) / 10) (t + 1)
               else dec_of false (lo + 1) t)
            \/ match parseFloat (dec_of false (lo + 1) t) with Fin z => z =? a | _ => false end = false).
    { destruct (Z.eqb_spec (lo + 1) (10 ^ k)) as [E|E].
      - left. rewrite E. unfold dec_of, nonzero_digits.
        assert (E10 : 10 ^ k = 10 ^ (k - 1) * 10).
        { replace k with (Z.succ (k - 1)) at 1 by lia.
          rewrite Z.pow_succ_r by lia. lia. }
        rewrite E10, Z.div_mul by lia.
        pose proof (Z.pow_pos_nonneg 10 (k - 1)).
        pose proof (Z.pow_pos_nonneg 10 (Z.max (t + 1) 0)). nia.
      - destruct (match parseFloat (dec_of false (lo + 1) t) with Fin z => z =? a | _ => false end) eqn:O.
        + left. now apply (reads_back_nonzero _ _ a).
        + now right. }
    destruct (match parseFloat (dec_of false lo t) with Fin z => z =? a | _ => false end) eqn:Olo.
    + pose proof (reads_back_nonzero _ _ a Ha Olo) as Hlo.
      destruct (match parseFloat (dec_of false (lo + 1) t) with Fin z => z =? a | _ => false end) eqn:Ohi.
      * destruct Hhi as [Hhi|Hhi]; [|discriminate].
        destruct (_ ?= _); [destruct (Z.even lo)| |]; assumption.
      * assumption.
    + destruct (match parseFloat (dec_of false (lo + 1) t) with Fin z => z =? a | _ => false end) eqn:Ohi.
      * destruct Hhi as [Hhi|Hhi]; [assumption|discriminate].
      * apply IH; lia.
Qed.

Lemma numeric_in_toString x : numeric_in (toString x) = toString x.
Proof.
  destruct x as [| | | |z]; try reflexivity.
  unfold toString.
  destruct (Z.eqb_spec z 0); [reflexivity|].
  pose proof (shortest_nonzero 17 1 (dec_exponent 640 (-324) (Z.abs z)) (Z.abs z)) as H.
  destruct (shortest _ _ _ _) as [| |neg d s]; try (destruct (z <? 0); reflexivity).
  simpl in H. specialize (H ltac:(lia) ltac:(lia)).
  destruct (z <? 0); simpl; destruct d; try lia; try reflexivity.
  all: try (destruct neg; reflexivity).
Qed.

Lemma put_appointment_stored user id body now db r db' :
  put_appointment (Some user) id body now db = (r, db') ->
  status r = 200 ->
  exists existing stored total,
    getAppointment id db = Some existing
    /\ getAppointment id db' = Some stored
    /\ r = reply 200 (AppointmentJson (Some stored))
    /\ a_status stored = or_scheduled (requested_status body)
    /\ a_value stored = JS.toString (JS.parseFloat (JS.toFixed2 total))
    /\ financialRecords db'
       = if completes (a_status stored) (a_status existing)
         then map (fun f => if linked id f
                            then with_value_date (a_value stored) now f
                            else f)
                (financialRecords db)
         else financialRecords db.
Proof.
  intros H Hs.
  destruct (put_appointment_200 _ _ _ _ _ _ _ H Hs)
    as (existing & ids & total & valid & data & G & O & B & R & Ps & Pv
        & Hr & Hdb).
  set (db2 := junction_cleared id (appointment_updated id data db)) in *.
  destruct (procedures_added_tables id valid db2) as (Ha & Hf & _).
  set (upd := set_appointment (ia_clientId data) (ia_collaboratorId data)
                (ia_procedureId data) (ia_date data)
                (or_scheduled (ia_status data)) (ia_companyId data)
                (JS.parseFloat (ia_value data)) (ia_notes data)).
  assert (Hg : getAppointment id db' = Some (upd existing)).
  { unfold getAppointment. cbv zeta in Hdb. rewrite Hdb.
    replace (appointments _) with (appointments db2)
      by (destruct (completes _ _);
          cbn [appointments records_resynced logged with_financialRecords];
          now rewrite Ha).
    unfold db2.
    cbn [appointments junction_cleared appointment_updated logged
         with_appointmentProcedures with_appointments].
    fold upd.
    rewrite (find_map_update (fun a => a_id a =? id) upd) by reflexivity.
    unfold getAppointment in G. now rewrite G. }
  exists existing, (upd existing), total.
  assert (Hs1 : a_status (upd existing)
                = or_scheduled (requested_status body))
    by (unfold upd; cbn [a_status set_appointment]; now rewrite Ps).
  assert (Hv1 : a_value (upd existing)
                = JS.toString (JS.parseFloat (JS.toFixed2 total)))
    by (unfold upd; cbn [a_value set_appointment]; now rewrite Pv).
  rewrite Hr, Hg, Hs1, Hv1. repeat split; auto.
  cbv zeta in Hdb. rewrite Ps, Pv in Hdb. rewrite Hdb.
  destruct (completes _ _);
    cbn [financialRecords records_resynced logged with_financialRecords];
    rewrite Hf; [|reflexivity].
  apply map_ext. intros f. destruct (linked id f); [|reflexivity].
  unfold set_financial_record, with_value_date, resync, or_old.
  cbn [pf_type pf_category pf_description pf_value pf_date pf_companyId
       pf_appointmentId option_map].
  now rewrite numeric_in_toString.
Qed.

(** C4. An update that succeeds writes the new appointment value and the
    current time to the financial records linked to the appointment exactly
    when the stored status becomes [completed] from another status;
    otherwise, and so from [completed] to [completed], the financial
    records stay as they were. *)
Theorem financial_record_resynced_on_completion :
  forall (user : User) (id : Z) (body : AppointmentBody) (now : timestamp)
         (db db' : DB) (r : response),
    put_appointment (Some user) id body now db = (r, db') ->
    status r = 200 ->
    exists existing stored,
      getAppointment id db = Some existing
      /\ getAppointment id db' = Some stored
      /\ (a_status stored = "completed" /\ a_status existing <> "completed" ->
          financialRecords db'
          = map (fun f => if linked id f
                          then with_value_date (a_value stored) now f
                          else f)
              (financialRecords db))
      /\ (a_status stored <> "completed" \/ a_status existing = "completed" ->
          financialRecords db' = financialRecords db).
Proof.
  intros user id body now db db' r H Hs.
  destruct (put_appointment_stored _ _ _ _ _ _ _ H Hs)
    as (existing & stored & total & G & G' & _ & _ & _ & Hf).
  exists existing, stored. repeat split; auto.
  - intros [E1 E2]. rewrite Hf. unfold completes.
    rewrite E1. simpl.
    destruct (String.eqb_spec (a_status existing) "completed");
      [contradiction|reflexivity].
  - intros E. rewrite Hf. unfold completes.
    destruct (String.eqb_spec (a_status stored) "completed");
      destruct (String.eqb_spec (a_status existing) "completed");
      simpl; try reflexivity.
    destruct E; contradiction.
Qed.

(** C9. An update that succeeds and whose body has no status, or an empty
    one, stores the status [scheduled], whatever the status was. *)
Theorem update_without_status_resets_it :
  forall (user : User) (id : Z) (body : AppointmentBody) (now : timestamp)
         (db db' : DB) (r : response),
    put_appointment (Some user) id body now db = (r, db') ->
    status r = 200 ->
    b_status body = Absent \/ b_status body = Given EmptyString ->
    exists stored,
      getAppointment id db' = Some stored
      /\ r = reply 200 (AppointmentJson (Some stored))
      /\ a_status stored = "scheduled".
Proof.
  intros user id body now db db' r H Hs Hb.
  destruct (put_appointment_stored _ _ _ _ _ _ _ H Hs)
    as (existing & stored & total & _ & G' & Hr & Hst & _).
  exists stored. repeat split; auto.
  rewrite Hst. unfold requested_status.
  destruct Hb as [-> | ->]; reflexivity.
Qed.

(** ** Deleting an appointment *)

Lemma existsb_filter_negb {A : Type} (p : A -> bool) (l : list A) :
  existsb p (filter (fun x => negb (p x)) l) = false.
Proof.
  induction l as [|x l IH]; simpl; [reflexivity|].
  destruct (p x) eqn:E; simpl; [exact IH|]. now rewrite E.
Qed.

Lemma find_filter_negb {A : Type} (p : A -> bool) (l : list A) :
  find p (filter (fun x => negb (p x)) l) = None.
Proof.
  induction l as [|x l IH]; simpl; [reflexivity|].
  destruct (p x) eqn:E; simpl; [exact IH|]. now rewrite E.
Qed.

Lemma find_some_filter {A : Type} (p : A -> bool) (l : list A) (x : A) :
  find p l = Some x -> existsb p l = true /\ filter p l <> [].
Proof.
  induction l as [|y l IH]; simpl; [discriminate|].
  destruct (p y) eqn:E; simpl.
  - intros _. split; [reflexivity|discriminate].
  - exact IH.
Qed.

(** C5. Deleting an appointment of the caller's company succeeds; it
    deletes the financial records linked to the appointment, then its
    junction rows, then the appointment row, in that order, and the
    appointment then is not found by the handlers that fetch it. *)
Theorem delete_removes_dependents_first :
  forall (user : User) (id : Z) (db : DB) (existing : Appointment),
    getAppointment id db = Some existing ->
    Some (a_companyId existing) = u_companyId user ->
    let out := delete_appointment_route (Some user) id db in
    let db' := snd out in
    fst out = reply 204 Empty
    /\ log db'
       = log db ++ [DeleteFinancialRecordRows id;
                    DeleteAppointmentProcedureRows id;
                    DeleteAppointmentRow id]
    /\ financialRecords db'
       = filter (fun f => negb (linked id f)) (financialRecords db)
    /\ appointmentProcedures db'
       = filter (fun ap => negb (of_appointment id ap))
           (appointmentProcedures db)
    /\ appointments db'
       = filter (fun a => negb (a_id a =? id)) (appointments db)
    /\ getAppointment id db' = None
    /\ (forall user' body now,
        status (fst (get_appointment_procedures (Some user') id db')) = 404
        /\ status (fst (put_appointment (Some user') id body now db')) = 404
        /\ status (fst (delete_appointment_route (Some user') id db')) = 404).
Proof.
  intros user id db existing G C out db'.
  assert (Ho : other_company (a_companyId existing) user = false).
  { unfold other_company. rewrite <- C. simpl. now rewrite Z.eqb_refl. }
  destruct (find_some_filter _ _ _ G) as [Ge Gf].
  assert (Hout : out
    = (reply 204 Empty,
       logged (DeleteAppointmentRow id)
         (with_appointments
            (filter (fun a => negb (a_id a =? id)) (appointments db))
            (junction_cleared id
               (logged (DeleteFinancialRecordRows id)
                  (with_financialRecords
                     (filter (fun f => negb (linked id f))
                        (financialRecords db)) db)))))).
  { unfold out, delete_appointment_route. rewrite G, Ho.
    unfold deleteFinancialRecordByAppointment, deleteAppointment,
      delete_financial_records, removeAllProceduresFromAppointment,
      delete_appointment, bind, ret.
    cbn [appointments appointmentProcedures financialRecords logged
         with_financialRecords with_appointmentProcedures].
    rewrite Ge.
    rewrite (existsb_filter_negb (fun ap => ap_appointmentId ap =? id)).
    rewrite (existsb_filter_negb (fun f => opt_eqb (f_appointmentId f) id)).
    cbn [negb].
    destruct (filter (fun a => a_id a =? id) (appointments db)) eqn:F;
      [contradiction|reflexivity]. }
  assert (Hg : getAppointment id db' = None).
  { unfold db'. rewrite Hout. unfold getAppointment. simpl.
    apply find_filter_negb. }
  unfold db' in *. rewrite Hout in *. cbn [fst snd] in *.
  repeat split; try reflexivity.
  - simpl. rewrite <- !app_assoc. reflexivity.
  - exact Hg.
  - unfold get_appointment_procedures. now rewrite Hg.
  - unfold put_appointment. now rewrite Hg.
  - unfold delete_appointment_route. now rewrite Hg.
Qed.

(** ** The dashboard: what each role is shown *)







(** When the second [where] replaces the first, they are not: a year
    later, the dashboard of Ana, admin of company 1, still shows as revenue
    of the day the income of both companies, 65.4 + 30; with a builder that
    keeps both conditions the revenue of that day is 0. *)
Lemma overwritten_window_query :
  let later := 1731536000000 in
  (exists stats,
      fst (get_dashboard_stats Sample.overwrite Sample.utc (Some Sample.ana)
             None later later later Sample.two_studios_db)
      = reply 200 (StatsJson stats)
      /\ s_revenue stats = JS.parseFloat (JS.Dec false 954 1))
  /\ (exists stats,
      fst (get_dashboard_stats Sample.conjoin Sample.utc (Some Sample.ana)
             None later later later Sample.two_studios_db)
      = reply 200 (StatsJson stats)
      /\ s_revenue stats = JS.Fin 0).
Proof. split; eexists; split; vm_compute; reflexivity. Qed.

(** ** Rounding to binary64: how far the result is from the exact value *)

Lemma rne_cases a d :
  0 < d ->
  (rne a d = a / d /\ 2 * (a mod d) <= d)
  \/ (rne a d = a / d + 1 /\ d <= 2 * (a mod d)).
Proof.
  intros Hd. unfold rne.
  destruct (Z.compare_spec (2 * (a mod d)) d) as [E|E|E].
  - destruct (Z.even (a / d)); [left|right]; split; lia.
  - left. split; lia.
  - right. split; lia.
Qed.

Lemma rne_nearest a d :
  0 < d -> - d <= 2 * (rne a d * d - a) <= d.
Proof.
  intros Hd.
  pose proof (Z.div_mod a d ltac:(lia)) as E.
  pose proof (Z.mod_pos_bound a d Hd) as B.
  destruct (rne_cases a d Hd) as [[-> H]|[-> H]]; nia.
Qed.

Lemma rne_le a d m :
  0 < d -> a <= m * d -> rne a d <= m.
Proof.
  intros Hd Ha.
  pose proof (Z.div_mod a d ltac:(lia)) as E.
  pose proof (Z.mod_pos_bound a d Hd) as B.
  destruct (rne_cases a d Hd) as [[-> H]|[-> H]]; nia.
Qed.

Lemma rne_ge a d m :
  0 < d -> m * d <= a -> m <= rne a d.
Proof.
  intros Hd Ha.
  pose proof (Z.div_mod a d ltac:(lia)) as E.
  pose proof (Z.mod_pos_bound a d Hd) as B.
  destruct (rne_cases a d Hd) as [[-> H]|[-> H]]; nia.
Qed.

Lemma rne_exact m d : 0 < d -> rne (m * d) d = m.
Proof.
  intros Hd. apply Z.le_antisymm.
  - apply rne_le; lia.
  - apply rne_ge; lia.
Qed.

Lemma round53_unfold a d :
  round53 a d = rne a (d * 2 ^ ulp_exp a d) * 2 ^ ulp_exp a d.
Proof. reflexivity. Qed.

Lemma ulp_exp_below a d J :
  0 <= a -> 0 < d -> 53 <= J -> a < d * 2 ^ J -> ulp_exp a d <= J - 53.
Proof.
  intros Ha Hd HJ Hlt. unfold ulp_exp.
  assert (Hq : a / d < 2 ^ J) by (apply Z.div_lt_upper_bound; lia).
  assert (0 <= a / d) by (apply Z.div_pos; lia).
  destruct (Z.eq_dec (a / d) 0) as [E|E].
  - rewrite E. simpl. lia.
  - assert (Z.log2 (a / d) < J) by (apply Z.log2_lt_pow2; lia). lia.
Qed.

Lemma round53_error a d J :
  0 <= a -> 0 < d -> 53 <= J -> a <= d * 2 ^ J ->
  - (d * 2 ^ (J - 53)) <= 2 * (round53 a d * d - a) <= d * 2 ^ (J - 53)
  /\ 0 <= round53 a d <= 2 ^ J.
Proof.
  intros Ha Hd HJ Hle. rewrite round53_unfold.
  assert (H2J : 0 < 2 ^ J) by (apply Z.pow_pos_nonneg; lia).
  destruct (Z.eq_dec a (d * 2 ^ J)) as [E|E].
  - (* exactly the bound *)
    assert (Hq : a / d = 2 ^ J) by (rewrite E, Z.mul_comm, Z.div_mul; lia).
    unfold ulp_exp. rewrite Hq, Z.log2_pow2 by lia.
    rewrite Z.max_r by lia.
    assert (E2 : 2 ^ J = 2 ^ 52 * 2 ^ (J - 52))
      by (rewrite <- Z.pow_add_r by lia; f_equal; lia).
    replace a with (2 ^ 52 * (d * 2 ^ (J - 52))) by (rewrite E, E2; ring).
    assert (0 < 2 ^ (J - 52)) by (apply Z.pow_pos_nonneg; lia).
    rewrite rne_exact by nia.
    assert (0 < 2 ^ (J - 53)) by (apply Z.pow_pos_nonneg; lia).
    rewrite <- E2. split; [|lia]. nia.
  - pose proof (ulp_exp_below a d J Ha Hd HJ ltac:(lia)) as He.
    assert (He0 : 0 <= ulp_exp a d) by (unfold ulp_exp; lia).
    set (e := ulp_exp a d) in *.
    assert (Hpe : 0 < 2 ^ e) by (apply Z.pow_pos_nonneg; lia).
    assert (Hmono : 2 ^ e <= 2 ^ (J - 53)) by (apply Z.pow_le_mono_r; lia).
    pose proof (rne_nearest a (d * 2 ^ e) ltac:(nia)) as Hn.
    assert (EJ : 2 ^ J = 2 ^ (J - e) * 2 ^ e)
      by (rewrite <- Z.pow_add_r by lia; f_equal; lia).
    assert (Hup : rne a (d * 2 ^ e) <= 2 ^ (J - e))
      by (apply rne_le; [nia|rewrite EJ in Hle; nia]).
    assert (Hlo : 0 <= rne a (d * 2 ^ e)) by (apply rne_ge; nia).
    split; [split; nia|]. rewrite EJ. split; nia.
Qed.

Lemma overflow_threshold_eq : overflow_threshold = 2 ^ 2098.
Proof. unfold overflow_threshold. now rewrite Z.shiftl_1_l. Qed.

Lemma of_ratio_Fin a d J :
  0 <= a -> 0 < d -> 53 <= J < 2098 -> a <= d * 2 ^ J ->
  of_ratio false a d = Fin (round53 a d).
Proof.
  intros Ha Hd HJ Hle. unfold of_ratio.
  destruct (round53_error a d J Ha Hd ltac:(lia) Hle) as [_ [H0 HJ2]].
  assert (2 ^ J < overflow_threshold).
  { rewrite overflow_threshold_eq. apply Z.pow_lt_mono_r; lia. }
  destruct (Z.leb_spec overflow_threshold (round53 a d)); [lia|].
  destruct (Z.eqb_spec (round53 a d) 0) as [E|E]; [rewrite E|]; reflexivity.
Qed.

(** The scale of the analysis: values up to [2^K], that is magnitudes up
    to [2^K * unit_den], whose rounding step is at most [2^(K+1021)]. *)
Lemma scale_facts K :
  0 <= K ->
  0 < 2 ^ K /\ 0 < 2 ^ (K + 1021)
  /\ 2 ^ (K + 1074) = 2 ^ K * unit_den
  /\ 2 ^ K * unit_den = 2 ^ 53 * 2 ^ (K + 1021)
  /\ 2 ^ (K + 1074 - 53) = 2 ^ (K + 1021).
Proof.
  intros HK. rewrite unit_den_eq.
  repeat split; try (apply Z.pow_pos_nonneg; lia).
  - rewrite <- Z.pow_add_r by lia. reflexivity.
  - rewrite <- !Z.pow_add_r by lia. f_equal. lia.
  - f_equal. lia.
Qed.

Lemma parse_cents c K :
  0 <= c -> 0 <= K -> K < 1000 -> c <= 100 * 2 ^ K ->
  exists f,
    parseFloat (Dec false c 2) = Fin f
    /\ 0 <= f <= 2 ^ K * unit_den
    /\ - (100 * 2 ^ (K + 1021)) <= 2 * (100 * f - c * unit_den)
       <= 100 * 2 ^ (K + 1021).
Proof.
  intros Hc HK HK' Hle.
  destruct (scale_facts K HK) as (H2K & HP & EJ & EW & EP).
  pose proof unit_den_pos as HU.
  assert (Ha : c * unit_den <= 10 ^ 2 * 2 ^ (K + 1074)).
  { rewrite EJ. change (10 ^ 2) with 100. nia. }
  exists (round53 (c * unit_den) (10 ^ 2)).
  unfold parseFloat.
  rewrite (of_ratio_Fin _ _ (K + 1074)) by (try lia; nia).
  destruct (round53_error (c * unit_den) (10 ^ 2) (K + 1074)) as [He Hb];
    try lia; try nia.
  rewrite EP in He. rewrite EJ in Hb. change (10 ^ 2) with 100 in *.
  repeat split; lia.
Qed.

Lemma add_bounded s f K :
  0 <= s -> 0 <= f -> 0 <= K -> K < 1000 -> s + f <= 2 ^ K * unit_den ->
  exists s',
    add (Fin s) (Fin f) = Fin s'
    /\ 0 <= s' <= 2 ^ K * unit_den
    /\ - 2 ^ (K + 1021) <= 2 * (s' - (s + f)) <= 2 ^ (K + 1021).
Proof.
  intros Hs Hf HK HK' Hle.
  destruct (scale_facts K HK) as (H2K & HP & EJ & EW & EP).
  exists (round53 (s + f) 1).
  unfold add.
  destruct (Z.ltb_spec (s + f) 0); [lia|].
  rewrite Z.abs_eq by lia.
  rewrite (of_ratio_Fin _ _ (K + 1074)) by (try lia; rewrite EJ; lia).
  destruct (round53_error (s + f) 1 (K + 1074)) as [He Hb];
    try lia; try (rewrite EJ; lia).
  rewrite EP in He. rewrite EJ in Hb.
  repeat split; lia.
Qed.

Lemma total_cents_nonneg ps : Forall two_decimals ps -> 0 <= total_cents ps.
Proof.
  induction 1 as [|p ps [c [E Hc]] _ IH]; simpl; [lia|].
  unfold price_cents at 1. rewrite E. lia.
Qed.

Lemma sum_prices_error K n ps :
  0 <= K < 1000 ->
  2 * n <= 2 ^ 53 ->
  Forall two_decimals ps ->
  forall s S i,
    0 <= s -> 0 <= S -> 0 <= i ->
    - (100 * (i * 2 ^ (K + 1021))) <= 100 * s - S * unit_den
      <= 100 * (i * 2 ^ (K + 1021)) ->
    S + total_cents ps <= 50 * 2 ^ K ->
    i + Z.of_nat (List.length ps) <= n ->
    exists s',
      sum_prices ps (Fin s) = Fin s'
      /\ 0 <= s'
      /\ - (100 * (n * 2 ^ (K + 1021)))
         <= 100 * s' - (S + total_cents ps) * unit_den
         <= 100 * (n * 2 ^ (K + 1021)).
Proof.
  intros HK Hn Hps.
  destruct (scale_facts K ltac:(lia)) as (H2K & HP & EJ & EW & EP).
  pose proof unit_den_pos as HU.
  change (2 ^ 53) with 9007199254740992 in *.
  set (P := 2 ^ (K + 1021)) in *. set (U := unit_den) in *.
  set (T := 2 ^ K) in *.
  induction Hps as [|p ps [c [E Hc]] Hps IH];
    intros s S i Hs HS Hi Hinv Htot Hlen.
  - exists s. cbn [total_cents fold_right List.length] in *.
    assert (i * P <= n * P) by (apply Z.mul_le_mono_nonneg_r; lia).
    rewrite Z.add_0_r. repeat split; [assumption|lia|lia].
  - cbn [total_cents fold_right] in Htot. fold (total_cents ps) in Htot.
    unfold price_cents in Htot. rewrite E in Htot.
    pose proof (total_cents_nonneg ps Hps) as Hnn.
    cbn [List.length] in Hlen.
    assert (HcT : c <= 100 * T) by lia.
    destruct (parse_cents c K Hc ltac:(lia) ltac:(lia) HcT)
      as (f & Ef & Hf & Hfe).
    fold T U P in Hf, Hfe.
    assert (A1 : (S + c) * U <= 50 * T * U)
      by (apply Z.mul_le_mono_nonneg_r; lia).
    assert (A2 : (i + 1) * P <= n * P)
      by (apply Z.mul_le_mono_nonneg_r; lia).
    assert (A3 : 2 * n * P <= 9007199254740992 * P)
      by (apply Z.mul_le_mono_nonneg_r; lia).
    assert (Hsum : s + f <= T * U) by lia.
    destruct (add_bounded s f K Hs ltac:(lia) ltac:(lia) ltac:(lia) Hsum)
      as (s' & Es & Hs' & Hse).
    fold T U P in Hs', Hse.
    destruct (IH s' (S + c) (i + 1)) as (s'' & Ef' & Hs'' & Hinv');
      try lia.
    exists s''. unfold sum_prices in *. cbn [fold_left].
    rewrite E, Ef, Es, Ef'.
    cbn [total_cents fold_right]. fold (total_cents ps).
    unfold price_cents. rewrite E.
    replace (S + (c + total_cents ps)) with (S + c + total_cents ps) by lia.
    repeat split; lia.
Qed.

Lemma toFixed2_exact s C :
  0 <= s -> 0 <= C -> s < 10 ^ 21 * unit_den ->
  - unit_den <= 2 * (100 * s - C * unit_den) < unit_den ->
  toFixed2 (Fin s) = Dec false C 2.
Proof.
  intros Hs HC Hlt Herr.
  pose proof unit_den_pos as HU.
  unfold toFixed2. rewrite Z.abs_eq by lia.
  destruct (Z.leb_spec (10 ^ 21 * unit_den) s); [lia|].
  destruct (Z.ltb_spec s 0); [lia|].
  f_equal. symmetry.
  apply Z.div_unique with (r := 200 * s + unit_den - 2 * unit_den * C); lia.
Qed.

(** The value text of a list of two-decimal prices is their exact sum. *)
Lemma value_text_exact K ps :
  0 <= K ->
  200 * Z.of_nat (List.length ps) * 2 ^ K < 2 ^ 53 ->
  Forall two_decimals ps ->
  total_cents ps <= 50 * 2 ^ K ->
  toFixed2 (sum_prices ps (Fin 0)) = Dec false (total_cents ps) 2.
Proof.
  intros HK Hn Hps Htot.
  destruct (scale_facts K HK) as (H2K & HP & EJ & EW & EP).
  pose proof unit_den_pos as HU.
  destruct ps as [|p0 ps0] eqn:Eps.
  { cbn [sum_prices fold_left total_cents fold_right].
    apply toFixed2_exact; lia. }
  rewrite <- Eps in *.
  remember (Z.of_nat (List.length ps)) as n eqn:En.
  assert (Hn1 : 1 <= n) by (rewrite En, Eps; cbn [List.length]; lia).
  assert (HK' : K < 53).
  { destruct (Z.lt_ge_cases K 53) as [|Hge]; [assumption|].
    assert (2 ^ 53 <= 2 ^ K) by (apply Z.pow_le_mono_r; lia).
    change (2 ^ 53) with 9007199254740992 in *.
    assert (1 * 2 ^ K <= n * 2 ^ K)
      by (apply Z.mul_le_mono_nonneg_r; lia).
    lia. }
  assert (HT : 2 ^ K < 2 ^ 53) by (apply Z.pow_lt_mono_r; lia).
  change (2 ^ 53) with 9007199254740992 in *.
  remember (2 ^ (K + 1021)) as P eqn:EqP.
  remember (2 ^ K) as T eqn:EqT.
  pose proof (total_cents_nonneg ps Hps) as Hnn.
  assert (Hlt : T * unit_den < 10 ^ 21 * unit_den).
  { apply Z.mul_lt_mono_pos_r; [lia|].
    change (10 ^ 21) with 1000000000000000000000. lia. }
  assert (B1 : n * 1 <= n * T) by (apply Z.mul_le_mono_nonneg_l; lia).
  assert (Hn2 : 2 * n <= 2 ^ 53)
    by (change (2 ^ 53) with 9007199254740992; lia).
  assert (HK2 : 0 <= K < 1000) by lia.
  assert (Ht2 : 0 + total_cents ps <= 50 * 2 ^ K) by (rewrite <- EqT; lia).
  destruct (sum_prices_error K n ps HK2 Hn2 Hps 0 0 0)
    as (s & Es & Hs & Herr); try lia.
  rewrite Es. rewrite Z.add_0_l, <- EqP in Herr.
  assert (A1 : 200 * n * T * P < 9007199254740992 * P)
    by (apply Z.mul_lt_mono_pos_r; lia).
  assert (A2 : 200 * n * P < unit_den).
  { apply Z.mul_lt_mono_pos_l with (p := T); [lia|].
    rewrite EW. lia. }
  assert (A3 : total_cents ps * unit_den <= 50 * T * unit_den)
    by (apply Z.mul_le_mono_nonneg_r; lia).
  assert (A5 : 1 * unit_den <= T * unit_den)
    by (apply Z.mul_le_mono_nonneg_r; lia).
  assert (A4 : s <= T * unit_den) by lia.
  apply toFixed2_exact; lia.
Qed.

(** ** The occupation rate *)

Lemma round53_scale a d c :
  0 < d -> 0 < c -> round53 (a * c) (d * c) = round53 a d.
Proof.
  intros Hd Hc. unfold round53, ulp_exp.
  rewrite Z.div_mul_cancel_r by lia.
  set (e := Z.max 0 (Z.log2 (a / d) - 52)).
  assert (0 < 2 ^ e) by (apply Z.pow_pos_nonneg; unfold e; lia).
  f_equal. unfold rne.
  replace (d * c * 2 ^ e) with (d * 2 ^ e * c) by ring.
  rewrite Z.div_mul_cancel_r, Z.mul_mod_distr_r by nia.
  replace (2 * (a mod (d * 2 ^ e) * c)) with (2 * (a mod (d * 2 ^ e)) * c)
    by ring.
  rewrite <- Zmult_compare_compat_r by lia. reflexivity.
Qed.

Lemma round53_int m j :
  0 <= m < 2 ^ 53 -> 0 <= j -> round53 (m * 2 ^ j) 1 = m * 2 ^ j.
Proof.
  intros Hm Hj. rewrite round53_unfold. unfold ulp_exp.
  rewrite Z.div_1_r, Z.mul_1_l.
  assert (H2j : 0 < 2 ^ j) by (apply Z.pow_pos_nonneg; lia).
  destruct (Z.eq_dec m 0) as [->|Hm0].
  - rewrite Z.mul_0_l. simpl. reflexivity.
  - rewrite Z.log2_mul_pow2 by lia.
    assert (Z.log2 m < 53) by (apply Z.log2_lt_pow2; lia).
    set (e := Z.max 0 (j + Z.log2 m - 52)).
    assert (He : 0 <= e <= j) by (unfold e; lia).
    assert (E : 2 ^ j = 2 ^ (j - e) * 2 ^ e)
      by (rewrite <- Z.pow_add_r by lia; f_equal; lia).
    assert (0 < 2 ^ e) by (apply Z.pow_pos_nonneg; lia).
    rewrite E, Z.mul_assoc, rne_exact by lia. reflexivity.
Qed.

Lemma of_Z_exact c : 0 <= c < 2 ^ 53 -> of_Z c = Fin (c * unit_den).
Proof.
  intros Hc. unfold of_Z, of_Q.
  destruct (Z.ltb_spec c 0); [lia|]. rewrite Z.abs_eq by lia.
  pose proof unit_den_pos as HU.
  assert (E : c * unit_den <= 1 * 2 ^ (53 + 1074)).
  { rewrite Z.pow_add_r, <- unit_den_eq by lia. nia. }
  rewrite (of_ratio_Fin _ _ (53 + 1074)) by (try lia; nia).
  rewrite unit_den_eq, round53_int by lia. reflexivity.
Qed.

Lemma is_zero_Fin z : z <> 0 -> is_zero (Fin z) = false.
Proof. destruct z; [contradiction| |]; reflexivity. Qed.

Lemma ratio_percent c n :
  0 <= c <= n -> 0 < n < 2 ^ 32 ->
  exists k,
    round (mul (div (of_Z c) (of_Z n)) (of_Z 100)) = Fin (k * unit_den)
    /\ 0 <= k <= 100
    /\ - n <= 2 * k * n - 200 * c <= n.
Proof.
  intros Hc Hn.
  pose proof unit_den_pos as HU.
  assert (H32 : 2 ^ 32 < 2 ^ 53) by (apply Z.pow_lt_mono_r; lia).
  rewrite !of_Z_exact by (try lia; change (2 ^ 53) with 9007199254740992; lia).
  assert (HcU : 0 <= c * unit_den) by (apply Z.mul_nonneg_nonneg; lia).
  assert (HnU : 0 < n * unit_den) by (apply Z.mul_pos_pos; lia).
  (* the quotient *)
  assert (Hdiv : div (Fin (c * unit_den)) (Fin (n * unit_den))
                 = of_ratio false (c * unit_den * unit_den) (n * unit_den)).
  { unfold div. cbn [is_inf is_neg magnitude].
    rewrite is_zero_Fin by lia.
    destruct (Z.ltb_spec (c * unit_den) 0); [lia|].
    destruct (Z.ltb_spec (n * unit_den) 0); [lia|].
    rewrite !Z.abs_eq by lia. reflexivity. }
  rewrite Hdiv.
  assert (Ha0 : 0 <= c * unit_den * unit_den)
    by (apply Z.mul_nonneg_nonneg; lia).
  assert (Ha : c * unit_den * unit_den <= n * unit_den * 2 ^ 1074).
  { rewrite <- unit_den_eq. apply Z.mul_le_mono_nonneg_r; [lia|].
    apply Z.mul_le_mono_nonneg_r; lia. }
  rewrite (of_ratio_Fin _ _ 1074 Ha0 HnU ltac:(lia) Ha).
  destruct (round53_error _ _ 1074 Ha0 HnU ltac:(lia) Ha) as [Hqe Hq].
  remember (round53 (c * unit_den * unit_den) (n * unit_den)) as q eqn:Eq.
  rewrite <- unit_den_eq in Hq. change (1074 - 53) with 1021 in Hqe.
  (* the product *)
  assert (Hmul : mul (Fin q) (Fin (100 * unit_den))
                 = of_ratio false (q * (100 * unit_den)) unit_den).
  { unfold mul. cbn [is_inf is_neg magnitude orb].
    destruct (Z.ltb_spec q 0); [lia|].
    destruct (Z.ltb_spec (100 * unit_den) 0); [lia|].
    rewrite !Z.abs_eq by lia. reflexivity. }
  rewrite Hmul.
  assert (E1081 : 2 ^ 1081 = 128 * unit_den).
  { rewrite unit_den_eq. change 1081 with (7 + 1074).
    rewrite Z.pow_add_r by lia. reflexivity. }
  assert (Hb0 : 0 <= q * (100 * unit_den))
    by (apply Z.mul_nonneg_nonneg; lia).
  assert (Hb : q * (100 * unit_den) <= unit_den * 2 ^ 1081).
  { rewrite E1081.
    assert (q * (100 * unit_den) <= unit_den * (100 * unit_den))
      by (apply Z.mul_le_mono_nonneg_r; lia).
    assert (unit_den * (100 * unit_den) <= unit_den * (128 * unit_den))
      by (apply Z.mul_le_mono_nonneg_l; lia).
    lia. }
  rewrite (of_ratio_Fin _ _ 1081 Hb0 HU ltac:(lia) Hb).
  destruct (round53_error _ _ 1081 Hb0 HU ltac:(lia) Hb) as [Hpe Hp].
  remember (round53 (q * (100 * unit_den)) unit_den) as p eqn:Ep.
  change (1081 - 53) with 1028 in Hpe.
  (* the scale *)
  assert (EU : unit_den = 2 ^ 53 * 2 ^ 1021).
  { rewrite unit_den_eq, <- Z.pow_add_r by lia. reflexivity. }
  assert (E1028 : 2 ^ 1028 = 128 * 2 ^ 1021).
  { change 1028 with (7 + 1021). rewrite Z.pow_add_r by lia. reflexivity. }
  assert (HE : 0 < 2 ^ 1021) by (apply Z.pow_pos_nonneg; lia).
  change (2 ^ 53) with 9007199254740992 in *.
  change (2 ^ 32) with 4294967296 in *.
  rewrite E1028 in Hpe.
  assert (Hp0 : 0 <= p) by lia.
  clear E1028 E1081 Hb Ha Hmul Hdiv H32 Hp Hb0 Ha0 Eq Ep.
  remember (2 ^ 1021) as E eqn:EqE.
  remember unit_den as U eqn:EqU.
  (* errors, freed of the common factor [U] *)
  assert (Hq1 : - (n * E) <= 2 * (q * n - c * U) <= n * E).
  { assert (U * (2 * (q * n - c * U)) <= U * (n * E)) by lia.
    assert (U * (- (n * E)) <= U * (2 * (q * n - c * U))) by lia.
    split; apply Z.mul_le_mono_pos_l with (p := U); lia. }
  assert (Hp1 : - (128 * E) <= 2 * (p - 100 * q) <= 128 * E).
  { assert (U * (2 * (p - 100 * q)) <= U * (128 * E)) by lia.
    assert (U * (- (128 * E)) <= U * (2 * (p - 100 * q))) by lia.
    split; apply Z.mul_le_mono_pos_l with (p := U); lia. }
  clear Hqe Hpe.
  assert (Hpn : - (228 * (n * E)) <= 2 * (p * n) - 200 * (c * U)
                <= 228 * (n * E)).
  { assert (n * (2 * (p - 100 * q)) <= n * (128 * E))
      by (apply Z.mul_le_mono_nonneg_l; lia).
    assert (n * (- (128 * E)) <= n * (2 * (p - 100 * q)))
      by (apply Z.mul_le_mono_nonneg_l; lia).
    lia. }
  assert (HnE : 228 * (n * E) < U).
  { rewrite EU.
    assert (228 * n * E < 9007199254740992 * E)
      by (apply Z.mul_lt_mono_pos_r; lia).
    lia. }
  (* the rounded integer *)
  remember ((2 * p + U) / (2 * U)) as k eqn:Ek.
  assert (Hk : 2 * U * k <= 2 * p + U < 2 * U * k + 2 * U).
  { pose proof (Z.div_mod (2 * p + U) (2 * U) ltac:(lia)) as D.
    pose proof (Z.mod_pos_bound (2 * p + U) (2 * U) ltac:(lia)) as B.
    rewrite <- Ek in D. lia. }
  assert (Hkn : n * (2 * U * k) <= n * (2 * p + U)
                /\ n * (2 * p + U) < n * (2 * U * k + 2 * U)).
  { split; [apply Z.mul_le_mono_nonneg_l|apply Z.mul_lt_mono_pos_l]; lia. }
  assert (Hup : U * (2 * k * n - 200 * c - n) < U * 1) by lia.
  assert (Hlo : U * (-1) < U * (2 * k * n - 200 * c + n)) by lia.
  apply Z.mul_lt_mono_pos_l in Hup; [|lia].
  apply Z.mul_lt_mono_pos_l in Hlo; [|lia].
  assert (Hk0 : 0 <= k <= 100).
  { assert (n * (2 * k) <= n * 201) by lia.
    assert (n * (-1) <= n * (2 * k)) by lia.
    assert (2 * k <= 201) by (apply Z.mul_le_mono_pos_l with (p := n); lia).
    assert (-1 <= 2 * k) by (apply Z.mul_le_mono_pos_l with (p := n); lia).
    lia. }
  exists k. split; [|split; [exact Hk0|lia]].
  unfold round. rewrite <- EqU, <- Ek.
  destruct (Z.eqb_spec k 0) as [E0|E0].
  - rewrite E0. destruct (Z.ltb_spec p 0); [lia|]. reflexivity.
  - reflexivity.
Qed.

(** ** Creating an appointment *)

Lemma resolve_procedures_rows companyId db :
  forall ids total valid total' valid',
    resolve_procedures companyId ids db total valid = Some (total', valid') ->
    exists found,
      valid' = valid ++ found
      /\ map p_id found = ids
      /\ Forall (fun p => getProcedure (p_id p) db = Some p) found
      /\ total' = sum_prices found total.
Proof.
  induction ids as [|id ids IH]; intros total valid total' valid'; simpl.
  - intros H. inversion H. exists []. rewrite app_nil_r. auto.
  - destruct (getProcedure id db) as [p|] eqn:F; [|discriminate].
    destruct (opt_eqb companyId (p_companyId p)) eqn:E; simpl; [|discriminate].
    intros H. apply IH in H. destruct H as (found & Hv & Hi & Hc & Ht).
    exists (p :: found). rewrite Hv, <- app_assoc. simpl.
    assert (Hid : p_id p = id).
    { unfold getProcedure in F. apply find_some in F.
      destruct F as [_ F]. now apply Z.eqb_eq in F. }
    rewrite Hid, Hi. repeat split; auto.
    constructor; [now rewrite Hid|assumption].
Qed.

Lemma createAppointment_ok data db a db1 :
  createAppointment data db = (Ok a, db1) ->
  a_value a = JS.toString (JS.parseFloat (ia_value data))
  /\ a_status a = or_scheduled (ia_status data)
  /\ a_clientId a = ia_clientId data
  /\ a_collaboratorId a = ia_collaboratorId data
  /\ a_companyId a = ia_companyId data
  /\ appointments db1 = appointments db ++ [a]
  /\ appointmentProcedures db1 = appointmentProcedures db
  /\ financialRecords db1 = financialRecords db.
Proof.
  unfold createAppointment, insert_appointment.
  destruct (ia_procedureId data) as [pid|]; [|discriminate].
  cbn [clients users procedures companies with_seq_appointments].
  repeat match goal with
         | |- context [if ?c then _ else _] => destruct c
         end; try discriminate.
  intros H. apply pair_equal_spec in H. destruct H as [H1 H2].
  injection H1 as <-. subst db1. repeat split.
Qed.

Lemma createFinancialRecord_ok record db f db1 :
  createFinancialRecord record db = (Ok f, db1) ->
  appointments db1 = appointments db
  /\ appointmentProcedures db1 = appointmentProcedures db
  /\ financialRecords db1 = financialRecords db ++ [f]
  /\ f_value f = numeric_in (if_value record)
  /\ f_appointmentId f = if_appointmentId record.
Proof.
  unfold createFinancialRecord.
  cbn [companies appointments with_seq_financialRecords].
  repeat match goal with
         | |- context [if ?c then _ else _] => destruct c
         end; try discriminate.
  intros H. apply pair_equal_spec in H. destruct H as [H1 H2].
  injection H1 as <-. subst db1. repeat split.
Qed.

Lemma post_appointments_201 user body db r db' :
  post_appointments (Some user) body db = (r, db') ->
  status r = 201 ->
  exists ids total valid data a,
    b_procedureIds body = Some ids
    /\ resolve_procedures (u_companyId user) ids db (JS.Fin 0) []
       = Some (total, valid)
    /\ parse_appointment (b_clientId body) (b_collaboratorId body)
         (match valid with p :: _ => p_id p | [] => 0 end) (b_date body)
         (b_status body) (u_companyId user) (JS.toFixed2 total)
         (b_notes body) = Ok data
    /\ r = reply 201 (AppointmentJson (Some a))
    /\ a_value a = JS.toString (JS.parseFloat (JS.toFixed2 total))
    /\ a_clientId a = ia_clientId data
    /\ a_collaboratorId a = ia_collaboratorId data
    /\ In a (appointments db')
    /\ exists f, In f (financialRecords db')
                 /\ f_appointmentId f = Some (a_id a)
                 /\ f_value f = a_value a.
Proof.
  unfold post_appointments.
  destruct (b_procedureIds body) as [[|i ids]|] eqn:B;
    try (intros H; apply pair_equal_spec in H; destruct H as [<- _];
         discriminate).
  destruct (resolve_procedures _ _ _ _ _) as [[total valid]|] eqn:R;
    [|intros H; apply pair_equal_spec in H; destruct H as [<- _];
      discriminate].
  destruct valid as [|first valid'] eqn:V;
    [intros H; apply pair_equal_spec in H; destruct H as [<- _];
     discriminate|].
  destruct (parse_appointment _ _ _ _ _ _ _ _) as [data|e] eqn:P;
    [|intros H; apply pair_equal_spec in H; destruct H as [<- _];
      discriminate].
  unfold bind.
  destruct (createAppointment data db) as [[a|e] db1] eqn:C;
    [|intros H; apply pair_equal_spec in H; destruct H as [<- _];
      discriminate].
  destruct (add_procedures (a_id a) _ db1) as [[[]|e] db2] eqn:A;
    [|intros H; apply pair_equal_spec in H; destruct H as [<- _];
      discriminate].
  destruct (createFinancialRecord _ db2) as [[f|e] db3] eqn:F;
    [|intros H; apply pair_equal_spec in H; destruct H as [<- _];
      discriminate].
  unfold ret. intros H _. apply pair_equal_spec in H. destruct H as [<- <-].
  apply createAppointment_ok in C.
  destruct C as (Cv & Cs & Cc & Cl & Cco & Ca & Cp & Cf).
  apply add_procedures_ok in A. subst db2.
  destruct (procedures_added_tables (a_id a) (first :: valid') db1)
    as (Aa & Af & Ap).
  apply createFinancialRecord_ok in F.
  destruct F as (Fa & Fp & Ff & Fv & Fi).
  cbn [if_value if_appointmentId] in Fv, Fi.
  destruct (parse_appointment_ok _ _ _ _ _ _ _ _ _ P) as (_ & Pv & _).
  rewrite Pv in Cv.
  exists (i :: ids), total, (first :: valid'), data, a.
  repeat split; auto.
  - rewrite Fa, Aa, Ca. apply in_or_app. right. now left.
  - exists f. rewrite Ff. split; [apply in_or_app; right; now left|].
    split; [exact Fi|]. rewrite Fv, Cv. apply numeric_in_toString.
Qed.

(** ** When the create handler succeeds *)

Lemma opt_eqb_refl c : opt_eqb (Some c) c = true.
Proof. apply Z.eqb_refl. Qed.

Lemma getProcedure_has_id id db p :
  getProcedure id db = Some p ->
  p_id p = id /\ has_id p_id (p_id p) (procedures db) = true.
Proof.
  unfold getProcedure, has_id. intros F.
  destruct (find_some _ _ F) as [Hin Hid]. apply Z.eqb_eq in Hid.
  split; [exact Hid|]. apply existsb_exists. exists p.
  split; [exact Hin|apply Z.eqb_refl].
Qed.

Lemma resolve_procedures_own companyId db :
  forall ids total valid,
    own_procedures companyId ids db ->
    exists total' found,
      resolve_procedures companyId ids db total valid
      = Some (total', valid ++ found)
      /\ map p_id found = ids
      /\ Forall (fun p => has_id p_id (p_id p) (procedures db) = true) found.
Proof.
  induction ids as [|id ids IH]; intros total valid Hown; simpl.
  - exists total, []. rewrite app_nil_r. auto.
  - inversion Hown as [|? ? (p & G & Hc) Hown']; subst.
    rewrite G. rewrite opt_eqb_refl. simpl.
    destruct (IH (JS.add total (JS.parseFloat (p_value p))) (valid ++ [p])
                Hown') as (total' & found & R & Hi & Hf).
    exists total', (p :: found). rewrite R, <- app_assoc. simpl.
    destruct (getProcedure_has_id _ _ _ G) as [E H].
    rewrite E, Hi. repeat split; auto.
Qed.

Lemma procedures_added_untouched appointmentId ps :
  forall db, untouched db (fold_left (procedure_added appointmentId) ps db).
Proof.
  induction ps as [|p ps IH]; intros db; simpl.
  - repeat split.
  - destruct (IH (procedure_added appointmentId db p)) as (H1 & H2 & H3 & H4).
    repeat split; [rewrite H1|rewrite H2|rewrite H3|rewrite H4]; reflexivity.
Qed.

Lemma add_procedures_succeeds appointmentId ps :
  forall db,
    has_id a_id appointmentId (appointments db) = true ->
    Forall (fun p => has_id p_id (p_id p) (procedures db) = true) ps ->
    add_procedures appointmentId ps db
    = (Ok tt, fold_left (procedure_added appointmentId) ps db).
Proof.
  induction ps as [|p ps IH]; intros db Ha Hp; simpl; [reflexivity|].
  inversion Hp as [|? ? Hp1 Hp2]; subst.
  unfold bind, addProcedureToAppointment.
  cbn [appointments procedures with_seq_appointmentProcedures
       iap_appointmentId iap_procedureId].
  rewrite Ha, Hp1. cbn [negb].
  fold (procedure_added appointmentId db p).
  apply IH; assumption.
Qed.

Lemma parse_appointment_succeeds body db procedureId c value :
  well_formed body db ->
  exists data,
    parse_appointment (b_clientId body) (b_collaboratorId body) procedureId
      (b_date body) (b_status body) (Some c) value (b_notes body) = Ok data
    /\ has_id c_id (ia_clientId data) (clients db) = true
    /\ has_id u_id (ia_collaboratorId data) (users db) = true
    /\ ia_companyId data = c
    /\ ia_procedureId data
       = (if procedureId =? 0 then None else Some procedureId).
Proof.
  intros ((cl & Ec & Hc) & (u & Eu & Hu) & Hd & Hs & Hn).
  unfold parse_appointment, optional. rewrite Ec, Eu.
  destruct (b_date body); [|contradiction].
  destruct (b_status body); try contradiction;
    destruct (b_notes body); try contradiction;
    eexists; (split; [reflexivity|]); simpl; auto.
Qed.

Lemma createAppointment_succeeds data db pid :
  ia_procedureId data = Some pid ->
  has_id c_id (ia_clientId data) (clients db) = true ->
  has_id u_id (ia_collaboratorId data) (users db) = true ->
  has_id p_id pid (procedures db) = true ->
  has_id co_id (ia_companyId data) (companies db) = true ->
  exists a db1,
    createAppointment data db = (Ok a, db1)
    /\ untouched db db1
    /\ a_companyId a = ia_companyId data
    /\ has_id a_id (a_id a) (appointments db1) = true.
Proof.
  intros Hp Hc Hu Hpr Hco. unfold createAppointment, insert_appointment.
  rewrite Hp.
  cbn [clients users procedures companies with_seq_appointments].
  rewrite Hc, Hu, Hpr, Hco. cbn [negb].
  eexists. eexists. split; [reflexivity|].
  split; [repeat split|]. split; [reflexivity|].
  cbn [appointments logged with_appointments with_seq_appointments a_id].
  unfold has_id. rewrite existsb_app. cbn [existsb a_id].
  rewrite Z.eqb_refl. apply orb_true_r.
Qed.

Lemma createFinancialRecord_succeeds record db aid :
  if_appointmentId record = Some aid ->
  has_id a_id aid (appointments db) = true ->
  has_id co_id (if_companyId record) (companies db) = true ->
  exists f db1, createFinancialRecord record db = (Ok f, db1).
Proof.
  intros Ha Hap Hco. unfold createFinancialRecord.
  cbn [companies appointments with_seq_financialRecords].
  rewrite Ha, Hap, Hco. cbn [negb].
  eexists. eexists. reflexivity.
Qed.

(** A request to create an appointment for procedures of the caller's
    company, with an existing client and collaborator, is answered 201. *)
Lemma post_appointments_succeeds user body db c first ids :
  u_companyId user = Some c ->
  has_id co_id c (companies db) = true ->
  b_procedureIds body = Some (first :: ids) ->
  first <> 0 ->
  own_procedures (Some c) (first :: ids) db ->
  well_formed body db ->
  status (fst (post_appointments (Some user) body db)) = 201.
Proof.
  intros Hu Hco Hb Hf Hown Hwf.
  unfold post_appointments. rewrite Hb, Hu.
  destruct (resolve_procedures_own (Some c) db (first :: ids) (JS.Fin 0) []
              Hown) as (total & found & R & Hi & Hp).
  rewrite R. cbn [app].
  destruct found as [|p found]; [discriminate Hi|].
  injection Hi as Hi1 Hi2.
  destruct (parse_appointment_succeeds body db (p_id p) c
              (JS.toFixed2 total) Hwf) as (data & P & Hcl & Hus & Hcc & Hpi).
  rewrite P. rewrite Hi1 in Hpi.
  destruct (Z.eqb_spec first 0) as [|_]; [contradiction|].
  pose proof (Forall_inv Hp) as Hp1. cbn beta in Hp1. rewrite Hi1 in Hp1.
  destruct (createAppointment_succeeds data db first Hpi Hcl Hus Hp1)
    as (a & db1 & C & (U1 & U2 & U3 & U4) & Hac & Ha).
  { rewrite Hcc. exact Hco. }
  unfold bind. rewrite C.
  rewrite add_procedures_succeeds; [|exact Ha|rewrite U4; exact Hp].
  destruct (procedures_added_tables (a_id a) (p :: found) db1)
    as (Haa & _ & _).
  destruct (procedures_added_untouched (a_id a) (p :: found) db1)
    as (V1 & _ & _ & _).
  destruct (createFinancialRecord_succeeds
              {| if_type := "income"; if_category := "appointment";
                 if_description := appointment_label (a_id a);
                 if_value := a_value a; if_date := a_date a;
                 if_companyId := ia_companyId data;
                 if_appointmentId := Some (a_id a) |}
              (fold_left (procedure_added (a_id a)) (p :: found) db1)
              (a_id a) eq_refl)
    as (f & db3 & F).
  - rewrite Haa. exact Ha.
  - cbn [if_companyId]. rewrite V1, U1, Hcc. exact Hco.
  - rewrite F. reflexivity.
Qed.

(** ** [String(x)] reads back as [x] *)

Lemma of_ratio_scale neg a d c :
  0 < d -> 0 < c -> of_ratio neg (a * c) (d * c) = of_ratio neg a d.
Proof. intros Hd Hc. unfold of_ratio. now rewrite round53_scale. Qed.

Lemma of_ratio_representable a :
  0 < a -> representable a -> of_ratio false a 1 = Fin a.
Proof.
  intros Ha [Hr Ho]. unfold of_ratio. rewrite Hr.
  destruct (Z.leb_spec overflow_threshold a); [lia|].
  destruct (Z.eqb_spec a 0); [lia|reflexivity].
Qed.

Lemma parseFloat_exact_expansion a :
  0 < a -> representable a ->
  parseFloat (Dec false (a * 5 ^ ebias) ebias) = Fin a.
Proof.
  intros Ha Hr. unfold parseFloat.
  assert (H5 : 0 < 5 ^ ebias) by (apply Z.pow_pos_nonneg; unfold ebias; lia).
  pose proof unit_den_pos as HU.
  assert (E10 : 10 ^ ebias = 1 * (5 ^ ebias * unit_den)).
  { rewrite unit_den_eq, Z.mul_1_l. unfold ebias.
    rewrite <- Z.pow_mul_l. change (5 * 2) with 10. reflexivity. }
  rewrite E10.
  replace (a * 5 ^ ebias * unit_den) with (a * (5 ^ ebias * unit_den)) by ring.
  rewrite of_ratio_scale by nia.
  now apply of_ratio_representable.
Qed.

Lemma parseFloat_dec_of_shift s t :
  0 <= s ->
  parseFloat (dec_of false (s * 10 / 10) (t + 1))
  = parseFloat (dec_of false (s * 10) t).
Proof.
  intros Hs. rewrite Z.div_mul by lia. unfold dec_of, parseFloat.
  destruct (Z.le_gt_cases 0 t) as [Ht|Ht].
  - replace (Z.max (t + 1) 0) with (Z.succ t) by lia.
    replace (Z.max t 0) with t by lia.
    replace (Z.max (- (t + 1)) 0) with 0 by lia.
    replace (Z.max (- t) 0) with 0 by lia.
    rewrite Z.pow_succ_r by lia.
    f_equal. ring.
  - replace (Z.max (t + 1) 0) with 0 by lia.
    replace (Z.max t 0) with 0 by lia.
    replace (Z.max (- t) 0) with (Z.succ (- (t + 1))) by lia.
    replace (Z.max (- (t + 1)) 0) with (- (t + 1)) by lia.
    rewrite Z.pow_succ_r by lia.
    rewrite !Z.pow_0_r, !Z.mul_1_r.
    assert (0 < 10 ^ (- (t + 1))) by (apply Z.pow_pos_nonneg; lia).
    replace (s * 10 * unit_den) with (s * unit_den * 10) by ring.
    replace (10 * 10 ^ (- (t + 1))) with (10 ^ (- (t + 1)) * 10) by ring.
    now rewrite of_ratio_scale by lia.
Qed.

Lemma shortest_reads_back fuel : forall k n a,
  0 < a -> representable a -> 1 <= k ->
  parseFloat (shortest fuel k n a) = Fin a.
Proof.
  induction fuel as [|fuel IH]; intros k n a Ha Hr Hk.
  - now apply parseFloat_exact_expansion.
  - cbn [shortest].
    set (t := n - k).
    set (lo := _ / _).
    set (oklo := match parseFloat (dec_of false lo t) with Fin z => z =? a | _ => false end).
    set (okhi := match parseFloat (dec_of false (lo + 1) t) with Fin z => z =? a | _ => false end).
    assert (Hlo : oklo = true -> parseFloat (dec_of false lo t) = Fin a).
    { unfold oklo. destruct (parseFloat (dec_of false lo t)); try discriminate.
      intros E. apply Z.eqb_eq in E. now subst. }
    assert (Hhi0 : okhi = true -> parseFloat (dec_of false (lo + 1) t) = Fin a).
    { unfold okhi. destruct (parseFloat (dec_of false (lo + 1) t)); try discriminate.
      intros E. apply Z.eqb_eq in E. now subst. }
    assert (Hhi : okhi = true ->
                  parseFloat (if lo + 1 =? 10 ^ k
                              then dec_of false ((lo + 1) / 10) (t + 1)
                              else dec_of false (lo + 1) t) = Fin a).
    { intros E. destruct (Z.eqb_spec (lo + 1) (10 ^ k)) as [E10|E10];
        [|now apply Hhi0].
      rewrite <- (Hhi0 E), E10.
      assert (Ek : 10 ^ k = 10 ^ (k - 1) * 10).
      { replace k with (Z.succ (k - 1)) at 1 by lia.
        rewrite Z.pow_succ_r by lia. ring. }
      rewrite Ek. apply parseFloat_dec_of_shift.
      apply Z.pow_nonneg. lia. }
    destruct oklo, okhi.
    + destruct (_ ?= _); [destruct (Z.even lo)| |]; auto.
    + auto.
    + auto.
    + apply IH; [assumption|assumption|lia].
Qed.

Lemma toString_reads_back z :
  0 < z -> representable z -> parseFloat (toString (Fin z)) = Fin z.
Proof.
  intros Hz Hr. unfold toString.
  destruct (Z.eqb_spec z 0); [lia|].
  destruct (Z.ltb_spec z 0); [lia|].
  rewrite Z.abs_eq by lia.
  apply shortest_reads_back; [assumption|assumption|lia].
Qed.

Lemma round53_representable a d J :
  0 <= a -> 0 < d -> 53 <= J < 2098 -> a <= d * 2 ^ J ->
  representable (round53 a d).
Proof.
  intros Ha Hd HJ Hle. split.
  2:{ destruct (round53_error a d J Ha Hd ltac:(lia) Hle) as [_ [_ Hb]].
      assert (2 ^ J < overflow_threshold)
        by (rewrite overflow_threshold_eq; apply Z.pow_lt_mono_r; lia).
      lia. }
  rewrite (round53_unfold a d).
  assert (He : 0 <= ulp_exp a d) by (unfold ulp_exp; lia).
  assert (Hq : 0 <= a / d) by (apply Z.div_pos; lia).
  assert (Hlt : a / d < 2 ^ (ulp_exp a d + 53)).
  { destruct (Z.eq_dec (a / d) 0) as [E|E].
    - rewrite E. apply Z.pow_pos_nonneg; lia.
    - destruct (Z.log2_spec (a / d) ltac:(lia)) as [_ Hs].
      eapply Z.lt_le_trans; [exact Hs|].
      apply Z.pow_le_mono_r; [lia|]. unfold ulp_exp. lia. }
  set (e := ulp_exp a d) in *.
  assert (Hpe : 0 < 2 ^ e) by (apply Z.pow_pos_nonneg; lia).
  assert (Hm : 0 <= rne a (d * 2 ^ e) <= 2 ^ 53).
  { split; [apply rne_ge; nia|].
    apply rne_le; [nia|].
    pose proof (Z.div_mod a d ltac:(lia)) as D.
    pose proof (Z.mod_pos_bound a d Hd) as B.
    rewrite Z.pow_add_r in Hlt by lia.
    assert (a / d + 1 <= 2 ^ e * 2 ^ 53) by lia.
    assert (d * (a / d + 1) <= d * (2 ^ e * 2 ^ 53))
      by (apply Z.mul_le_mono_nonneg_l; lia).
    lia. }
  destruct (Z.eq_dec (rne a (d * 2 ^ e)) (2 ^ 53)) as [E|E].
  - rewrite E.
    replace (2 ^ 53 * 2 ^ e) with (2 ^ 52 * 2 ^ (e + 1)).
    + apply round53_int; [|lia].
      split; [apply Z.pow_nonneg; lia|apply Z.pow_lt_mono_r; lia].
    + rewrite <- !Z.pow_add_r by lia. f_equal. lia.
  - apply round53_int; lia.
Qed.

Lemma toString_reads_back_nonneg z :
  0 <= z -> representable z -> parseFloat (toString (Fin z)) = Fin z.
Proof.
  intros Hz Hr. destruct (Z.eq_dec z 0) as [->|Hz0].
  - unfold toString, parseFloat. cbn [Z.eqb].
    rewrite Z.mul_0_l, of_ratio_zero; [reflexivity|].
    apply Z.pow_pos_nonneg; lia.
  - apply toString_reads_back; [lia|assumption].
Qed.

(** The text stored for a sum of cents reads back as the binary64 number
    nearest to the sum. *)
Lemma stored_cents_read_back C K :
  0 <= C -> 0 <= K < 1000 -> C <= 100 * 2 ^ K ->
  parseFloat (toString (parseFloat (Dec false C 2)))
  = parseFloat (Dec false C 2).
Proof.
  intros HC HK Hle.
  pose proof unit_den_pos as HU.
  destruct (scale_facts K ltac:(lia)) as (H2K & HP & EJ & EW & EP).
  assert (Ha0 : 0 <= C * unit_den) by (apply Z.mul_nonneg_nonneg; lia).
  assert (Ha : C * unit_den <= 10 ^ 2 * 2 ^ (K + 1074)).
  { rewrite EJ. change (10 ^ 2) with 100.
    assert (C * unit_den <= 100 * 2 ^ K * unit_den)
      by (apply Z.mul_le_mono_nonneg_r; lia).
    lia. }
  assert (Hd : 0 < 10 ^ 2) by reflexivity.
  assert (HJ : 53 <= K + 1074 < 2098) by lia.
  unfold parseFloat at 2 3.
  rewrite (of_ratio_Fin _ _ (K + 1074) Ha0 Hd HJ Ha).
  apply toString_reads_back_nonneg.
  - now destruct (round53_error _ _ (K + 1074) Ha0 Hd ltac:(lia) Ha)
      as [_ [H0 _]].
  - now apply (round53_representable _ _ (K + 1074)).
Qed.

(** ** The occupation rate of the dashboard *)

Lemma occupationRate_percent (appointments : list Appointment) :
  length_Z appointments < 2 ^ 32 ->
  let n := length_Z appointments in
  let c := length_Z (filter completed appointments) in
  exists k,
    occupationRate appointments = JS.Fin (k * JS.unit_den)
    /\ 0 <= k <= 100
    /\ (n = 0 -> k = 0)
    /\ (0 < n -> - n <= 2 * k * n - 200 * c <= n).
Proof.
  intros Hlen n c.
  assert (Hc : 0 <= c <= n).
  { unfold c, n, length_Z.
    pose proof (filter_length_le completed appointments). lia. }
  unfold occupationRate. fold n c.
  destruct (Z.eqb_spec n 0) as [E|E].
  - assert (c = 0) by lia.
    destruct (ratio_percent 0 1 ltac:(lia)) as (k & Hk & Hr & Hn).
    { split; [lia|reflexivity]. }
    exists k. replace c with 0 by lia.
    split; [exact Hk|]. split; [lia|]. split; lia.
  - destruct (ratio_percent c n Hc) as (k & Hk & Hr & Hn).
    { unfold n, length_Z in *. lia. }
    exists k. split; [exact Hk|]. split; [lia|]. split; lia.
Qed.

(** * The rest of the server: properties *)

(** ** Procedure lists the handlers refuse *)

Lemma resolve_procedures_fails companyId db :
  forall ids total valid,
    ~ own_procedures companyId ids db ->
    resolve_procedures companyId ids db total valid = None.
Proof.
  induction ids as [|id ids IH]; intros total valid H.
  - exfalso. apply H. constructor.
  - simpl. destruct (getProcedure id db) as [p|] eqn:G; [|reflexivity].
    destruct (opt_eqb companyId (p_companyId p)) eqn:E; simpl; [|reflexivity].
    apply IH. intros Hr. apply H. constructor; [|exact Hr].
    exists p. split; [exact G|].
    unfold opt_eqb in E. destruct companyId as [c|]; [|discriminate].
    apply Z.eqb_eq in E. now subst.
Qed.

Lemma own_company user c :
  Some c = u_companyId user -> other_company c user = false.
Proof.
  intros H. unfold other_company. rewrite <- H. simpl.
  now rewrite Z.eqb_refl.
Qed.

(** X1. A request to create or to update an appointment whose list of
    procedures is missing or empty is answered 400 with the message that one
    procedure is required; one whose list holds an id that is no procedure
    of the user's company is answered 400 with the message that the
    procedure is invalid. In both cases the database stays as it was. *)
Theorem unusable_procedure_lists_rejected :
  forall (user : User) (body : AppointmentBody) (db : DB),
    (b_procedureIds body = None \/ b_procedureIds body = Some [] ->
     post_appointments (Some user) body db = (no_procedure, db)
     /\ forall id existing now,
         getAppointment id db = Some existing ->
         Some (a_companyId existing) = u_companyId user ->
         put_appointment (Some user) id body now db = (no_procedure, db))
    /\ (forall ids,
         b_procedureIds body = Some ids ->
         ids <> [] ->
         ~ own_procedures (u_companyId user) ids db ->
         post_appointments (Some user) body db = (invalid_procedure, db)
         /\ forall id existing now,
             getAppointment id db = Some existing ->
             Some (a_companyId existing) = u_companyId user ->
             put_appointment (Some user) id body now db
             = (invalid_procedure, db)).
Proof.
  intros user body db. split.
  - intros H. split.
    + unfold post_appointments. destruct H as [-> | ->]; reflexivity.
    + intros id existing now G Hc. unfold put_appointment.
      rewrite G, (own_company _ _ Hc).
      destruct H as [-> | ->]; reflexivity.
  - intros ids B Hne Hown. split.
    + unfold post_appointments. rewrite B.
      destruct ids as [|i ids]; [contradiction|].
      now rewrite (resolve_procedures_fails _ _ _ _ _ Hown).
    + intros id existing now G Hc. unfold put_appointment.
      rewrite G, (own_company _ _ Hc), B.
      destruct ids as [|i ids]; [contradiction|].
      now rewrite (resolve_procedures_fails _ _ _ _ _ Hown).
Qed.

(** ** No partial writes *)

Lemma has_id_map_keep {A : Type} (key : A -> Z) (f : A -> A) (id : Z)
    (l : list A) :
  (forall x, key (f x) = key x) ->
  has_id key id (map f l) = has_id key id l.
Proof.
  intros Hk. unfold has_id. induction l as [|x l IH]; simpl; [reflexivity|].
  now rewrite Hk, IH.
Qed.

Lemma getAppointment_has_id id db a :
  getAppointment id db = Some a ->
  a_id a = id /\ has_id a_id id (appointments db) = true.
Proof.
  unfold getAppointment, has_id. intros F.
  destruct (find_some _ _ F) as [Hin Hid]. apply Z.eqb_eq in Hid.
  split; [exact Hid|]. apply existsb_exists. exists a.
  split; [exact Hin|]. now apply Z.eqb_eq.
Qed.

Lemma createAppointment_cases data db :
  (exists e, createAppointment data db
             = (Throw e, with_seq_appointments (seq_appointments db + 1) db))
  \/ (exists a db1,
        createAppointment data db = (Ok a, db1)
        /\ untouched db db1
        /\ a_companyId a = ia_companyId data
        /\ has_id a_id (a_id a) (appointments db1) = true
        /\ has_id co_id (ia_companyId data) (companies db) = true).
Proof.
  unfold createAppointment, insert_appointment.
  destruct (ia_procedureId data) as [pid|]; [|left; eexists; reflexivity].
  cbn [clients users procedures companies with_seq_appointments].
  destruct (has_id c_id _ _); cbn [negb]; [|left; eexists; reflexivity].
  destruct (has_id u_id _ _); cbn [negb]; [|left; eexists; reflexivity].
  destruct (has_id p_id _ _); cbn [negb]; [|left; eexists; reflexivity].
  destruct (has_id co_id _ _) eqn:Hco; cbn [negb];
    [|left; eexists; reflexivity].
  right. eexists. eexists. split; [reflexivity|].
  split; [repeat split|]. split; [reflexivity|].
  split; [|reflexivity].
  cbn [appointments logged with_appointments with_seq_appointments a_id].
  unfold has_id. rewrite existsb_app. cbn [existsb a_id].
  rewrite Z.eqb_refl. apply orb_true_r.
Qed.

Lemma updateAppointment_cases id data db existing :
  getAppointment id db = Some existing ->
  (exists e, updateAppointment id data db = (Throw e, db))
  \/ (exists updated,
        updateAppointment id data db
        = (Ok updated, appointment_updated id data db)).
Proof.
  intros G. destruct (getAppointment_has_id _ _ _ G) as [_ Hid].
  unfold has_id in Hid.
  unfold updateAppointment, update_appointment, bind.
  rewrite Hid. cbn [negb].
  destruct (has_id c_id _ _); cbn [negb]; [|left; eexists; reflexivity].
  destruct (has_id u_id _ _); cbn [negb]; [|left; eexists; reflexivity].
  destruct (match ia_procedureId data with
            | Some pid => negb (has_id p_id pid (procedures db))
            | None => false
            end); [left; eexists; reflexivity|].
  destruct (has_id co_id _ _); cbn [negb]; [|left; eexists; reflexivity].
  right.
  destruct (filter (fun a => a_id a =? id) (appointments db))
    as [|row rows] eqn:F.
  - exfalso. apply existsb_exists in Hid. destruct Hid as (x & Hin & Hx).
    assert (Hf : In x (filter (fun a => a_id a =? id) (appointments db)))
      by (apply filter_In; split; assumption).
    rewrite F in Hf. exact Hf.
  - cbn [map]. unfold ret. eexists. reflexivity.
Qed.

Lemma put_appointment_cases user id body now db :
  snd (put_appointment (Some user) id body now db) = db
  \/ status (fst (put_appointment (Some user) id body now db)) = 200.
Proof.
  unfold put_appointment.
  destruct (getAppointment id db) as [existing|] eqn:G; [|left; reflexivity].
  destruct (other_company _ user); [left; reflexivity|].
  destruct (b_procedureIds body) as [[|i ids]|]; try (left; reflexivity).
  destruct (resolve_procedures _ _ _ _ _) as [[total valid]|] eqn:R;
    [|left; reflexivity].
  destruct valid as [|first valid']; [left; reflexivity|].
  destruct (parse_appointment _ _ _ _ _ _ _ _) as [data|e];
    [|left; reflexivity].
  unfold bind.
  destruct (updateAppointment_cases id data db existing G)
    as [[e U]|[updated U]]; rewrite U; [left; reflexivity|].
  right.
  unfold removeAllProceduresFromAppointment.
  fold (junction_cleared id (appointment_updated id data db)).
  destruct (resolve_procedures_rows _ _ _ _ _ _ _ R)
    as (found & Hv & _ & Hf & _).
  cbn [app] in Hv. subst found.
  rewrite add_procedures_succeeds.
  - destruct (_ && _); [|reflexivity].
    unfold updateFinancialRecordByAppointment, bind.
    rewrite update_financial_records_ok
      by (try reflexivity; split; intros; discriminate).
    reflexivity.
  - destruct (getAppointment_has_id _ _ _ G) as [_ Hid].
    cbn [junction_cleared appointment_updated appointments logged
         with_appointmentProcedures with_appointments].
    rewrite has_id_map_keep; [exact Hid|].
    intros x. destruct (a_id x =? id); reflexivity.
  - cbn [junction_cleared appointment_updated procedures logged
         with_appointmentProcedures with_appointments].
    eapply Forall_impl; [|exact Hf].
    intros p Hp. cbv beta in Hp.
    exact (proj2 (getProcedure_has_id _ _ _ Hp)).
Qed.

Lemma with_seq_appointments_same_rows v db :
  same_rows db (with_seq_appointments v db).
Proof. repeat split. Qed.

Lemma same_rows_refl db : same_rows db db.
Proof. repeat split. Qed.

Lemma post_appointments_cases user body db :
  same_rows db (snd (post_appointments (Some user) body db))
  \/ status (fst (post_appointments (Some user) body db)) = 201.
Proof.
  unfold post_appointments.
  destruct (b_procedureIds body) as [[|i ids]|];
    try (left; apply same_rows_refl).
  destruct (resolve_procedures _ _ _ _ _) as [[total valid]|] eqn:R;
    [|left; apply same_rows_refl].
  destruct valid as [|first valid']; [left; apply same_rows_refl|].
  destruct (parse_appointment _ _ _ _ _ _ _ _) as [data|e];
    [|left; apply same_rows_refl].
  unfold bind.
  destruct (createAppointment_cases data db)
    as [[e C]|(a & db1 & C & (U1 & U2 & U3 & U4) & Hac & Ha & Hco)];
    rewrite C; [left; apply with_seq_appointments_same_rows|].
  right.
  destruct (resolve_procedures_rows _ _ _ _ _ _ _ R)
    as (found & Hv & _ & Hf & _).
  cbn [app] in Hv. subst found.
  rewrite add_procedures_succeeds; [|exact Ha|].
  - destruct (procedures_added_tables (a_id a) (first :: valid') db1)
      as (Haa & _ & _).
    destruct (procedures_added_untouched (a_id a) (first :: valid') db1)
      as (V1 & _ & _ & _).
    destruct (createFinancialRecord_succeeds
                {| if_type := "income"; if_category := "appointment";
                   if_description := appointment_label (a_id a);
                   if_value := a_value a; if_date := a_date a;
                   if_companyId := ia_companyId data;
                   if_appointmentId := Some (a_id a) |}
                (fold_left (procedure_added (a_id a)) (first :: valid') db1)
                (a_id a) eq_refl)
      as (f & db3 & F).
    + rewrite Haa. exact Ha.
    + cbn [if_companyId]. rewrite V1, U1. exact Hco.
    + rewrite F. reflexivity.
  - rewrite U4. eapply Forall_impl; [|exact Hf].
    intros p Hp. cbv beta in Hp.
    exact (proj2 (getProcedure_has_id _ _ _ Hp)).
Qed.


(** ** Hexadecimal texts *)

Lemma fromHex_byte b s :
  fromHex (hex_of_byte b ++ s)%string = b :: fromHex s.
Proof. destruct b; reflexivity. Qed.

Lemma fromHex_toHex buf : fromHex (toHex buf) = buf.
Proof.
  induction buf as [|b buf IH]; [reflexivity|].
  cbn [toHex]. now rewrite fromHex_byte, IH.
Qed.

Lemma split_hex_byte b s w ws :
  split "." s = w :: ws ->
  split "." (hex_of_byte b ++ s)%string = (hex_of_byte b ++ w)%string :: ws.
Proof. intros H. destruct b; cbn; rewrite H; reflexivity. Qed.

Lemma split_toHex buf : split "." (toHex buf) = [toHex buf].
Proof.
  induction buf as [|b buf IH]; [reflexivity|].
  cbn [toHex]. now rewrite (split_hex_byte _ _ _ _ IH).
Qed.

Lemma split_stored hashed salt :
  split "." (toHex hashed ++ "." ++ toHex salt)%string
  = [toHex hashed; toHex salt].
Proof.
  induction hashed as [|b buf IH].
  - cbn [toHex]. cbn. now rewrite split_toHex.
  - cbn [toHex].
    change ((hex_of_byte b ++ toHex buf) ++ "." ++ toHex salt)%string
      with (hex_of_byte b ++ (toHex buf ++ "." ++ toHex salt))%string.
    now rewrite (split_hex_byte _ _ _ _ IH).
Qed.

Lemma equal_bytes_refl a : equal_bytes a a = true.
Proof.
  induction a as [|x a IH]; [reflexivity|].
  cbn. rewrite IH. destruct x; reflexivity.
Qed.

Lemma equal_bytes_eq a : forall b, equal_bytes a b = true -> a = b.
Proof.
  induction a as [|x a IH]; intros [|y b] H; try discriminate; [reflexivity|].
  cbn in H. apply andb_prop in H. destruct H as [Hx Hr].
  apply Byte.byte_dec_bl in Hx. subst y. now rewrite (IH _ Hr).
Qed.

Lemma toHex_length buf : String.length (toHex buf) = (2 * List.length buf)%nat.
Proof.
  induction buf as [|b buf IH]; [reflexivity|].
  cbn [toHex List.length]. unfold hex_of_byte. cbn [append String.length].
  rewrite IH. lia.
Qed.

Lemma substring0_length n : forall s,
  (n <= String.length s)%nat -> String.length (substring 0 n s) = n.
Proof.
  induction n as [|n IH]; intros [|c s] H; cbn in *; try reflexivity;
    try lia.
  rewrite IH; [reflexivity|lia].
Qed.

Lemma toUpperCase_length s : String.length (toUpperCase s) = String.length s.
Proof. induction s as [|c s IH]; cbn; [reflexivity|now rewrite IH]. Qed.

Lemma upper_hex_prefix buf : forall n,
  all_chars upper_hex (toUpperCase (substring 0 n (toHex buf))) = true.
Proof.
  induction buf as [|b buf IH]; intros n.
  - destruct n; reflexivity.
  - destruct n as [|[|n]]; [reflexivity| |].
    + destruct b; reflexivity.
    + cbn [toHex]. unfold hex_of_byte.
      cbn [append substring toUpperCase all_chars].
      rewrite IH. destruct b; reflexivity.
Qed.

(** ** Passwords and invite codes *)

(** X3. comparePasswords accepts a password against the text hashPassword
    made of it, whatever the salt; against that text it answers what
    timingSafeEqual answers on the two derived keys, so another password is
    accepted only if it derives the same key. *)
Theorem hashed_password_verifies :
  forall (scrypt : string -> string -> bytes) (salt : random)
         (password supplied : string),
    let stored := hashPassword scrypt salt password in
    let key := scrypt password (toHex (salt 16%nat)) in
    comparePasswords scrypt password stored = Done true
    /\ comparePasswords scrypt supplied stored
       = timingSafeEqual key (scrypt supplied (toHex (salt 16%nat)))
    /\ (comparePasswords scrypt supplied stored = Done true ->
        scrypt supplied (toHex (salt 16%nat)) = key).
Proof.
  intros scrypt salt password supplied stored key.
  assert (Hc : forall x,
             comparePasswords scrypt x stored
             = timingSafeEqual key (scrypt x (toHex (salt 16%nat)))).
  { intros x. unfold comparePasswords, stored, hashPassword.
    rewrite split_stored, fromHex_toHex. reflexivity. }
  split; [|split].
  - rewrite Hc. unfold timingSafeEqual. fold key.
    rewrite Nat.eqb_refl. cbn [negb]. now rewrite equal_bytes_refl.
  - apply Hc.
  - rewrite Hc. unfold timingSafeEqual.
    destruct (negb _); [discriminate|].
    intros H. injection H as H. symmetry. now apply equal_bytes_eq.
Qed.

(** X4. When randomBytes returns as many bytes as it is asked for,
    generateInviteCode(length) is a text of exactly length characters, each
    a digit or a capital from A to F. *)
Theorem invite_code_format :
  forall (randomBytes : random) (length : nat),
    List.length (randomBytes ((length + 1) / 2)%nat) = ((length + 1) / 2)%nat ->
    String.length (generateInviteCode randomBytes length) = length
    /\ all_chars upper_hex (generateInviteCode randomBytes length) = true.
Proof.
  intros randomBytes n H. unfold generateInviteCode, slice0. split.
  - rewrite toUpperCase_length, substring0_length; [reflexivity|].
    rewrite toHex_length, H.
    pose proof (Nat.div_mod_eq (n + 1) 2) as E.
    pose proof (Nat.mod_upper_bound (n + 1) 2 ltac:(lia)). lia.
  - apply upper_hex_prefix.
Qed.

(** ** Keys and references *)

Lemma serial_bump {A : Type} (key : A -> Z) seq seq' rows :
  seq <= seq' -> serial key seq rows -> serial key seq' rows.
Proof.
  intros Hle [Hn Hf]. split; [exact Hn|].
  eapply Forall_impl; [|exact Hf]. cbv beta. intros; lia.
Qed.

Lemma serial_append {A : Type} (key : A -> Z) seq rows r :
  key r = seq + 1 -> serial key seq rows -> serial key (seq + 1) (rows ++ [r]).
Proof.
  intros Hk [Hn Hf]. split.
  - rewrite map_app. cbn [map]. apply NoDup_app; [exact Hn| |].
    + constructor; [intros []|constructor].
    + intros a Hin [Ha|[]]. subst a. apply in_map_iff in Hin.
      destruct Hin as (x & Hx & Hin). rewrite Forall_forall in Hf.
      specialize (Hf x Hin). cbv beta in Hf. lia.
  - apply Forall_app. split.
    + eapply Forall_impl; [|exact Hf]. cbv beta. intros; lia.
    + constructor; [lia|constructor].
Qed.

Lemma serial_map {A : Type} (key : A -> Z) seq rows (f : A -> A) :
  (forall x, key (f x) = key x) ->
  serial key seq rows -> serial key seq (map f rows).
Proof.
  intros Hk [Hn Hf]. split.
  - rewrite map_map. erewrite map_ext; [exact Hn|]. exact Hk.
  - apply Forall_map. eapply Forall_impl; [|exact Hf].
    cbv beta. intros x. now rewrite Hk.
Qed.

Lemma NoDup_map_filter {A B : Type} (key : A -> B) (p : A -> bool) rows :
  NoDup (map key rows) -> NoDup (map key (filter p rows)).
Proof.
  induction rows as [|x rows IH]; cbn; [intros; constructor|].
  intros H. inversion H as [|? ? Hn Hr]; subst.
  destruct (p x); cbn; [|now apply IH].
  constructor; [|now apply IH].
  intros Hin. apply Hn. apply in_map_iff in Hin.
  destruct Hin as (y & Hy & Hin). apply filter_In in Hin.
  apply in_map_iff. exists y. tauto.
Qed.

Lemma Forall_filter {A : Type} (P : A -> Prop) (p : A -> bool) rows :
  Forall P rows -> Forall P (filter p rows).
Proof.
  intros H. apply Forall_forall. intros x Hin. apply filter_In in Hin.
  rewrite Forall_forall in H. now apply H.
Qed.

Lemma serial_filter {A : Type} (key : A -> Z) seq rows (p : A -> bool) :
  serial key seq rows -> serial key seq (filter p rows).
Proof.
  intros [Hn Hf]. split; [now apply NoDup_map_filter|now apply Forall_filter].
Qed.

Lemma has_id_app {A : Type} (key : A -> Z) id (l l' : list A) :
  has_id key id (l ++ l') = has_id key id l || has_id key id l'.
Proof. apply existsb_app. Qed.

Lemma has_id_grows {A : Type} (key : A -> Z) id (l l' : list A) :
  has_id key id l = true -> has_id key id (l ++ l') = true.
Proof. intros H. now rewrite has_id_app, H. Qed.

Lemma has_id_In {A : Type} (key : A -> Z) id (l : list A) :
  has_id key id l = true <-> exists x, In x l /\ key x = id.
Proof.
  unfold has_id. rewrite existsb_exists.
  split; intros (x & Hin & Hx); exists x; (split; [exact Hin|]);
    now apply Z.eqb_eq.
Qed.

Lemma has_id_filter {A : Type} (key : A -> Z) id (p : A -> bool) (l : list A) :
  has_id key id l = true ->
  (forall x, In x l -> key x = id -> p x = true) ->
  has_id key id (filter p l) = true.
Proof.
  intros H Hp. apply has_id_In in H. destruct H as (x & Hin & Hx).
  apply has_id_In. exists x. split; [|exact Hx].
  apply filter_In. split; [exact Hin|]. now apply Hp.
Qed.

Lemma refers_grows {A : Type} (key : A -> Z) (l l' : list A) o :
  refers key l o -> refers key (l ++ l') o.
Proof. destruct o; cbn; [apply has_id_grows|trivial]. Qed.

Lemma refers_map_keep {A : Type} (key : A -> Z) (f : A -> A) (l : list A) o :
  (forall x, key (f x) = key x) ->
  refers key l o -> refers key (map f l) o.
Proof.
  intros Hk. destruct o; cbn; [|trivial].
  now rewrite has_id_map_keep.
Qed.

Ltac open_db :=
  cbn [companies users clients procedures appointments appointmentProcedures
       financialRecords seq_appointments seq_appointmentProcedures
       seq_financialRecords log logged with_clients with_procedures
       with_appointments with_appointmentProcedures with_financialRecords
       with_seq_appointments with_seq_appointmentProcedures
       with_seq_financialRecords with_companies with_users snd fst
       tables with_tables seq_companies seq_users seq_clients seq_procedures
       with_seq_companies with_seq_users with_seq_clients
       with_seq_procedures].

Ltac take_consistent H :=
  let Kco := fresh "Kco" in let Ku := fresh "Ku" in let Kc := fresh "Kc" in
  let Kp := fresh "Kp" in let Ka := fresh "Ka" in let Kap := fresh "Kap" in
  let Kf := fresh "Kf" in let Ru := fresh "Ru" in let Rc := fresh "Rc" in
  let Rp := fresh "Rp" in let Ra := fresh "Ra" in let Rap := fresh "Rap" in
  let Rf := fresh "Rf" in let Ue := fresh "Ue" in let Ui := fresh "Ui" in
  destruct H as (Kco & Ku & Kc & Kp & Ka & Kap & Kf
                 & (Ru & Rc & Rp & Ra & Rap & Rf) & (Ue & Ui)).

Ltac give_consistent :=
  unfold consistent, consistent_with, references_ok, unique_ok;
  refine (conj _ (conj _ (conj _ (conj _ (conj _ (conj _ (conj _
           (conj (conj _ (conj _ (conj _ (conj _ (conj _ _)))))
                 (conj _ _)))))))));
  open_db.

Ltac same_part :=
  first
    [ assumption
    | solve [eapply serial_bump; [|eassumption]; lia]
    | solve [eapply Forall_impl; [|eassumption]; cbv beta; intros;
             intuition (auto using has_id_grows, refers_grows)] ].

(** ** What the storage methods keep, the handlers keep *)

Section Kept.
Variable P : DB -> Prop.

Lemma preserves_ret {A : Type} (a : A) : preserves P (ret a).
Proof. intros db H. exact H. Qed.

Lemma preserves_throw {A : Type} e : preserves P (@throw A e).
Proof. intros db H. exact H. Qed.

Lemma preserves_bind {A B : Type} (m : M A) (k : A -> M B) :
  preserves P m -> (forall a, preserves P (k a)) -> preserves P (bind m k).
Proof.
  intros Hm Hk db H. unfold bind. specialize (Hm db H).
  destruct (m db) as [[a|e] db']; cbn [snd] in *; [now apply Hk|exact Hm].
Qed.

Lemma add_procedures_keeps appointmentId ps :
  (forall ap, preserves P (addProcedureToAppointment ap)) ->
  preserves P (add_procedures appointmentId ps).
Proof.
  intros Hadd. induction ps as [|p ps IH]; cbn [add_procedures].
  - apply preserves_ret.
  - apply preserves_bind; [apply Hadd|]. intros _. exact IH.
Qed.

Lemma post_appointments_keeps :
  (forall data, preserves P (createAppointment data)) ->
  (forall ap, preserves P (addProcedureToAppointment ap)) ->
  (forall record, preserves P (createFinancialRecord record)) ->
  forall user body db, P db -> P (snd (post_appointments user body db)).
Proof.
  intros Hc Ha Hf user body db H. unfold post_appointments.
  destruct user as [user|]; [|exact H].
  destruct (b_procedureIds body) as [[|i ids]|]; try exact H.
  destruct (resolve_procedures _ _ _ _ _) as [[total valid]|]; [|exact H].
  destruct valid as [|first valid']; [exact H|].
  destruct (parse_appointment _ _ _ _ _ _ _ _) as [data|e]; [|exact H].
  match goal with
  | |- P (snd (match ?w db with _ => _ end)) =>
    assert (Hw : P (snd (w db)));
      [|destruct (w db) as [[a|e] db']; exact Hw]
  end.
  apply preserves_bind; [apply Hc| |exact H].
  intros a. apply preserves_bind; [now apply add_procedures_keeps|].
  intros _. apply preserves_bind; [apply Hf|].
  intros _. apply preserves_ret.
Qed.

Lemma put_appointment_keeps :
  (forall id data, preserves P (updateAppointment id data)) ->
  (forall id, preserves P (removeAllProceduresFromAppointment id)) ->
  (forall ap, preserves P (addProcedureToAppointment ap)) ->
  (forall id updates,
      preserves P (updateFinancialRecordByAppointment id updates)) ->
  forall user id body now db,
    P db -> P (snd (put_appointment user id body now db)).
Proof.
  intros Hu Hr Ha Hf user id body now db H. unfold put_appointment.
  destruct user as [user|]; [|exact H].
  destruct (getAppointment id db) as [existing|]; [|exact H].
  destruct (other_company _ user); [exact H|].
  destruct (b_procedureIds body) as [[|i ids]|]; try exact H.
  destruct (resolve_procedures _ _ _ _ _) as [[total valid]|]; [|exact H].
  destruct valid as [|first valid']; [exact H|].
  match goal with
  | |- P (snd (match ?w db with _ => _ end)) =>
    assert (Hw : P (snd (w db)));
      [|destruct (w db) as [[a|e] db']; exact Hw]
  end.
  destruct (parse_appointment _ _ _ _ _ _ _ _) as [data|e]; [|exact H].
  apply preserves_bind; [apply Hu| |exact H].
  intros updated. apply preserves_bind; [apply Hr|].
  intros _. apply preserves_bind; [now apply add_procedures_keeps|].
  intros _. destruct (_ && _); [apply Hf|apply preserves_ret].
Qed.

Lemma delete_appointment_route_keeps :
  (forall id, preserves P (deleteFinancialRecordByAppointment id)) ->
  (forall id, preserves P (deleteAppointment id)) ->
  forall user id db, P db -> P (snd (delete_appointment_route user id db)).
Proof.
  intros Hf Hd user id db H. unfold delete_appointment_route.
  destruct user as [user|]; [|exact H].
  destruct (getAppointment id db) as [existing|]; [|exact H].
  destruct (other_company _ user); [exact H|].
  match goal with
  | |- P (snd (match ?w db with _ => _ end)) =>
    assert (Hw : P (snd (w db)));
      [|destruct (w db) as [[a|e] db']; exact Hw]
  end.
  apply preserves_bind; [apply Hf| |exact H].
  intros _. apply Hd.
Qed.

Lemma put_client_keeps :
  (forall id data, preserves P (updateClient id data)) ->
  forall user id body db, P db -> P (snd (put_client user id body db)).
Proof.
  intros Hu user id body db H. unfold put_client.
  destruct user as [user|]; [|exact H].
  destruct (getClient id db) as [existing|]; [|exact H].
  destruct (other_company _ user); [exact H|].
  destruct (parse_client _ _) as [data|e]; [|exact H].
  pose proof (Hu id data db H) as Hw.
  destruct (updateClient id data db) as [[a|e] db']; exact Hw.
Qed.

Lemma delete_client_keeps :
  (forall id, preserves P (deleteClient id)) ->
  forall user id db, P db -> P (snd (delete_client user id db)).
Proof.
  intros Hd user id db H. unfold delete_client.
  destruct user as [user|]; [|exact H].
  destruct (negb (is_admin user)); [exact H|].
  destruct (getClient id db) as [existing|]; [|exact H].
  destruct (other_company _ user); [exact H|].
  pose proof (Hd id db H) as Hw.
  destruct (deleteClient id db) as [[a|e] db']; exact Hw.
Qed.

Lemma put_procedure_keeps :
  (forall id data, preserves P (updateProcedure id data)) ->
  forall user id body db, P db -> P (snd (put_procedure user id body db)).
Proof.
  intros Hu user id body db H. unfold put_procedure.
  destruct user as [user|]; [|exact H].
  destruct (negb (is_admin user)); [exact H|].
  destruct (getProcedure id db) as [existing|]; [|exact H].
  destruct (other_company _ user); [exact H|].
  destruct (parse_procedure _ _) as [data|e]; [|exact H].
  pose proof (Hu id data db H) as Hw.
  destruct (updateProcedure id data db) as [[a|e] db']; exact Hw.
Qed.

Lemma delete_procedure_keeps :
  (forall id, preserves P (deleteProcedure id)) ->
  forall user id db, P db -> P (snd (delete_procedure user id db)).
Proof.
  intros Hd user id db H. unfold delete_procedure.
  destruct user as [user|]; [|exact H].
  destruct (negb (is_admin user)); [exact H|].
  destruct (getProcedure id db) as [existing|]; [|exact H].
  destruct (other_company _ user); [exact H|].
  pose proof (Hd id db H) as Hw.
  destruct (deleteProcedure id db) as [[a|e] db']; exact Hw.
Qed.

Lemma post_financial_records_keeps :
  (forall record, preserves P (createFinancialRecord record)) ->
  forall user body db, P db -> P (snd (post_financial_records user body db)).
Proof.
  intros Hc user body db H. unfold post_financial_records.
  destruct user as [user|]; [|exact H].
  destruct (negb (is_admin user)); [exact H|].
  destruct (parse_financial_record _ _) as [[data|]|e]; try exact H.
  pose proof (Hc data db H) as Hw.
  destruct (createFinancialRecord data db) as [[a|e] db']; exact Hw.
Qed.

End Kept.

Section Consistency.
Variables sc su scl sp : Z.
Let P := consistent_with sc su scl sp.

Lemma insert_appointment_consistent clientId collaboratorId procedureId date
    st companyId value notes :
  preserves P
    (insert_appointment clientId collaboratorId procedureId date st companyId
       value notes).
Proof.
  intros db H. take_consistent H. unfold insert_appointment.
  destruct procedureId as [pid|]; [|give_consistent; same_part].
  open_db.
  destruct (has_id c_id _ _) eqn:E1; cbn [negb];
    [|give_consistent; same_part].
  destruct (has_id u_id _ _) eqn:E2; cbn [negb];
    [|give_consistent; same_part].
  destruct (has_id p_id _ _) eqn:E3; cbn [negb];
    [|give_consistent; same_part].
  destruct (has_id co_id _ _) eqn:E4; cbn [negb];
    [|give_consistent; same_part].
  give_consistent; try same_part.
  - apply serial_append; [reflexivity|assumption].
  - apply Forall_app. split; [assumption|].
    constructor; [|constructor]. cbn. auto.
Qed.

Lemma createAppointment_consistent data : preserves P (createAppointment data).
Proof. apply insert_appointment_consistent. Qed.

Lemma update_appointment_consistent id clientId collaboratorId procedureId
    date st companyId value notes :
  preserves P
    (update_appointment id clientId collaboratorId procedureId date st
       companyId value notes).
Proof.
  intros db H. take_consistent H. unfold update_appointment.
  destruct (existsb _ (appointments db)); cbn [negb];
    [|give_consistent; same_part].
  destruct (has_id c_id _ _) eqn:E1; cbn [negb];
    [|give_consistent; same_part].
  destruct (has_id u_id _ _) eqn:E2; cbn [negb];
    [|give_consistent; same_part].
  destruct (match procedureId with
            | Some pid => negb (has_id p_id pid (procedures db))
            | None => false
            end) eqn:E3; [give_consistent; same_part|].
  destruct (has_id co_id _ _) eqn:E4; cbn [negb];
    [|give_consistent; same_part].
  assert (Hk : forall x,
             a_id (if a_id x =? id
                   then set_appointment clientId collaboratorId procedureId
                          date st companyId value notes x
                   else x) = a_id x)
    by (intros x; destruct (a_id x =? id); reflexivity).
  give_consistent; try same_part.
  - now apply serial_map.
  - apply Forall_map. eapply Forall_impl; [|exact Ra]. cbv beta.
    intros a (H1 & H2 & H3 & H4). destruct (a_id a =? id); [|auto].
    cbn. repeat split; auto.
    destruct procedureId as [pid|]; [|exact H3].
    now destruct (has_id p_id pid (procedures db)).
  - eapply Forall_impl; [|exact Rap]. cbv beta. intros ap [H1 H2].
    split; [|exact H2]. now rewrite has_id_map_keep.
  - eapply Forall_impl; [|exact Rf]. cbv beta. intros f [H1 H2].
    split; [exact H1|]. now apply refers_map_keep.
Qed.

Lemma updateAppointment_consistent id data :
  preserves P (updateAppointment id data).
Proof.
  unfold updateAppointment. apply preserves_bind.
  - apply update_appointment_consistent.
  - intros [|row rows]; [apply preserves_throw|apply preserves_ret].
Qed.

Lemma addProcedureToAppointment_consistent ap :
  preserves P (addProcedureToAppointment ap).
Proof.
  intros db H. take_consistent H. unfold addProcedureToAppointment.
  open_db.
  destruct (has_id a_id _ _) eqn:E1; cbn [negb];
    [|give_consistent; same_part].
  destruct (has_id p_id _ _) eqn:E2; cbn [negb];
    [|give_consistent; same_part].
  give_consistent; try same_part.
  - apply serial_append; [reflexivity|assumption].
  - apply Forall_app. split; [assumption|].
    constructor; [|constructor]. cbn. auto.
Qed.

Lemma add_procedures_consistent appointmentId ps :
  preserves P (add_procedures appointmentId ps).
Proof.
  apply add_procedures_keeps. exact addProcedureToAppointment_consistent.
Qed.

Lemma removeAllProceduresFromAppointment_consistent appointmentId :
  preserves P (removeAllProceduresFromAppointment appointmentId).
Proof.
  intros db H. take_consistent H. unfold removeAllProceduresFromAppointment.
  give_consistent; try same_part.
  - now apply serial_filter.
  - now apply Forall_filter.
Qed.

Lemma delete_appointment_consistent id : preserves P (delete_appointment id).
Proof.
  intros db H. take_consistent H. unfold delete_appointment.
  destruct (existsb _ (appointments db)); cbn [negb];
    [|give_consistent; same_part].
  destruct (existsb _ (appointmentProcedures db)) eqn:E1;
    [give_consistent; same_part|].
  destruct (existsb _ (financialRecords db)) eqn:E2;
    [give_consistent; same_part|].
  give_consistent; try same_part.
  - now apply serial_filter.
  - now apply Forall_filter.
  - apply Forall_forall. intros ap Hin.
    rewrite Forall_forall in Rap. destruct (Rap ap Hin) as [H1 H2].
    split; [|exact H2]. apply has_id_filter; [exact H1|].
    intros x _ Hx. apply negb_true_iff. apply Z.eqb_neq. intros Hid.
    assert (F : existsb (fun ap => ap_appointmentId ap =? id)
                  (appointmentProcedures db) = true).
    { apply existsb_exists. exists ap. split; [exact Hin|].
      apply Z.eqb_eq. congruence. }
    congruence.
  - apply Forall_forall. intros f Hin.
    rewrite Forall_forall in Rf. destruct (Rf f Hin) as [H1 H2].
    split; [exact H1|]. destruct (f_appointmentId f) as [aid|] eqn:Ef;
      cbn in *; [|trivial].
    apply has_id_filter; [exact H2|].
    intros x _ Hx. apply negb_true_iff. apply Z.eqb_neq. intros Hid.
    assert (F : existsb (fun f => opt_eqb (f_appointmentId f) id)
                  (financialRecords db) = true).
    { apply existsb_exists. exists f. split; [exact Hin|].
      rewrite Ef. cbn. apply Z.eqb_eq. congruence. }
    congruence.
Qed.

Lemma deleteAppointment_consistent id : preserves P (deleteAppointment id).
Proof.
  unfold deleteAppointment. apply preserves_bind.
  - apply removeAllProceduresFromAppointment_consistent.
  - intros _. apply preserves_bind; [apply delete_appointment_consistent|].
    intros [|row rows]; [apply preserves_throw|apply preserves_ret].
Qed.

Lemma createFinancialRecord_consistent record :
  preserves P (createFinancialRecord record).
Proof.
  intros db H. take_consistent H. unfold createFinancialRecord.
  open_db.
  destruct (has_id co_id _ _) eqn:E1; cbn [negb];
    [|give_consistent; same_part].
  destruct (match if_appointmentId record with
            | Some aid => negb (has_id a_id aid (appointments db))
            | None => false
            end) eqn:E2; [give_consistent; same_part|].
  give_consistent; try same_part.
  - apply serial_append; [reflexivity|assumption].
  - apply Forall_app. split; [assumption|].
    constructor; [|constructor]. cbn. split; [exact E1|].
    destruct (if_appointmentId record) as [aid|]; cbn; [|trivial].
    now destruct (has_id a_id aid (appointments db)).
Qed.

Lemma update_financial_records_consistent hit stmt updates :
  preserves P (update_financial_records hit stmt updates).
Proof.
  intros db H. take_consistent H. unfold update_financial_records.
  destruct (sets_nothing updates); [give_consistent; same_part|].
  destruct (existsb hit (financialRecords db)); cbn [negb];
    [|give_consistent; same_part].
  destruct (match pf_companyId updates with
            | Some c => negb (has_id co_id c (companies db))
            | None => false
            end) eqn:E1; [give_consistent; same_part|].
  destruct (match pf_appointmentId updates with
            | Some (Some aid) => negb (has_id a_id aid (appointments db))
            | _ => false
            end) eqn:E2; [give_consistent; same_part|].
  give_consistent; try same_part.
  - apply serial_map; [|assumption].
    intros x. destruct (hit x); reflexivity.
  - apply Forall_map. eapply Forall_impl; [|exact Rf]. cbv beta.
    intros f [H1 H2]. destruct (hit f); [|auto]. cbn. split.
    + destruct (pf_companyId updates) as [c|]; cbn; [|exact H1].
      now destruct (has_id co_id c (companies db)).
    + destruct (pf_appointmentId updates) as [[aid|]|]; cbn;
        [|trivial|exact H2].
      now destruct (has_id a_id aid (appointments db)).
Qed.

Lemma delete_financial_records_consistent hit stmt :
  preserves P (delete_financial_records hit stmt).
Proof.
  intros db H. take_consistent H. unfold delete_financial_records.
  give_consistent; try same_part.
  - now apply serial_filter.
  - now apply Forall_filter.
Qed.

Lemma updateFinancialRecordByAppointment_consistent appointmentId updates :
  preserves P (updateFinancialRecordByAppointment appointmentId updates).
Proof.
  unfold updateFinancialRecordByAppointment. apply preserves_bind.
  - apply update_financial_records_consistent.
  - intros _. apply preserves_ret.
Qed.

Lemma deleteFinancialRecordByAppointment_consistent appointmentId :
  preserves P (deleteFinancialRecordByAppointment appointmentId).
Proof.
  unfold deleteFinancialRecordByAppointment. apply preserves_bind.
  - apply delete_financial_records_consistent.
  - intros _. apply preserves_ret.
Qed.

Lemma updateFinancialRecord_consistent id updates :
  preserves P (updateFinancialRecord id updates).
Proof.
  unfold updateFinancialRecord. apply preserves_bind.
  - apply update_financial_records_consistent.
  - intros [|row rows]; [apply preserves_throw|apply preserves_ret].
Qed.

Lemma deleteFinancialRecord_consistent id :
  preserves P (deleteFinancialRecord id).
Proof.
  unfold deleteFinancialRecord. apply preserves_bind.
  - apply delete_financial_records_consistent.
  - intros [|row rows]; [apply preserves_throw|apply preserves_ret].
Qed.

Lemma updateClient_consistent id updates : preserves P (updateClient id updates).
Proof.
  intros db H. take_consistent H. unfold updateClient.
  destruct (filter _ (clients db)) as [|row rows];
    [give_consistent; same_part|].
  destruct (has_id co_id _ _) eqn:E1; cbn [negb];
    [|give_consistent; same_part].
  assert (Hk : forall x,
             c_id (if c_id x =? id then set_client updates x else x) = c_id x)
    by (intros x; destruct (c_id x =? id); reflexivity).
  give_consistent; try same_part.
  - now apply serial_map.
  - apply Forall_map. eapply Forall_impl; [|exact Rc]. cbv beta.
    intros c Hc. destruct (c_id c =? id); [exact E1|exact Hc].
  - eapply Forall_impl; [|exact Ra]. cbv beta.
    intros a (H1 & H2 & H3 & H4). repeat split; auto.
    now rewrite has_id_map_keep.
Qed.

Lemma deleteClient_consistent id : preserves P (deleteClient id).
Proof.
  intros db H. take_consistent H. unfold deleteClient.
  destruct (filter _ (clients db)) as [|row rows];
    [give_consistent; same_part|].
  destruct (existsb _ (appointments db)) eqn:E1;
    [give_consistent; same_part|].
  give_consistent; try same_part.
  - now apply serial_filter.
  - now apply Forall_filter.
  - apply Forall_forall. intros a Hin.
    rewrite Forall_forall in Ra. destruct (Ra a Hin) as (H1 & H2 & H3 & H4).
    repeat split; auto. apply has_id_filter; [exact H1|].
    intros x _ Hx. apply negb_true_iff. apply Z.eqb_neq. intros Hid.
    assert (F : existsb (fun a => a_clientId a =? id) (appointments db)
                = true).
    { apply existsb_exists. exists a. split; [exact Hin|].
      apply Z.eqb_eq. congruence. }
    congruence.
Qed.

Lemma updateProcedure_consistent id updates :
  preserves P (updateProcedure id updates).
Proof.
  intros db H. take_consistent H. unfold updateProcedure.
  destruct (ip_value updates) as [value|]; [|give_consistent; same_part].
  destruct (filter _ (procedures db)) as [|row rows];
    [give_consistent; same_part|].
  destruct (has_id co_id _ _) eqn:E1; cbn [negb];
    [|give_consistent; same_part].
  assert (Hk : forall x,
             p_id (if p_id x =? id
                   then set_procedure (ip_name updates) value
                          (ip_companyId updates) x
                   else x) = p_id x)
    by (intros x; destruct (p_id x =? id); reflexivity).
  give_consistent; try same_part.
  - now apply serial_map.
  - apply Forall_map. eapply Forall_impl; [|exact Rp]. cbv beta.
    intros p Hp. destruct (p_id p =? id); [exact E1|exact Hp].
  - eapply Forall_impl; [|exact Ra]. cbv beta.
    intros a (H1 & H2 & H3 & H4). repeat split; auto.
    now rewrite has_id_map_keep.
  - eapply Forall_impl; [|exact Rap]. cbv beta. intros ap [H1 H2].
    split; [exact H1|]. now rewrite has_id_map_keep.
Qed.

Lemma deleteProcedure_consistent id : preserves P (deleteProcedure id).
Proof.
  intros db H. take_consistent H. unfold deleteProcedure.
  destruct (filter _ (procedures db)) as [|row rows];
    [give_consistent; same_part|].
  destruct (existsb _ (appointments db)) eqn:E1;
    [give_consistent; same_part|].
  destruct (existsb _ (appointmentProcedures db)) eqn:E2;
    [give_consistent; same_part|].
  give_consistent; try same_part.
  - now apply serial_filter.
  - now apply Forall_filter.
  - apply Forall_forall. intros a Hin.
    rewrite Forall_forall in Ra. destruct (Ra a Hin) as (H1 & H2 & H3 & H4).
    repeat split; auto. apply has_id_filter; [exact H3|].
    intros x _ Hx. apply negb_true_iff. apply Z.eqb_neq. intros Hid.
    assert (F : existsb (fun a => a_procedureId a =? id) (appointments db)
                = true).
    { apply existsb_exists. exists a. split; [exact Hin|].
      apply Z.eqb_eq. congruence. }
    congruence.
  - apply Forall_forall. intros ap Hin.
    rewrite Forall_forall in Rap. destruct (Rap ap Hin) as [H1 H2].
    split; [exact H1|]. apply has_id_filter; [exact H2|].
    intros x _ Hx. apply negb_true_iff. apply Z.eqb_neq. intros Hid.
    assert (F : existsb (fun ap => ap_procedureId ap =? id)
                  (appointmentProcedures db) = true).
    { apply existsb_exists. exists ap. split; [exact Hin|].
      apply Z.eqb_eq. congruence. }
    congruence.
Qed.

Lemma post_appointments_consistent user body db :
  P db -> P (snd (post_appointments user body db)).
Proof.
  apply post_appointments_keeps;
    auto using createAppointment_consistent,
      addProcedureToAppointment_consistent, createFinancialRecord_consistent.
Qed.

Lemma put_appointment_consistent user id body now db :
  P db -> P (snd (put_appointment user id body now db)).
Proof.
  apply put_appointment_keeps;
    auto using updateAppointment_consistent,
      removeAllProceduresFromAppointment_consistent,
      addProcedureToAppointment_consistent,
      updateFinancialRecordByAppointment_consistent.
Qed.

Lemma delete_appointment_route_consistent user id db :
  P db -> P (snd (delete_appointment_route user id db)).
Proof.
  apply delete_appointment_route_keeps;
    auto using deleteFinancialRecordByAppointment_consistent,
      deleteAppointment_consistent.
Qed.

Lemma put_client_consistent user id body db :
  P db -> P (snd (put_client user id body db)).
Proof. apply put_client_keeps. exact updateClient_consistent. Qed.

Lemma delete_client_consistent user id db :
  P db -> P (snd (delete_client user id db)).
Proof. apply delete_client_keeps. exact deleteClient_consistent. Qed.

Lemma put_procedure_consistent user id body db :
  P db -> P (snd (put_procedure user id body db)).
Proof. apply put_procedure_keeps. exact updateProcedure_consistent. Qed.

Lemma delete_procedure_consistent user id db :
  P db -> P (snd (delete_procedure user id db)).
Proof. apply delete_procedure_keeps. exact deleteProcedure_consistent. Qed.

Lemma post_financial_records_consistent user body db :
  P db -> P (snd (post_financial_records user body db)).
Proof.
  apply post_financial_records_keeps. exact createFinancialRecord_consistent.
Qed.

End Consistency.

Lemma get_appointment_procedures_same user id db :
  snd (get_appointment_procedures user id db) = db.
Proof.
  unfold get_appointment_procedures.
  destruct user as [user|]; [|reflexivity].
  destruct (getAppointment id db) as [existing|]; [|reflexivity].
  destruct (other_company _ user); reflexivity.
Qed.

Lemma get_client_same user id db : snd (get_client user id db) = db.
Proof.
  unfold get_client.
  destruct user as [user|]; [|reflexivity].
  destruct (getClient id db) as [existing|]; [|reflexivity].
  destruct (other_company _ user); reflexivity.
Qed.

Lemma get_dashboard_stats_same chain tz user timeFilter now now1 now2 db :
  snd (get_dashboard_stats chain tz user timeFilter now now1 now2 db) = db.
Proof.
  unfold get_dashboard_stats.
  destruct user as [user|]; [|reflexivity].
  destruct (window _ _ _). reflexivity.
Qed.

Lemma NoDup_map_snoc {A : Type} (key : A -> string) (rows : list A) (r : A) :
  NoDup (map key rows) ->
  existsb (fun x => String.eqb (key x) (key r)) rows = false ->
  NoDup (map key (rows ++ [r])).
Proof.
  intros Hn He. rewrite map_app. cbn [map]. apply NoDup_app; [exact Hn| |].
  - constructor; [intros []|constructor].
  - intros a Hin [Ha|[]]. subst a. apply in_map_iff in Hin.
    destruct Hin as (x & Hx & Hin).
    assert (F : existsb (fun x => String.eqb (key x) (key r)) rows = true).
    { apply existsb_exists. exists x. split; [exact Hin|].
      now apply String.eqb_eq. }
    congruence.
Qed.

Lemma createCompany_consistent name inviteCode s :
  consistent s -> consistent (snd (createCompany name inviteCode s)).
Proof.
  intros H. take_consistent H. unfold createCompany. open_db.
  destruct (existsb _ (companies (tables s))) eqn:E;
    [give_consistent; same_part|].
  give_consistent; try same_part.
  - apply serial_append; [reflexivity|assumption].
  - apply NoDup_map_snoc; [exact Ui|exact E].
Qed.

Lemma createUser_consistent user s :
  consistent s -> consistent (snd (createUser user s)).
Proof.
  intros H. take_consistent H. unfold createUser. open_db.
  destruct (existsb _ (users (tables s))) eqn:E;
    [give_consistent; same_part|].
  destruct (match iu_companyId user with
            | Some c => negb (has_id co_id c (companies (tables s)))
            | None => false
            end) eqn:E1; [give_consistent; same_part|].
  give_consistent; try same_part.
  - apply serial_append; [reflexivity|assumption].
  - apply Forall_app. split; [assumption|].
    constructor; [|constructor]. cbn.
    destruct (iu_companyId user) as [c|]; cbn; [|trivial].
    now destruct (has_id co_id c (companies (tables s))).
  - apply NoDup_map_snoc; [exact Ue|exact E].
Qed.

Lemma createClient_consistent now client s :
  consistent s -> consistent (snd (createClient now client s)).
Proof.
  intros H. take_consistent H. unfold createClient. open_db.
  destruct (has_id co_id _ _) eqn:E; cbn [negb];
    [|give_consistent; same_part].
  give_consistent; try same_part.
  - apply serial_append; [reflexivity|assumption].
  - apply Forall_app. split; [assumption|].
    constructor; [exact E|constructor].
Qed.

Lemma createProcedure_consistent procedure s :
  consistent s -> consistent (snd (createProcedure procedure s)).
Proof.
  intros H. take_consistent H. unfold createProcedure.
  destruct (ip_value procedure) as [value|]; [|give_consistent; same_part].
  open_db.
  destruct (has_id co_id _ _) eqn:E; cbn [negb];
    [|give_consistent; same_part].
  give_consistent; try same_part.
  - apply serial_append; [reflexivity|assumption].
  - apply Forall_app. split; [assumption|].
    constructor; [exact E|constructor].
Qed.

Lemma lifted_consistent (out : response * DB) s :
  consistent_with (seq_companies s) (seq_users s) (seq_clients s)
    (seq_procedures s) (snd out) ->
  consistent (snd (lifted out s)).
Proof. intros H. exact H. Qed.

Lemma handle_consistent chain tz scrypt session req s :
  consistent s -> consistent (snd (handle chain tz scrypt session req s)).
Proof.
  intros H. destruct req; cbn [handle].
  - apply lifted_consistent. now rewrite get_appointment_procedures_same.
  - exact H.
  - unfold post_clients.
    destruct (deserializeUser _ _) as [user|]; [|exact H].
    destruct (parse_client _ _) as [data|e]; [|exact H].
    pose proof (createClient_consistent now data s H) as Hw.
    destruct (createClient now data s) as [[a|f] s']; exact Hw.
  - apply lifted_consistent. now rewrite get_client_same.
  - apply lifted_consistent. now apply put_client_consistent.
  - apply lifted_consistent. now apply delete_client_consistent.
  - exact H.
  - unfold post_procedures.
    destruct (deserializeUser _ _) as [user|]; [|exact H].
    destruct (negb (is_admin user)); [exact H|].
    destruct (parse_procedure _ _) as [data|e]; [|exact H].
    pose proof (createProcedure_consistent data s H) as Hw.
    destruct (createProcedure data s) as [[a|f] s']; exact Hw.
  - apply lifted_consistent. now apply put_procedure_consistent.
  - apply lifted_consistent. now apply delete_procedure_consistent.
  - exact H.
  - exact H.
  - apply lifted_consistent. now apply post_appointments_consistent.
  - apply lifted_consistent. now apply put_appointment_consistent.
  - apply lifted_consistent. now apply delete_appointment_route_consistent.
  - exact H.
  - pose proof (post_financial_records_consistent _ _ _ _
                  (deserializeUser session (tables s)) body (tables s) H)
      as Hw.
    destruct (post_financial_records _ body (tables s)) as [a db'].
    exact Hw.
  - apply lifted_consistent. now rewrite get_dashboard_stats_same.
  - unfold register_admin.
    destruct companyName as [name|]; [|exact H].
    destruct (parse_user _ _ _) as [data|e]; [|exact H].
    destruct (getUserByEmail _ _); [exact H|].
    match goal with
    | |- context [createCompany ?n ?c s] =>
      pose proof (createCompany_consistent n c s H) as Hc;
        destruct (createCompany n c s) as [[company|f] s1]; [|exact Hc]
    end.
    cbn [snd] in Hc.
    match goal with
    | |- context [createUser ?u s1] =>
      pose proof (createUser_consistent u s1 Hc) as Hu;
        destruct (createUser u s1) as [[user'|f] s2]; exact Hu
    end.
  - unfold register_collaborator.
    destruct (getCompanyByInviteCode _ _) as [company|]; [|exact H].
    destruct (parse_user _ _ _) as [data|e]; [|exact H].
    destruct (getUserByEmail _ _); [exact H|].
    match goal with
    | |- context [createUser ?u s] =>
      pose proof (createUser_consistent u s H) as Hu;
        destruct (createUser u s) as [[user'|f] s1]; exact Hu
    end.
  - exact H.
  - exact H.
  - exact H.
  - exact H.
Qed.

(** ** Every request leaves the database consistent *)

(** X5. Every sequence of requests to the routes of the API, each with any
    session, takes a database that satisfies the constraints of the schema
    (keys distinct and not beyond their sequences, every foreign key
    pointing at a row, emails and invite codes unique) to one that satisfies
    them. *)
Theorem requests_keep_database_consistent :
  forall (chain : where_chain) (tz : LocalTime)
         (scrypt : string -> string -> bytes)
         (requests : list (option Z * request)) (s : Store),
    consistent s -> consistent (serve chain tz scrypt requests s).
Proof.
  intros chain tz scrypt requests. unfold serve.
  induction requests as [|[session req] requests IH]; intros s H;
    cbn [fold_left]; [exact H|].
  apply IH. now apply handle_consistent.
Qed.

(** ** Registration and login *)

Lemma find_none_iff {A : Type} (p : A -> bool) (l : list A) :
  find p l = None <-> existsb p l = false.
Proof.
  induction l as [|x l IH]; cbn; [tauto|].
  destruct (p x); cbn; [split; discriminate|exact IH].
Qed.

Lemma find_snoc {A : Type} (p : A -> bool) (l : list A) (x : A) :
  find p l = None -> p x = true -> find p (l ++ [x]) = Some x.
Proof.
  intros Hn Hx. induction l as [|y l IH]; cbn in *; [now rewrite Hx|].
  destruct (p y); [discriminate|now apply IH].
Qed.

Lemma comparePasswords_stored scrypt salt password x :
  comparePasswords scrypt x (hashPassword scrypt salt password)
  = timingSafeEqual (scrypt password (toHex (salt 16%nat)))
      (scrypt x (toHex (salt 16%nat))).
Proof.
  unfold comparePasswords, hashPassword.
  rewrite split_stored, fromHex_toHex. reflexivity.
Qed.

Lemma comparePasswords_same scrypt salt password :
  comparePasswords scrypt password (hashPassword scrypt salt password)
  = Done true.
Proof.
  rewrite comparePasswords_stored. unfold timingSafeEqual.
  rewrite Nat.eqb_refl. cbn [negb]. now rewrite equal_bytes_refl.
Qed.

Lemma parse_user_fields body role companyId data :
  parse_user body role companyId = Ok data ->
  ub_name body = Some (iu_name data)
  /\ ub_email body = Some (iu_email data)
  /\ ub_password body = Some (iu_password data)
  /\ ub_phone body = Some (iu_phone data)
  /\ iu_role data = role
  /\ (forall c, companyId = Given c -> iu_companyId data = c).
Proof.
  unfold parse_user.
  destruct (ub_name body); [|discriminate].
  destruct (ub_email body); [|discriminate].
  destruct (ub_password body); [|discriminate].
  destruct (ub_phone body); [|discriminate].
  destruct companyId as [|c|]; cbn; try discriminate;
    destruct (ub_function body) as [|f|]; cbn; try discriminate;
    intros H; injection H as <-; cbn; repeat split; auto;
    intros c' Hc; try discriminate; now injection Hc as <-.
Qed.

(** What a registration that is answered 201 has done. *)
Lemma createUser_fresh user s :
  getUserByEmail (iu_email user) (tables s) = None ->
  refers co_id (companies (tables s)) (iu_companyId user) ->
  exists row,
    createUser user s
    = (Done row,
       with_tables (with_users (users (tables s) ++ [row]) (tables s))
         (with_seq_users (seq_users s + 1) s))
    /\ u_id row = seq_users s + 1
    /\ u_email row = iu_email user
    /\ u_password row = iu_password user
    /\ u_role row = iu_role user
    /\ u_companyId row = iu_companyId user.
Proof.
  intros He Hc. unfold createUser. open_db.
  apply find_none_iff in He. unfold getUserByEmail in He. rewrite He.
  destruct (iu_companyId user) as [c|]; cbn in Hc;
    [rewrite Hc; cbn [negb]|]; eexists; split; try reflexivity;
    repeat split.
Qed.

Lemma register_admin_cases scrypt companyName body code salt s
    (out := register_admin scrypt companyName body code salt s) :
  (Http.code (fst (fst out)) <> 201
   /\ snd (fst out) = Keep
   /\ tables (snd out) = tables s)
  \/ (exists name data company user,
        companyName = Some name
        /\ parse_user body "admin" (ub_companyId body) = Ok data
        /\ getUserByEmail (iu_email data) (tables s) = None
        /\ getCompanyByInviteCode (generateInviteCode code 8) (tables s)
           = None
        /\ fst out = (send 201 (RegistrationJson user company), LogIn user)
        /\ company = {| co_id := seq_companies s + 1; co_name := name;
                        co_inviteCode := generateInviteCode code 8 |}
        /\ u_id user = seq_users s + 1
        /\ u_email user = iu_email data
        /\ u_password user = hashPassword scrypt salt (iu_password data)
        /\ u_role user = "admin"
        /\ u_companyId user = Some (co_id company)
        /\ companies (tables (snd out)) = companies (tables s) ++ [company]
        /\ users (tables (snd out)) = users (tables s) ++ [user]
        /\ same_rows (with_users (users (tables s))
                        (with_companies (companies (tables s))
                           (tables (snd out)))) (tables s)).
Proof.
  subst out. unfold register_admin.
  destruct companyName as [name|];
    [|left; repeat split; discriminate].
  destruct (parse_user _ _ _) as [data|e] eqn:Pu;
    [|left; repeat split; discriminate].
  destruct (getUserByEmail _ _) eqn:Ge;
    [left; repeat split; discriminate|].
  unfold createCompany. open_db.
  destruct (existsb _ (companies (tables s))) eqn:Ec;
    [left; repeat split; discriminate|].
  match goal with
  | |- context [createUser ?u ?s1] =>
    destruct (createUser_fresh u s1) as (row & Cu & R1 & R2 & R3 & R4 & R5)
  end.
  - exact Ge.
  - cbn [with_credentials iu_companyId co_id refers]. open_db.
    rewrite has_id_app. unfold has_id at 2. cbn [existsb co_id].
    rewrite Z.eqb_refl. now rewrite orb_true_r.
  - rewrite Cu. right.
    destruct (parse_user_fields _ _ _ _ Pu) as (_ & _ & _ & _ & Hr & _).
    eexists name, data, _, row. cbn in *.
    repeat split; auto; try congruence.
    unfold getCompanyByInviteCode. now apply find_none_iff.
Qed.

Lemma getCompanyByInviteCode_has_id code db company :
  getCompanyByInviteCode code db = Some company ->
  co_inviteCode company = code
  /\ has_id co_id (co_id company) (companies db) = true.
Proof.
  unfold getCompanyByInviteCode. intros F.
  destruct (find_some _ _ F) as [Hin Hc]. apply String.eqb_eq in Hc.
  split; [exact Hc|]. apply has_id_In. now exists company.
Qed.

Lemma register_collaborator_cases scrypt inviteCode body salt s
    (out := register_collaborator scrypt inviteCode body salt s) :
  (Http.code (fst (fst out)) <> 201
   /\ snd (fst out) = Keep
   /\ snd out = s)
  \/ (exists data company user,
        getCompanyByInviteCode inviteCode (tables s) = Some company
        /\ parse_user body "collaborator" (Given (Some (co_id company)))
           = Ok data
        /\ getUserByEmail (iu_email data) (tables s) = None
        /\ fst out = (send 201 (RegistrationJson user company), LogIn user)
        /\ u_id user = seq_users s + 1
        /\ u_email user = iu_email data
        /\ u_password user = hashPassword scrypt salt (iu_password data)
        /\ u_role user = "collaborator"
        /\ u_companyId user = Some (co_id company)
        /\ snd out
           = with_tables
               (with_users (users (tables s) ++ [user]) (tables s))
               (with_seq_users (seq_users s + 1) s)).
Proof.
  subst out. unfold register_collaborator.
  destruct (getCompanyByInviteCode _ _) as [company|] eqn:Gc;
    [|left; repeat split; discriminate].
  destruct (parse_user _ _ _) as [data|e] eqn:Pu;
    [|left; repeat split; discriminate].
  destruct (getUserByEmail _ _) eqn:Ge;
    [left; repeat split; discriminate|].
  destruct (parse_user_fields _ _ _ _ Pu) as (_ & _ & _ & _ & Hr & Hc).
  specialize (Hc _ eq_refl).
  match goal with
  | |- context [createUser ?u ?s1] =>
    destruct (createUser_fresh u s1) as (row & Cu & R1 & R2 & R3 & R4 & R5)
  end.
  - exact Ge.
  - cbn [with_credentials iu_companyId]. rewrite Hc. cbn [refers].
    exact (proj2 (getCompanyByInviteCode_has_id _ _ _ Gc)).
  - rewrite Cu. right. exists data, company, row. cbn in *.
    repeat split; auto; try congruence.
Qed.

(** X6. A registration that is not answered 201 logs nobody in and leaves
    the tables as they were. One answered 201 appends exactly one user,
    logged in by the answer: an admin of a company just created with the
    generated invite code for /api/register/admin, a collaborator of the
    company that has the submitted invite code for
    /api/register/collaborator; the email was not registered before. *)
Theorem registration_outcomes :
  forall (scrypt : string -> string -> bytes) (s : Store),
    (forall companyName body code salt,
        let out := register_admin scrypt companyName body code salt s in
        (Http.code (fst (fst out)) <> 201 ->
         snd (fst out) = Keep /\ tables (snd out) = tables s)
        /\ (Http.code (fst (fst out)) = 201 ->
            exists user company,
              fst out
              = (send 201 (RegistrationJson user company), LogIn user)
              /\ u_role user = "admin"
              /\ u_companyId user = Some (co_id company)
              /\ co_inviteCode company = generateInviteCode code 8
              /\ getCompanyByInviteCode (co_inviteCode company) (tables s)
                 = None
              /\ getUserByEmail (u_email user) (tables s) = None
              /\ companies (tables (snd out))
                 = companies (tables s) ++ [company]
              /\ users (tables (snd out)) = users (tables s) ++ [user]))
    /\ (forall inviteCode body salt,
          let out := register_collaborator scrypt inviteCode body salt s in
          (Http.code (fst (fst out)) <> 201 ->
           snd (fst out) = Keep /\ snd out = s)
          /\ (Http.code (fst (fst out)) = 201 ->
              exists user company,
                fst out
                = (send 201 (RegistrationJson user company), LogIn user)
                /\ u_role user = "collaborator"
                /\ getCompanyByInviteCode inviteCode (tables s)
                   = Some company
                /\ u_companyId user = Some (co_id company)
                /\ getUserByEmail (u_email user) (tables s) = None
                /\ companies (tables (snd out)) = companies (tables s)
                /\ users (tables (snd out)) = users (tables s) ++ [user])).
Proof.
  intros scrypt s. split.
  - intros companyName body code salt. cbv zeta.
    destruct (register_admin_cases scrypt companyName body code salt s)
      as [(Hn & Hk & Ht)
         |(name & data & company & user & -> & Pu & Ge & Gc & Ho & Hco & Hid
           & Hem & Hpw & Hr & Hc & Hcs & Hus & _)].
    + split; [intros _; split; assumption|intros H; contradiction].
    + split; [intros H; rewrite Ho in H; cbn in H; contradiction|].
      intros _. exists user, company.
      split; [exact Ho|]. split; [exact Hr|]. split; [exact Hc|].
      split; [now rewrite Hco|].
      split; [now rewrite Hco|]. split; [now rewrite Hem|].
      split; assumption.
  - intros inviteCode body salt. cbv zeta.
    destruct (register_collaborator_cases scrypt inviteCode body salt s)
      as [(Hn & Hk & Ht)
         |(data & company & user & Gc & Pu & Ge & Ho & Hid & Hem & Hpw & Hr
           & Hc & Hs)].
    + split; [intros _; split; assumption|intros H; contradiction].
    + split; [intros H; rewrite Ho in H; cbn in H; contradiction|].
      intros _. exists user, company.
      split; [exact Ho|]. split; [exact Hr|]. split; [exact Gc|].
      split; [exact Hc|]. split; [now rewrite Hem|].
      rewrite Hs. split; reflexivity.
Qed.

Lemma login_with_stored_hash scrypt db email user salt password supplied :
  getUserByEmail email db = Some user ->
  u_password user = hashPassword scrypt salt password ->
  email <> EmptyString -> supplied <> EmptyString ->
  login scrypt (Some email) (Some supplied) db
  = match timingSafeEqual (scrypt password (toHex (salt 16%nat)))
            (scrypt supplied (toHex (salt 16%nat))) with
    | Raise f => (send 500 ErrorPage, Keep)
    | Done true => (send 200 (UserJson user), LogIn user)
    | Done false => (invalid_login, Keep)
    end.
Proof.
  intros G Hp He Hs. unfold login.
  destruct (String.eqb_spec email EmptyString) as [|_]; [contradiction|].
  destruct (String.eqb_spec supplied EmptyString) as [|_]; [contradiction|].
  cbn [orb]. unfold verify. rewrite G, Hp, comparePasswords_stored.
  destruct (timingSafeEqual _ _) as [[|]|f]; reflexivity.
Qed.

Lemma timingSafeEqual_differs a b :
  List.length a = List.length b -> a <> b ->
  timingSafeEqual a b = Done false.
Proof.
  intros Hl Hn. unfold timingSafeEqual. rewrite Hl, Nat.eqb_refl.
  cbn [negb]. destruct (equal_bytes a b) eqn:E; [|reflexivity].
  apply equal_bytes_eq in E. contradiction.
Qed.

Lemma timingSafeEqual_same a : timingSafeEqual a a = Done true.
Proof.
  unfold timingSafeEqual. rewrite Nat.eqb_refl. cbn [negb].
  now rewrite equal_bytes_refl.
Qed.

Lemma created_user_found email rows row db :
  find (fun u => String.eqb (u_email u) email) rows = None ->
  u_email row = email ->
  users db = rows ++ [row] ->
  getUserByEmail email db = Some row.
Proof.
  intros Hn He Hu. unfold getUserByEmail. rewrite Hu.
  apply find_snoc; [exact Hn|]. now apply String.eqb_eq.
Qed.

(** X7. After a registration answered 201, a login with the registered email
    and password is answered 200 with the registered user, who is logged in;
    a login with that email and another password whose derived key has the
    same length and differs is answered 401. *)
Theorem registered_user_can_log_in :
  forall (scrypt : string -> string -> bytes) (s s' : Store)
         (body : UserBody) (salt : random) (email password : string)
         (user : User) (company : Company),
    ub_email body = Some email ->
    ub_password body = Some password ->
    email <> EmptyString ->
    password <> EmptyString ->
    (exists companyName code,
        register_admin scrypt companyName body code salt s
        = ((send 201 (RegistrationJson user company), LogIn user), s'))
    \/ (exists inviteCode,
          register_collaborator scrypt inviteCode body salt s
          = ((send 201 (RegistrationJson user company), LogIn user), s')) ->
    login scrypt (Some email) (Some password) (tables s')
    = (send 200 (UserJson user), LogIn user)
    /\ (forall supplied,
          supplied <> EmptyString ->
          let key := scrypt password (toHex (salt 16%nat)) in
          let other := scrypt supplied (toHex (salt 16%nat)) in
          List.length key = List.length other ->
          key <> other ->
          login scrypt (Some email) (Some supplied) (tables s')
          = (invalid_login, Keep)).
Proof.
  intros scrypt s s' body salt email password user company Be Bp He Hp Hreg.
  assert (Hu : getUserByEmail email (tables s') = Some user
               /\ u_password user = hashPassword scrypt salt password).
  { destruct Hreg as [(companyName & code & Hreg)|(inviteCode & Hreg)].
    - destruct (register_admin_cases scrypt companyName body code salt s)
        as [(Hn & _)
           |(name & data & company' & user' & -> & Pu & Ge & Gc & Ho & Hco
             & Hid & Hem & Hpw & Hr & Hc & Hcs & Hus & _)];
        rewrite Hreg in *; cbn [fst snd Http.code send] in *;
        [contradiction|].
      injection Ho as Ho1 Ho2. subst user'.
      destruct (parse_user_fields _ _ _ _ Pu) as (_ & E1 & E2 & _).
      rewrite Be in E1. rewrite Bp in E2.
      injection E1 as E1. injection E2 as E2. split.
      + eapply created_user_found; [|congruence|exact Hus].
        rewrite E1. exact Ge.
      + congruence.
    - destruct (register_collaborator_cases scrypt inviteCode body salt s)
        as [(Hn & _)
           |(data & company' & user' & Gc & Pu & Ge & Ho & Hid & Hem & Hpw
             & Hr & Hc & Hs)];
        rewrite Hreg in *; cbn [fst snd Http.code send] in *;
        [contradiction|].
      injection Ho as Ho1 Ho2. subst user'.
      destruct (parse_user_fields _ _ _ _ Pu) as (_ & E1 & E2 & _).
      rewrite Be in E1. rewrite Bp in E2.
      injection E1 as E1. injection E2 as E2. split.
      + eapply created_user_found; [|congruence|rewrite Hs; reflexivity].
        rewrite E1. exact Ge.
      + congruence. }
  destruct Hu as [G Hpw]. split.
  - rewrite (login_with_stored_hash _ _ _ _ _ _ _ G Hpw He Hp).
    now rewrite timingSafeEqual_same.
  - intros supplied Hs key other Hl Hd.
    rewrite (login_with_stored_hash _ _ _ _ _ _ _ G Hpw He Hs).
    fold key other. now rewrite (timingSafeEqual_differs _ _ Hl Hd).
Qed.

(** ** Ordered queries *)

Lemma insert_sorted_perm {A : Type} (leb : A -> A -> bool) x l :
  Permutation (insert_sorted leb x l) (x :: l).
Proof.
  induction l as [|y l IH]; cbn; [reflexivity|].
  destruct (leb x y); [reflexivity|].
  rewrite IH. apply perm_swap.
Qed.

Lemma order_by_perm {A : Type} (leb : A -> A -> bool) l :
  Permutation (order_by leb l) l.
Proof.
  induction l as [|x l IH]; cbn; [reflexivity|].
  fold (order_by leb l). rewrite insert_sorted_perm. now constructor.
Qed.

Section Sorting.
Context {A : Type} (leb : A -> A -> bool).
Hypothesis leb_total : forall a b, leb a b = true \/ leb b a = true.
Hypothesis leb_trans :
  forall a b c, leb a b = true -> leb b c = true -> leb a c = true.

Let R (a b : A) : Prop := leb a b = true.

Lemma insert_sorted_sorted x l :
  StronglySorted R l -> StronglySorted R (insert_sorted leb x l).
Proof.
  induction l as [|y l IH]; cbn; intros H.
  - constructor; constructor.
  - inversion H as [|? ? Hs Hf]; subst.
    destruct (leb x y) eqn:E.
    + constructor; [exact H|]. constructor; [exact E|].
      eapply Forall_impl; [|exact Hf]. intros z Hz. now apply (leb_trans x y z).
    + constructor; [now apply IH|].
      assert (Hyx : R y x) by (destruct (leb_total x y); congruence).
      eapply Permutation_Forall.
      * symmetry. apply insert_sorted_perm.
      * constructor; assumption.
Qed.

Lemma order_by_sorted l : StronglySorted R (order_by leb l).
Proof.
  induction l as [|x l IH]; cbn; [constructor|].
  now apply insert_sorted_sorted.
Qed.

End Sorting.

Lemma StronglySorted_filter {A : Type} (R : A -> A -> Prop) (p : A -> bool) l :
  StronglySorted R l -> StronglySorted R (filter p l).
Proof.
  induction 1 as [|x l Hs IH Hf]; cbn; [constructor|].
  destruct (p x); [|exact IH].
  constructor; [exact IH|]. now apply Forall_filter.
Qed.

Lemma StronglySorted_weaken {A : Type} (R R' : A -> A -> Prop) l :
  (forall a b, R a b -> R' a b) -> StronglySorted R l -> StronglySorted R' l.
Proof.
  intros Hw. induction 1 as [|x l Hs IH Hf]; constructor; [exact IH|].
  eapply Forall_impl; [|exact Hf]. intros b. apply Hw.
Qed.

Lemma by_date_ascending {A : Type} (date : A -> Z) l :
  ascending date (order_by (fun a b => date a <=? date b) l).
Proof.
  eapply StronglySorted_weaken;
    [|apply (order_by_sorted (fun a b => date a <=? date b))].
  - intros a b H. now apply Z.leb_le.
  - intros a b. destruct (Z.leb_spec (date a) (date b)); [now left|].
    right. apply Z.leb_le. lia.
  - intros a b c H1 H2. apply Z.leb_le in H1, H2. apply Z.leb_le. lia.
Qed.

Lemma by_date_descending {A : Type} (date : A -> Z) l :
  descending date (order_by (fun a b => date b <=? date a) l).
Proof.
  eapply StronglySorted_weaken;
    [|apply (order_by_sorted (fun a b => date b <=? date a))].
  - intros a b H. now apply Z.leb_le.
  - intros a b. destruct (Z.leb_spec (date b) (date a)); [now left|].
    right. apply Z.leb_le. lia.
  - intros a b c H1 H2. apply Z.leb_le in H1, H2. apply Z.leb_le. lia.
Qed.

Lemma opt_eqb_eq o c : opt_eqb o c = true <-> Some c = o.
Proof.
  destruct o as [c'|]; cbn; [|split; discriminate].
  rewrite Z.eqb_eq. split; congruence.
Qed.

Lemma in_range_spec companyId startDate endDate a :
  in_range companyId startDate endDate a = true
  <-> Some (a_companyId a) = companyId /\ startDate <= a_date a <= endDate.
Proof.
  unfold in_range. rewrite !andb_true_iff, opt_eqb_eq, !Z.leb_le. tauto.
Qed.

(** ** The range query on appointments *)

(** X8. getAppointmentsByDateRange returns rows of the appointments table in
    ascending order of date; without a collaborator (or with the id 0) they
    are exactly the appointments of the company dated from startDate to
    endDate inclusive, so that a one-instant range returns the appointments
    of that instant. *)
Theorem range_query_ordered_and_exact :
  forall (chain : where_chain) (companyId : option Z)
         (startDate endDate : timestamp) (collaboratorId : option Z)
         (db : DB),
    let rows :=
      getAppointmentsByDateRange chain companyId startDate endDate
        collaboratorId db in
    ascending a_date rows
    /\ Forall (fun a => In a (appointments db)) rows
    /\ (collaboratorId = None \/ collaboratorId = Some 0 ->
        Permutation rows
          (filter (in_range companyId startDate endDate) (appointments db))
        /\ forall a,
            In a rows
            <-> In a (appointments db)
                /\ Some (a_companyId a) = companyId
                /\ startDate <= a_date a <= endDate)
    /\ (startDate = endDate ->
        collaboratorId = None \/ collaboratorId = Some 0 ->
        Forall (fun a => a_date a = startDate) rows).
Proof.
  intros chain companyId startDate endDate collaboratorId db rows.
  assert (Hnone : collaboratorId = None \/ collaboratorId = Some 0 ->
                  rows = order_by (fun a b => a_date a <=? a_date b)
                           (filter (in_range companyId startDate endDate)
                              (appointments db))).
  { intros [-> | ->]; reflexivity. }
  assert (Hin : collaboratorId = None \/ collaboratorId = Some 0 ->
                forall a,
                  In a rows
                  <-> In a (appointments db)
                      /\ Some (a_companyId a) = companyId
                      /\ startDate <= a_date a <= endDate).
  { intros Hc a. rewrite (Hnone Hc).
    split.
    - intros H. apply (Permutation_in _ (order_by_perm _ _)) in H.
      apply filter_In in H. now rewrite in_range_spec in H.
    - intros H. apply (Permutation_in _ (Permutation_sym (order_by_perm _ _))).
      apply filter_In. now rewrite in_range_spec. }
  split; [apply by_date_ascending|].
  split.
  - apply Forall_forall. intros a H. unfold rows, getAppointmentsByDateRange in H.
    apply (Permutation_in _ (order_by_perm _ _)) in H.
    now apply filter_In in H.
  - split.
    + intros Hc. split; [rewrite (Hnone Hc); apply order_by_perm|now apply Hin].
    + intros -> Hc. apply Forall_forall. intros a H.
      apply (Hin Hc) in H. lia.
Qed.

(** ** The list endpoints *)

Lemma Permutation_filter {A : Type} (p : A -> bool) (l l' : list A) :
  Permutation l l' -> Permutation (filter p l) (filter p l').
Proof.
  induction 1 as [|x l l' H IH|x y l|l l' l'' H1 IH1 H2 IH2]; cbn.
  - constructor.
  - destruct (p x); [now constructor|exact IH].
  - destruct (p x), (p y); try reflexivity. apply perm_swap.
  - etransitivity; eassumption.
Qed.

(** X9. For a logged-in user the list endpoints GET /api/clients,
    /api/procedures, /api/collaborators, and /api/appointments and
    /api/financial-records without a date range, answer 200 with exactly the
    rows of the user's company (for appointments, of the client asked for
    when one is), the last two latest first. *)
Theorem list_endpoints_return_own_company :
  forall (chain : where_chain) (user : User) (db : DB),
    let companyId := u_companyId user in
    (exists rows,
        get_clients (Some user) db = send 200 (ClientsJson rows)
        /\ Permutation rows (filter (of_company c_companyId companyId)
                               (clients db)))
    /\ (exists rows,
          get_procedures (Some user) db = send 200 (Json (ProceduresJson rows))
          /\ Permutation rows (filter (of_company p_companyId companyId)
                                 (procedures db)))
    /\ (exists rows,
          get_collaborators (Some user) db = send 200 (UsersJson rows)
          /\ Permutation rows (filter (same_company companyId) (users db)))
    /\ (forall query,
          ranged (q_startDate query) (q_endDate query) = false ->
          exists rows,
            get_appointments chain (Some user) query db
            = send 200 (AppointmentsJson rows)
            /\ descending a_date rows
            /\ Permutation rows
                 (filter (fun a => match q_clientId query with
                                   | Some clientId => of_client clientId a
                                   | None => true
                                   end)
                    (filter (of_company a_companyId companyId)
                       (appointments db))))
    /\ (forall query,
          ranged (fq_startDate query) (fq_endDate query) = false ->
          exists rows,
            get_financial_records chain (Some user) query db
            = send 200 (FinancialRecordsJson rows)
            /\ descending f_date rows
            /\ Permutation rows
                 (filter (of_company f_companyId companyId)
                    (financialRecords db))).
Proof.
  intros chain user db companyId.
  split; [|split; [|split; [|split]]].
  - eexists. split; [reflexivity|]. apply order_by_perm.
  - eexists. split; [reflexivity|]. apply order_by_perm.
  - eexists. split; [reflexivity|]. apply order_by_perm.
  - intros query Hr. unfold get_appointments. fold companyId.
    destruct (q_clientId query) as [clientId|].
    + eexists. split; [|split].
      * destruct (q_startDate query) as [s|], (q_endDate query) as [e|];
          cbn in Hr; try discriminate Hr; reflexivity.
      * apply StronglySorted_filter. apply by_date_descending.
      * unfold getAppointmentsByCompany.
        apply Permutation_filter. apply order_by_perm.
    + eexists. split; [|split].
      * destruct (q_startDate query) as [s|], (q_endDate query) as [e|];
          cbn in Hr; try discriminate Hr; reflexivity.
      * apply by_date_descending.
      * unfold getAppointmentsByCompany. rewrite order_by_perm.
        assert (Ht : forall l : list Appointment,
                   filter (fun _ => true) l = l).
        { induction l as [|x l IH]; cbn; [reflexivity|now rewrite IH]. }
        now rewrite Ht.
  - intros query Hr. unfold get_financial_records. fold companyId.
    eexists. split; [|split].
    + destruct (fq_startDate query) as [s|], (fq_endDate query) as [e|];
        cbn in Hr; try discriminate Hr; reflexivity.
    + apply by_date_descending.
    + apply order_by_perm.
Qed.

(** ** What was written reads back *)

Lemma createAppointment_row data db a db1 :
  createAppointment data db = (Ok a, db1) ->
  a_id a = seq_appointments db + 1
  /\ a_companyId a = ia_companyId data
  /\ a_date a = ia_date data
  /\ appointments db1 = appointments db ++ [a]
  /\ appointmentProcedures db1 = appointmentProcedures db
  /\ financialRecords db1 = financialRecords db
  /\ seq_appointmentProcedures db1 = seq_appointmentProcedures db
  /\ seq_financialRecords db1 = seq_financialRecords db
  /\ untouched db db1.
Proof.
  unfold createAppointment, insert_appointment.
  destruct (ia_procedureId data) as [pid|]; [|discriminate].
  cbn [clients users procedures companies with_seq_appointments].
  repeat match goal with
         | |- context [if ?c then _ else _] => destruct c
         end; try discriminate.
  intros H. apply pair_equal_spec in H. destruct H as [H1 H2].
  injection H1 as <-. subst db1. repeat split.
Qed.

Lemma createFinancialRecord_row record db f db1 :
  createFinancialRecord record db = (Ok f, db1) ->
  f = {| f_id := seq_financialRecords db + 1; f_type := if_type record;
         f_category := if_category record;
         f_description := if_description record;
         f_value := numeric_in (if_value record); f_date := if_date record;
         f_companyId := if_companyId record;
         f_appointmentId := if_appointmentId record |}
  /\ appointments db1 = appointments db
  /\ appointmentProcedures db1 = appointmentProcedures db
  /\ financialRecords db1 = financialRecords db ++ [f]
  /\ untouched db db1.
Proof.
  unfold createFinancialRecord.
  cbn [companies appointments with_seq_financialRecords].
  repeat match goal with
         | |- context [if ?c then _ else _] => destruct c
         end; try discriminate.
  intros H. apply pair_equal_spec in H. destruct H as [H1 H2].
  injection H1 as <-. subst db1. repeat split.
Qed.

Lemma procedures_added_seq appointmentId ps :
  forall db,
    seq_appointments (fold_left (procedure_added appointmentId) ps db)
    = seq_appointments db
    /\ seq_financialRecords (fold_left (procedure_added appointmentId) ps db)
       = seq_financialRecords db.
Proof.
  induction ps as [|p ps IH]; intros db; cbn [fold_left]; [now split|].
  destruct (IH (procedure_added appointmentId db p)) as [H1 H2].
  rewrite H1, H2. now split.
Qed.

Lemma post_appointments_201_rows user body db r db' :
  post_appointments (Some user) body db = (r, db') ->
  status r = 201 ->
  exists a valid f,
    r = reply 201 (AppointmentJson (Some a))
    /\ b_procedureIds body = Some (map p_id valid)
    /\ Forall (fun p => getProcedure (p_id p) db = Some p) valid
    /\ Forall (fun p => Some (p_companyId p) = u_companyId user) valid
    /\ a_id a = seq_appointments db + 1
    /\ Some (a_companyId a) = u_companyId user
    /\ appointments db' = appointments db ++ [a]
    /\ appointmentProcedures db'
       = appointmentProcedures db
         ++ junction_rows (seq_appointmentProcedures db + 1) (a_id a) valid
    /\ financialRecords db' = financialRecords db ++ [f]
    /\ f = {| f_id := seq_financialRecords db + 1; f_type := "income";
              f_category := "appointment";
              f_description := appointment_label (a_id a);
              f_value := numeric_in (a_value a); f_date := a_date a;
              f_companyId := a_companyId a;
              f_appointmentId := Some (a_id a) |}
    /\ untouched db db'.
Proof.
  unfold post_appointments.
  destruct (b_procedureIds body) as [[|i ids]|] eqn:B;
    try (intros H; apply pair_equal_spec in H; destruct H as [<- _];
         discriminate).
  destruct (resolve_procedures _ _ _ _ _) as [[total valid]|] eqn:R;
    [|intros H; apply pair_equal_spec in H; destruct H as [<- _];
      discriminate].
  destruct valid as [|first valid'] eqn:V;
    [intros H; apply pair_equal_spec in H; destruct H as [<- _];
     discriminate|].
  destruct (parse_appointment _ _ _ _ _ _ _ _) as [data|e] eqn:P;
    [|intros H; apply pair_equal_spec in H; destruct H as [<- _];
      discriminate].
  unfold bind.
  destruct (createAppointment data db) as [[a|e] db1] eqn:C;
    [|intros H; apply pair_equal_spec in H; destruct H as [<- _];
      discriminate].
  destruct (add_procedures (a_id a) _ db1) as [[[]|e] db2] eqn:A;
    [|intros H; apply pair_equal_spec in H; destruct H as [<- _];
      discriminate].
  destruct (createFinancialRecord _ db2) as [[f|e] db3] eqn:F;
    [|intros H; apply pair_equal_spec in H; destruct H as [<- _];
      discriminate].
  unfold ret. intros H _. apply pair_equal_spec in H. destruct H as [<- <-].
  apply createAppointment_row in C.
  destruct C as (Cid & Cco & Cd & Ca & Cp & Cf & Cs1 & Cs2 & Cu).
  apply add_procedures_ok in A. subst db2.
  destruct (procedures_added_tables (a_id a) (first :: valid') db1)
    as (Aa & Af & Ap).
  destruct (procedures_added_untouched (a_id a) (first :: valid') db1)
    as (V1 & V2 & V3 & V4).
  destruct (procedures_added_seq (a_id a) (first :: valid') db1) as [_ As2].
  apply createFinancialRecord_row in F.
  destruct F as (Ff & Fa & Fp & Frows & Fu).
  destruct (parse_appointment_ok _ _ _ _ _ _ _ _ _ P) as (_ & _ & Pc & _).
  destruct (resolve_procedures_rows _ _ _ _ _ _ _ R)
    as (found & Hv & Hi & Hget & _).
  destruct (resolve_procedures_ids _ _ _ _ _ _ _ R)
    as (found' & Hv' & _ & Hown & _).
  cbn [app] in Hv, Hv'. subst found found'.
  exists a, (first :: valid'), f.
  split; [reflexivity|]. split; [now rewrite Hi|].
  split; [exact Hget|]. split; [exact Hown|]. split; [exact Cid|].
  split; [now rewrite Cco|].
  split; [now rewrite Fa, Aa, Ca|].
  split; [now rewrite Fp, Ap, Cp, Cs1|].
  split; [now rewrite Frows, Af, Cf|].
  split.
  - rewrite Ff. cbn [if_type if_category if_description if_value if_date
                     if_companyId if_appointmentId].
    now rewrite As2, Cs2, Cco.
  - destruct Fu as (F1 & F2 & F3 & F4). destruct Cu as (C1 & C2 & C3 & C4).
    repeat split; congruence.
Qed.



Lemma has_id_bound {A : Type} (key : A -> Z) seq id (rows : list A) :
  Forall (fun r => key r <= seq) rows ->
  has_id key id rows = true -> id <= seq.
Proof.
  intros Hf H. apply has_id_In in H. destruct H as (x & Hin & <-).
  rewrite Forall_forall in Hf. exact (Hf x Hin).
Qed.






Lemma put_appointment_200_parsed user id body now db r db' :
  put_appointment (Some user) id body now db = (r, db') ->
  status r = 200 ->
  exists existing total valid data,
    getAppointment id db = Some existing
    /\ Some (a_companyId existing) = u_companyId user
    /\ resolve_procedures (u_companyId user) (map p_id valid) db (JS.Fin 0) []
       = Some (total, valid)
    /\ b_procedureIds body = Some (map p_id valid)
    /\ parse_appointment (b_clientId body) (b_collaboratorId body)
         (match valid with p :: _ => p_id p | [] => 0 end) (b_date body)
         (b_status body) (u_companyId user) (JS.toFixed2 total)
         (b_notes body) = Ok data
    /\ r = reply 200 (AppointmentJson (getAppointment id db'))
    /\ let db3 := fold_left (procedure_added id) valid
                    (junction_cleared id (appointment_updated id data db)) in
       let value := JS.toString (JS.parseFloat (ia_value data)) in
       db' = if completes (or_scheduled (ia_status data)) (a_status existing)
             then records_resynced id value now db3
             else db3.
Proof.
  unfold put_appointment.
  destruct (getAppointment id db) as [existing|] eqn:G;
    [|intros H; inversion H; subst; discriminate].
  destruct (other_company (a_companyId existing) user) eqn:O;
    [intros H; inversion H; subst; discriminate|].
  destruct (b_procedureIds body) as [[|i ids]|] eqn:B;
    try (intros H; inversion H; subst; discriminate).
  destruct (resolve_procedures _ _ _ _ _) as [[total valid]|] eqn:R;
    [|intros H; inversion H; subst; discriminate].
  destruct valid as [|first valid'] eqn:V;
    [intros H; inversion H; subst; discriminate|].
  destruct (parse_appointment _ _ _ _ _ _ _ _) as [data|e] eqn:P;
    [|unfold throw; intros H; inversion H; subst; discriminate].
  unfold bind.
  destruct (updateAppointment id data db) as [[updated|e] db1] eqn:U;
    [|intros H; inversion H; subst; discriminate].
  apply updateAppointment_ok in U. destruct U as (-> & Us & Uv).
  unfold removeAllProceduresFromAppointment.
  fold (junction_cleared id (appointment_updated id data db)).
  destruct (add_procedures id _ _) as [[[]|e] db3] eqn:A;
    [|intros H; inversion H; subst; discriminate].
  apply add_procedures_ok in A. subst db3.
  intros H Hs.
  destruct (resolve_procedures_rows _ _ _ _ _ _ _ R)
    as (found & Hf & Hi & _ & _).
  cbn [app] in Hf. subst found.
  assert (Hown : Some (a_companyId existing) = u_companyId user).
  { unfold other_company in O. apply negb_false_iff in O.
    now apply opt_eqb_eq in O. }
  assert (Hout : r = reply 200 (AppointmentJson (getAppointment id db'))
                 /\ db' = (if completes (or_scheduled (ia_status data))
                                (a_status existing)
                           then records_resynced id
                                  (JS.toString (JS.parseFloat (ia_value data)))
                                  now
                                  (fold_left (procedure_added id)
                                     (first :: valid')
                                     (junction_cleared id
                                        (appointment_updated id data db)))
                           else fold_left (procedure_added id)
                                  (first :: valid')
                                  (junction_cleared id
                                     (appointment_updated id data db)))).
  { rewrite Us, Uv in H. unfold completes.
    destruct (_ && _);
      [unfold updateFinancialRecordByAppointment, bind in H;
       rewrite update_financial_records_ok in H
         by (try reflexivity; split; intros; discriminate)|];
      unfold ret in H; apply pair_equal_spec in H; destruct H as [E1 E2];
      subst r db'; split; reflexivity. }
  destruct Hout as [Hr Hdb].
  exists existing, total, (first :: valid'), data.
  rewrite Hi. repeat split; auto.
Qed.


(** ** Deleting clients and procedures *)

Lemma filter_of_find {A : Type} (p : A -> bool) (l : list A) (x : A) :
  find p l = Some x -> exists rest, filter p l = x :: rest.
Proof.
  induction l as [|y l IH]; cbn; [discriminate|].
  destruct (p y) eqn:E.
  - intros H. injection H as <-. eexists. reflexivity.
  - exact IH.
Qed.

(** X12. An admin who deletes a client of the company that some appointment
    references, or a procedure that an appointment or a junction row
    references, is answered 500 "Server error" and the database stays as it
    was (the foreign keys do not cascade); otherwise the answer is 204 and
    exactly that row is removed. *)
Theorem referenced_rows_are_not_deleted :
  forall (user : User) (id : Z) (db : DB),
    is_admin user = true ->
    (forall client,
        getClient id db = Some client ->
        Some (c_companyId client) = u_companyId user ->
        let out := delete_client (Some user) id db in
        if existsb (fun a => a_clientId a =? id) (appointments db)
        then out = (reply 500 (Message "Server error" None), db)
        else fst out = reply 204 Empty
             /\ clients (snd out)
                = filter (fun c => negb (c_id c =? id)) (clients db)
             /\ getClient id (snd out) = None
             /\ appointments (snd out) = appointments db
             /\ procedures (snd out) = procedures db)
    /\ (forall procedure,
          getProcedure id db = Some procedure ->
          Some (p_companyId procedure) = u_companyId user ->
          let out := delete_procedure (Some user) id db in
          if existsb (fun a => a_procedureId a =? id) (appointments db)
             || existsb (fun ap => ap_procedureId ap =? id)
                  (appointmentProcedures db)
          then out = (reply 500 (Message "Server error" None), db)
          else fst out = reply 204 Empty
               /\ procedures (snd out)
                  = filter (fun p => negb (p_id p =? id)) (procedures db)
               /\ getProcedure id (snd out) = None
               /\ appointments (snd out) = appointments db
               /\ clients (snd out) = clients db).
Proof.
  intros user id db Hadmin. split.
  - intros client G Hc. unfold delete_client.
    rewrite Hadmin, G, (own_company _ _ Hc). cbn [negb].
    unfold deleteClient. unfold getClient in G.
    destruct (filter_of_find _ _ _ G) as (rest & ->).
    destruct (existsb _ (appointments db)); [reflexivity|].
    cbn [fst snd]. repeat split. unfold getClient. open_db.
    apply find_filter_negb.
  - intros procedure G Hc. unfold delete_procedure.
    rewrite Hadmin, G, (own_company _ _ Hc). cbn [negb].
    unfold deleteProcedure. unfold getProcedure in G.
    destruct (filter_of_find _ _ _ G) as (rest & ->).
    destruct (existsb _ (appointments db)); [reflexivity|].
    destruct (existsb _ (appointmentProcedures db)); [reflexivity|].
    cbn [fst snd orb]. repeat split. unfold getProcedure. open_db.
    apply find_filter_negb.
Qed.

(** ** Amounts on the pages *)

Lemma cents_display c :
  0 <= c <= 10 ^ 15 ->
  toFixed2 (parseFloat (Dec false c 2)) = Dec false c 2.
Proof.
  intros Hc. change (10 ^ 15) with 1000000000000000 in Hc.
  pose proof unit_den_pos as HU.
  destruct (scale_facts 46 ltac:(lia)) as (H2K & HP & EJ & EW & EP).
  change (2 ^ 46) with 70368744177664 in *.
  change (2 ^ 53) with 9007199254740992 in *.
  destruct (parse_cents c 46) as (f & Ef & Hf & Herr); try lia.
  change (2 ^ 46) with 70368744177664 in *.
  remember (2 ^ (46 + 1021)) as P eqn:EqP.
  rewrite Ef. apply toFixed2_exact; try lia;
    change (10 ^ 21) with 1000000000000000000000; lia.
Qed.

Lemma stored_cents_display c :
  0 <= c <= 10 ^ 15 ->
  toFixed2 (Number_ (toString (parseFloat (Dec false c 2)))) = Dec false c 2.
Proof.
  intros Hc. unfold Number_. rewrite (stored_cents_read_back c 50); try lia.
  now apply cents_display.
Qed.

(** X13. For an amount of up to 10^15 cents, Number(value).toFixed(2), as
    the pages display prices and values, is the amount with two decimals,
    both for the text with two decimals and for the text
    String(parseFloat(text)) that the appointment methods store. *)
Theorem stored_amounts_display_exactly :
  forall c : Z,
    0 <= c <= 10 ^ 15 ->
    toFixed2 (Number_ (Dec false c 2)) = Dec false c 2
    /\ toFixed2 (Number_ (toString (parseFloat (Dec false c 2))))
       = Dec false c 2.
Proof.
  intros c Hc. split.
  - now apply cents_display.
  - now apply stored_cents_display.
Qed.

(** ** The total of an appointment and the revenue *)

Lemma sum_values_as_prices records cents :
  Forall2 (fun f c => reads_as_cents (f_value f) c) records cents ->
  forall start,
    fold_left (fun sum record => add sum (Number_ (f_value record))) records
      start
    = sum_prices
        (map (fun c => {| p_id := 0; p_name := EmptyString;
                          p_value := Dec false c 2; p_companyId := 0 |})
           cents) start
    /\ Forall two_decimals
         (map (fun c => {| p_id := 0; p_name := EmptyString;
                           p_value := Dec false c 2; p_companyId := 0 |})
            cents)
    /\ total_cents
         (map (fun c => {| p_id := 0; p_name := EmptyString;
                           p_value := Dec false c 2; p_companyId := 0 |})
            cents) = sum_cents cents.
Proof.
  induction 1 as [|f c records cents [Hc Hf] _ IH]; intros start.
  - cbn. repeat split. constructor.
  - cbn [fold_left map sum_prices]. rewrite Hf.
    destruct (IH (add start (parseFloat (Dec false c 2)))) as (E & F & T).
    split; [exact E|]. split.
    + constructor; [|exact F]. exists c. now split.
    + unfold total_cents, sum_cents in *. cbn [map fold_right].
      unfold price_cents at 1. cbn [p_value]. now rewrite T.
Qed.

(** X14. The revenue reduce of the dashboard, over up to 40000 records whose
    values read as non-negative amounts of cents totalling at most
    500,000,000.00, is within half a cent of the exact total: its toFixed(2)
    is the exact total. *)
Theorem revenue_exact_to_the_cent :
  forall (records : list FinancialRecord) (cents : list Z),
    Forall2 (fun f c => reads_as_cents (f_value f) c) records cents ->
    length_Z records <= 40000 ->
    sum_cents cents <= 50000000000 ->
    toFixed2 (sum_values records) = Dec false (sum_cents cents) 2.
Proof.
  intros records cents H Hlen Hsum.
  destruct (sum_values_as_prices records cents H (Fin 0)) as (E & F & T).
  unfold sum_values. rewrite E, <- T.
  apply (value_text_exact 30); [lia| |exact F|].
  - rewrite length_map, <- (Forall2_length H). unfold length_Z in Hlen.
    change (2 ^ 30) with 1073741824. change (2 ^ 53) with 9007199254740992.
    lia.
  - rewrite T. change (2 ^ 30) with 1073741824. lia.
Qed.

(** X15. After a create answered 201 with up to 40000 procedures priced with
    two decimals and totalling at most 500,000,000.00, the stored value of
    the appointment reads as the exact total in cents and
    Number(value).toFixed(2) displays that total. *)
Theorem appointment_value_displays_exact_total :
  forall (user : User) (body : AppointmentBody) (db db' : DB) (r : response),
    post_appointments (Some user) body db = (r, db') ->
    status r = 201 ->
    exists a valid,
      r = reply 201 (AppointmentJson (Some a))
      /\ b_procedureIds body = Some (map p_id valid)
      /\ Forall (fun p => getProcedure (p_id p) db = Some p) valid
      /\ (Forall two_decimals valid ->
          length_Z valid <= 40000 ->
          total_cents valid <= 50000000000 ->
          toFixed2 (Number_ (a_value a)) = Dec false (total_cents valid) 2
          /\ reads_as_cents (a_value a) (total_cents valid)).
Proof.
  intros user body db db' r Hpost Hst.
  destruct (post_appointments_201 _ _ _ _ _ Hpost Hst)
    as (ids & total & valid & data & a & B & R & _ & Hr & Hv & _).
  destruct (resolve_procedures_rows _ _ _ _ _ _ _ R)
    as (found & Hf & Hi & Hget & Ht).
  cbn [app] in Hf. subst found.
  exists a, valid.
  split; [exact Hr|]. split; [now rewrite B, Hi|]. split; [exact Hget|].
  intros H2 Hlen Htot.
  assert (Ev : toFixed2 total = Dec false (total_cents valid) 2).
  { rewrite Ht. apply (value_text_exact 30); [lia| |exact H2|].
    - unfold length_Z in Hlen. change (2 ^ 30) with 1073741824.
      change (2 ^ 53) with 9007199254740992. lia.
    - change (2 ^ 30) with 1073741824. lia. }
  pose proof (total_cents_nonneg valid H2) as Hnn.
  assert (Hc : 0 <= total_cents valid <= 10 ^ 15)
    by (change (10 ^ 15) with 1000000000000000; lia).
  rewrite Hv, Ev.
  split; [exact (stored_cents_display (total_cents valid) Hc)|]. split; [lia|].
  unfold Number_. apply (stored_cents_read_back _ 50); try lia.
Qed.

(** ** The tables a handler leaves alone *)

Ltac storage_cases :=
  repeat match goal with
         | |- context [if ?c then _ else _] => destruct c
         | |- context [match ?x with _ => _ end] =>
           lazymatch type of x with
           | prod _ _ => fail
           | _ => destruct x
           end
         end.

(** The tables the booking workflow writes: appointments, junction rows
    and financial records.  Its methods leave the others as they were. *)
Section Masters.
Variable db0 : DB.
Let P := untouched db0.

Lemma insert_appointment_masters clientId collaboratorId procedureId date st
    companyId value notes :
  preserves P
    (insert_appointment clientId collaboratorId procedureId date st companyId
       value notes).
Proof. intros db H. unfold insert_appointment. storage_cases; exact H. Qed.

Lemma update_appointment_masters id clientId collaboratorId procedureId date
    st companyId value notes :
  preserves P
    (update_appointment id clientId collaboratorId procedureId date st
       companyId value notes).
Proof. intros db H. unfold update_appointment. storage_cases; exact H. Qed.

Lemma updateAppointment_masters id data :
  preserves P (updateAppointment id data).
Proof.
  unfold updateAppointment. apply preserves_bind.
  - apply update_appointment_masters.
  - intros [|row rows]; [apply preserves_throw|apply preserves_ret].
Qed.

Lemma addProcedureToAppointment_masters ap :
  preserves P (addProcedureToAppointment ap).
Proof.
  intros db H. unfold addProcedureToAppointment. storage_cases; exact H.
Qed.

Lemma removeAllProceduresFromAppointment_masters id :
  preserves P (removeAllProceduresFromAppointment id).
Proof. intros db H. exact H. Qed.

Lemma delete_appointment_masters id : preserves P (delete_appointment id).
Proof. intros db H. unfold delete_appointment. storage_cases; exact H. Qed.

Lemma deleteAppointment_masters id : preserves P (deleteAppointment id).
Proof.
  unfold deleteAppointment. apply preserves_bind.
  - apply removeAllProceduresFromAppointment_masters.
  - intros _. apply preserves_bind; [apply delete_appointment_masters|].
    intros [|row rows]; [apply preserves_throw|apply preserves_ret].
Qed.

Lemma createFinancialRecord_masters record :
  preserves P (createFinancialRecord record).
Proof.
  intros db H. unfold createFinancialRecord. storage_cases; exact H.
Qed.

Lemma update_financial_records_masters hit stmt updates :
  preserves P (update_financial_records hit stmt updates).
Proof.
  intros db H. unfold update_financial_records. storage_cases; exact H.
Qed.

Lemma updateFinancialRecordByAppointment_masters id updates :
  preserves P (updateFinancialRecordByAppointment id updates).
Proof.
  unfold updateFinancialRecordByAppointment. apply preserves_bind.
  - apply update_financial_records_masters.
  - intros _. apply preserves_ret.
Qed.

Lemma deleteFinancialRecordByAppointment_masters id :
  preserves P (deleteFinancialRecordByAppointment id).
Proof.
  unfold deleteFinancialRecordByAppointment. apply preserves_bind.
  - intros db H. exact H.
  - intros _. apply preserves_ret.
Qed.

End Masters.

Lemma untouched_refl db : untouched db db.
Proof. repeat split. Qed.

(** The booking handlers leave companies, users, clients and procedures as
    they were. *)
Lemma booking_masters user db :
  (forall body, untouched db (snd (post_appointments user body db)))
  /\ (forall id body now,
        untouched db (snd (put_appointment user id body now db)))
  /\ (forall id, untouched db (snd (delete_appointment_route user id db)))
  /\ (forall body, untouched db (snd (post_financial_records user body db))).
Proof.
  split; [|split; [|split]]; intros.
  - apply post_appointments_keeps;
      auto using insert_appointment_masters,
        addProcedureToAppointment_masters, createFinancialRecord_masters,
        untouched_refl.
    intros data. apply insert_appointment_masters.
  - apply put_appointment_keeps;
      auto using updateAppointment_masters,
        removeAllProceduresFromAppointment_masters,
        addProcedureToAppointment_masters,
        updateFinancialRecordByAppointment_masters, untouched_refl.
  - apply delete_appointment_route_keeps;
      auto using deleteFinancialRecordByAppointment_masters,
        deleteAppointment_masters, untouched_refl.
  - apply post_financial_records_keeps;
      auto using createFinancialRecord_masters, untouched_refl.
Qed.

(** ** Rows keep their company *)

Lemma NoDup_map_inj {A B : Type} (key : A -> B) (l : list A) (x y : A) :
  NoDup (map key l) -> In x l -> In y l -> key x = key y -> x = y.
Proof.
  induction l as [|z l IH]; cbn; [intros _ []|].
  intros Hn Hx Hy E. inversion Hn as [|? ? Hz Hl]; subst.
  destruct Hx as [->|Hx], Hy as [->|Hy]; auto.
  - exfalso. apply Hz. rewrite E. now apply in_map.
  - exfalso. apply Hz. rewrite <- E. now apply in_map.
Qed.

Section KeptRows.
Context {A : Type} (key company : A -> Z).

Lemma kept_incl seq old new : incl new old -> kept key company seq old new.
Proof.
  intros H. apply Forall_forall. intros r Hr. left. exists r.
  split; [now apply H|]. now split.
Qed.

Lemma kept_refl seq l : kept key company seq l l.
Proof. apply kept_incl. apply incl_refl. Qed.

Lemma kept_filter seq l p : kept key company seq l (filter p l).
Proof. apply kept_incl. apply incl_filter. Qed.

Lemma kept_snoc seq l r :
  key r = seq + 1 -> kept key company seq l (l ++ [r]).
Proof.
  intros H. apply Forall_app. split; [apply kept_refl|].
  constructor; [|constructor]. right. lia.
Qed.

Lemma kept_map seq l f :
  (forall x, In x l -> key (f x) = key x /\ company (f x) = company x) ->
  kept key company seq l (map f l).
Proof.
  intros H. apply Forall_map. apply Forall_forall. intros x Hx. left.
  exists x. destruct (H x Hx) as [H1 H2]. repeat split; auto.
Qed.

Lemma kept_trans seq seq' old mid new :
  seq <= seq' ->
  kept key company seq old mid -> kept key company seq' mid new ->
  kept key company seq old new.
Proof.
  intros Hle H1 H2. apply Forall_forall. intros r Hr.
  unfold kept in H1, H2. rewrite Forall_forall in H1, H2.
  destruct (H2 r Hr) as [(m & Hm & Hk & Hc)|Hf]; [|right; lia].
  destruct (H1 m Hm) as [(o & Ho & Hk' & Hc')|Hf].
  - left. exists o. repeat split; congruence.
  - right. lia.
Qed.

Lemma kept_same_tenant seq old new :
  serial key seq old -> kept key company seq old new ->
  same_tenant key company old new.
Proof.
  intros [Hn Hb] Hk r r' Hr Hr' E. unfold kept in Hk.
  rewrite Forall_forall in Hk, Hb.
  destruct (Hk r' Hr') as [(o & Ho & Hko & Hco)|Hf].
  - assert (o = r) by (apply (NoDup_map_inj key old); congruence).
    subst o. congruence.
  - specialize (Hb r Hr). cbv beta in Hb. lia.
Qed.

End KeptRows.

(** What the handlers of clients and procedures do to their table. *)
Lemma put_client_tables user id body db :
  snd (put_client user id body db) = db
  \/ exists u existing data,
       user = Some u
       /\ getClient id db = Some existing
       /\ c_companyId existing = ic_companyId data
       /\ snd (put_client user id body db)
          = logged (UpdateClientRow id)
              (with_clients
                 (map (fun c => if c_id c =? id then set_client data c else c)
                    (clients db)) db).
Proof.
  unfold put_client.
  destruct user as [user|]; [|now left].
  destruct (getClient id db) as [existing|] eqn:G; [|now left].
  destruct (other_company _ user) eqn:O; [now left|].
  destruct (parse_client _ _) as [data|e] eqn:Pc; [|now left].
  unfold updateClient. unfold getClient in G.
  destruct (filter_of_find _ _ _ G) as (rest & ->).
  destruct (has_id co_id _ _); cbn [negb]; [|now left].
  right. exists user, existing, data.
  split; [reflexivity|]. split; [reflexivity|]. split; [|reflexivity].
  unfold other_company in O. apply negb_false_iff in O.
  apply opt_eqb_eq in O. unfold parse_client in Pc.
  destruct (cb_name body); [|discriminate].
  destruct (cb_phone body); [|discriminate].
  destruct (optional (cb_notes body)); [|discriminate].
  destruct (u_companyId user) as [c|]; [|discriminate].
  injection Pc as <-. cbn. congruence.
Qed.

Lemma delete_client_tables user id db :
  snd (delete_client user id db) = db
  \/ (exists u, user = Some u /\ is_admin u = true)
     /\ snd (delete_client user id db)
        = logged (DeleteClientRow id)
            (with_clients (filter (fun c => negb (c_id c =? id)) (clients db))
               db).
Proof.
  unfold delete_client.
  destruct user as [user|]; [|now left].
  destruct (is_admin user) eqn:Ad; cbn [negb]; [|now left].
  destruct (getClient id db) as [existing|] eqn:G; [|now left].
  destruct (other_company _ user); [now left|].
  unfold deleteClient. unfold getClient in G.
  destruct (filter_of_find _ _ _ G) as (rest & ->).
  destruct (existsb _ (appointments db)); [now left|].
  right. split; [exists user; split; [reflexivity|exact Ad]|reflexivity].
Qed.

Lemma put_procedure_tables user id body db :
  snd (put_procedure user id body db) = db
  \/ exists u existing data value,
       user = Some u
       /\ is_admin u = true
       /\ getProcedure id db = Some existing
       /\ p_companyId existing = ip_companyId data
       /\ snd (put_procedure user id body db)
          = logged (UpdateProcedureRow id)
              (with_procedures
                 (map (fun p => if p_id p =? id
                                then set_procedure (ip_name data) value
                                       (ip_companyId data) p
                                else p)
                    (procedures db)) db).
Proof.
  unfold put_procedure.
  destruct user as [user|]; [|now left].
  destruct (is_admin user) eqn:Ad; cbn [negb]; [|now left].
  destruct (getProcedure id db) as [existing|] eqn:G; [|now left].
  destruct (other_company _ user) eqn:O; [now left|].
  destruct (parse_procedure _ _) as [data|e] eqn:Pc; [|now left].
  unfold updateProcedure. unfold getProcedure in G.
  destruct (ip_value data) as [value|]; [|now left].
  destruct (filter_of_find _ _ _ G) as (rest & ->).
  destruct (has_id co_id _ _); cbn [negb]; [|now left].
  right. exists user, existing, data, value.
  split; [reflexivity|]. split; [exact Ad|]. split; [reflexivity|].
  split; [|reflexivity].
  unfold other_company in O. apply negb_false_iff in O.
  apply opt_eqb_eq in O. unfold parse_procedure in Pc.
  destruct (pb_name body); [|discriminate].
  destruct (pb_value body); [|discriminate].
  destruct (u_companyId user) as [c|]; [|discriminate].
  injection Pc as <-. cbn. congruence.
Qed.

Lemma delete_procedure_tables user id db :
  snd (delete_procedure user id db) = db
  \/ (exists u, user = Some u /\ is_admin u = true)
     /\ snd (delete_procedure user id db)
        = logged (DeleteProcedureRow id)
            (with_procedures
               (filter (fun p => negb (p_id p =? id)) (procedures db)) db).
Proof.
  unfold delete_procedure.
  destruct user as [user|]; [|now left].
  destruct (is_admin user) eqn:Ad; cbn [negb]; [|now left].
  destruct (getProcedure id db) as [existing|] eqn:G; [|now left].
  destruct (other_company _ user); [now left|].
  unfold deleteProcedure. unfold getProcedure in G.
  destruct (filter_of_find _ _ _ G) as (rest & ->).
  destruct (existsb _ (appointments db)); [now left|].
  destruct (existsb _ (appointmentProcedures db)); [now left|].
  right. split; [exists user; split; [reflexivity|exact Ad]|reflexivity].
Qed.

Lemma post_clients_tables user body now s :
  (tables (snd (post_clients user body now s)) = tables s
   /\ seq_clients s <= seq_clients (snd (post_clients user body now s))
   /\ seq_procedures (snd (post_clients user body now s)) = seq_procedures s)
  \/ exists row,
       c_id row = seq_clients s + 1
       /\ snd (post_clients user body now s)
          = with_tables
              (with_clients (clients (tables s) ++ [row]) (tables s))
              (with_seq_clients (seq_clients s + 1) s).
Proof.
  unfold post_clients.
  destruct user as [user|]; [|left; repeat split; first [lia|reflexivity]].
  destruct (parse_client _ _) as [data|e]; [|left; repeat split; first [lia|reflexivity]].
  unfold createClient. open_db.
  destruct (has_id co_id _ _); cbn [negb].
  - right. eexists. split; [|reflexivity]. reflexivity.
  - left. cbn. repeat split; first [lia|reflexivity].
Qed.

Lemma post_procedures_tables user body s :
  (tables (snd (post_procedures user body s)) = tables s
   /\ seq_procedures s <= seq_procedures (snd (post_procedures user body s))
   /\ seq_clients (snd (post_procedures user body s)) = seq_clients s)
  \/ (exists u, user = Some u /\ is_admin u = true)
     /\ exists row,
         p_id row = seq_procedures s + 1
         /\ snd (post_procedures user body s)
            = with_tables
                (with_procedures (procedures (tables s) ++ [row]) (tables s))
                (with_seq_procedures (seq_procedures s + 1) s).
Proof.
  unfold post_procedures.
  destruct user as [user|]; [|left; repeat split; first [lia|reflexivity]].
  destruct (is_admin user) eqn:Ad; cbn [negb]; [|left; repeat split; first [lia|reflexivity]].
  destruct (parse_procedure _ _) as [data|e]; [|left; repeat split; first [lia|reflexivity]].
  unfold createProcedure.
  destruct (ip_value data) as [value|]; [|left; repeat split; first [lia|reflexivity]].
  open_db.
  destruct (has_id co_id _ _); cbn [negb].
  - right. split; [exists user; split; [reflexivity|exact Ad]|].
    eexists. split; [|reflexivity]. reflexivity.
  - left. cbn. repeat split; first [lia|reflexivity].
Qed.

(** The sequence of the appointments never goes back. *)
Section Sequence.
Variable db0 : DB.
Let P := fun db => seq_appointments db0 <= seq_appointments db.

Lemma insert_appointment_sequence clientId collaboratorId procedureId date st
    companyId value notes :
  preserves P
    (insert_appointment clientId collaboratorId procedureId date st companyId
       value notes).
Proof.
  intros db H. unfold P in *. unfold insert_appointment.
  storage_cases; cbn; lia.
Qed.

Lemma update_appointment_sequence id clientId collaboratorId procedureId date
    st companyId value notes :
  preserves P
    (update_appointment id clientId collaboratorId procedureId date st
       companyId value notes).
Proof. intros db H. unfold update_appointment. storage_cases; exact H. Qed.

Lemma updateAppointment_sequence id data :
  preserves P (updateAppointment id data).
Proof.
  unfold updateAppointment. apply preserves_bind.
  - apply update_appointment_sequence.
  - intros [|row rows]; [apply preserves_throw|apply preserves_ret].
Qed.

Lemma addProcedureToAppointment_sequence ap :
  preserves P (addProcedureToAppointment ap).
Proof.
  intros db H. unfold addProcedureToAppointment. storage_cases; exact H.
Qed.

Lemma removeAllProceduresFromAppointment_sequence id :
  preserves P (removeAllProceduresFromAppointment id).
Proof. intros db H. exact H. Qed.

Lemma delete_appointment_sequence id : preserves P (delete_appointment id).
Proof. intros db H. unfold delete_appointment. storage_cases; exact H. Qed.

Lemma deleteAppointment_sequence id : preserves P (deleteAppointment id).
Proof.
  unfold deleteAppointment. apply preserves_bind.
  - apply removeAllProceduresFromAppointment_sequence.
  - intros _. apply preserves_bind; [apply delete_appointment_sequence|].
    intros [|row rows]; [apply preserves_throw|apply preserves_ret].
Qed.

Lemma createFinancialRecord_sequence record :
  preserves P (createFinancialRecord record).
Proof.
  intros db H. unfold createFinancialRecord. storage_cases; exact H.
Qed.

Lemma update_financial_records_sequence hit stmt updates :
  preserves P (update_financial_records hit stmt updates).
Proof.
  intros db H. unfold update_financial_records. storage_cases; exact H.
Qed.

Lemma updateFinancialRecordByAppointment_sequence id updates :
  preserves P (updateFinancialRecordByAppointment id updates).
Proof.
  unfold updateFinancialRecordByAppointment. apply preserves_bind.
  - apply update_financial_records_sequence.
  - intros _. apply preserves_ret.
Qed.

Lemma deleteFinancialRecordByAppointment_sequence id :
  preserves P (deleteFinancialRecordByAppointment id).
Proof.
  unfold deleteFinancialRecordByAppointment. apply preserves_bind.
  - intros db H. exact H.
  - intros _. apply preserves_ret.
Qed.

Lemma updateClient_sequence id data : preserves P (updateClient id data).
Proof. intros db H. unfold updateClient. storage_cases; exact H. Qed.

Lemma deleteClient_sequence id : preserves P (deleteClient id).
Proof. intros db H. unfold deleteClient. storage_cases; exact H. Qed.

Lemma updateProcedure_sequence id data : preserves P (updateProcedure id data).
Proof. intros db H. unfold updateProcedure. storage_cases; exact H. Qed.

Lemma deleteProcedure_sequence id : preserves P (deleteProcedure id).
Proof. intros db H. unfold deleteProcedure. storage_cases; exact H. Qed.

End Sequence.

(** Deleting an appointment only removes appointments and junction rows. *)
Section Removal.
Variable db0 : DB.
Let P := fun db =>
  incl (appointments db) (appointments db0)
  /\ incl (appointmentProcedures db) (appointmentProcedures db0).

Lemma deleteFinancialRecordByAppointment_removal id :
  preserves P (deleteFinancialRecordByAppointment id).
Proof.
  unfold deleteFinancialRecordByAppointment. apply preserves_bind.
  - intros db H. exact H.
  - intros _. apply preserves_ret.
Qed.

Lemma deleteAppointment_removal id : preserves P (deleteAppointment id).
Proof.
  unfold deleteAppointment. apply preserves_bind.
  - intros db [H1 H2]. split; [exact H1|].
    cbn. eapply incl_tran; [apply incl_filter|exact H2].
  - intros _. apply preserves_bind.
    + intros db [H1 H2]. unfold delete_appointment.
      storage_cases; cbn; (split; [|exact H2]); try exact H1.
      eapply incl_tran; [apply incl_filter|exact H1].
    + intros [|row rows]; [apply preserves_throw|apply preserves_ret].
Qed.

End Removal.

Lemma booking_sequence user db :
  (forall body,
      seq_appointments db <= seq_appointments (snd (post_appointments user body db)))
  /\ (forall id body now,
        seq_appointments db
        <= seq_appointments (snd (put_appointment user id body now db)))
  /\ (forall id,
        seq_appointments db
        <= seq_appointments (snd (delete_appointment_route user id db)))
  /\ (forall body,
        seq_appointments db
        <= seq_appointments (snd (post_financial_records user body db)))
  /\ (forall id body,
        seq_appointments db <= seq_appointments (snd (put_client user id body db)))
  /\ (forall id,
        seq_appointments db <= seq_appointments (snd (delete_client user id db)))
  /\ (forall id body,
        seq_appointments db
        <= seq_appointments (snd (put_procedure user id body db)))
  /\ (forall id,
        seq_appointments db
        <= seq_appointments (snd (delete_procedure user id db))).
Proof.
  repeat match goal with |- _ /\ _ => split end; intros.
  - apply (post_appointments_keeps
             (fun d => seq_appointments db <= seq_appointments d));
      try lia; intros.
    + apply insert_appointment_sequence.
    + apply addProcedureToAppointment_sequence.
    + apply createFinancialRecord_sequence.
  - apply (put_appointment_keeps
             (fun d => seq_appointments db <= seq_appointments d));
      try lia; intros.
    + apply updateAppointment_sequence.
    + apply removeAllProceduresFromAppointment_sequence.
    + apply addProcedureToAppointment_sequence.
    + apply updateFinancialRecordByAppointment_sequence.
  - apply (delete_appointment_route_keeps
             (fun d => seq_appointments db <= seq_appointments d));
      try lia; intros.
    + apply deleteFinancialRecordByAppointment_sequence.
    + apply deleteAppointment_sequence.
  - apply (post_financial_records_keeps
             (fun d => seq_appointments db <= seq_appointments d));
      try lia; intros. apply createFinancialRecord_sequence.
  - apply (put_client_keeps
             (fun d => seq_appointments db <= seq_appointments d));
      try lia; intros. apply updateClient_sequence.
  - apply (delete_client_keeps
             (fun d => seq_appointments db <= seq_appointments d));
      try lia; intros. apply deleteClient_sequence.
  - apply (put_procedure_keeps
             (fun d => seq_appointments db <= seq_appointments d));
      try lia; intros. apply updateProcedure_sequence.
  - apply (delete_procedure_keeps
             (fun d => seq_appointments db <= seq_appointments d));
      try lia; intros. apply deleteProcedure_sequence.
Qed.

Lemma find_unique {A : Type} (key : A -> Z) (l : list A) id (e x : A) :
  NoDup (map key l) ->
  find (fun a => key a =? id) l = Some e -> In x l -> key x = id -> x = e.
Proof.
  intros Hn F Hx Hk. destruct (find_some _ _ F) as [He Hke].
  apply Z.eqb_eq in Hke. apply (NoDup_map_inj key l); congruence.
Qed.

Lemma parse_appointment_company clientId collaboratorId procedureId date st
    companyId value notes data :
  parse_appointment clientId collaboratorId procedureId date st companyId
    value notes = Ok data ->
  companyId = Some (ia_companyId data).
Proof.
  unfold parse_appointment.
  destruct clientId; [|discriminate]. destruct collaboratorId; [|discriminate].
  destruct date; [|discriminate]. destruct (optional st); [|discriminate].
  destruct companyId; [|discriminate]. destruct (optional notes); [|discriminate].
  intros H. injection H as <-. reflexivity.
Qed.

Lemma post_appointments_rows_kept user body db :
  kept a_id a_companyId (seq_appointments db) (appointments db)
    (appointments (snd (post_appointments user body db))).
Proof.
  destruct user as [user|]; [|apply kept_refl].
  destruct (post_appointments_cases user body db) as [(_ & -> & _)|H].
  - apply kept_refl.
  - destruct (post_appointments (Some user) body db) as [r db'] eqn:E.
    destruct (post_appointments_201_rows _ _ _ _ _ E H)
      as (a & valid & f & _ & _ & _ & _ & Hid & _ & Happ & _).
    cbn [snd]. rewrite Happ. now apply kept_snoc.
Qed.

Lemma put_appointment_rows user id body now db :
  snd (put_appointment user id body now db) = db
  \/ exists u existing valid data,
       user = Some u
       /\ getAppointment id db = Some existing
       /\ a_companyId existing = ia_companyId data
       /\ Forall (fun p => getProcedure (p_id p) db = Some p) valid
       /\ Forall (fun p => Some (p_companyId p) = u_companyId u) valid
       /\ Some (a_companyId existing) = u_companyId u
       /\ appointments (snd (put_appointment user id body now db))
          = appointments (appointment_updated id data db)
       /\ appointmentProcedures (snd (put_appointment user id body now db))
          = filter (fun ap => negb (ap_appointmentId ap =? id))
              (appointmentProcedures db)
            ++ junction_rows (seq_appointmentProcedures db + 1) id valid.
Proof.
  destruct user as [user|]; [|now left].
  destruct (put_appointment_cases user id body now db) as [H|H]; [now left|].
  right.
  destruct (put_appointment (Some user) id body now db) as [r db'] eqn:E.
  destruct (put_appointment_200_parsed _ _ _ _ _ _ _ E H)
    as (existing & total & valid & data & G & Hown & R & _ & Pa & _ & Hdb).
  cbv zeta in Hdb. cbn [snd].
  exists user, existing, valid, data.
  split; [reflexivity|]. split; [exact G|].
  apply parse_appointment_company in Pa.
  split; [congruence|].
  destruct (resolve_procedures_rows _ _ _ _ _ _ _ R)
    as (found & Hf & _ & Hg & _).
  cbn [app] in Hf. subst found.
  split; [exact Hg|].
  split.
  { clear - R. revert R. generalize (JS.Fin 0).
    assert (forall ids n acc total valid,
               resolve_procedures (u_companyId user) ids db n acc
               = Some (total, valid) ->
               Forall (fun p => Some (p_companyId p) = u_companyId user) acc ->
               Forall (fun p => Some (p_companyId p) = u_companyId user) valid)
      as Hall.
    { induction ids as [|i ids IH]; intros n acc t v; cbn.
      - intros H. injection H as _ <-. auto.
      - destruct (getProcedure i db) as [p|]; [|discriminate].
        destruct (opt_eqb (u_companyId user) (p_companyId p)) eqn:O;
          cbn; [|discriminate].
        intros H Hacc. apply (IH _ _ _ _ H).
        apply Forall_app. split; [exact Hacc|].
        constructor; [|constructor]. apply opt_eqb_eq in O. congruence. }
    intros n R. exact (Hall _ _ _ _ _ R (Forall_nil _)). }
  split; [exact Hown|].
  destruct (procedures_added_tables id valid
              (junction_cleared id (appointment_updated id data db)))
    as (Ha & _ & Hj).
  cbv zeta in Ha, Hj.
  destruct (completes _ _); subst db'; cbn [records_resynced appointments
    appointmentProcedures logged with_financialRecords];
    rewrite ?Ha, ?Hj; split; reflexivity.
Qed.

Lemma put_appointment_rows_kept user id body now db :
  NoDup (map a_id (appointments db)) ->
  kept a_id a_companyId (seq_appointments db) (appointments db)
    (appointments (snd (put_appointment user id body now db))).
Proof.
  intros Hn.
  destruct (put_appointment_rows user id body now db)
    as [->|(u & existing & valid & data & _ & G & Hc & _ & _ & _ & -> & _)];
    [apply kept_refl|].
  cbn. apply kept_map. intros x Hx.
  destruct (a_id x =? id) eqn:E; [|now split].
  apply Z.eqb_eq in E. split; [reflexivity|]. cbn.
  rewrite (find_unique a_id _ id existing x Hn G Hx E). now rewrite Hc.
Qed.

Lemma delete_appointment_route_removal user id db :
  incl (appointments (snd (delete_appointment_route user id db)))
    (appointments db)
  /\ incl (appointmentProcedures (snd (delete_appointment_route user id db)))
       (appointmentProcedures db).
Proof.
  apply (delete_appointment_route_keeps
           (fun d => incl (appointments d) (appointments db)
                     /\ incl (appointmentProcedures d)
                          (appointmentProcedures db))).
  - intros. apply deleteFinancialRecordByAppointment_removal.
  - intros. apply deleteAppointment_removal.
  - split; apply incl_refl.
Qed.

(** ** From one request to the next *)

Lemma evolves_refl s : evolves s s.
Proof.
  unfold evolves. repeat split; try lia; apply kept_refl.
Qed.

Lemma evolves_trans s1 s2 s3 : evolves s1 s2 -> evolves s2 s3 -> evolves s1 s3.
Proof.
  intros (A1 & A2 & A3 & A4 & A5 & A6) (B1 & B2 & B3 & B4 & B5 & B6).
  unfold evolves. repeat split; try lia.
  - exact (kept_trans _ _ _ _ _ _ _ A1 A4 B4).
  - exact (kept_trans _ _ _ _ _ _ _ A2 A5 B5).
  - exact (kept_trans _ _ _ _ _ _ _ A3 A6 B6).
Qed.

Lemma evolves_tables s db' :
  seq_appointments (tables s) <= seq_appointments db' ->
  kept c_id c_companyId (seq_clients s) (clients (tables s)) (clients db') ->
  kept p_id p_companyId (seq_procedures s) (procedures (tables s))
    (procedures db') ->
  kept a_id a_companyId (seq_appointments (tables s))
    (appointments (tables s)) (appointments db') ->
  evolves s (with_tables db' s).
Proof.
  intros H1 H2 H3 H4. unfold evolves. cbn. repeat split; try lia; assumption.
Qed.

(** What the two tables of the tenants show. *)
Lemma evolves_untouched s db' :
  untouched (tables s) db' ->
  seq_appointments (tables s) <= seq_appointments db' ->
  kept a_id a_companyId (seq_appointments (tables s))
    (appointments (tables s)) (appointments db') ->
  evolves s (with_tables db' s).
Proof.
  intros (_ & _ & Hc & Hp) H1 H2. apply evolves_tables; try assumption.
  - rewrite Hc. apply kept_refl.
  - rewrite Hp. apply kept_refl.
Qed.

(** The registrations leave the clients, the procedures and the bookings
    as they are. *)
Lemma createCompany_bookings name inviteCode s :
  let s' := snd (createCompany name inviteCode s) in
  seq_clients s' = seq_clients s
  /\ seq_procedures s' = seq_procedures s
  /\ seq_appointments (tables s') = seq_appointments (tables s)
  /\ clients (tables s') = clients (tables s)
  /\ procedures (tables s') = procedures (tables s)
  /\ appointments (tables s') = appointments (tables s)
  /\ appointmentProcedures (tables s') = appointmentProcedures (tables s).
Proof.
  unfold createCompany. cbn. destruct (existsb _ _); cbn; repeat split.
Qed.

Lemma createUser_bookings user s :
  let s' := snd (createUser user s) in
  seq_clients s' = seq_clients s
  /\ seq_procedures s' = seq_procedures s
  /\ seq_appointments (tables s') = seq_appointments (tables s)
  /\ clients (tables s') = clients (tables s)
  /\ procedures (tables s') = procedures (tables s)
  /\ appointments (tables s') = appointments (tables s)
  /\ appointmentProcedures (tables s') = appointmentProcedures (tables s).
Proof.
  unfold createUser. cbn. destruct (existsb _ _); cbn; [repeat split|].
  destruct (match iu_companyId user with Some _ => _ | None => _ end); cbn;
    repeat split.
Qed.

Lemma register_admin_bookings scrypt companyName user code salt s :
  let s' := snd (register_admin scrypt companyName user code salt s) in
  seq_clients s' = seq_clients s
  /\ seq_procedures s' = seq_procedures s
  /\ seq_appointments (tables s') = seq_appointments (tables s)
  /\ clients (tables s') = clients (tables s)
  /\ procedures (tables s') = procedures (tables s)
  /\ appointments (tables s') = appointments (tables s)
  /\ appointmentProcedures (tables s') = appointmentProcedures (tables s).
Proof.
  unfold register_admin.
  destruct companyName as [name|]; [|cbn; repeat split].
  destruct (parse_user _ _ _) as [data|e]; [|cbn; repeat split].
  destruct (getUserByEmail _ _); [cbn; repeat split|].
  match goal with
  | |- context [createCompany ?n ?c s] =>
    pose proof (createCompany_bookings n c s) as Hc;
      destruct (createCompany n c s) as [[company|f] s1]; [|exact Hc]
  end.
  cbn [snd] in Hc. cbv zeta in Hc.
  match goal with
  | |- context [createUser ?u s1] =>
    pose proof (createUser_bookings u s1) as Hu;
      destruct (createUser u s1) as [[user'|f] s2]
  end; cbn [snd] in *; cbv zeta in *;
    destruct Hc as (C1 & C2 & C3 & C4 & C5 & C6 & C7);
    destruct Hu as (U1 & U2 & U3 & U4 & U5 & U6 & U7);
    repeat split; congruence.
Qed.

Lemma register_collaborator_bookings scrypt inviteCode user salt s :
  let s' := snd (register_collaborator scrypt inviteCode user salt s) in
  seq_clients s' = seq_clients s
  /\ seq_procedures s' = seq_procedures s
  /\ seq_appointments (tables s') = seq_appointments (tables s)
  /\ clients (tables s') = clients (tables s)
  /\ procedures (tables s') = procedures (tables s)
  /\ appointments (tables s') = appointments (tables s)
  /\ appointmentProcedures (tables s') = appointmentProcedures (tables s).
Proof.
  unfold register_collaborator.
  destruct (getCompanyByInviteCode _ _) as [company|]; [|cbn; repeat split].
  destruct (parse_user _ _ _) as [data|e]; [|cbn; repeat split].
  destruct (getUserByEmail _ _); [cbn; repeat split|].
  match goal with
  | |- context [createUser ?u s] =>
    pose proof (createUser_bookings u s) as Hu;
      destruct (createUser u s) as [[user'|f] s1]
  end; exact Hu.
Qed.

Lemma evolves_bookings s s' :
  seq_clients s' = seq_clients s
  /\ seq_procedures s' = seq_procedures s
  /\ seq_appointments (tables s') = seq_appointments (tables s)
  /\ clients (tables s') = clients (tables s)
  /\ procedures (tables s') = procedures (tables s)
  /\ appointments (tables s') = appointments (tables s)
  /\ appointmentProcedures (tables s') = appointmentProcedures (tables s) ->
  evolves s s'.
Proof.
  intros (H1 & H2 & H3 & H4 & H5 & H6 & _). unfold evolves.
  rewrite H4, H5, H6. repeat split; try lia; apply kept_refl.
Qed.

Lemma put_client_rows_kept user id body db seq :
  NoDup (map c_id (clients db)) ->
  kept c_id c_companyId seq (clients db)
    (clients (snd (put_client user id body db))).
Proof.
  intros Hn.
  destruct (put_client_tables user id body db)
    as [->|(u & existing & data & _ & G & Hc & ->)]; [apply kept_refl|].
  cbn. apply kept_map. intros x Hx.
  destruct (c_id x =? id) eqn:E; [|now split].
  apply Z.eqb_eq in E. split; [reflexivity|]. cbn.
  rewrite (find_unique c_id _ id existing x Hn G Hx E). now rewrite Hc.
Qed.

Lemma put_procedure_rows_kept user id body db seq :
  NoDup (map p_id (procedures db)) ->
  kept p_id p_companyId seq (procedures db)
    (procedures (snd (put_procedure user id body db))).
Proof.
  intros Hn.
  destruct (put_procedure_tables user id body db)
    as [->|(u & existing & data & value & _ & _ & G & Hc & ->)];
    [apply kept_refl|].
  cbn. apply kept_map. intros x Hx.
  destruct (p_id x =? id) eqn:E; [|now split].
  apply Z.eqb_eq in E. split; [reflexivity|]. cbn.
  rewrite (find_unique p_id _ id existing x Hn G Hx E). now rewrite Hc.
Qed.

Lemma handle_evolves chain tz scrypt session req s :
  consistent s -> evolves s (snd (handle chain tz scrypt session req s)).
Proof.
  intros H. take_consistent H.
  set (user := deserializeUser session (tables s)).
  destruct (booking_masters user (tables s)) as (M1 & M2 & M3 & M4).
  destruct (booking_sequence user (tables s))
    as (S1 & S2 & S3 & S4 & S5 & S6 & S7 & S8).
  destruct req; cbn [handle]; fold user; try apply evolves_refl.
  - unfold lifted. cbn [snd]. rewrite get_appointment_procedures_same.
    destruct s; apply evolves_refl.
  - destruct (post_clients_tables user body now s)
      as [(T1 & T2 & T3)|(row & Hid & E)];
      destruct (post_clients user body now s) as [a s']; cbn [snd] in *.
    + unfold evolves. rewrite T1, T3.
      repeat split; try lia; apply kept_refl.
    + subst s'. unfold evolves. cbn.
      repeat split; try lia; try apply kept_refl. now apply kept_snoc.
  - unfold lifted. cbn [snd]. rewrite get_client_same.
    destruct s; apply evolves_refl.
  - unfold lifted. cbn [snd]. apply evolves_tables.
    + apply S5.
    + apply put_client_rows_kept. exact (proj1 Kc).
    + destruct (put_client_tables user id body (tables s))
        as [->|(u & existing & data & _ & _ & _ & ->)]; apply kept_refl.
    + destruct (put_client_tables user id body (tables s))
        as [->|(u & existing & data & _ & _ & _ & ->)]; apply kept_refl.
  - unfold lifted. cbn [snd]. apply evolves_tables.
    + apply S6.
    + destruct (delete_client_tables user id (tables s)) as [->|[_ ->]];
        [apply kept_refl|apply kept_filter].
    + destruct (delete_client_tables user id (tables s)) as [->|[_ ->]];
        apply kept_refl.
    + destruct (delete_client_tables user id (tables s)) as [->|[_ ->]];
        apply kept_refl.
  - destruct (post_procedures_tables user body s)
      as [(T1 & T2 & T3)|(_ & row & Hid & E)];
      destruct (post_procedures user body s) as [a s']; cbn [snd] in *.
    + unfold evolves. rewrite T1, T3.
      repeat split; try lia; apply kept_refl.
    + subst s'. unfold evolves. cbn.
      repeat split; try lia; try apply kept_refl. now apply kept_snoc.
  - unfold lifted. cbn [snd]. apply evolves_tables.
    + apply S7.
    + destruct (put_procedure_tables user id body (tables s))
        as [->|(u & existing & data & value & _ & _ & _ & _ & ->)];
        apply kept_refl.
    + apply put_procedure_rows_kept. exact (proj1 Kp).
    + destruct (put_procedure_tables user id body (tables s))
        as [->|(u & existing & data & value & _ & _ & _ & _ & ->)];
        apply kept_refl.
  - unfold lifted. cbn [snd]. apply evolves_tables.
    + apply S8.
    + destruct (delete_procedure_tables user id (tables s)) as [->|[_ ->]];
        apply kept_refl.
    + destruct (delete_procedure_tables user id (tables s)) as [->|[_ ->]];
        [apply kept_refl|apply kept_filter].
    + destruct (delete_procedure_tables user id (tables s)) as [->|[_ ->]];
        apply kept_refl.
  - unfold lifted. cbn [snd]. apply evolves_untouched.
    + apply M1.
    + apply S1.
    + apply post_appointments_rows_kept.
  - unfold lifted. cbn [snd]. apply evolves_untouched.
    + apply M2.
    + apply S2.
    + apply put_appointment_rows_kept. exact (proj1 Ka).
  - unfold lifted. cbn [snd]. apply evolves_untouched.
    + apply M3.
    + apply S3.
    + apply kept_incl. apply delete_appointment_route_removal.
  - pose proof (M4 body) as Hm. pose proof (S4 body) as Hs.
    assert (Ha : appointments (snd (post_financial_records user body
                                      (tables s)))
                 = appointments (tables s)).
    { apply (post_financial_records_keeps
               (fun d => appointments d = appointments (tables s)));
        [|reflexivity].
      intros record db H. unfold createFinancialRecord.
      storage_cases; exact H. }
    destruct (post_financial_records user body (tables s)) as [a db'].
    cbn [snd] in *. apply evolves_untouched; try assumption.
    rewrite Ha. apply kept_refl.
  - unfold lifted. cbn [snd]. rewrite get_dashboard_stats_same.
    destruct s; apply evolves_refl.
  - apply evolves_bookings. apply register_admin_bookings.
  - apply evolves_bookings. apply register_collaborator_bookings.
Qed.

Lemma serve_evolves chain tz scrypt requests :
  forall s,
    consistent s ->
    consistent (serve chain tz scrypt requests s)
    /\ evolves s (serve chain tz scrypt requests s).
Proof.
  induction requests as [|[session req] requests IH]; intros s H; cbn.
  - split; [exact H|apply evolves_refl].
  - pose proof (handle_consistent chain tz scrypt session req s H) as Hc.
    pose proof (handle_evolves chain tz scrypt session req s H) as He.
    destruct (IH _ Hc) as [Hc' He'].
    split; [exact Hc'|]. exact (evolves_trans _ _ _ He He').
Qed.

(** X16. Starting from a database that satisfies the constraints of the
    schema, no sequence of requests moves a client, a procedure or an
    appointment to another company: a row still present under its id has the
    company it had. *)
Theorem rows_never_change_company :
  forall (chain : where_chain) (tz : LocalTime)
         (scrypt : string -> string -> bytes)
         (requests : list (option Z * request)) (s : Store),
    consistent s ->
    let s' := serve chain tz scrypt requests s in
    same_tenant c_id c_companyId (clients (tables s)) (clients (tables s'))
    /\ same_tenant p_id p_companyId (procedures (tables s))
         (procedures (tables s'))
    /\ same_tenant a_id a_companyId (appointments (tables s))
         (appointments (tables s')).
Proof.
  intros chain tz scrypt requests s H s'.
  destruct (serve_evolves chain tz scrypt requests s H)
    as [_ (_ & _ & _ & E1 & E2 & E3)].
  take_consistent H.
  split; [|split]; eapply kept_same_tenant; eassumption.
Qed.

(** ** The procedures of an appointment are of its company *)

Lemma junction_bounds sc su scl sp db :
  consistent_with sc su scl sp db ->
  Forall (fun ap => ap_appointmentId ap <= seq_appointments db
                    /\ ap_procedureId ap <= sp) (appointmentProcedures db).
Proof.
  intros H. take_consistent H.
  eapply Forall_impl; [|exact Rap]. intros ap [H1 H2]. split.
  - exact (has_id_bound a_id _ _ _ (proj2 Ka) H1).
  - exact (has_id_bound p_id _ _ _ (proj2 Kp) H2).
Qed.

Lemma procedures_in_company_kept sp db db' :
  procedures_in_company db ->
  Forall (fun ap => ap_appointmentId ap <= seq_appointments db
                    /\ ap_procedureId ap <= sp) (appointmentProcedures db) ->
  kept p_id p_companyId sp (procedures db) (procedures db') ->
  kept a_id a_companyId (seq_appointments db) (appointments db)
    (appointments db') ->
  incl (appointmentProcedures db') (appointmentProcedures db) ->
  procedures_in_company db'.
Proof.
  intros Hi Hb Hp Ha Hj ap a p Hap Ha' Hp' Ea Ep.
  apply Hj in Hap. unfold kept in Hp, Ha.
  rewrite Forall_forall in Hb, Hp, Ha.
  destruct (Hb ap Hap) as [B1 B2].
  destruct (Ha a Ha') as [(a0 & Ia & Ka & Ca)|Hf]; [|lia].
  destruct (Hp p Hp') as [(p0 & Ip & Kp & Cp)|Hf]; [|lia].
  rewrite <- Ca, <- Cp. apply (Hi ap a0 p0); congruence.
Qed.

Lemma junction_rows_In next appointmentId ps ap :
  In ap (junction_rows next appointmentId ps) ->
  ap_appointmentId ap = appointmentId
  /\ exists p, In p ps /\ ap_procedureId ap = p_id p.
Proof.
  revert next. induction ps as [|p ps IH]; intros next; cbn; [intros []|].
  intros [<-|H].
  - split; [reflexivity|]. exists p. split; [now left|reflexivity].
  - destruct (IH _ H) as [H1 (q & Hq & H2)].
    split; [exact H1|]. exists q. split; [now right|exact H2].
Qed.

Lemma post_appointments_in_company sc su scl sp user body db :
  consistent_with sc su scl sp db ->
  procedures_in_company db ->
  procedures_in_company (snd (post_appointments user body db)).
Proof.
  intros H Hi. pose proof (junction_bounds _ _ _ _ _ H) as Hb.
  take_consistent H.
  destruct user as [user|]; [|exact Hi].
  destruct (post_appointments_cases user body db)
    as [((_ & _ & _ & Ep) & Ea & Ej & _)|H201].
  - intros ap a p. rewrite Ep, Ea, Ej. apply Hi.
  - destruct (post_appointments (Some user) body db) as [r db'] eqn:E.
    destruct (post_appointments_201_rows _ _ _ _ _ E H201)
      as (a0 & valid & f & _ & _ & Hg & Hown & Hid & Hco & Happ & Hj & _ & _
          & (_ & _ & _ & Hp)).
    cbn [snd]. intros ap a p. rewrite Happ, Hj, Hp.
    rewrite Forall_forall in Hb, Hg, Hown.
    intros Iap Ia Ip Ea Ep.
    apply in_app_or in Iap. apply in_app_or in Ia.
    destruct Iap as [Iap|Iap].
    + destruct (Hb ap Iap) as [B1 B2].
      destruct Ia as [Ia|[<-|[]]]; [|lia].
      now apply (Hi ap a p).
    + destruct (junction_rows_In _ _ _ _ Iap) as [J1 (q & Iq & J2)].
      destruct Ia as [Ia|[<-|[]]].
      * pose proof (proj2 Ka) as Kb. rewrite Forall_forall in Kb.
        specialize (Kb a Ia). cbv beta in Kb. lia.
      * assert (p = q).
        { apply (find_unique p_id (procedures db) (p_id q) q p (proj1 Kp));
            [exact (Hg q Iq)|exact Ip|congruence]. }
        subst p. specialize (Hown q Iq). cbv beta in Hown. congruence.
Qed.

Lemma put_appointment_in_company sc su scl sp user id body now db :
  consistent_with sc su scl sp db ->
  procedures_in_company db ->
  procedures_in_company (snd (put_appointment user id body now db)).
Proof.
  intros H Hi. take_consistent H.
  destruct (booking_masters user db) as (_ & M2 & _).
  specialize (M2 id body now). destruct M2 as (_ & _ & _ & Hp).
  destruct (put_appointment_rows user id body now db)
    as [->|(u & existing & valid & data & _ & G & Hc & Hg & Hown & Hco
            & Happ & Hj)]; [exact Hi|].
  intros ap a p. rewrite Happ, Hj, Hp.
  rewrite Forall_forall in Hg, Hown.
  cbn [appointment_updated appointments logged with_appointments].
  intros Iap Ia Ip Ea Ep.
  apply in_map_iff in Ia. destruct Ia as (x & Ex & Ix).
  apply in_app_or in Iap. destruct Iap as [Iap|Iap].
  - apply filter_In in Iap. destruct Iap as [Iap Hne].
    apply negb_true_iff in Hne.
    assert (Hx : a_id x = a_id a).
    { subst a. destruct (a_id x =? id); reflexivity. }
    rewrite Ea, <- Hx in Hne. rewrite Hne in Ex. subst x.
    now apply (Hi ap a p).
  - destruct (junction_rows_In _ _ _ _ Iap) as [J1 (q & Iq & J2)].
    assert (Hx : a_id x = id).
    { rewrite <- J1, Ea. subst a. destruct (a_id x =? id); reflexivity. }
    apply Z.eqb_eq in Hx. rewrite Hx in Ex. subst a. cbn.
    assert (p = q).
    { apply (find_unique p_id (procedures db) (p_id q) q p (proj1 Kp));
        [exact (Hg q Iq)|exact Ip|congruence]. }
    subst p. specialize (Hown q Iq). cbv beta in Hown. congruence.
Qed.

Lemma handle_junction chain tz scrypt session req s :
  match req with
  | PostAppointments _ | PutAppointment _ _ _ => True
  | _ =>
    incl (appointmentProcedures
            (tables (snd (handle chain tz scrypt session req s))))
      (appointmentProcedures (tables s))
  end.
Proof.
  set (user := deserializeUser session (tables s)).
  destruct req; cbn [handle]; fold user; try exact I; try apply incl_refl.
  - unfold lifted. cbn [snd tables with_tables].
    rewrite get_appointment_procedures_same. apply incl_refl.
  - destruct (post_clients_tables user body now s)
      as [(T1 & _)|(row & _ & E)];
      destruct (post_clients user body now s) as [a s']; cbn [snd] in *.
    + rewrite T1. apply incl_refl.
    + subst s'. apply incl_refl.
  - unfold lifted. cbn [snd tables with_tables].
    rewrite get_client_same. apply incl_refl.
  - unfold lifted. cbn [snd tables with_tables].
    destruct (put_client_tables user id body (tables s))
      as [->|(u & existing & data & _ & _ & _ & ->)]; apply incl_refl.
  - unfold lifted. cbn [snd tables with_tables].
    destruct (delete_client_tables user id (tables s)) as [->|[_ ->]];
      apply incl_refl.
  - destruct (post_procedures_tables user body s)
      as [(T1 & _)|(_ & row & _ & E)];
      destruct (post_procedures user body s) as [a s']; cbn [snd] in *.
    + rewrite T1. apply incl_refl.
    + subst s'. apply incl_refl.
  - unfold lifted. cbn [snd tables with_tables].
    destruct (put_procedure_tables user id body (tables s))
      as [->|(u & existing & data & value & _ & _ & _ & _ & ->)];
      apply incl_refl.
  - unfold lifted. cbn [snd tables with_tables].
    destruct (delete_procedure_tables user id (tables s)) as [->|[_ ->]];
      apply incl_refl.
  - unfold lifted. cbn [snd tables with_tables].
    apply delete_appointment_route_removal.
  - assert (Ha : appointmentProcedures
                   (snd (post_financial_records user body (tables s)))
                 = appointmentProcedures (tables s)).
    { apply (post_financial_records_keeps
               (fun d => appointmentProcedures d
                         = appointmentProcedures (tables s)));
        [|reflexivity].
      intros record db H. unfold createFinancialRecord.
      storage_cases; exact H. }
    destruct (post_financial_records user body (tables s)) as [a db'].
    cbn [snd tables with_tables] in *. rewrite Ha. apply incl_refl.
  - unfold lifted. cbn [snd tables with_tables].
    rewrite get_dashboard_stats_same. apply incl_refl.
  - match goal with
    | |- context [register_admin ?a ?b ?c ?d ?e s] =>
      destruct (register_admin_bookings a b c d e s)
        as (_ & _ & _ & _ & _ & _ & ->)
    end. apply incl_refl.
  - match goal with
    | |- context [register_collaborator ?a ?b ?c ?d s] =>
      destruct (register_collaborator_bookings a b c d s)
        as (_ & _ & _ & _ & _ & _ & ->)
    end. apply incl_refl.
Qed.

Lemma handle_in_company chain tz scrypt session req s :
  consistent s ->
  procedures_in_company (tables s) ->
  procedures_in_company (tables (snd (handle chain tz scrypt session req s))).
Proof.
  intros H Hi.
  pose proof (handle_evolves chain tz scrypt session req s H)
    as (_ & _ & _ & _ & E2 & E3).
  pose proof (handle_junction chain tz scrypt session req s) as Hj.
  pose proof (junction_bounds _ _ _ _ _ H) as Hb.
  destruct req;
    try exact (procedures_in_company_kept _ _ _ Hi Hb E2 E3 Hj).
  - cbn [handle]. unfold lifted. cbn [snd tables with_tables].
    eapply post_appointments_in_company; eassumption.
  - cbn [handle]. unfold lifted. cbn [snd tables with_tables].
    eapply put_appointment_in_company; eassumption.
Qed.

(** X17. Starting from a database that satisfies the constraints of the
    schema and in which every procedure linked to an appointment belongs to
    the company of the appointment, every sequence of requests leads to a
    database in which this still holds. *)
Theorem linked_procedures_stay_in_company :
  forall (chain : where_chain) (tz : LocalTime)
         (scrypt : string -> string -> bytes)
         (requests : list (option Z * request)) (s : Store),
    consistent s ->
    procedures_in_company (tables s) ->
    procedures_in_company (tables (serve chain tz scrypt requests s)).
Proof.
  intros chain tz scrypt requests.
  induction requests as [|[session req] requests IH]; intros s H Hi; cbn.
  - exact Hi.
  - apply IH.
    + now apply handle_consistent.
    + now apply handle_in_company.
Qed.

(** ** What only an administrator does *)

Lemma admin_routes_forbidden user :
  (forall u, user = Some u -> is_admin u = false) ->
  (forall id db, delete_client user id db = (admin_required, db))
  /\ (forall body s, post_procedures user body s = (basic admin_required, s))
  /\ (forall id body db,
        put_procedure user id body db = (admin_required, db))
  /\ (forall id db, delete_procedure user id db = (admin_required, db))
  /\ (forall body db,
        post_financial_records user body db = (basic admin_required, db)).
Proof.
  intros H. destruct user as [u|].
  - specialize (H u eq_refl).
    unfold delete_client, post_procedures, put_procedure, delete_procedure,
      post_financial_records.
    rewrite H. cbn [negb]. repeat split.
  - repeat split.
Qed.

Lemma ids_stay_map {A : Type} (key : A -> Z) (f : A -> A) (l : list A) c :
  (forall x, key (f x) = key x) ->
  In c l -> has_id key (key c) (map f l) = true.
Proof.
  intros Hk Hc. apply has_id_In. exists (f c).
  split; [now apply in_map|apply Hk].
Qed.

Lemma ids_stay_refl {A : Type} (key : A -> Z) (l : list A) c :
  In c l -> has_id key (key c) l = true.
Proof. intros Hc. apply has_id_In. now exists c. Qed.

(** X18. A request in a session that is not an admin's (or in no session) to
    DELETE /api/clients/:id, to POST, PUT or DELETE a procedure or to POST
    /api/financial-records is answered 403 and changes nothing; whatever the
    request, such a session leaves the procedures table as it was and every
    client in place. *)
Theorem admin_only_writes :
  forall (chain : where_chain) (tz : LocalTime)
         (scrypt : string -> string -> bytes)
         (session : option Z) (req : request) (s : Store),
    not_admin session (tables s) ->
    let out := handle chain tz scrypt session req s in
    (admin_route req = true -> out = ((basic admin_required, Keep), s))
    /\ procedures (tables (snd out)) = procedures (tables s)
    /\ (forall c, In c (clients (tables s)) ->
                  has_id c_id (c_id c) (clients (tables (snd out))) = true).
Proof.
  intros chain tz scrypt session req s Hn out. subst out.
  unfold not_admin in Hn.
  set (user := deserializeUser session (tables s)) in *.
  destruct (admin_routes_forbidden user Hn) as (F1 & F2 & F3 & F4 & F5).
  destruct (booking_masters user (tables s)) as (M1 & M2 & M3 & _).
  destruct req; cbn [handle admin_route]; fold user;
    try (split; [discriminate|]);
    try (split; [reflexivity|intros c; apply ids_stay_refl]).
  - unfold lifted. cbn [snd tables with_tables].
    rewrite get_appointment_procedures_same.
    split; [reflexivity|intros c; apply ids_stay_refl].
  - destruct (post_clients_tables user body now s)
      as [(T1 & _)|(row & _ & E)];
      destruct (post_clients user body now s) as [a s']; cbn [snd] in *.
    + rewrite T1. split; [reflexivity|intros c; apply ids_stay_refl].
    + subst s'. cbn. split; [reflexivity|]. intros c Hc.
      apply ids_stay_refl. apply in_or_app. now left.
  - unfold lifted. cbn [snd tables with_tables]. rewrite get_client_same.
    split; [reflexivity|intros c; apply ids_stay_refl].
  - unfold lifted. cbn [snd tables with_tables].
    destruct (put_client_tables user id body (tables s))
      as [->|(u & existing & data & _ & _ & _ & ->)].
    + split; [reflexivity|intros c; apply ids_stay_refl].
    + cbn. split; [reflexivity|]. intros c.
      apply (ids_stay_map c_id). intros x. now destruct (c_id x =? id).
  - rewrite F1. unfold lifted. cbn. destruct s.
    split; [reflexivity|].
    split; [reflexivity|intros c; apply ids_stay_refl].
  - rewrite F2.
    split; [reflexivity|].
    split; [reflexivity|intros c; apply ids_stay_refl].
  - rewrite F3. unfold lifted. cbn. destruct s.
    split; [reflexivity|].
    split; [reflexivity|intros c; apply ids_stay_refl].
  - rewrite F4. unfold lifted. cbn. destruct s.
    split; [reflexivity|].
    split; [reflexivity|intros c; apply ids_stay_refl].
  - unfold lifted. cbn [snd tables with_tables].
    destruct (M1 body) as (_ & _ & -> & ->).
    split; [reflexivity|intros c; apply ids_stay_refl].
  - unfold lifted. cbn [snd tables with_tables].
    destruct (M2 id body now) as (_ & _ & -> & ->).
    split; [reflexivity|intros c; apply ids_stay_refl].
  - unfold lifted. cbn [snd tables with_tables].
    destruct (M3 id) as (_ & _ & -> & ->).
    split; [reflexivity|intros c; apply ids_stay_refl].
  - rewrite F5. cbn. destruct s.
    split; [reflexivity|].
    split; [reflexivity|intros c; apply ids_stay_refl].
  - unfold lifted. cbn [snd tables with_tables].
    rewrite get_dashboard_stats_same.
    split; [reflexivity|intros c; apply ids_stay_refl].
  - match goal with
    | |- context [register_admin ?a ?b ?c ?d ?e s] =>
      destruct (register_admin_bookings a b c d e s)
        as (_ & _ & _ & -> & -> & _)
    end. split; [reflexivity|intros c; apply ids_stay_refl].
  - match goal with
    | |- context [register_collaborator ?a ?b ?c ?d s] =>
      destruct (register_collaborator_bookings a b c d s)
        as (_ & _ & _ & -> & -> & _)
    end. split; [reflexivity|intros c; apply ids_stay_refl].
Qed.

(** * The claims on amounts and on the dashboard *)

(** ** The stored text of an amount in cents *)

Lemma dec_of_cents s t :
  0 <= s -> -2 <= t ->
  parseFloat (dec_of false s t) = parseFloat (Dec false (s * 10 ^ (t + 2)) 2)
  /\ same_decimal (dec_of false s t) (Dec false (s * 10 ^ (t + 2)) 2).
Proof.
  intros Hs Ht. unfold dec_of, parseFloat, same_decimal, signed.
  pose proof unit_den_pos as HU.
  destruct (Z.le_gt_cases 0 t) as [H0|H0].
  - replace (Z.max t 0) with t by lia.
    replace (Z.max (- t) 0) with 0 by lia.
    rewrite Z.pow_add_r by lia. change (10 ^ 2) with 100.
    change (10 ^ 0) with 1. split; [|ring].
    assert (0 < 10 ^ t) by (apply Z.pow_pos_nonneg; lia).
    replace (s * (10 ^ t * 100) * unit_den)
      with (s * 10 ^ t * unit_den * 100) by ring.
    change 100 with (1 * 100) at 2.
    now rewrite of_ratio_scale by lia.
  - assert (t = -1 \/ t = -2) as [->| ->] by lia; cbn.
    + split; [|ring].
      replace (s * 1 * unit_den) with (s * unit_den) by ring.
      replace (s * 10 * unit_den) with (s * unit_den * 10) by ring.
      change 100 with (10 * 10). change (10 ^ 1) with 10.
      now rewrite of_ratio_scale by lia.
    + rewrite !Z.mul_1_r. split; reflexivity.
Qed.

Lemma dec_exponent_spec fuel : forall n a,
  let m := dec_exponent fuel n a in
  n <= m <= n + Z.of_nat fuel
  /\ (forall j, n <= j < m ->
        (a * 10 ^ Z.max (- j) 0 <? 10 ^ Z.max j 0 * unit_den) = false)
  /\ ((a * 10 ^ Z.max (- m) 0 <? 10 ^ Z.max m 0 * unit_den) = true
      \/ m = n + Z.of_nat fuel).
Proof.
  induction fuel as [|fuel IH]; intros n a; cbn [dec_exponent].
  - cbn. split; [lia|]. split; [intros j Hj; lia|right; lia].
  - destruct (a * 10 ^ Z.max (- n) 0 <? 10 ^ Z.max n 0 * unit_den) eqn:E.
    + cbv zeta. split; [lia|]. split; [intros j Hj; lia|now left].
    + specialize (IH (n + 1) a). cbv zeta in IH |- *.
      destruct IH as (Hr & Hb & He).
      split; [lia|]. split.
      * intros j Hj. destruct (Z.eq_dec j n) as [->|Hn]; [exact E|].
        apply Hb. lia.
      * destruct He as [He|He]; [now left|right; lia].
Qed.

Lemma shortest_cents_shape fuel : forall k n a c,
  0 < a -> 1 <= k <= n + 2 -> n + 3 - k <= Z.of_nat fuel ->
  parseFloat (Dec false c 2) = Fin a ->
  c = a * 100 / unit_den \/ c = a * 100 / unit_den + 1 ->
  10 ^ (n + 1) * unit_den <= 100 * a ->
  exists s t,
    shortest fuel k n a = dec_of false s t
    /\ -2 <= t /\ 0 <= s
    /\ s * 10 ^ (t + 2) * unit_den <= 200 * a.
Proof.
  pose proof unit_den_pos as HU.
  induction fuel as [|fuel IH]; intros k n a c Ha Hk Hf Hc Hnear Hn.
  - cbn in Hf. lia.
  - cbn [shortest].
    set (t := n - k).
    assert (Ht : -2 <= t <= n - 1) by (unfold t; lia).
    set (num := a * 10 ^ Z.max (- t) 0).
    set (den := unit_den * 10 ^ Z.max t 0).
    set (lo := num / den).
    assert (Hden : 0 < den).
    { unfold den. apply Z.mul_pos_pos; [lia|]. apply Z.pow_pos_nonneg; lia. }
    assert (Hnum : 0 <= num).
    { unfold num. apply Z.mul_nonneg_nonneg; [lia|]. apply Z.pow_nonneg. lia. }
    assert (Hlo0 : 0 <= lo) by (apply Z.div_pos; lia).
    assert (Hlo : lo * 10 ^ (t + 2) * unit_den <= 100 * a).
    { pose proof (Z.mul_div_le num den Hden) as Hm. fold lo in Hm.
      unfold num, den in Hm. clearbody lo. clearbody t.
      destruct (Z.le_gt_cases 0 t) as [H0|H0].
      - replace (Z.max t 0) with t in Hm by lia.
        replace (Z.max (- t) 0) with 0 in Hm by lia.
        rewrite Z.pow_add_r by lia. change (10 ^ 2) with 100.
        change (10 ^ 0) with 1 in Hm.
        replace (lo * (10 ^ t * 100) * unit_den)
          with (100 * (unit_den * 10 ^ t * lo)) by ring.
        lia.
      - assert (t = -1 \/ t = -2) as [E|E] by lia; rewrite E in *;
          cbn in Hm.
        + change (10 ^ (-1 + 2)) with 10. lia.
        + change (10 ^ (-2 + 2)) with 1. lia. }
    assert (Hstep : 10 ^ (t + 2) * unit_den <= 100 * a).
    { eapply Z.le_trans; [|exact Hn].
      apply Z.mul_le_mono_nonneg_r; [lia|].
      apply Z.pow_le_mono_r; lia. }
    assert (Hhi : (lo + 1) * 10 ^ (t + 2) * unit_den <= 200 * a)
      by (clearbody lo; clearbody t; lia).
    set (oklo := match parseFloat (dec_of false lo t) with
                 | Fin z => z =? a | _ => false end).
    set (okhi := match parseFloat (dec_of false (lo + 1) t) with
                 | Fin z => z =? a | _ => false end).
    assert (Shi : exists s' t',
               (if lo + 1 =? 10 ^ k then dec_of false ((lo + 1) / 10) (t + 1)
                else dec_of false (lo + 1) t) = dec_of false s' t'
               /\ -2 <= t' /\ 0 <= s'
               /\ s' * 10 ^ (t' + 2) * unit_den <= 200 * a).
    { destruct (Z.eqb_spec (lo + 1) (10 ^ k)) as [E|E].
      - exists ((lo + 1) / 10), (t + 1).
        split; [reflexivity|]. split; [lia|].
        split; [apply Z.div_pos; lia|].
        assert (Ek : 10 ^ k = 10 ^ (k - 1) * 10).
        { replace k with (Z.succ (k - 1)) at 1 by lia.
          rewrite Z.pow_succ_r by lia. ring. }
        rewrite E, Ek, Z.div_mul by lia.
        replace (t + 1 + 2) with (Z.succ (t + 2)) by lia.
        rewrite Z.pow_succ_r by lia.
        rewrite E, Ek in Hhi. nia.
      - exists (lo + 1), t. repeat split; try lia. }
    assert (Slo : exists s' t',
               dec_of false lo t = dec_of false s' t'
               /\ -2 <= t' /\ 0 <= s'
               /\ s' * 10 ^ (t' + 2) * unit_den <= 200 * a).
    { exists lo, t. repeat split; try lia. }
    destruct oklo eqn:Olo, okhi eqn:Ohi.
    + destruct (_ ?= _); [destruct (Z.even lo)| |]; assumption.
    + assumption.
    + assumption.
    + destruct (Z.eq_dec k (n + 2)) as [Ek|Ek].
      * exfalso.
        assert (Et : t = -2) by (unfold t; lia).
        assert (El : lo = a * 100 / unit_den).
        { unfold lo, num, den. rewrite Et. cbn.
          now rewrite Z.mul_1_r. }
        assert (Hread : forall s, s = c ->
                   match parseFloat (dec_of false s t) with
                   | Fin z => z =? a | _ => false end = true).
        { intros s ->. rewrite Et. unfold dec_of. cbn.
          rewrite Z.mul_1_r, Hc. apply Z.eqb_refl. }
        destruct Hnear as [E|E].
        -- unfold oklo in Olo. rewrite Hread in Olo; [discriminate|].
           now rewrite El.
        -- unfold okhi in Ohi. rewrite Hread in Ohi; [discriminate|].
           now rewrite El.
      * apply (IH (k + 1) n a c); try assumption; lia.
Qed.

Lemma parse_cents_representable c K :
  0 <= c -> 0 <= K < 1000 -> c <= 100 * 2 ^ K ->
  forall a, parseFloat (Dec false c 2) = Fin a -> representable a.
Proof.
  intros HC HK Hle a Ea.
  pose proof unit_den_pos as HU.
  destruct (scale_facts K ltac:(lia)) as (H2K & HP & EJ & EW & EP).
  assert (Ha0 : 0 <= c * unit_den) by (apply Z.mul_nonneg_nonneg; lia).
  assert (Ha : c * unit_den <= 10 ^ 2 * 2 ^ (K + 1074)).
  { rewrite EJ. change (10 ^ 2) with 100.
    assert (c * unit_den <= 100 * 2 ^ K * unit_den)
      by (apply Z.mul_le_mono_nonneg_r; lia).
    lia. }
  assert (Hd : 0 < 10 ^ 2) by reflexivity.
  assert (HJ : 53 <= K + 1074 < 2098) by lia.
  unfold parseFloat in Ea.
  rewrite (of_ratio_Fin _ _ (K + 1074) Ha0 Hd HJ Ha) in Ea.
  injection Ea as <-.
  now apply (round53_representable _ _ (K + 1074)).
Qed.

(** The text stored for an amount of cents is a text of that amount. *)
Lemma toString_cents c K :
  0 <= c -> 0 <= K <= 45 -> c <= 50 * 2 ^ K ->
  same_decimal (toString (parseFloat (Dec false c 2))) (Dec false c 2).
Proof.
  intros Hc HK Hle.
  pose proof unit_den_pos as HU.
  destruct (Z.eq_dec c 0) as [->|Hc0]; [vm_compute; reflexivity|].
  destruct (Z.eq_dec c 1) as [->|Hc1]; [vm_compute; reflexivity|].
  destruct (scale_facts K ltac:(lia)) as (H2K & HP & EJ & EW & EP).
  destruct (parse_cents c K) as (a & Ea & Ha & Herr); try lia.
  pose proof (parse_cents_representable c K Hc ltac:(lia) ltac:(lia) a Ea)
    as Hrep.
  assert (HV : 2 ^ (K + 1021) <= 2 ^ 1066) by (apply Z.pow_le_mono_r; lia).
  assert (EU : unit_den = 256 * 2 ^ 1066).
  { rewrite unit_den_eq. change 1074 with (8 + 1066).
    rewrite Z.pow_add_r by lia. reflexivity. }
  assert (HW : 0 < 2 ^ 1066) by (apply Z.pow_pos_nonneg; lia).
  assert (HK45 : 2 ^ K <= 2 ^ 45) by (apply Z.pow_le_mono_r; lia).
  change (2 ^ 45) with 35184372088832 in HK45.
  remember (2 ^ 1066) as W eqn:EW'.
  remember (2 ^ (K + 1021)) as V eqn:EV.
  remember (2 ^ K) as T eqn:ET.
  assert (HcU : 2 * unit_den <= c * unit_den)
    by (apply Z.mul_le_mono_nonneg_r; lia).
  assert (Ha1 : unit_den <= 100 * a) by lia.
  assert (Hapos : 0 < a) by lia.
  assert (Hnear : c = a * 100 / unit_den \/ c = a * 100 / unit_den + 1).
  { destruct (Z.le_gt_cases (c * unit_den) (a * 100)) as [Hge|Hlt].
    - left. apply Z.div_unique with (a * 100 - c * unit_den); lia.
    - right.
      assert (a * 100 / unit_den = c - 1); [|lia].
      symmetry.
      apply Z.div_unique with (a * 100 - (c - 1) * unit_den); lia. }
  assert (Hinj : forall c', 0 <= c' -> c' * unit_den <= 200 * a ->
                   parseFloat (Dec false c' 2) = Fin a -> c' = c).
  { intros c' Hc' Hb E'.
    assert (Hc2 : c' <= 2 * c).
    { assert (c' * unit_den < (2 * c + 1) * unit_den) by lia.
      assert (c' < 2 * c + 1) by (apply Z.mul_lt_mono_pos_r with unit_den; lia).
      lia. }
    destruct (parse_cents c' K) as (a' & Ea' & _ & Herr'); try lia.
    rewrite E' in Ea'. injection Ea' as <-. rewrite <- EV in Herr'.
    assert (Hd : - unit_den < (c' - c) * unit_den < unit_den) by lia.
    assert (-1 < c' - c < 1); [|lia].
    split; apply Z.mul_lt_mono_pos_r with unit_den; lia. }
  rewrite Ea. unfold toString.
  destruct (Z.eqb_spec a 0) as [Ez|Ez]; [lia|].
  destruct (Z.ltb_spec a 0) as [El|El]; [lia|].
  rewrite Z.abs_eq by lia.
  destruct (dec_exponent_spec 640 (-324) a) as (Hr & Hb & He).
  cbv zeta in Hr, Hb, He.
  set (n := dec_exponent 640 (-324) a) in *.
  assert (Hn1 : -1 <= n).
  { destruct (Z.le_gt_cases (-1) n) as [|Hlt]; [assumption|exfalso].
    destruct He as [He|He]; [|lia].
    apply Z.ltb_lt in He.
    replace (Z.max n 0) with 0 in He by lia.
    replace (Z.max (- n) 0) with (- n) in He by lia.
    change (10 ^ 0) with 1 in He.
    assert (10 ^ 2 <= 10 ^ (- n)) by (apply Z.pow_le_mono_r; lia).
    change (10 ^ 2) with 100 in *.
    assert (a * 100 <= a * 10 ^ (- n)) by (apply Z.mul_le_mono_nonneg_l; lia).
    lia. }
  assert (Hn2 : n <= 15).
  { destruct (Z.le_gt_cases n 15) as [|Hgt]; [assumption|exfalso].
    specialize (Hb 15 ltac:(lia)). apply Z.ltb_ge in Hb.
    replace (Z.max (- (15)) 0) with 0 in Hb by reflexivity.
    change (Z.max 15 0) with 15 in Hb.
    change (10 ^ 0) with 1 in Hb. change (10 ^ 15) with 1000000000000000 in Hb.
    assert (T * unit_den <= 35184372088832 * unit_den)
      by (apply Z.mul_le_mono_nonneg_r; lia).
    lia. }
  assert (Hlow : 10 ^ (n + 1) * unit_den <= 100 * a).
  { specialize (Hb (n - 1) ltac:(lia)). apply Z.ltb_ge in Hb.
    clear He. clearbody n.
    destruct (Z.le_gt_cases 1 n) as [H1|H1].
    - replace (Z.max (- (n - 1)) 0) with 0 in Hb by lia.
      replace (Z.max (n - 1) 0) with (n - 1) in Hb by lia.
      change (10 ^ 0) with 1 in Hb.
      replace (n + 1) with (n - 1 + 2) by lia.
      rewrite Z.pow_add_r by lia. change (10 ^ 2) with 100.
      replace (10 ^ (n - 1) * 100 * unit_den)
        with (100 * (10 ^ (n - 1) * unit_den)) by ring.
      rewrite Z.mul_1_r in Hb.
      apply Z.mul_le_mono_nonneg_l; [discriminate|exact Hb].
    - assert (n = 0 \/ n = -1) as [E|E] by lia; rewrite E in Hb |- *.
      + change (10 ^ Z.max (- (0 - 1)) 0) with 10 in Hb.
        change (10 ^ Z.max (0 - 1) 0) with 1 in Hb.
        change (10 ^ (0 + 1)) with 10. lia.
      + change (10 ^ Z.max (- (-1 - 1)) 0) with 100 in Hb.
        change (10 ^ Z.max (-1 - 1) 0) with 1 in Hb.
        change (10 ^ (-1 + 1)) with 1. lia. }
  assert (Hk : 1 <= 1 <= n + 2) by (clearbody n; lia).
  assert (Hfuel : n + 3 - 1 <= Z.of_nat 17)
    by (clearbody n; change (Z.of_nat 17) with 17; lia).
  destruct (shortest_cents_shape 17 1 n a c Hapos Hk Hfuel Ea Hnear Hlow)
    as (s & t & Es & Ht & Hs & Hbound).
  pose proof (shortest_reads_back 17 1 n a Hapos Hrep ltac:(lia)) as Hread.
  rewrite Es in Hread |- *.
  destruct (dec_of_cents s t Hs Ht) as [Ep Esame].
  rewrite Ep in Hread.
  assert (Hpow : 0 <= s * 10 ^ (t + 2)).
  { apply Z.mul_nonneg_nonneg; [lia|]. apply Z.pow_nonneg. lia. }
  rewrite (Hinj (s * 10 ^ (t + 2)) Hpow Hbound Hread) in Esame.
  exact Esame.
Qed.

(** ** Prices with at most two decimals *)

Lemma cent_price_scale t :
  cent_price t ->
  exists d s, t = Dec false d s /\ 0 <= d /\ (s = 0 \/ s = 1 \/ s = 2).
Proof.
  destruct t as [| |[|] d s]; cbn; try contradiction.
  intros [Hd Hs]. exists d, s. split; [reflexivity|]. split; [exact Hd|lia].
Qed.

Lemma cents_of_nonneg t : cent_price t -> 0 <= cents_of t.
Proof.
  intros H. destruct (cent_price_scale t H) as (d & s & -> & Hd & Hs).
  destruct Hs as [-> | [-> | ->]]; cbn; lia.
Qed.

Lemma parseFloat_cent_price t :
  cent_price t -> parseFloat t = parseFloat (Dec false (cents_of t) 2).
Proof.
  intros H. destruct (cent_price_scale t H) as (d & s & -> & Hd & Hs).
  pose proof unit_den_pos as HU.
  unfold parseFloat, cents_of.
  destruct Hs as [-> | [-> | ->]].
  - change (10 ^ (2 - 0)) with 100. change (10 ^ 0) with 1.
    change (10 ^ 2) with (1 * 100).
    replace (d * 100 * unit_den) with (d * unit_den * 100) by ring.
    now rewrite of_ratio_scale by lia.
  - change (10 ^ (2 - 1)) with 10. change (10 ^ 1) with 10.
    change (10 ^ 2) with (10 * 10).
    replace (d * 10 * unit_den) with (d * unit_den * 10) by ring.
    now rewrite of_ratio_scale by lia.
  - change (10 ^ (2 - 2)) with 1. now rewrite Z.mul_1_r.
Qed.

Lemma same_decimal_cent_price t :
  cent_price t -> same_decimal t (Dec false (cents_of t) 2).
Proof.
  intros H. destruct (cent_price_scale t H) as (d & s & -> & Hd & Hs).
  unfold same_decimal, signed, cents_of.
  destruct Hs as [-> | [-> | ->]]; cbn; lia.
Qed.

Lemma same_decimal_through x y c :
  same_decimal x (Dec false c 2) -> same_decimal y (Dec false c 2) ->
  same_decimal x y.
Proof.
  destruct x as [| |n1 d1 s1]; cbn; try contradiction.
  destruct y as [| |n2 d2 s2]; cbn; try contradiction.
  change (10 ^ 2) with 100. intros H1 H2.
  apply Z.mul_reg_r with 100; [lia|].
  replace (signed n1 d1 * 10 ^ s2 * 100)
    with (signed n1 d1 * 100 * 10 ^ s2) by ring.
  replace (signed n2 d2 * 10 ^ s1 * 100)
    with (signed n2 d2 * 100 * 10 ^ s1) by ring.
  rewrite H1, H2. ring.
Qed.

Lemma decimal_add_cent_price x y :
  cent_price x -> cent_price y ->
  cent_price (decimal_add x y)
  /\ cents_of (decimal_add x y) = cents_of x + cents_of y.
Proof.
  intros Hx Hy.
  destruct (cent_price_scale x Hx) as (d1 & s1 & -> & Hd1 & Hs1).
  destruct (cent_price_scale y Hy) as (d2 & s2 & -> & Hd2 & Hs2).
  unfold decimal_add, signed.
  destruct Hs1 as [-> | [-> | ->]]; destruct Hs2 as [-> | [-> | ->]]; cbn;
    match goal with
    | |- context [?v <? 0] =>
      destruct (Z.ltb_spec v 0); [lia|]; rewrite Z.abs_eq by lia
    end; cbn; (split; [lia|lia]).
Qed.

Lemma decimal_sum_cent_prices ps :
  Forall cent_priced ps ->
  forall acc,
    cent_price acc ->
    cent_price (fold_left decimal_add (map p_value ps) acc)
    /\ cents_of (fold_left decimal_add (map p_value ps) acc)
       = cents_of acc + sum_in_cents ps.
Proof.
  induction 1 as [|p ps Hp _ IH]; intros acc Hacc; cbn [map fold_left].
  - cbn. split; [exact Hacc|lia].
  - destruct (decimal_add_cent_price acc (p_value p) Hacc Hp) as [Hc Hv].
    destruct (IH _ Hc) as [Hc' Hv'].
    split; [exact Hc'|]. rewrite Hv', Hv.
    change (sum_in_cents (p :: ps))
      with (cents_of (p_value p) + sum_in_cents ps).
    lia.
Qed.

(** The exact decimal sum of such prices is their total in cents. *)
Lemma decimal_sum_in_cents ps :
  Forall cent_priced ps ->
  same_decimal (decimal_sum (map p_value ps)) (Dec false (sum_in_cents ps) 2).
Proof.
  intros H. unfold decimal_sum.
  destruct (decimal_sum_cent_prices ps H (Dec false 0 0)) as [Hc Hv].
  { cbn. lia. }
  cbn [cents_of] in Hv. rewrite Z.mul_0_l, Z.add_0_l in Hv.
  rewrite <- Hv. now apply same_decimal_cent_price.
Qed.

Lemma sum_in_cents_nonneg ps : Forall cent_priced ps -> 0 <= sum_in_cents ps.
Proof.
  induction 1 as [|p ps Hp _ IH]; cbn; [lia|].
  pose proof (cents_of_nonneg _ Hp). fold (sum_in_cents ps). lia.
Qed.

Lemma in_cents_sum ps :
  Forall cent_priced ps ->
  Forall two_decimals (map in_cents ps)
  /\ total_cents (map in_cents ps) = sum_in_cents ps
  /\ forall start, sum_prices (map in_cents ps) start = sum_prices ps start.
Proof.
  induction 1 as [|p ps Hp _ (IH1 & IH2 & IH3)]; cbn [map].
  - repeat split. constructor.
  - split; [|split].
    + constructor; [|exact IH1].
      exists (cents_of (p_value p)). split; [reflexivity|].
      now apply cents_of_nonneg.
    + unfold total_cents, sum_in_cents in *. cbn [fold_right].
      rewrite IH2. reflexivity.
    + intros start. unfold sum_prices in *. cbn [fold_left in_cents p_value].
      rewrite <- (parseFloat_cent_price _ Hp). apply IH3.
Qed.

(** The text [total.toFixed(2)] is the exact sum of the prices. *)
Lemma value_text_exact_cents K ps :
  0 <= K ->
  200 * Z.of_nat (List.length ps) * 2 ^ K < 2 ^ 53 ->
  Forall cent_priced ps ->
  sum_in_cents ps <= 50 * 2 ^ K ->
  toFixed2 (sum_prices ps (Fin 0)) = Dec false (sum_in_cents ps) 2.
Proof.
  intros HK Hn Hps Htot.
  destruct (in_cents_sum ps Hps) as (H2 & Et & Es).
  rewrite <- Es, <- Et.
  apply (value_text_exact K); [exact HK| |exact H2|].
  - now rewrite length_map.
  - now rewrite Et.
Qed.

(** C1, as the code has it.  A created appointment has as value
    [String(parseFloat(total.toFixed(2)))], [total] being the binary64 sum
    of the parsed prices, and the income record linked to it carries the
    same value.  When the prices are not negative and have at most two
    digits after the point, and for some [K] the procedures are [n] with
    [200 * n * 2^K < 2^53] and their total is at most [2^K / 2], the text
    [total.toFixed(2)] is the exact sum of the prices with two decimals,
    and the value stored in the appointment and in the income record is a
    decimal text of that same sum. *)
Theorem created_value_sums_cent_prices :
  forall (user : User) (body : AppointmentBody) (db db' : DB) (r : response)
         (K : Z),
    post_appointments (Some user) body db = (r, db') ->
    status r = 201 ->
    exists ids valid a f,
      b_procedureIds body = Some ids
      /\ map p_id valid = ids
      /\ Forall (fun p => getProcedure (p_id p) db = Some p) valid
      /\ r = reply 201 (AppointmentJson (Some a))
      /\ appointments db' = appointments db ++ [a]
      /\ a_value a
         = JS.toString
             (JS.parseFloat (JS.toFixed2 (sum_prices valid (JS.Fin 0))))
      /\ financialRecords db' = financialRecords db ++ [f]
      /\ f_type f = "income"
      /\ f_appointmentId f = Some (a_id a)
      /\ f_value f = a_value a
      /\ (0 <= K ->
          200 * Z.of_nat (List.length valid) * 2 ^ K < 2 ^ 53 ->
          Forall cent_priced valid ->
          sum_in_cents valid <= 50 * 2 ^ K ->
          JS.toFixed2 (sum_prices valid (JS.Fin 0))
          = JS.Dec false (sum_in_cents valid) 2
          /\ same_decimal (JS.toFixed2 (sum_prices valid (JS.Fin 0)))
               (decimal_sum (map p_value valid))
          /\ same_decimal (a_value a) (decimal_sum (map p_value valid))
          /\ same_decimal (f_value f) (decimal_sum (map p_value valid))
          /\ a_value a
             = JS.toString
                 (JS.parseFloat (JS.Dec false (sum_in_cents valid) 2))
          /\ JS.parseFloat (a_value a)
             = JS.parseFloat (JS.Dec false (sum_in_cents valid) 2)).
Proof.
  intros user body db db' r K H Hs.
  destruct (post_appointments_201 _ _ _ _ _ H Hs)
    as (ids & total & valid & data & a & B & R & _ & Hr & Hv & _).
  destruct (post_appointments_201_rows _ _ _ _ _ H Hs)
    as (a' & valid' & f & Hr' & _ & _ & _ & _ & _ & Happ & _ & Hfin & Ef & _).
  rewrite Hr in Hr'. injection Hr' as <-.
  destruct (resolve_procedures_rows _ _ _ _ _ _ _ R)
    as (found & Hf & Hi & Hrows & Ht).
  simpl in Hf. subst found total.
  assert (Hfv : f_value f = a_value a).
  { rewrite Ef. cbn [f_value]. rewrite Hv. apply numeric_in_toString. }
  exists ids, valid, a, f.
  split; [exact B|]. split; [exact Hi|]. split; [exact Hrows|].
  split; [exact Hr|]. split; [exact Happ|]. split; [exact Hv|].
  split; [exact Hfin|]. split; [now rewrite Ef|]. split; [now rewrite Ef|].
  split; [exact Hfv|].
  intros HK0 Hn Hps Htot.
  assert (Ht : JS.toFixed2 (sum_prices valid (JS.Fin 0))
               = JS.Dec false (sum_in_cents valid) 2)
    by (apply (value_text_exact_cents K); assumption).
  pose proof (decimal_sum_in_cents valid Hps) as Hsum.
  pose proof (sum_in_cents_nonneg valid Hps) as Hnn.
  assert (Hstored : same_decimal (a_value a)
                      (JS.Dec false (sum_in_cents valid) 2)
                    /\ JS.parseFloat (a_value a)
                       = JS.parseFloat (JS.Dec false (sum_in_cents valid) 2)).
  { rewrite Hv, Ht.
    destruct valid as [|p ps].
    - split; [apply (toString_cents _ 0); cbn; lia|].
      apply (stored_cents_read_back _ 0); cbn; lia.
    - assert (HK : K < 46).
      { destruct (Z.lt_ge_cases K 46) as [|Hge]; [assumption|].
        assert (H46 : 2 ^ 46 <= 2 ^ K) by (apply Z.pow_le_mono_r; lia).
        assert (1 * 2 ^ K <= Z.of_nat (List.length (p :: ps)) * 2 ^ K).
        { apply Z.mul_le_mono_nonneg_r; [lia|]. cbn [List.length]. lia. }
        change (2 ^ 46) with 70368744177664 in H46.
        change (2 ^ 53) with 9007199254740992 in Hn. lia. }
      split; [apply (toString_cents _ K); lia|].
      apply (stored_cents_read_back _ K); lia. }
  destruct Hstored as [Hsame Hread].
  split; [exact Ht|].
  split; [rewrite Ht; apply (same_decimal_through _ _ (sum_in_cents valid));
          [cbn; reflexivity|exact Hsum]|].
  split; [exact (same_decimal_through _ _ _ Hsame Hsum)|].
  split; [rewrite Hfv; exact (same_decimal_through _ _ _ Hsame Hsum)|].
  split; [now rewrite Hv, Ht|exact Hread].
Qed.

Lemma conjoins_first chain : where_conjoins chain -> first_where_applies chain.
Proof.
  intros H A base extra x E. rewrite H in E.
  apply andb_prop in E. exact (proj1 E).
Qed.

Lemma filter_ext_perm {A : Type} (p q : A -> bool) l :
  (forall x, p x = q x) -> filter p l = filter q l.
Proof. intros H. apply filter_ext. exact H. Qed.

Lemma completed_count rows :
  length_Z (filter completed rows) = with_status "completed" rows.
Proof.
  unfold length_Z, with_status. f_equal.
  induction rows as [|a rows IH]; cbn [filter map count_occ]; [reflexivity|].
  unfold completed at 1.
  destruct (string_dec (a_status a) "completed") as [E|E].
  - rewrite E. cbn. now rewrite IH.
  - apply String.eqb_neq in E. rewrite E. exact IH.
Qed.

(** The appointments the dashboard counts for a window. *)
Lemma counted_appointments chain user startDate endDate db :
  is_admin user = true \/ (where_conjoins chain /\ u_id user <> 0) ->
  Permutation
    (getAppointmentsByDateRange chain (u_companyId user) startDate endDate
       (if is_admin user then None else Some (u_id user)) db)
    (filter (counted_for user startDate endDate) (appointments db)).
Proof.
  intros H. unfold getAppointmentsByDateRange.
  rewrite order_by_perm.
  match goal with
  | |- Permutation (filter ?p _) (filter ?q _) =>
    rewrite (filter_ext p q); [reflexivity|]
  end.
  intros a. unfold counted_for, in_range.
  destruct (is_admin user) eqn:Ad.
  - cbn. now rewrite andb_true_r.
  - destruct H as [H|[Hc Hu]]; [discriminate|].
    destruct (Z.eqb_spec (u_id user) 0) as [E|_]; [contradiction|].
    rewrite Hc. reflexivity.
Qed.



(** C7. The occupation rate of the dashboard is an integer from 0 to 100,
    nearest to [100 * completed / count] (either neighbour when that is
    half-way between two integers), and 0 when no appointment is in the
    window: never [NaN], never an error.  [count] is the number of
    appointments the handler fetched for the window and [completed] the
    number of those whose status is ['completed']; for an admin, and for
    another user with a query builder that keeps every condition, the
    fetched appointments are those of the company dated in the window that
    the user may see. *)
Theorem occupation_rate_is_nearest_percent :
  forall (chain : where_chain) (tz : LocalTime) (user : User)
         (timeFilter : option string) (now now1 now2 : timestamp) (db : DB),
    let w := window tz (effective_filter timeFilter) now in
    let counted :=
      getAppointmentsByDateRange chain (u_companyId user) (fst w) (snd w)
        (if is_admin user then None else Some (u_id user)) db in
    let n := length_Z counted in
    let c := with_status "completed" counted in
    n < 2 ^ 32 ->
    exists stats k,
      get_dashboard_stats chain tz (Some user) timeFilter now now1 now2 db
      = (reply 200 (StatsJson stats), db)
      /\ s_appointments stats = n
      /\ s_clientsServed stats = c
      /\ s_occupation stats = JS.Fin (k * JS.unit_den)
      /\ 0 <= k <= 100
      /\ (n = 0 -> k = 0)
      /\ (0 < n -> - n <= 2 * k * n - 200 * c <= n)
      /\ (is_admin user = true \/ (where_conjoins chain /\ u_id user <> 0) ->
          Permutation counted
            (filter (counted_for user (fst w) (snd w)) (appointments db))).
Proof.
  intros chain tz user timeFilter now now1 now2 db w counted n c Hn.
  destruct (occupationRate_percent counted Hn) as (k & Hk & Hr & H0 & Hnear).
  rewrite completed_count in Hnear. fold c in Hnear.
  unfold get_dashboard_stats. fold (effective_filter timeFilter). fold w.
  destruct w as [startDate endDate] eqn:W. cbn [fst snd] in *.
  replace (if negb (is_admin user) then Some (u_id user) else None)
    with (if is_admin user then None else Some (u_id user))
    by (destruct (is_admin user); reflexivity).
  fold counted.
  eexists. exists k. split; [reflexivity|].
  cbn [s_appointments s_clientsServed s_occupation].
  split; [reflexivity|]. split; [apply completed_count|].
  split; [exact Hk|]. split; [exact Hr|]. split; [exact H0|].
  split; [exact Hnear|].
  intros H. now apply counted_appointments.
Qed.


Import Sample.
Import Tour.

(** ** The value of a created appointment and the sum of the prices *)

(** C1 as stated fails.  A single procedure priced 1.005 gives the
    appointment the value 1, and a single procedure priced
    90071992547409.93 gives it the value 90071992547409.94: neither is the
    sum of the prices. *)
Lemma created_value_differs_from_exact_sum :
  (exists a,
      fst (post_appointments (Some ana) (booking [4] 1 2 Absent) empty_db)
      = reply 201 (AppointmentJson (Some a))
      /\ a_value a = Dec false 1 0
      /\ ~ same_decimal (a_value a) (decimal_sum [p_value amostra]))
  /\ (exists a,
      fst (post_appointments (Some ana) (booking [5] 1 2 Absent) empty_db)
      = reply 201 (AppointmentJson (Some a))
      /\ a_value a = Dec false 9007199254740994 2
      /\ ~ same_decimal (a_value a) (decimal_sum [p_value pacote])).
Proof.
  split; eexists; (split; [vm_compute; reflexivity|]);
    (split; [reflexivity|]); vm_compute; discriminate.
Qed.

(** C2 on the code.  Ana, of company 1, books Eva, a client of company 2,
    with Caio, a user of company 2: the request is answered 201 and the
    appointment, its junction row and its income record are stored. *)
Lemma create_accepts_foreign_client :
  let out :=
    post_appointments (Some ana) (booking [1] 2 3 Absent) empty_db in
  getClient 2 empty_db = Some (customer 2 "Eva" 2)
  /\ getUser 3 empty_db = Some caio
  /\ u_companyId ana = Some 1
  /\ status (fst out) = 201
  /\ map (fun a => (a_clientId a, a_collaboratorId a, a_companyId a))
       (appointments (snd out)) = [(2, 3, 1)]
  /\ map ap_appointmentId (appointmentProcedures (snd out)) = [1]
  /\ map f_appointmentId (financialRecords (snd out)) = [Some 1].
Proof. vm_compute. repeat split. Qed.

(** Half-way cases go either way: 29 completed appointments of 200 are
    14.5 percent, and the rate is 14; 1 of 8 is 12.5 percent, and the rate
    is 13. *)
Lemma occupation_rate_half_way :
  occupationRate busy_month = of_Z 14
  /\ occupationRate (skipn 28 (firstn 36 busy_month)) = of_Z 13.
Proof. split; vm_compute; reflexivity. Qed.

(** C10 as stated fails: with no record linked to appointment 7, the update
    that sets no column does not return, it throws. *)
Lemma empty_update_by_appointment_throws :
  existsb (linked 7) (financialRecords booked_db) = false
  /\ updateFinancialRecordByAppointment 7 empty_update booked_db
     = (Throw NoValuesToSet, booked_db).
Proof. split; vm_compute; reflexivity. Qed.

(** ** The theorems at work on the sample database *)

Lemma created_value_sums_cent_prices_witness :
  (let out :=
     post_appointments (Some ana) (booking [1; 2; 3] 1 2 Absent) empty_db in
   exists a f,
     fst out = reply 201 (AppointmentJson (Some a))
     /\ financialRecords (snd out) = [f]
     /\ a_value a = Dec false 654 1
     /\ f_value f = Dec false 654 1
     /\ same_decimal (a_value a)
          (decimal_sum [Dec false 1990 2; Dec false 3550 2;
                        Dec false 1000 2]))
  /\ (let out :=
        post_appointments (Some ana) (booking [1; 2; 3] 1 2 Absent)
          salon_db in
      exists a f,
        fst out = reply 201 (AppointmentJson (Some a))
        /\ financialRecords (snd out) = [f]
        /\ a_value a = Dec false 698 1
        /\ f_value f = Dec false 698 1
        /\ same_decimal (a_value a)
             (decimal_sum [Dec false 30 0; Dec false 199 1;
                           Dec false 1990 2])).
Proof.
  assert (Hw : forall db p1 p2 p3,
             getProcedure 1 db = Some p1 ->
             getProcedure 2 db = Some p2 ->
             getProcedure 3 db = Some p3 ->
             Forall cent_priced [p1; p2; p3] ->
             sum_in_cents [p1; p2; p3] <= 50 * 2 ^ 20 ->
             financialRecords db = [] ->
             let out :=
               post_appointments (Some ana) (booking [1; 2; 3] 1 2 Absent)
                 db in
             status (fst out) = 201 ->
             exists a f,
               fst out = reply 201 (AppointmentJson (Some a))
               /\ financialRecords (snd out) = [f]
               /\ a_value a
                  = toString
                      (parseFloat
                         (Dec false (sum_in_cents [p1; p2; p3]) 2))
               /\ f_value f = a_value a
               /\ same_decimal (a_value a)
                    (decimal_sum (map p_value [p1; p2; p3]))).
  { intros db p1 p2 p3 G1 G2 G3 Hc Hsum Hfr out H2.
    assert (H1 : post_appointments (Some ana) (booking [1; 2; 3] 1 2 Absent)
                   db = (fst out, snd out)) by apply surjective_pairing.
    destruct (created_value_sums_cent_prices _ _ _ _ _ 20 H1 H2)
      as (ids & valid & a & f & B & Hi & Hrows & Hr & _ & _ & Hfin & _ & _
          & Hfv & Hexact).
    injection B as <-.
    assert (Hvalid : valid = [p1; p2; p3]).
    { destruct valid as [|q1 [|q2 [|q3 [|q4 rest]]]]; try discriminate Hi.
      injection Hi as I1 I2 I3.
      inversion Hrows as [|? ? R1 Hrows1]; subst.
      inversion Hrows1 as [|? ? R2 Hrows2]; subst.
      inversion Hrows2 as [|? ? R3 _]; subst.
      rewrite I1, G1 in R1. rewrite I2, G2 in R2. rewrite I3, G3 in R3.
      injection R1 as <-. injection R2 as <-. injection R3 as <-.
      reflexivity. }
    subst valid.
    destruct Hexact as (_ & _ & Hsame & _ & Hv' & _).
    - lia.
    - vm_compute. reflexivity.
    - exact Hc.
    - exact Hsum.
    - exists a, f. rewrite Hfr in Hfin.
      repeat split; assumption. }
  split.
  - destruct (Hw empty_db corte barba sobrancelha eq_refl eq_refl eq_refl)
      as (a & f & Hr & Hfin & Hv & Hfv & Hsame).
    + repeat constructor; cbn; lia.
    + vm_compute. discriminate.
    + reflexivity.
    + vm_compute. reflexivity.
    + exists a, f. split; [exact Hr|]. split; [exact Hfin|].
      assert (Ev : a_value a = Dec false 654 1)
        by (rewrite Hv; vm_compute; reflexivity).
      split; [exact Ev|]. split; [now rewrite Hfv|exact Hsame].
  - destruct (Hw salon_db (service 1 "Manicure" 30 0 1)
                (service 2 "Pedicure" 199 1 1) (service 3 "Corte" 1990 2 1)
                eq_refl eq_refl eq_refl)
      as (a & f & Hr & Hfin & Hv & Hfv & Hsame).
    + repeat constructor; cbn; lia.
    + vm_compute. discriminate.
    + reflexivity.
    + vm_compute. reflexivity.
    + exists a, f. split; [exact Hr|]. split; [exact Hfin|].
      assert (Ev : a_value a = Dec false 698 1)
        by (rewrite Hv; vm_compute; reflexivity).
      split; [exact Ev|]. split; [now rewrite Hfv|exact Hsame].
Defined.

Lemma cross_tenant_access_denied_witness :
  getAppointment 1 booked_db <> None
  /\ denied (put_appointment (Some caio) 1 (booking [6] 2 3 Absent)
               1700000360000 booked_db) booked_db
  /\ denied (delete_appointment_route (Some caio) 1 booked_db) booked_db
  /\ denied (get_appointment_procedures (Some caio) 1 booked_db) booked_db
  /\ denied (get_client (Some caio) 1 booked_db) booked_db
  /\ denied (delete_procedure (Some caio) 1 booked_db) booked_db.
Proof.
  destruct (cross_tenant_access_denied caio booked_db) as (Ha & Hc & Hp).
  destruct (getAppointment 1 booked_db) as [a|] eqn:Ga;
    [|vm_compute in Ga; discriminate Ga].
  destruct (getClient 1 booked_db) as [c|] eqn:Gc;
    [|vm_compute in Gc; discriminate Gc].
  destruct (getProcedure 1 booked_db) as [p|] eqn:Gp;
    [|vm_compute in Gp; discriminate Gp].
  assert (Na : Some (a_companyId a) <> u_companyId caio).
  { vm_compute in Ga. injection Ga as <-. vm_compute. discriminate. }
  assert (Nc : Some (c_companyId c) <> u_companyId caio).
  { vm_compute in Gc. injection Gc as <-. vm_compute. discriminate. }
  assert (Np : Some (p_companyId p) <> u_companyId caio).
  { vm_compute in Gp. injection Gp as <-. vm_compute. discriminate. }
  destruct (Ha 1 a (booking [6] 2 3 Absent) 1700000360000 Ga Na)
    as (A1 & A2 & A3).
  destruct (Hc 1 c {| cb_name := None; cb_phone := None; cb_notes := Absent |}
              Gc Nc) as (C1 & _ & _).
  destruct (Hp 1 p {| pb_name := None; pb_value := None |} Gp Np)
    as (_ & P2).
  repeat split; try discriminate; try apply A1; try apply A2; try apply A3;
    try apply C1; try apply P2.
Defined.

Lemma financial_record_resynced_on_completion_witness :
  let out :=
    put_appointment (Some ana) 1 (booking [1; 2] 1 2 (Given "completed"))
      1700000360000 booked_db in
  status (fst out) = 200
  /\ map (fun f => (f_value f, f_date f)) (financialRecords booked_db)
     = [(Dec false 654 1, 1700000000000)]
  /\ map (fun f => (f_value f, f_date f)) (financialRecords (snd out))
     = [(Dec false 554 1, 1700000360000)]
  /\ exists existing stored,
      getAppointment 1 booked_db = Some existing
      /\ getAppointment 1 (snd out) = Some stored
      /\ a_status existing = "scheduled"
      /\ a_status stored = "completed"
      /\ financialRecords (snd out)
         = map (fun f => if linked 1 f
                         then with_value_date (a_value stored) 1700000360000 f
                         else f)
             (financialRecords booked_db).
Proof.
  intros out.
  assert (H1 : put_appointment (Some ana) 1
                 (booking [1; 2] 1 2 (Given "completed")) 1700000360000
                 booked_db = (fst out, snd out)) by apply surjective_pairing.
  assert (H2 : status (fst out) = 200) by (vm_compute; reflexivity).
  split; [exact H2|].
  split; [vm_compute; reflexivity|].
  split; [vm_compute; reflexivity|].
  destruct (financial_record_resynced_on_completion _ _ _ _ _ _ _ H1 H2)
    as (existing & stored & G & G' & Hsync & _).
  exists existing, stored.
  assert (Es : a_status existing = "scheduled")
    by (vm_compute in G; injection G as <-; reflexivity).
  assert (Et : a_status stored = "completed")
    by (vm_compute in G'; injection G' as <-; reflexivity).
  split; [exact G|]. split; [exact G'|]. split; [exact Es|].
  split; [exact Et|].
  apply Hsync. split; [exact Et|]. rewrite Es. discriminate.
Defined.

Lemma delete_removes_dependents_first_witness :
  let out := delete_appointment_route (Some ana) 1 booked_db in
  List.length (financialRecords booked_db) = 1%nat
  /\ List.length (appointmentProcedures booked_db) = 3%nat
  /\ fst out = reply 204 Empty
  /\ log (snd out)
     = log booked_db ++ [DeleteFinancialRecordRows 1;
                         DeleteAppointmentProcedureRows 1;
                         DeleteAppointmentRow 1]
  /\ financialRecords (snd out) = []
  /\ appointmentProcedures (snd out) = []
  /\ appointments (snd out) = []
  /\ status (fst (get_appointment_procedures (Some ana) 1 (snd out))) = 404.
Proof.
  intros out.
  destruct (getAppointment 1 booked_db) as [existing|] eqn:G;
    [|vm_compute in G; discriminate G].
  assert (C : Some (a_companyId existing) = u_companyId ana)
    by (vm_compute in G; injection G as <-; reflexivity).
  destruct (delete_removes_dependents_first ana 1 booked_db existing G C)
    as (Hr & Hl & Hf & Hp & Ha & _ & Hn).
  fold out in Hr, Hl, Hf, Hp, Ha, Hn.
  split; [vm_compute; reflexivity|]. split; [vm_compute; reflexivity|].
  split; [exact Hr|]. split; [exact Hl|].
  split; [rewrite Hf; vm_compute; reflexivity|].
  split; [rewrite Hp; vm_compute; reflexivity|].
  split; [rewrite Ha; vm_compute; reflexivity|].
  exact (proj1 (Hn ana (booking [1] 1 2 Absent) 0)).
Defined.

Lemma update_replaces_procedure_links_witness :
  let out :=
    put_appointment (Some ana) 1 (booking [3] 1 2 Absent) 1700000360000
      booked_db in
  status (fst out) = 200
  /\ map ap_procedureId
       (filter (of_appointment 1) (appointmentProcedures booked_db))
     = [1; 2; 3]
  /\ map ap_procedureId
       (filter (of_appointment 1) (appointmentProcedures (snd out)))
     = [3]
  /\ List.length (appointmentProcedures (snd out)) = 1%nat.
Proof.
  intros out.
  assert (H1 : put_appointment (Some ana) 1 (booking [3] 1 2 Absent)
                 1700000360000 booked_db = (fst out, snd out))
    by apply surjective_pairing.
  assert (H2 : status (fst out) = 200) by (vm_compute; reflexivity).
  split; [exact H2|]. split; [vm_compute; reflexivity|].
  destruct (update_replaces_procedure_links _ _ _ _ _ _ _ H1 H2)
    as (ids & valid & rest & B & _ & _ & Hm & _ & _).
  injection B as <-.
  split; [exact Hm|]. vm_compute. reflexivity.
Defined.

Lemma update_without_status_resets_it_witness :
  let out :=
    put_appointment (Some ana) 1 (booking [1; 2] 1 2 Absent) 1700000720000
      completed_db in
  option_map a_status (getAppointment 1 completed_db) = Some "completed"
  /\ status (fst out) = 200
  /\ exists stored,
      getAppointment 1 (snd out) = Some stored
      /\ fst out = reply 200 (AppointmentJson (Some stored))
      /\ a_status stored = "scheduled".
Proof.
  intros out.
  assert (H1 : put_appointment (Some ana) 1 (booking [1; 2] 1 2 Absent)
                 1700000720000 completed_db = (fst out, snd out))
    by apply surjective_pairing.
  assert (H2 : status (fst out) = 200) by (vm_compute; reflexivity).
  split; [vm_compute; reflexivity|]. split; [exact H2|].
  exact (update_without_status_resets_it _ _ _ _ _ _ _ H1 H2
           (or_introl eq_refl)).
Defined.


Lemma overwrite_applies_last : last_where_applies overwrite.
Proof. intros A base extra x H. exact H. Defined.

Lemma conjoin_conjoins : where_conjoins conjoin.
Proof. intros A base extra x. reflexivity. Defined.

Lemma occupation_rate_is_nearest_percent_witness :
  (exists stats,
      get_dashboard_stats conjoin utc (Some ana) (Some "week") 1700000360000
        1700000360000 1700000360000 week_db
      = (reply 200 (StatsJson stats), week_db)
      /\ s_appointments stats = 3
      /\ s_clientsServed stats = 1
      /\ s_occupation stats = Fin (33 * unit_den))
  /\ (exists stats,
        get_dashboard_stats conjoin utc (Some bia) (Some "week")
          1700000360000 1700000360000 1700000360000 week_db
        = (reply 200 (StatsJson stats), week_db)
        /\ s_appointments stats = 2
        /\ s_clientsServed stats = 1
        /\ s_occupation stats = Fin (50 * unit_den)
        /\ s_appointments stats
           = length_Z
               (filter
                  (counted_for bia
                     (fst (window utc (effective_filter (Some "week"))
                             1700000360000))
                     (snd (window utc (effective_filter (Some "week"))
                             1700000360000)))
                  (appointments week_db))).
Proof.
  assert (Hw : forall user total done,
             length_Z
               (getAppointmentsByDateRange conjoin (u_companyId user)
                  (fst (window utc (effective_filter (Some "week"))
                          1700000360000))
                  (snd (window utc (effective_filter (Some "week"))
                          1700000360000))
                  (if is_admin user then None else Some (u_id user))
                  week_db) = total ->
             with_status "completed"
               (getAppointmentsByDateRange conjoin (u_companyId user)
                  (fst (window utc (effective_filter (Some "week"))
                          1700000360000))
                  (snd (window utc (effective_filter (Some "week"))
                          1700000360000))
                  (if is_admin user then None else Some (u_id user))
                  week_db) = done ->
             0 < total < 2 ^ 32 ->
             u_id user <> 0 ->
             exists stats k,
               get_dashboard_stats conjoin utc (Some user) (Some "week")
                 1700000360000 1700000360000 1700000360000 week_db
               = (reply 200 (StatsJson stats), week_db)
               /\ s_appointments stats = total
               /\ s_clientsServed stats = done
               /\ s_occupation stats = Fin (k * unit_den)
               /\ - total <= 2 * k * total - 200 * done <= total
               /\ total
                  = length_Z
                      (filter
                         (counted_for user
                            (fst (window utc (effective_filter (Some "week"))
                                    1700000360000))
                            (snd (window utc (effective_filter (Some "week"))
                                    1700000360000)))
                         (appointments week_db))).
  { intros user total done En Ec Ht Hu.
    assert (Hn : length_Z
                   (getAppointmentsByDateRange conjoin (u_companyId user)
                      (fst (window utc (effective_filter (Some "week"))
                              1700000360000))
                      (snd (window utc (effective_filter (Some "week"))
                              1700000360000))
                      (if is_admin user then None else Some (u_id user))
                      week_db) < 2 ^ 32) by (rewrite En; apply Ht).
    destruct (occupation_rate_is_nearest_percent conjoin utc user
                (Some "week") 1700000360000 1700000360000 1700000360000
                week_db Hn)
      as (stats & k & Hs & Ha & Hc & Ho & _ & _ & Hnear & Hperm).
    specialize (Hperm (or_intror (conj conjoin_conjoins Hu))).
    apply Permutation_length in Hperm.
    rewrite En in Ha, Hnear. rewrite Ec in Hc, Hnear.
    exists stats, k. split; [exact Hs|]. split; [exact Ha|].
    split; [exact Hc|]. split; [exact Ho|].
    split; [apply Hnear; apply Ht|].
    rewrite <- En. unfold length_Z. now rewrite Hperm. }
  split.
  - destruct (Hw ana 3 1) as (stats & k & Hs & Ha & Hc & Ho & Hnear & _).
    + vm_compute. reflexivity.
    + vm_compute. reflexivity.
    + split; reflexivity.
    + discriminate.
    + assert (k = 33) by (clear - Hnear; lia). subst k.
      exists stats. split; [exact Hs|]. split; [exact Ha|].
      split; [exact Hc|exact Ho].
  - destruct (Hw bia 2 1) as (stats & k & Hs & Ha & Hc & Ho & Hnear & Hp).
    + vm_compute. reflexivity.
    + vm_compute. reflexivity.
    + split; reflexivity.
    + discriminate.
    + assert (k = 50) by (clear - Hnear; lia). subst k.
      exists stats. split; [exact Hs|]. split; [exact Ha|].
      split; [exact Hc|]. split; [exact Ho|].
      rewrite Ha. exact Hp.
Defined.


Lemma by_appointment_methods_total_witness :
  let u := resync (Dec false 100 2) 1700000360000 in
  map f_appointmentId (financialRecords twice_billed_db) = [Some 1; Some 1]
  /\ map f_value
       (financialRecords
          (snd (updateFinancialRecordByAppointment 1 u twice_billed_db)))
     = [Dec false 100 2; Dec false 100 2]
  /\ updateFinancialRecordByAppointment 7 u twice_billed_db
     = (Ok tt, logged (UpdateFinancialRecordRows 7) twice_billed_db)
  /\ updateFinancialRecordByAppointment 1 empty_update twice_billed_db
     = (Throw NoValuesToSet, twice_billed_db)
  /\ financialRecords
       (snd (deleteFinancialRecordByAppointment 7 twice_billed_db))
     = financialRecords twice_billed_db
  /\ financialRecords
       (snd (deleteFinancialRecordByAppointment 1 twice_billed_db))
     = []
  /\ fst (updateFinancialRecord 7 u twice_billed_db)
     = Throw (NotFound "Financial record" 7)
  /\ fst (deleteFinancialRecord 7 twice_billed_db)
     = Throw (NotFound "Financial record" 7).
Proof.
  intros u.
  assert (Hs : sets_nothing u = false) by reflexivity.
  assert (Hr : references_exist u twice_billed_db)
    by (split; intros ? E; discriminate E).
  assert (E7 : existsb (linked 7) (financialRecords twice_billed_db) = false)
    by (vm_compute; reflexivity).
  assert (I7 : existsb (fun f => f_id f =? 7)
                 (financialRecords twice_billed_db) = false)
    by (vm_compute; reflexivity).
  destruct (by_appointment_methods_total 1 u twice_billed_db)
    as ((_ & D1 & _) & _ & _ & U1 & _).
  destruct (by_appointment_methods_total 1 empty_update twice_billed_db)
    as (_ & N1 & _).
  destruct (by_appointment_methods_total 7 u twice_billed_db)
    as ((_ & _ & D7) & _ & U7 & _ & Hid).
  destruct (U1 Hs Hr) as [_ U1'].
  destruct (Hid 7 I7) as [Hd Hu].
  split; [vm_compute; reflexivity|].
  split; [rewrite U1'; vm_compute; reflexivity|].
  split; [exact (U7 Hs E7)|].
  split; [exact (N1 eq_refl)|].
  split; [exact (D7 E7)|].
  split; [rewrite D1; vm_compute; reflexivity|].
  split; [exact Hu|exact Hd].
Defined.

(** ** The properties at the two studios *)

Lemma studio_consistent : consistent studio.
Proof.
  unfold consistent, consistent_with, references_ok, unique_ok, serial.
  cbn.
  repeat match goal with
         | |- _ /\ _ => split
         | |- NoDup _ => constructor
         | |- Forall _ _ => constructor
         | |- ~ In _ _ => cbn; intuition discriminate
         | |- _ <= _ => cbn; lia
         | |- _ = true => reflexivity
         | |- refers _ _ _ => reflexivity
         end.
Qed.

Lemma unusable_procedure_lists_rejected_witness :
  post_appointments (Some ana) (booking [] 1 2 Absent) empty_db
  = (no_procedure, empty_db)
  /\ post_appointments (Some ana) (booking [6] 1 2 Absent) empty_db
     = (invalid_procedure, empty_db).
Proof.
  destruct (unusable_procedure_lists_rejected ana (booking [] 1 2 Absent)
              empty_db) as [H _].
  destruct (unusable_procedure_lists_rejected ana (booking [6] 1 2 Absent)
              empty_db) as [_ H'].
  split.
  - apply H. right. reflexivity.
  - apply (H' [6]); [reflexivity|discriminate|].
    intros Ho. inversion Ho as [|? ? (p & G & Hc) _].
    vm_compute in G. injection G as <-. discriminate Hc.
Defined.


Lemma hashed_password_verifies_witness :
  comparePasswords toy_scrypt "secret" (hashPassword toy_scrypt counting "secret")
  = Done true
  /\ toy_scrypt "secret" (toHex (counting 16%nat))
     = toy_scrypt "secret" (toHex (counting 16%nat)).
Proof.
  destruct (hashed_password_verifies toy_scrypt counting "secret" "secret")
    as (H1 & _ & H3).
  split; [exact H1|]. apply H3. vm_compute. reflexivity.
Defined.

Lemma invite_code_format_witness :
  String.length (generateInviteCode counting 8) = 8%nat
  /\ all_chars upper_hex (generateInviteCode counting 8) = true.
Proof. apply (invite_code_format counting 8). reflexivity. Defined.

Lemma requests_keep_database_consistent_witness :
  consistent studio
  /\ consistent (serve conjoin utc toy_scrypt day studio).
Proof.
  split; [exact studio_consistent|].
  apply requests_keep_database_consistent. exact studio_consistent.
Defined.

Lemma registration_outcomes_witness :
  (exists user company,
      fst signup = (send 201 (RegistrationJson user company), LogIn user)
      /\ u_role user = "admin"
      /\ u_companyId user = Some (co_id company)
      /\ users (tables (snd signup)) = users (tables studio) ++ [user])
  /\ snd (register_collaborator toy_scrypt "NOSUCHCODE" helper counting studio)
     = studio.
Proof.
  destruct (registration_outcomes toy_scrypt studio) as [Ha Hc].
  split.
  - destruct (Ha (Some "Studio C") newcomer counting counting) as [_ H].
    destruct H as (user & company & E & Hr & Hco & _ & _ & _ & _ & Hu);
      [vm_compute; reflexivity|].
    exists user, company. repeat split; assumption.
  - destruct (Hc "NOSUCHCODE" helper counting) as [H _].
    apply H. vm_compute. discriminate.
Defined.

Lemma registered_user_can_log_in_witness :
  exists user,
    login toy_scrypt (Some "duda@studio.example") (Some "secret")
      (tables (snd signup))
    = (send 200 (UserJson user), LogIn user)
    /\ login toy_scrypt (Some "duda@studio.example") (Some "sekret")
         (tables (snd signup))
       = (invalid_login, Keep).
Proof.
  destruct signup as [[a e] s'] eqn:E.
  assert (Ha : exists user company,
             (a, e) = (send 201 (RegistrationJson user company), LogIn user)).
  { unfold signup in E. vm_compute in E. injection E as <- <- _.
    eexists. eexists. reflexivity. }
  destruct Ha as (user & company & Ha). injection Ha as -> ->.
  exists user. cbn [snd].
  destruct (registered_user_can_log_in toy_scrypt studio s' newcomer counting
              "duda@studio.example" "secret" user company)
    as [H1 H2].
  - reflexivity.
  - reflexivity.
  - discriminate.
  - discriminate.
  - left. exists (Some "Studio C"), counting. exact E.
  - split; [exact H1|]. apply H2.
    + discriminate.
    + reflexivity.
    + vm_compute. discriminate.
Defined.

Lemma range_query_ordered_and_exact_witness :
  ascending a_date
    (getAppointmentsByDateRange conjoin (Some 1) 1700000000000 1700000000000
       None two_studios_db)
  /\ Forall (fun a => a_date a = 1700000000000)
       (getAppointmentsByDateRange conjoin (Some 1) 1700000000000
          1700000000000 None two_studios_db).
Proof.
  destruct (range_query_ordered_and_exact conjoin (Some 1) 1700000000000
              1700000000000 None two_studios_db) as (H1 & _ & _ & H4).
  split; [exact H1|]. apply H4; [reflexivity|now left].
Defined.

Lemma list_endpoints_return_own_company_witness :
  exists rows,
    get_appointments conjoin (Some ana)
      {| q_startDate := None; q_endDate := None; q_collaboratorId := None;
         q_clientId := Some (Some 1) |} two_studios_db
    = send 200 (AppointmentsJson rows)
    /\ descending a_date rows.
Proof.
  destruct (list_endpoints_return_own_company conjoin ana two_studios_db)
    as (_ & _ & _ & H & _).
  destruct (H {| q_startDate := None; q_endDate := None;
                 q_collaboratorId := None; q_clientId := Some (Some 1) |})
    as (rows & E & D & _); [reflexivity|].
  exists rows. split; assumption.
Defined.



Lemma referenced_rows_are_not_deleted_witness :
  delete_client (Some ana) 1 booked_db
  = (reply 500 (Message "Server error" None), booked_db)
  /\ fst (delete_procedure (Some ana) 4 booked_db) = reply 204 Empty.
Proof.
  destruct (referenced_rows_are_not_deleted ana 1 booked_db eq_refl)
    as [Hc _].
  destruct (referenced_rows_are_not_deleted ana 4 booked_db eq_refl)
    as [_ Hp].
  split.
  - specialize (Hc (customer 1 "Dora" 1) eq_refl eq_refl).
    cbv zeta in Hc.
    assert (E : existsb (fun a => a_clientId a =? 1) (appointments booked_db)
                = true) by (vm_compute; reflexivity).
    rewrite E in Hc. exact Hc.
  - specialize (Hp amostra eq_refl eq_refl).
    cbv zeta in Hp.
    assert (E : existsb (fun a => a_procedureId a =? 4)
                  (appointments booked_db)
                || existsb (fun ap => ap_procedureId ap =? 4)
                     (appointmentProcedures booked_db) = false)
      by (vm_compute; reflexivity).
    rewrite E in Hp. exact (proj1 Hp).
Defined.

Lemma stored_amounts_display_exactly_witness :
  toFixed2 (Number_ (Dec false 6540 2)) = Dec false 6540 2
  /\ toFixed2 (Number_ (toString (parseFloat (Dec false 6540 2))))
     = Dec false 6540 2.
Proof.
  apply stored_amounts_display_exactly.
  split; [lia|]. vm_compute. discriminate.
Defined.

Lemma revenue_exact_to_the_cent_witness :
  toFixed2 (sum_values takings) = Dec false 6540 2.
Proof.
  apply (revenue_exact_to_the_cent takings [1990; 3550; 1000]).
  - unfold takings. cbn [map].
    repeat constructor; cbn; lia.
  - vm_compute. discriminate.
  - vm_compute. discriminate.
Defined.

Lemma appointment_value_displays_exact_total_witness :
  exists a,
    fst (post_appointments (Some ana) (booking [1; 2; 3] 1 2 Absent) empty_db)
    = reply 201 (AppointmentJson (Some a))
    /\ toFixed2 (Number_ (a_value a)) = Dec false 6540 2.
Proof.
  destruct (appointment_value_displays_exact_total ana
              (booking [1; 2; 3] 1 2 Absent) empty_db booked_db
              (fst (post_appointments (Some ana)
                      (booking [1; 2; 3] 1 2 Absent) empty_db)))
    as (a & valid & Hr & Hb & Hg & H).
  - unfold booked_db. apply surjective_pairing.
  - vm_compute. reflexivity.
  - exists a. split; [exact Hr|].
    cbn in Hb. injection Hb as Hb.
    destruct valid as [|p1 [|p2 [|p3 [|p4 valid]]]]; try discriminate Hb.
    cbn in Hb. injection Hb as H1 H2 H3.
    inversion Hg as [|? ? G1 Hg1]; subst.
    inversion Hg1 as [|? ? G2 Hg2]; subst.
    inversion Hg2 as [|? ? G3 _]; subst.
    rewrite <- H1 in G1. rewrite <- H2 in G2. rewrite <- H3 in G3.
    vm_compute in G1, G2, G3.
    injection G1 as <-. injection G2 as <-. injection G3 as <-.
    destruct H as [Hd _].
    + repeat constructor; eexists; (split; [reflexivity|lia]).
    + vm_compute. discriminate.
    + vm_compute. discriminate.
    + exact Hd.
Defined.

Lemma rows_never_change_company_witness :
  same_tenant c_id c_companyId (clients (tables studio))
    (clients (tables (serve conjoin utc toy_scrypt day studio)))
  /\ same_tenant p_id p_companyId (procedures (tables studio))
       (procedures (tables (serve conjoin utc toy_scrypt day studio)))
  /\ same_tenant a_id a_companyId (appointments (tables studio))
       (appointments (tables (serve conjoin utc toy_scrypt day studio))).
Proof.
  apply (rows_never_change_company conjoin utc toy_scrypt day studio).
  exact studio_consistent.
Defined.

Lemma linked_procedures_stay_in_company_witness :
  appointmentProcedures (tables (serve conjoin utc toy_scrypt day studio))
  <> []
  /\ procedures_in_company (tables (serve conjoin utc toy_scrypt day studio)).
Proof.
  split; [vm_compute; discriminate|].
  apply linked_procedures_stay_in_company.
  - exact studio_consistent.
  - intros ap a p [].
Defined.

Lemma admin_only_writes_witness :
  handle conjoin utc toy_scrypt (Some 2) (DeleteClient 2) studio
  = ((basic admin_required, Keep), studio)
  /\ procedures
       (tables (snd (handle conjoin utc toy_scrypt (Some 2)
                       (PutAppointment 1 (booking [1] 1 2 Absent)
                          1700000360000)
                       (with_tables booked_db studio))))
     = procedures (tables (with_tables booked_db studio)).
Proof.
  assert (N1 : not_admin (Some 2) (tables studio)).
  { intros user H. vm_compute in H. injection H as <-. reflexivity. }
  assert (N2 : not_admin (Some 2) (tables (with_tables booked_db studio))).
  { intros user H. vm_compute in H. injection H as <-. reflexivity. }
  pose proof (admin_only_writes conjoin utc toy_scrypt (Some 2)
                (DeleteClient 2) studio N1) as K1.
  pose proof (admin_only_writes conjoin utc toy_scrypt (Some 2)
                (PutAppointment 1 (booking [1] 1 2 Absent) 1700000360000)
                (with_tables booked_db studio) N2) as K2.
  cbv zeta in K1, K2.
  destruct K1 as (K1 & _). destruct K2 as (_ & K2 & _).
  split; [apply K1; reflexivity|exact K2].
Defined.
